(* ===== verification/_CoqProject ===== *)
-Q . S2P
Prelude.v
External.v
Errors.v
Database.v
Toy.v
Sha2.v
Testing.v
AuditChain.v
AuditRepo.v
AuditSearch.v
Machines.v
Enrollment.v
AgentAuth.v
Registry.v
MachineAdmin.v
ClientContext.v
Authz.v
Providers.v
Keycloak.v
Certificates.v
JsonText.v
CaBundle.v
Repository.v
Generic.v
Bundle.v
BundleService.v
Golden.v
TestsMachines.v
TestsAudit.v
TestsBundle.v
TestsAgent.v
Rollout.v
Metrics.v
TestsFleet.v
AdminRoutes.v
Console.v
Config.v
CaRoutes.v
Migrations.v
TestsStartup.v
Startup.v
GithubClient.v
Paths.v
Router.v
System.v
Service.v
Interleave.v
Concurrent.v
Suspension.v
Boot.v
