(* ===== verification/Prelude.v ===== *)
(** * Mayfly server: a verification library

    Mayfly ([src/]) is a zero-trust SSH certificate authority and control plane, an
    [axum] server over SQLite.  Engineers authenticate with an identity provider and get
    short-lived OpenSSH user certificates; hosts enroll with a token, sign their
    requests, report heartbeats and download a signed bundle of CA keys; every
    security-relevant action is written to a hash-chained audit log.

    ** Parts of the program and where they are modelled

    The paths are under [src/src/].

    - Results, UTF-8 strings, machine integers, instants, sorting, the state and error
      monad, tactics and shared lemmas: this file.
    - Libraries the server calls ([sha2], [hex], [chrono], [serde_json], [base64],
      [ssh-key], [ed25519-dalek]): classes of [External.v], each with a class of the
      documented behaviour that proofs use.  [Toy.v] gives small computable instances,
      so the laws are consistent and witnesses can run the model; [Sha2.v] has SHA-256,
      hexadecimal and base64 as their standards define them.
    - [errors.rs]: [Errors.v].
    - The SQLite tables, statements, transactions and faults ([db/migrations]):
      [Database.v].
    - [audit/hash.rs], [model.rs], [verifier.rs]: [AuditChain.v]; [audit/repository.rs] and
      [service.rs]: [AuditRepo.v]; [audit/query.rs] and the search: [AuditSearch.v];
      [audit/context.rs]: [ClientContext.v].
    - [machines/models.rs], [token.rs], [validation.rs], [repository.rs]: [Machines.v];
      [machines/service.rs] and [errors.rs]: [Enrollment.v]; [machines/protocol.rs] and
      [routes/agent.rs]: [Registry.v]; [machines/admin.rs]: [MachineAdmin.v].
    - [agentauth/signing.rs], [nonce.rs], [middleware.rs]: [AgentAuth.v].
    - [authz/] and [AccessConfig] of [config.rs]: [Authz.v].
    - [auth/provider.rs], [registry.rs], [github.rs], [github/models.rs], [routes/auth.rs]:
      [Providers.v]; [auth/keycloak/]: [Keycloak.v]; [github/client.rs]: [GithubClient.v].
    - [ca/service.rs], [models.rs], [errors.rs], [routes/certificates.rs]: [Certificates.v].
    - The two JSON escapes as prefix codes: [JsonText.v]; [cabundle/]: [CaBundle.v];
      [bundle/models.rs], [canonical.rs], [signer.rs], [jitter.rs]: [Bundle.v];
      [bundle/service.rs] and [routes/ca_bundle.rs]: [BundleService.v].
    - [rollout/]: [Rollout.v]; [ops/metrics.rs] and [request_id.rs]: [Metrics.v].
    - [routes/admin_machines.rs], [machines.rs], [servers.rs] and the token route of
      [admin.rs]: [AdminRoutes.v]; the CA routes of [admin.rs]: [CaRoutes.v];
      [routes/ops.rs], [rollout.rs], [health.rs], [ready.rs] and [state.rs]: [Console.v].
    - [config.rs], [secret.rs], [environment.rs], [logging.rs], [main.rs]: [Config.v]; the
      signing key, the development certificate and TLS material on disk
      ([bundle/signer.rs], [dev_certs.rs], [tls.rs], [server.rs]): [Startup.v];
      [db/mod.rs] and the schema files: [Migrations.v].
    - Path templates, method routers, layers and dispatch as [axum] documents them:
      [Paths.v]; [routes/mod.rs] with every handler behind its extractors and the two
      middlewares and the request identifier around them: [Router.v].
    - The writes of the handlers together, as one step relation on the database whose steps
      are single statements and transactions: [System.v]; whole requests, from the wire to
      the answer, against it: [Service.v].
    - Programs with atomic actions, pools and schedules: [Interleave.v]; the handlers as such
      programs, cut at every [await], and what holds when they run at once: [Concurrent.v];
      machines out of service meanwhile: [Suspension.v].
    - [clock.rs], [state.rs], [main.rs], [server.rs]: [Boot.v].
    - The repository traits of [machines/repository.rs] and [cabundle/repository.rs], with
      the store they promise and its implementation over SQLite: [Repository.v]; the
      services of [machines/] and [cabundle/] as the code declares them, generic in their
      repositories: [Generic.v].
    - [golden_vectors.rs]: [Golden.v].  The unit tests of the modelled modules, run on the
      definitions: [Testing.v] (assertions), [TestsMachines.v], [TestsAudit.v],
      [TestsBundle.v], [TestsAgent.v], [TestsFleet.v], [TestsStartup.v].

    ** How the code is represented

    A struct is a record, an enum an inductive type, a function a Rocq function of the
    same name.  An [async fn] that touches the database is a computation of [M World E A]:
    it takes the world, returns [Ok] or [Err], and the world keeps whatever was written
    before an error, as in the program.  A [World] is the tables and a list of faults: each
    awaited database call consumes one entry and fails if it is [true].  Theorems that
    quantify over the world therefore cover every pattern of failing calls, and
    [no_faults] is the hypothesis that the database answers.  A transaction that does
    not commit restores the tables it began with.

    In the components a handler runs to its end before the next begins.  [Concurrent.v]
    writes the handlers that change machines, tokens or nonces, issue certificates or sign
    in once more as programs ([prog]): a program gives up control between any two database
    calls and around the nonce check, a pool of programs runs by an arbitrary schedule, and
    a program that is not scheduled again is a request that was dropped.  A statement, a
    transaction and an operation under a mutex are atomic, since SQLite serializes writers
    and a transaction that read an outdated snapshot fails when it writes.  Run alone, each
    program is proved equal to its handler.

    [frame] says what a computation may do to the tables whichever calls fail, and carries
    the proofs about handlers.  Schemas ([Migrations.v]) and files ([Startup.v]) have states
    and faults of their own; the CA manager of the CA routes is a record of operations over
    an arbitrary state beside the world ([Host]), so what is proved of the routes holds for
    any manager.

    What the code reads from its surroundings is an argument: the clock (one argument per
    reading), random bytes, UUIDs, the answers of an identity provider.  Instants are
    nanoseconds; the tables keep text, cut to milliseconds.  Integers are [Z] with the
    wrap-around written out where the code can overflow ([wrap_i64], [as_u32]); the
    rollout percentage is computed in binary64.  Strings are byte sequences with [chars]
    grouping the UTF-8 encoding, so that [trim], [is_control] and lengths mean what they
    mean in Rust.  Map types are [gmap] or lists in key order.  Every recursion
    of the code is structural here.  One definition takes fuel, [follow] of [Console.v], a
    client that pages through the audit stream; as many requests as there are matching
    entries are proved to be enough.

    The repository traits are classes.  What an implementation promises is a class of laws
    ([RepositoryLaws]) over an abstract store: maps of machines, tokens and CA keys, and a
    relation that says which answers a call may give and what it leaves.  A service is
    proved against the laws by the rules of [wp] and so over any implementation; [calm]
    says whether its database may fail.

    ** What is proved

    - Audit log: the verifier accepts exactly the good chains and names the first break;
      equal tips mean equal logs or a SHA-256 collision; an append keeps the chain under
      any faults and succeeds when the database answers; every log that appends produce
      verifies; a search page is the first matches in order, cursors resume exactly, and
      the prefix filter is literal up to ASCII case.
    - Enrollment: [enroll] implements the admission rule [verdict] on every branch; under
      faults it is all or nothing; a created token enrolls; a spent single-use token never
      enrolls again, whatever ran in between.
    - Agent requests: only fresh, signed, in-window requests of active machines are
      accepted, authentic ones are, the signed text determines the request, and a replay
      is possible at the two ends of the window only, where it does succeed.
    - Certificates: only an allowed identity gets one, for its own username, for at most
      an hour and with a log entry; what a key signs is exactly what was asked; denials are
      recorded.  Device-flow tokens are handed out on the record only.
    - Authorization: the decision is membership in an allowlist up to case, and skipping
      the memberships the policy does not mention does not change it.
    - Bundles: what the server signs verifies, what verifies was signed, fingerprints
      identify contents, acknowledgements and fleet counts are exact, retirement is
      reported safe exactly when no machine depends on the CA, jitter stays in range.
    - Operators: a change of a machine, token or CA succeeds only for a permitted caller and
      with its audit entry under his name, whichever calls fail; reads change nothing but
      the log of denials; a re-enrolled machine can come back with its token; no CA key is
      retired or deleted without force while a machine may depend on it; rotation only
      adds.
    - Console: following the audit stream yields every matching entry once and stops; search
      parameters and the result classification are exact; health, breakdown, explanation
      and history say exactly what the tables and the scanned entries hold; metrics are
      bounded and lose no request.
    - Start-up: a configuration is accepted exactly by its rules, and then the default
      provider resolves and production TLS uses the operator's files; any released schema
      is brought to the current one and no table with rows is lost; the signing key
      survives restarts.  [main] gives up before it touches what comes after the failing
      stage, and a process that serves has everything its handlers ask for.
    - Keycloak and GitHub: an accepted token was signed by a key of the realm with the pinned
      algorithm; key refreshes are rate limited once one succeeded; failures of GitHub are
      told apart exactly.
    - Machines: inserts read back, heartbeats touch telemetry only, a machine that is not
      active is refused by the middleware.
    - The whole server: from a freshly migrated database, through any handlers with any
      failing calls, the log verifies, machines and tokens keep unique keys and every
      row decodes.
    - Whole requests: behind every change stands a permitted operator, an authentic agent or
      an admissible token, by the area of the path; what a request does to the database
      is a sequence of steps of the system; every answer carries its identifier and every
      routed request is counted once; the paths of the table lead back to their handlers.
    - Requests at once: after every action of any schedule, with tasks dropped anywhere, the
      invariant holds and nothing recorded or spent is undone; a single-use token enrolls
      one machine; a reported change or certificate has an entry of its own in the log; a
      nonce is accepted once while the readings of the clock lie within its lifetime; a
      machine that is not active stays so until a task activates it, and its signed requests
      come to nothing.
    - Repositories: any sequence of calls over SQLite, with audit appends in between and any
      statements failing, is a history of the abstract store, and every call is answered
      when the database answers; over any repositories with the laws a single-use token is
      won once, enrollment, lifecycle changes, heartbeats, acknowledgements and listings
      keep their contracts, and without faults they report no database error.
    - Conformance: the definitions give, byte for byte, the protocol vectors the repository
      shares with its agent, and pass its unit tests; the property-based tests hold for all
      their inputs, those of the verifier for any libraries with the laws.

    Some of the examples beside the theorems show where the code departs from its comments:
    a change whose audit append fails stays ([failed_append_leaves_change]), a revoked
    machine can be approved ([approve_revives_revoked]), an interrupted migration is not
    repaired ([interrupted_file_skipped], [interrupted_file_blocks]), production with
    [tls.enabled = false] serves the development certificate
    ([production_dev_certificate]), a replay whose body is held back is accepted when its
    nonce has been purged ([stalled_replay_accepted]), an approval can be recorded with the
    status of a concurrent revocation ([approval_records_revoked]), a dropped request leaves
    a change without its entry ([dropped_revocation_unrecorded]), and an enrollment can slip
    in between the assessment of a CA and its retirement ([enrollment_races_retirement]).

    ** Not modelled

    [ca/manager.rs], [ca/store.rs] and [ca/admin.rs] are not in the sources; the CA manager
    is a parameter ([CaManager] in [BundleService.v], [CertificateAuthority] with its laws in
    [Certificates.v], [CaOperations] in [CaRoutes.v]; its operations are single actions in
    [Concurrent.v]).  Sockets, signals, HTTP framing, TLS records and the log subscriber are
    left out: they are calls to [hyper], [rustls] and [tracing].  Figment, rcgen, the
    extractors of [axum] and [serde], and the networks are parameters.  The read-only routes
    and the CA routes other than retirement are not cut into actions: they write nothing
    but audit entries and the manager's own tables, whose locking cannot be read here.
    Ed25519 stays a parameter, so the two golden vectors that check a signature are not
    recomputed; of the unit tests, those that drive HTTP clients, derived serializers,
    tracing or random key generation are left out. *)
From stdpp Require Export prelude gmap strings pretty sorting.
From Stdlib Require Export Ascii.

(** ** Results, as Rust's [Result<T, E>] *)
Inductive result (A E : Type) : Type :=
| Ok (a : A)
| Err (e : E).
Arguments Ok {A E} a.
Arguments Err {A E} e.

Definition is_ok {A E} (r : result A E) : bool :=
  match r with Ok _ => true | Err _ => false end.

Definition map_err {A E F} (f : E → F) (r : result A E) : result A F :=
  match r with Ok a => Ok a | Err e => Err (f e) end.

Definition map_ok {A B E} (f : A → B) (r : result A E) : result B E :=
  match r with Ok a => Ok (f a) | Err e => Err e end.

Definition ok_or {A E} (e : E) (o : option A) : result A E :=
  match o with Some a => Ok a | None => Err e end.

(** [Option<Result<T, E>>::transpose]. *)
Definition transpose {A E} (o : option (result A E)) : result (option A) E :=
  match o with
  | None => Ok None
  | Some (Ok a) => Ok (Some a)
  | Some (Err e) => Err e
  end.

(** [iter.collect::<Result<Vec<_>, _>>()]: the first error wins. *)
Fixpoint collect {A E} (l : list (result A E)) : result (list A) E :=
  match l with
  | [] => Ok []
  | Ok a :: l =>
      match collect l with Ok r => Ok (a :: r) | Err e => Err e end
  | Err e :: _ => Err e
  end.

Declare Scope result_scope.
Delimit Scope result_scope with res.
Notation "'let?' x ':=' m 'in' k" :=
  (match m with Ok x => k | Err e => Err e end)
  (at level 10, x name, m at level 100, k at level 200,
   format "'[v' 'let?'  x  ':='  m  'in' '/' k ']'") : result_scope.
Notation "'guard?' b 'else' e 'in' k" :=
  (if b then k else Err e)
  (at level 10, b at level 100, e at level 100, k at level 200,
   format "'[v' 'guard?'  b  'else'  e  'in' '/' k ']'") : result_scope.
Open Scope result_scope.

(** ** Bytes and strings

    A Rust [str] is its UTF-8 byte sequence: [string], one [ascii] per byte.
    A [char] is the byte sequence that encodes it; [chars] groups a lead byte
    with the continuation bytes that follow it. *)
Definition byte_code (c : ascii) : Z := Z.of_N (N_of_ascii c).

Definition byte_of (n : nat) : ascii := ascii_of_nat n.

Definition in_range (lo hi z : Z) : bool := (lo <=? z)%Z && (z <=? hi)%Z.

Definition is_ascii_digit (c : ascii) : bool := in_range 48 57 (byte_code c).
Definition is_ascii_upper (c : ascii) : bool := in_range 65 90 (byte_code c).
Definition is_ascii_lower (c : ascii) : bool := in_range 97 122 (byte_code c).
Definition is_ascii_alphanumeric (c : ascii) : bool :=
  is_ascii_digit c || is_ascii_upper c || is_ascii_lower c.

Definition byte_to_ascii_lowercase (c : ascii) : ascii :=
  if is_ascii_upper c then ascii_of_N (N_of_ascii c + 32) else c.

Fixpoint str_map (f : ascii → ascii) (s : string) : string :=
  match s with
  | EmptyString => EmptyString
  | String c s => String (f c) (str_map f s)
  end.

Definition to_ascii_lowercase (s : string) : string :=
  str_map byte_to_ascii_lowercase s.

(** [str::eq_ignore_ascii_case]. *)
Definition eq_ignore_ascii_case (a b : string) : bool :=
  bool_decide (to_ascii_lowercase a = to_ascii_lowercase b).

Fixpoint str_all (p : ascii → bool) (s : string) : bool :=
  match s with
  | EmptyString => true
  | String c s => p c && str_all p s
  end.

Fixpoint str_mem (c : ascii) (s : string) : bool :=
  match s with
  | EmptyString => false
  | String d s => bool_decide (c = d) || str_mem c s
  end.

Definition str_len (s : string) : Z := Z.of_nat (String.length s).
Definition str_is_empty (s : string) : bool := bool_decide (s = "").

Definition str_concat (l : list string) : string := foldr String.append "" l.

(** [str::as_bytes]. *)
Fixpoint as_bytes (s : string) : list Z :=
  match s with
  | EmptyString => []
  | String c s => byte_code c :: as_bytes s
  end.

Definition is_continuation (c : ascii) : bool := in_range 128 191 (byte_code c).

Fixpoint chars (s : string) : list string :=
  match s with
  | EmptyString => []
  | String c s =>
      match chars s with
      | String d h :: t =>
          if is_continuation d then String c (String d h) :: t
          else String c "" :: String d h :: t
      | l => String c "" :: l
      end
  end.

(** [char::is_control]: general category Cc, U+0000..U+001F and U+007F..U+009F. *)
Definition char_is_control (ch : string) : bool :=
  match ch with
  | String c "" => (byte_code c <? 32)%Z || (byte_code c =? 127)%Z
  | String c (String d "") => (byte_code c =? 194)%Z && in_range 128 159 (byte_code d)
  | _ => false
  end.

(** [char::is_whitespace]: the Unicode White_Space property, as encoded. *)
Definition char_is_whitespace (ch : string) : bool :=
  match as_bytes ch with
  | [b] => in_range 9 13 b || (b =? 32)%Z
  | [194; b]%Z => (b =? 133)%Z || (b =? 160)%Z
  | [225; 154; 128]%Z => true
  | [226; 128; b]%Z => in_range 128 138 b || (b =? 168)%Z || (b =? 169)%Z || (b =? 175)%Z
  | [226; 129; 159]%Z => true
  | [227; 128; 128]%Z => true
  | _ => false
  end.

Fixpoint drop_while {A} (p : A → bool) (l : list A) : list A :=
  match l with
  | [] => []
  | x :: l' => if p x then drop_while p l' else l
  end.

(** [str::trim]. *)
Definition trim (s : string) : string :=
  str_concat (reverse (drop_while char_is_whitespace
    (reverse (drop_while char_is_whitespace (chars s))))).

Definition has_control (s : string) : bool := existsb char_is_control (chars s).

(** [str::strip_prefix]. *)
Fixpoint strip_prefix (p s : string) : option string :=
  match p, s with
  | EmptyString, _ => Some s
  | String a p, String b s => if bool_decide (a = b) then strip_prefix p s else None
  | String _ _, EmptyString => None
  end.

(** [str::contains] on a substring. *)
Fixpoint str_contains (sub s : string) : bool :=
  match strip_prefix sub s with
  | Some _ => true
  | None => match s with EmptyString => false | String _ s => str_contains sub s end
  end.

(** [str::split] on an ASCII separator: always at least one piece. *)
Fixpoint split_on (sep : ascii) (s : string) : list string :=
  match s with
  | EmptyString => [""]
  | String c s =>
      if bool_decide (c = sep) then "" :: split_on sep s
      else match split_on sep s with
           | p :: ps => String c p :: ps
           | [] => [String c ""]
           end
  end.

(** [str::split_once] on an ASCII separator. *)
Fixpoint split_once (sep : ascii) (s : string) : option (string * string) :=
  match s with
  | EmptyString => None
  | String c s =>
      if bool_decide (c = sep) then Some ("", s)
      else match split_once sep s with
           | Some (a, b) => Some (String c a, b)
           | None => None
           end
  end.

Definition starts_with_byte (c : ascii) (s : string) : bool :=
  match s with EmptyString => false | String d _ => bool_decide (c = d) end.

Fixpoint ends_with_byte (c : ascii) (s : string) : bool :=
  match s with
  | EmptyString => false
  | String d EmptyString => bool_decide (c = d)
  | String _ s => ends_with_byte c s
  end.

(** Byte-wise lexicographic order: [Ord] on [str] and SQLite's BINARY collation. *)
Definition str_leb (a b : string) : bool :=
  match String.compare a b with Gt => false | _ => true end.

(** [Formatter::debug_struct(name).field(..).finish()], on one line; the values are
    rendered. *)
Definition debug_struct (name : string) (fields : list (string * string)) : string :=
  match fields with
  | [] => name
  | _ => name +:+ " { " +:+
         String.concat ", " ((λ f, f.1 +:+ ": " +:+ f.2) <$> fields) +:+ " }"
  end.

(** Constants that cannot be written as a literal. *)
Definition dquote : ascii := byte_of 34.
Definition newline : ascii := byte_of 10.
Definition quoted (s : string) : string := String dquote (s +:+ String dquote "").

(** Lowercase hexadecimal digit. *)
Definition hex_digit (n : Z) : ascii :=
  if (n <? 10)%Z then byte_of (Z.to_nat (48 + n)) else byte_of (Z.to_nat (87 + n)).

(** [format!("{}", n)] on an integer. *)
Definition display_int (z : Z) : string := pretty z.

(** ** Machine integers *)
Definition i64_min : Z := (-9223372036854775808)%Z.
Definition i64_max : Z := 9223372036854775807%Z.
Definition u32_max : Z := 4294967295%Z.
Definition is_i64 (z : Z) : bool := in_range i64_min i64_max z.

(** Two's complement wrap-around to 64 bits. *)
Definition wrap_i64 (z : Z) : Z :=
  ((z + 9223372036854775808) mod 18446744073709551616 - 9223372036854775808)%Z.

(** [str::parse::<i64>]: an optional sign, then decimal digits in range. *)
Fixpoint parse_digits (acc : Z) (s : string) : option Z :=
  match s with
  | EmptyString => Some acc
  | String c s =>
      if is_ascii_digit c then parse_digits (acc * 10 + (byte_code c - 48)) s else None
  end.
Definition parse_i64 (s : string) : option Z :=
  let digits (sign : Z) (s : string) :=
    if str_is_empty s then None
    else z ← parse_digits 0 s; let z := (sign * z)%Z in if is_i64 z then Some z else None in
  match s with
  | String c s' =>
      if bool_decide (c = "-"%char) then digits (-1)%Z s'
      else if bool_decide (c = "+"%char) then digits 1%Z s'
      else digits 1%Z s
  | EmptyString => None
  end.

(** [as u32]. *)
Definition as_u32 (z : Z) : Z := (z mod 4294967296)%Z.

(** [u32::saturating_mul]. *)
Definition saturating_mul_u32 (a b : Z) : Z := Z.min u32_max (a * b).

(** ** Time

    [chrono::DateTime<Utc>] is an instant in nanoseconds since the Unix epoch. *)
Definition nanos_per_sec : Z := 1000000000%Z.
Definition nanos_per_milli : Z := 1000000%Z.
Definition seconds (n : Z) : Z := (n * nanos_per_sec)%Z.

(** [DateTime::timestamp]: whole seconds, rounded down. *)
Definition timestamp (t : Z) : Z := (t `div` nanos_per_sec)%Z.

(** [TimeDelta::num_seconds]: whole seconds, rounded towards zero. *)
Definition num_seconds (d : Z) : Z := Z.quot d nanos_per_sec.

(** What survives a rendering with [SecondsFormat::Millis]/[Secs]. *)
Definition trunc_millis (t : Z) : Z := (t `div` nanos_per_milli * nanos_per_milli)%Z.
Definition trunc_secs (t : Z) : Z := (t `div` nanos_per_sec * nanos_per_sec)%Z.

(** Instants that RFC 3339 can write: years 0000 to 9999. *)
Definition rfc3339_range (t : Z) : bool :=
  in_range (seconds (-62167219200)) (seconds 253402300800 - 1) t.

(** [match s { "a" => x, .., _ => d }] with many arms. *)
Definition match_str {A} (s : string) (arms : list (string * A)) (d : A) : A :=
  foldr (λ arm rest, if bool_decide (s = arm.1) then arm.2 else rest) d arms.

(** ** Stable sorting, [slice::sort_by] *)
Section sort.
Context {A : Type} (leb : A → A → bool).

Fixpoint insert_by (x : A) (l : list A) : list A :=
  match l with
  | [] => [x]
  | y :: l' => if leb x y then x :: l else y :: insert_by x l'
  end.

Definition sort_by (l : list A) : list A := foldr insert_by [] l.
End sort.

(** The constant-time comparison folds the XOR of each pair of bytes. *)
Definition xor_fold (a b : list Z) (acc : Z) : Z :=
  foldl (λ acc p, Z.lor acc (Z.lxor p.1 p.2)) acc (zip a b).

(** ** State and errors

    A fallible computation over a state [S]: what an [async fn] that touches
    the database and returns [Result] denotes.  On [Err] the state still
    carries the effects made before the error. *)
Definition M (S E A : Type) : Type := S → result A E * S.

Definition ret {S E A} (a : A) : M S E A := λ s, (Ok a, s).
Global Instance M_bind S E : MBind (M S E) := λ A B f m s,
  match m s with
  | (Ok a, s') => f a s'
  | (Err e, s') => (Err e, s')
  end.

Definition throw {S E A} (e : E) : M S E A := λ s, (Err e, s).
Definition lift {S E A} (r : result A E) : M S E A := λ s, (r, s).
Definition gets {S E A} (f : S → A) : M S E A := λ s, (Ok (f s), s).
Definition modify {S E} (f : S → S) : M S E unit := λ s, (Ok tt, f s).
(** [.map_err(f)] and [?] with a [From] conversion. *)
Definition with_err {S E F A} (f : E → F) (m : M S E A) : M S F A :=
  λ s, match m s with
       | (Ok a, s') => (Ok a, s')
       | (Err e, s') => (Err (f e), s')
       end.
(** Early return of an error when a condition fails. *)
Definition ensure {S E} (b : bool) (e : E) : M S E unit :=
  if b then ret tt else throw e.

(** ** Automation *)
Create HintDb mayfly discriminated.
Create Rewrite HintDb mayfly_rw.

(** Case analysis on the innermost scrutinee of the goal or of a hypothesis,
    then clean up. *)
Ltac case_once :=
  match goal with
  | H : context [match ?x with _ => _ end] |- _ =>
      lazymatch x with context [match _ with _ => _ end] => fail | _ => idtac end;
      destruct x eqn:?; simplify_eq/=
  | |- context [match ?x with _ => _ end] =>
      lazymatch x with context [match _ with _ => _ end] => fail | _ => idtac end;
      destruct x eqn:?; simplify_eq/=
  end.
Ltac cases := repeat case_once.

(** Turn boolean hypotheses into propositions. *)
Ltac bool_prop :=
  repeat match goal with
  | H : (_ && _)%bool = true |- _ => apply andb_true_iff in H as [? ?]
  | H : (_ || _)%bool = false |- _ => apply orb_false_iff in H as [? ?]
  | H : negb _ = true |- _ => apply negb_true_iff in H
  | H : negb _ = false |- _ => apply negb_false_iff in H
  | H : (_ <=? _)%Z = true |- _ => apply Z.leb_le in H
  | H : (_ <=? _)%Z = false |- _ => apply Z.leb_gt in H
  | H : (_ <? _)%Z = true |- _ => apply Z.ltb_lt in H
  | H : (_ <? _)%Z = false |- _ => apply Z.ltb_ge in H
  | H : (_ =? _)%Z = true |- _ => apply Z.eqb_eq in H
  | H : (_ =? _)%Z = false |- _ => apply Z.eqb_neq in H
  | H : bool_decide _ = true |- _ => apply bool_decide_eq_true in H
  | H : bool_decide _ = false |- _ => apply bool_decide_eq_false in H
  end.

(** ** Lemmas on strings *)
Lemma app_String c s t : String c s +:+ t = String c (s +:+ t).
Proof. done. Qed.
Lemma app_nil_string s : "" +:+ s = s.
Proof. done. Qed.
Lemma app_string_nil s : s +:+ "" = s.
Proof. induction s; [done|]. rewrite app_String. by f_equal. Qed.
Lemma app_string_assoc s t u : (s +:+ t) +:+ u = s +:+ (t +:+ u).
Proof. induction s; [done|]. rewrite !app_String. by f_equal. Qed.
Lemma length_string_app s t : String.length (s +:+ t) = String.length s + String.length t.
Proof. induction s; [done|]. rewrite app_String. simpl. lia. Qed.
Lemma app_string_inj_l s t u : s +:+ t = s +:+ u → t = u.
Proof. induction s; [done|]. rewrite !app_String. intros [=]. auto. Qed.

#[export] Hint Rewrite app_String app_nil_string app_string_nil app_string_assoc : mayfly_rw.

(** Two concatenations agree piecewise when the pieces have equal lengths. *)
Lemma app_string_inj_len s1 s2 t1 t2 :
  String.length s1 = String.length s2 → s1 +:+ t1 = s2 +:+ t2 → s1 = s2 ∧ t1 = t2.
Proof.
  revert s2. induction s1 as [|c s1 IH]; intros [|d s2] Hlen Heq; simpl in Hlen; try done.
  - rewrite !app_String in Heq. injection Heq as -> Heq.
    destruct (IH s2) as [-> ->]; [lia|done|done].
Qed.

Lemma app_string_inj_len_r s1 s2 t1 t2 :
  String.length t1 = String.length t2 → s1 +:+ t1 = s2 +:+ t2 → s1 = s2 ∧ t1 = t2.
Proof.
  intros Hlen Heq. apply app_string_inj_len; [|done].
  apply (f_equal String.length) in Heq. rewrite !length_string_app in Heq. lia.
Qed.

Lemma str_mem_app c s t : str_mem c (s +:+ t) = str_mem c s || str_mem c t.
Proof.
  induction s as [|d s IH]; [done|]. rewrite app_String. simpl. rewrite IH.
  by rewrite orb_assoc.
Qed.

(** A field that does not contain the separator is recovered from the text. *)
Lemma separator_inj c s1 s2 t1 t2 :
  str_mem c s1 = false → str_mem c s2 = false →
  s1 +:+ String c t1 = s2 +:+ String c t2 → s1 = s2 ∧ t1 = t2.
Proof.
  revert s2. induction s1 as [|d s1 IH]; intros [|e s2] H1 H2 Heq;
    rewrite ?app_String, ?app_nil_string in Heq; simpl in *; simplify_eq.
  - done.
  - rewrite bool_decide_true in H2 by done. done.
  - rewrite bool_decide_true in H1 by done. done.
  - bool_prop. by destruct (IH s2) as [-> ->].
Qed.

Lemma str_all_impl (p q : ascii → bool) s :
  (∀ c, p c = true → q c = true) → str_all p s = true → str_all q s = true.
Proof.
  intros Hpq. induction s as [|c s IH]; simpl; [done|]. intros Hs. bool_prop.
  by rewrite Hpq, IH.
Qed.

Lemma strip_prefix_app p s : strip_prefix p (p +:+ s) = Some s.
Proof.
  induction p as [|c p IH]; [done|]. rewrite app_String. simpl.
  by rewrite bool_decide_true.
Qed.

Lemma str_concat_app l1 l2 : str_concat (l1 ++ l2) = str_concat l1 +:+ str_concat l2.
Proof. induction l1; simpl; [done|]. rewrite app_string_assoc. by f_equal. Qed.

Lemma str_concat_chars s : str_concat (chars s) = s.
Proof.
  induction s as [|c s IH]; [done|]. simpl. rewrite <-IH at 2.
  destruct (chars s) as [|[|d h] t]; simpl; autorewrite with mayfly_rw; try done.
  case_match; simpl; by autorewrite with mayfly_rw.
Qed.

(** On ASCII text characters are bytes. *)
Fixpoint bytes_of (s : string) : list ascii :=
  match s with EmptyString => [] | String c s => c :: bytes_of s end.

Lemma chars_ascii s :
  str_all (λ c, byte_code c <? 128)%Z s = true → chars s = (λ c, String c "") <$> bytes_of s.
Proof.
  induction s as [|c s IH]; [done|]. simpl. intros Hs. bool_prop. rewrite IH by done.
  destruct s as [|d s]; [done|]. csimpl in *. bool_prop.
  assert (is_continuation d = false) as ->; [|done].
  unfold is_continuation, in_range. apply andb_false_iff. left. apply Z.leb_gt. lia.
Qed.

Lemma str_concat_bytes s : str_concat ((λ c, String c "") <$> bytes_of s) = s.
Proof. induction s as [|c s IH]; [done|]. csimpl. by rewrite IH. Qed.

Lemma bytes_of_app s t : bytes_of (s +:+ t) = bytes_of s ++ bytes_of t.
Proof. induction s as [|c s IH]; [done|]. rewrite app_String. simpl. by rewrite IH. Qed.

Lemma str_all_app p s t : str_all p (s +:+ t) = str_all p s && str_all p t.
Proof.
  induction s as [|c s IH]; [done|]. rewrite app_String. simpl. by rewrite IH, andb_assoc.
Qed.

Lemma str_all_bytes p s c : str_all p s = true → c ∈ bytes_of s → p c = true.
Proof. induction s as [|d s IH]; simpl; [set_solver|]. intros Hs. bool_prop. set_solver. Qed.

(** Nothing is dropped from a list whose ends do not satisfy the condition. *)
Lemma drop_while_ends {A} (p : A → bool) x l y :
  p x = false → p y = false →
  reverse (drop_while p (reverse (drop_while p (x :: l ++ [y])))) = x :: l ++ [y].
Proof.
  intros Hx Hy. simpl. rewrite Hx, reverse_cons, reverse_snoc. simpl. rewrite Hy.
  rewrite reverse_cons, reverse_app, reverse_involutive. by simplify_list_eq.
Qed.

Lemma drop_while_all {A} (p : A → bool) l :
  (∀ x, x ∈ l → p x = false) → drop_while p l = l.
Proof. destruct l as [|x l]; [done|]. intros Hp. simpl. by rewrite Hp by set_solver. Qed.

Lemma split_on_none c s : str_mem c s = false → split_on c s = [s].
Proof.
  induction s as [|d s IH]; [done|]. simpl. intros Hm. bool_prop.
  rewrite bool_decide_false by congruence. by rewrite IH.
Qed.

Lemma eq_ignore_ascii_case_true a b :
  eq_ignore_ascii_case a b = true ↔ to_ascii_lowercase a = to_ascii_lowercase b.
Proof. apply bool_decide_eq_true. Qed.

Lemma str_leb_le a b : str_leb a b = true ↔ String.le a b.
Proof.
  unfold str_leb, String.le, String.leb.
  destruct (String.compare a b); split; (done || intros []).
Qed.

Lemma str_leb_refl s : str_leb s s = true.
Proof. by apply str_leb_le. Qed.
Lemma str_leb_antisym a b : str_leb a b = true → str_leb b a = true → a = b.
Proof. rewrite !str_leb_le. apply (anti_symm String.le). Qed.
Lemma str_leb_trans a b c : str_leb a b = true → str_leb b c = true → str_leb a c = true.
Proof. rewrite !str_leb_le. intros. by etrans. Qed.
Lemma str_leb_total a b : str_leb a b = true ∨ str_leb b a = true.
Proof. rewrite !str_leb_le. apply (total String.le). Qed.

(** ** Lemmas on lists *)
Section sort_lemmas.
Context {A : Type} (leb : A → A → bool).

Lemma insert_by_perm x l : insert_by leb x l ≡ₚ x :: l.
Proof.
  induction l as [|y l IH]; simpl; [done|]. case_match; [done|].
  rewrite IH. by constructor.
Qed.

Lemma sort_by_perm l : sort_by leb l ≡ₚ l.
Proof. induction l as [|x l IH]; simpl; [done|]. by rewrite insert_by_perm, IH. Qed.

Lemma length_sort_by l : length (sort_by leb l) = length l.
Proof. by rewrite sort_by_perm. Qed.

Lemma insert_by_snoc x l : (∀ y, y ∈ l → leb x y = false) → insert_by leb x l = l ++ [x].
Proof.
  induction l as [|y l IH]; intros Hx; simpl; [done|].
  rewrite Hx by set_solver. f_equal. apply IH. set_solver.
Qed.

Lemma sort_by_id l : StronglySorted (λ x y, leb x y = true) l → sort_by leb l = l.
Proof.
  induction 1 as [|x l Hl IH Hx]; simpl; [done|]. rewrite IH.
  destruct l as [|y l]; simpl; [done|]. inversion Hx as [|?? Hxy _]. by rewrite Hxy.
Qed.

Lemma sort_by_reverse l : StronglySorted (λ x y, leb x y = false) l → sort_by leb l = reverse l.
Proof.
  induction 1 as [|x l Hl IH Hx]; simpl; [done|]. rewrite IH, reverse_cons.
  apply insert_by_snoc. intros y Hy. rewrite elem_of_reverse in Hy.
  rewrite Forall_forall in Hx. auto.
Qed.

Context (leb_total : ∀ x y, leb x y = true ∨ leb y x = true).
Context (leb_trans : ∀ x y z, leb x y = true → leb y z = true → leb x z = true).

Abbreviation Rleb := (λ x y, leb x y = true).

Lemma insert_by_sorted x l :
  StronglySorted Rleb l → StronglySorted Rleb (insert_by leb x l).
Proof using leb_total leb_trans.
  induction 1 as [|y l Hl IH Hy]; simpl; [by repeat constructor|].
  destruct (leb x y) eqn:Hxy.
  - constructor; [by constructor|]. constructor; [done|].
    eapply Forall_impl; [done|]. simpl. eauto.
  - constructor; [done|]. rewrite insert_by_perm. constructor; [|done].
    destruct (leb_total x y); congruence.
Qed.

Lemma sort_by_sorted l : StronglySorted Rleb (sort_by leb l).
Proof using leb_total leb_trans.
  induction l; simpl; [constructor|]. by apply insert_by_sorted.
Qed.

(** Sorting by an antisymmetric order forgets the order of the input. *)
Lemma sort_by_unique l l' :
  (∀ x y, leb x y = true → leb y x = true → x = y) → l ≡ₚ l' → sort_by leb l = sort_by leb l'.
Proof using leb_total leb_trans.
  intros Ha Hp. assert (AntiSymm (=) Rleb) as Hanti by exact Ha.
  apply (StronglySorted_unique Rleb); [by apply sort_by_sorted..|]. by rewrite !sort_by_perm.
Qed.
End sort_lemmas.

(** Rows looked up by a key column. *)
Lemma existsb_key {A B} `{EqDecision B} (f : A → B) (k : B) l :
  existsb (λ x, bool_decide (f x = k)) l = false ↔ k ∉ f <$> l.
Proof.
  induction l as [|x l IH]; csimpl; [set_solver|].
  rewrite orb_false_iff, bool_decide_eq_false, IH. set_solver.
Qed.

Lemma find_key {A B} `{EqDecision B} (f : A → B) (k : B) l x :
  NoDup (f <$> l) →
  find (λ x, bool_decide (f x = k)) l = Some x ↔ x ∈ l ∧ f x = k.
Proof.
  induction l as [|y l IH]; csimpl; [set_solver|].
  intros [Hy Hl]%NoDup_cons. case_bool_decide as Hk.
  - split; [intros [= <-]; set_solver|]. intros [[->|Hx]%elem_of_cons Hfx]; [done|].
    destruct Hy. apply list_elem_of_fmap. exists x. by rewrite Hfx.
  - rewrite IH by done. set_solver.
Qed.

Lemma find_key_none {A B} `{EqDecision B} (f : A → B) (k : B) l :
  find (λ x, bool_decide (f x = k)) l = None ↔ k ∉ f <$> l.
Proof.
  induction l as [|y l IH]; csimpl; [set_solver|].
  case_bool_decide; [set_solver|]. rewrite IH. set_solver.
Qed.

(** Only the row with the key can pass a condition on the key. *)
Lemma filter_key {A B} `{EqDecision B} (f : A → B) (k : B) (q : A → bool) l x :
  NoDup (f <$> l) → x ∈ l → f x = k → q x = true →
  List.filter (λ y, bool_decide (f y = k) && q y) l = [x].
Proof.
  intros Hnd Hx Hfx Hq.
  induction l as [|y l IH]; csimpl in *; [set_solver|].
  apply NoDup_cons in Hnd as [Hy Hl]. apply elem_of_cons in Hx as [<-|Hx].
  - rewrite bool_decide_true, Hq by done. simpl. f_equal.
    clear IH Hl. induction l as [|z l IH]; csimpl in *; [done|].
    rewrite bool_decide_false by set_solver. apply IH. set_solver.
  - rewrite bool_decide_false; [by apply IH|]. intros Hyk. apply Hy.
    apply list_elem_of_fmap. exists x. by rewrite Hyk.
Qed.

(** Removing a row frees its keys; a key nobody had stays free. *)
Lemma filter_frees {A B C} `{EqDecision B, EqDecision C} (f : A → B) (g : A → C) l x :
  NoDup (g <$> l) → x ∈ l →
  g x ∉ g <$> List.filter (λ y, negb (bool_decide (f y = f x))) l.
Proof.
  intros Hnd Hx (y & Hg & [Hy Hf]%list_elem_of_In%filter_In)%list_elem_of_fmap.
  apply list_elem_of_In in Hy.
  assert (x = y) as ->; [|by rewrite bool_decide_true in Hf].
  assert (∀ z, z ∈ l → g z = g x → find (λ z, bool_decide (g z = g x)) l = Some z) as Hfind
    by (intros; by apply find_key).
  pose proof (Hfind x Hx eq_refl) as H1. rewrite (Hfind y Hy (eq_sym Hg)) in H1. by injection H1.
Qed.

Lemma filter_stays_free {A B} (g : A → B) (p : A → bool) l k :
  k ∉ g <$> l → k ∉ g <$> List.filter p l.
Proof.
  intros Hk (y & -> & [Hy _]%list_elem_of_In%filter_In)%list_elem_of_fmap. apply Hk.
  apply list_elem_of_fmap. exists y. by rewrite list_elem_of_In.
Qed.

(** Sorted lists. *)
Lemma sorted_impl {A} (P Q : A → A → Prop) l :
  (∀ x y, P x y → Q x y) → StronglySorted P l → StronglySorted Q l.
Proof.
  intros HPQ. induction 1; constructor; [done|]. eapply Forall_impl; naive_solver.
Qed.

Lemma sorted_fmap {A B} (f : A → B) (R : B → B → Prop) l :
  StronglySorted (λ a b, R (f a) (f b)) l → StronglySorted R (f <$> l).
Proof.
  induction 1 as [|x l Hl IH Hx]; csimpl; constructor; [done|]. by apply Forall_fmap.
Qed.

Lemma take_sorted {A} (R : A → A → Prop) n l : StronglySorted R l → StronglySorted R (take n l).
Proof.
  intros Hs. revert n. induction Hs as [|x l _ IH Hx]; intros [|n]; simpl; constructor; [done|].
  by apply Forall_take.
Qed.

Lemma NoDup_app_snoc {A} (l : list A) x : NoDup l → x ∉ l → NoDup (l ++ [x]).
Proof. intros Hl Hx. apply NoDup_app. split_and!; [done|set_solver|apply NoDup_singleton]. Qed.

Lemma filter_sublist {A} (p : A → bool) l : List.filter p l `sublist_of` l.
Proof. induction l as [|x l IH]; simpl; [done|]. destruct (p x); by constructor. Qed.

Lemma collect_map_ok {A B E} (f : A → result B E) (g : A → B) l :
  (∀ x, x ∈ l → f x = Ok (g x)) → collect (f <$> l) = Ok (g <$> l).
Proof.
  induction l as [|x l IH]; intros Hf; csimpl; [done|].
  rewrite Hf by set_solver. rewrite IH; [done|]. set_solver.
Qed.

Lemma collect_ok_Forall2 {A B E} (f : A → result B E) l r :
  collect (f <$> l) = Ok r ↔ Forall2 (λ x y, f x = Ok y) l r.
Proof.
  revert r. induction l as [|x l IH]; intros r; csimpl.
  - split; [intros [= <-]; constructor|]. by inversion 1.
  - split.
    + destruct (f x) eqn:Hx; [|done]. destruct (collect _) eqn:Hl; [|done].
      intros [= <-]. constructor; [done|]. by apply IH.
    + inversion 1 as [|?? ? ? Hx Hl]; subst. rewrite Hx.
      apply IH in Hl. by rewrite Hl.
Qed.

Lemma xor_fold_zero a b acc :
  length a = length b → xor_fold a b acc = 0%Z ↔ acc = 0%Z ∧ a = b.
Proof.
  unfold xor_fold. revert b acc. induction a as [|x a IH]; intros [|y b] acc Hlen;
    simpl in *; try done; [by split; [|intros []]|].
  rewrite IH by lia. rewrite Z.lor_eq_0_iff, Z.lxor_eq_0_iff.
  split; [by intros [[-> ->] ->]|]. by intros [-> [= -> ->]].
Qed.

Lemma as_bytes_inj s t : as_bytes s = as_bytes t → s = t.
Proof.
  revert t. induction s as [|c s IH]; intros [|d t]; simpl; try done.
  intros [= Hc Ht]. f_equal; [|auto]. unfold byte_code in Hc.
  rewrite <-(ascii_N_embedding c), <-(ascii_N_embedding d). f_equal. lia.
Qed.

Lemma length_as_bytes s : length (as_bytes s) = String.length s.
Proof. induction s; simpl; congruence. Qed.

(** ** Lemmas on decimal integers *)
Lemma pretty_N_char_digit x : is_ascii_digit (pretty_N_char x) = true.
Proof. unfold pretty_N_char. by repeat case_match. Qed.

Lemma pretty_N_go_all (p : ascii → bool) x s :
  (∀ c, is_ascii_digit c = true → p c = true) →
  str_all p s = true → str_all p (pretty_N_go x s) = true.
Proof.
  intros Hp. revert s. induction (N.lt_wf_0 x) as [x _ IH]; intros s Hs.
  assert (x = 0 ∨ 0 < x)%N as [->|?] by lia; [by rewrite pretty_N_go_0|].
  rewrite pretty_N_go_step by done. apply IH; [by apply N.div_lt|].
  simpl. by rewrite Hp by apply pretty_N_char_digit.
Qed.

(** A rendered integer has only digits and a sign. *)
Lemma display_int_all (p : ascii → bool) z :
  (∀ c, is_ascii_digit c = true → p c = true) → p "-"%char = true →
  str_all p (display_int z) = true.
Proof.
  intros Hp Hd. unfold display_int, pretty, pretty_Z, pretty, pretty_positive, pretty, pretty_N.
  destruct z as [|q|q]; simpl.
  - by rewrite Hp.
  - by apply pretty_N_go_all.
  - rewrite Hd. by apply pretty_N_go_all.
Qed.

Lemma str_all_not_mem c s : str_all (λ d, negb (bool_decide (c = d))) s = true → str_mem c s = false.
Proof. induction s as [|d s IH]; simpl; [done|]. intros. bool_prop. rewrite IH by done. by rewrite bool_decide_false. Qed.

Lemma display_int_not_mem c z :
  is_ascii_digit c = false → c ≠ "-"%char → str_mem c (display_int z) = false.
Proof.
  intros Hc Hd. apply str_all_not_mem, display_int_all.
  - intros d Hdig. apply negb_true_iff, bool_decide_eq_false. intros ->. congruence.
  - by apply negb_true_iff, bool_decide_eq_false.
Qed.

Lemma parse_digits_pretty x s :
  parse_digits 0 (pretty_N_go x s) = parse_digits (Z.of_N x) s.
Proof.
  revert s. induction (N.lt_wf_0 x) as [x _ IH]; intros s.
  assert (x = 0 ∨ 0 < x)%N as [->|?] by lia; [by rewrite pretty_N_go_0|].
  rewrite pretty_N_go_step by done. rewrite IH by (by apply N.div_lt).
  simpl. rewrite pretty_N_char_digit. f_equal.
  assert (x `mod` 10 < 10)%N as Hm by (by apply N.mod_lt).
  assert (byte_code (pretty_N_char (x `mod` 10)) = 48 + Z.of_N (x `mod` 10))%Z as ->.
  { generalize dependent (x `mod` 10)%N. intros y Hy.
    assert (y = 0 ∨ y = 1 ∨ y = 2 ∨ y = 3 ∨ y = 4 ∨ y = 5 ∨ y = 6 ∨ y = 7 ∨ y = 8 ∨ y = 9)%N
      as Hcase by lia. by repeat destruct Hcase as [->|Hcase]; subst. }
  rewrite (N.div_mod x 10) at 3 by done. lia.
Qed.

Lemma display_int_nonempty z : display_int z ≠ "".
Proof.
  destruct z as [|q|q]; [done| |done]. intros He.
  pose proof (parse_digits_pretty (N.pos q) "") as Hp.
  change (pretty_N_go (N.pos q) "") with (display_int (Z.pos q)) in Hp. by rewrite He in Hp.
Qed.

Lemma parse_i64_display z : is_i64 z = true → parse_i64 (display_int z) = Some z.
Proof.
  intros Hz.
  assert (∀ q, ∃ c t, pretty_N_go (N.pos q) "" = String c t ∧ is_ascii_digit c = true) as Hgo.
  { intros q. pose proof (pretty_N_go_all is_ascii_digit (N.pos q) "" (λ c Hc, Hc) eq_refl) as Hall.
    destruct (pretty_N_go (N.pos q) "") as [|c t] eqn:Hgo.
    - pose proof (parse_digits_pretty (N.pos q) "") as Hp. rewrite Hgo in Hp. done.
    - exists c, t. split; [done|]. simpl in Hall. by bool_prop. }
  destruct z as [|q|q]; [done|..]; pose proof (parse_digits_pretty (N.pos q) "") as Hp;
    destruct (Hgo q) as (c & t & Heq & Hc); rewrite Heq in Hp.
  - change (display_int (Z.pos q)) with (pretty_N_go (N.pos q) ""). rewrite Heq. unfold parse_i64.
    rewrite (bool_decide_false (c = "-"%char)) by by intros ->.
    rewrite (bool_decide_false (c = "+"%char)) by by intros ->.
    unfold str_is_empty. rewrite bool_decide_false by done. rewrite Hp.
    trans (if is_i64 (Z.pos q) then Some (Z.pos q) else None); [reflexivity|by rewrite Hz].
  - change (display_int (Z.neg q)) with (String "-"%char (pretty_N_go (N.pos q) "")).
    rewrite Heq. unfold parse_i64, str_is_empty. rewrite (bool_decide_true ("-"%char = _)) by done.
    rewrite (bool_decide_false (String c t = "")) by done. rewrite Hp.
    trans (if is_i64 (Z.neg q) then Some (Z.neg q) else None); [reflexivity|by rewrite Hz].
Qed.

(** ** Lemmas on time *)
Lemma trunc_millis_bound t : (trunc_millis t <= t < trunc_millis t + nanos_per_milli)%Z.
Proof.
  unfold trunc_millis, nanos_per_milli. pose proof (Z.div_mod t 1000000 ltac:(lia)).
  pose proof (Z.mod_pos_bound t 1000000 ltac:(lia)). lia.
Qed.

Lemma trunc_millis_idemp t : trunc_millis (trunc_millis t) = trunc_millis t.
Proof. unfold trunc_millis, nanos_per_milli. by rewrite Z.div_mul. Qed.

(** ** Lemmas on computations *)
Lemma Ok_inj {A E} (a b : A) : @Ok A E a = Ok b → a = b.
Proof. by intros [=]. Qed.

Lemma is_ok_run {S E A} (x : result A E * S) : is_ok x.1 = true → ∃ a, x = (Ok a, x.2).
Proof. destruct x as [[a|e] s]; [|done]. by exists a. Qed.

Section monad_lemmas.
Context {S E : Type}.
Implicit Types (s : S).

Lemma bind_ok_inv {A B} (m : M S E A) (f : A → M S E B) s b s' :
  (m ≫= f) s = (Ok b, s') → ∃ a s1, m s = (Ok a, s1) ∧ f a s1 = (Ok b, s').
Proof. unfold mbind, M_bind. intros Hm. cases. eauto. Qed.

Lemma bind_err_inv {A B} (m : M S E A) (f : A → M S E B) s e s' :
  (m ≫= f) s = (Err e, s') →
  m s = (Err e, s') ∨ ∃ a s1, m s = (Ok a, s1) ∧ f a s1 = (Err e, s').
Proof. unfold mbind, M_bind. intros Hm. cases; eauto. Qed.

Lemma bind_ok {A B} (m : M S E A) (f : A → M S E B) s a s1 :
  m s = (Ok a, s1) → (m ≫= f) s = f a s1.
Proof. unfold mbind, M_bind. by intros ->. Qed.

Lemma bind_err {A B} (m : M S E A) (f : A → M S E B) s e s1 :
  m s = (Err e, s1) → (m ≫= f) s = (Err e, s1).
Proof. unfold mbind, M_bind. by intros ->. Qed.

Lemma with_err_ok_inv {F A} (f : E → F) (m : M S E A) s a s' :
  with_err f m s = (Ok a, s') → m s = (Ok a, s').
Proof. unfold with_err. intros Hm. by cases. Qed.

Lemma with_err_err_inv {F A} (f : E → F) (m : M S E A) s e s' :
  with_err f m s = (Err e, s') → ∃ e', m s = (Err e', s') ∧ e = f e'.
Proof. unfold with_err. intros Hm. cases. eauto. Qed.

Lemma with_err_ok {F A} (f : E → F) (m : M S E A) s a s' :
  m s = (Ok a, s') → with_err f m s = (Ok a, s').
Proof. unfold with_err. by intros ->. Qed.

Lemma with_err_err {F A} (f : E → F) (m : M S E A) s e s' :
  m s = (Err e, s') → with_err f m s = (Err (f e), s').
Proof. unfold with_err. by intros ->. Qed.

Lemma lift_inv {A} (r r' : result A E) s s' : lift r s = (r', s') → r' = r ∧ s' = s.
Proof. unfold lift. by intros [= <- <-]. Qed.

Lemma ensure_ok_inv (b : bool) (e : E) s u s' :
  ensure b e s = (Ok u, s') → b = true ∧ s' = s.
Proof. unfold ensure, ret, throw. by destruct b; intros [=]. Qed.

Lemma ensure_err_inv (b : bool) (e e' : E) s s' :
  ensure b e s = (Err e', s') → b = false ∧ e' = e ∧ s' = s.
Proof. unfold ensure, ret, throw. by destruct b; intros [=]. Qed.

Lemma ret_inv {A} (a : A) s (r : result A E) s' : ret a s = (r, s') → r = Ok a ∧ s' = s.
Proof. unfold ret. by intros [= <- <-]. Qed.

Lemma gets_inv {A} (f : S → A) s (r : result A E) s' : gets f s = (r, s') → r = Ok (f s) ∧ s' = s.
Proof. unfold gets. by intros [= <- <-]. Qed.
End monad_lemmas.

(** Take apart a hypothesis that a computation succeeded: every step did. *)
Ltac ok_step :=
  match goal with
  | H : @mbind (M _ _) _ _ _ _ _ _ = (Ok _, _) |- _ =>
      let a := fresh "a" in let s := fresh "w" in
      let H1 := fresh "Hm" in let H2 := fresh "Hk" in
      apply bind_ok_inv in H as (a & s & H1 & H2); simpl in H2
  | H : with_err _ _ _ = (Ok _, _) |- _ => apply with_err_ok_inv in H
  | H : lift _ _ = (Ok _, _) |- _ =>
      let H1 := fresh "Hl" in apply lift_inv in H as [H1 ->]; symmetry in H1
  | H : ensure _ _ _ = (Ok _, _) |- _ => apply ensure_ok_inv in H as [H ->]
  | H : ret _ _ = (Ok _, _) |- _ => apply ret_inv in H as [H ->]; simplify_eq
  | H : gets _ _ = (Ok _, _) |- _ => apply gets_inv in H as [H ->]; simplify_eq
  end.
Ltac ok_steps := repeat ok_step.
