(* ===== verification/External.v ===== *)
(** * Code outside the repository, as parameters

    The server calls [sha2], [chrono], [serde_json], [base64], [ssh-key] and
    [ed25519-dalek].  Each library is a class of the functions the source calls;
    a second class states the documented behaviour that proofs rely on.  Nothing
    here models code of the repository.  [Toy.v] shows the laws are consistent. *)
From S2P Require Import Prelude.

(** [serde_json::Value].  An object is the key-ordered content of its
    [BTreeMap]; the code stores no floating-point numbers. *)
Inductive Value : Type :=
| VNull
| VBool (b : bool)
| VNumber (n : Z)
| VString (s : string)
| VArray (l : list Value)
| VObject (l : list (string * Value)).

(** [Map::insert]: a later entry replaces an earlier one. *)
Fixpoint object_insert (k : string) (v : Value) (l : list (string * Value))
  : list (string * Value) :=
  match l with
  | [] => [(k, v)]
  | (k', v') :: l' =>
      match String.compare k k' with
      | Lt => (k, v) :: l
      | Eq => (k, v) :: l'
      | Gt => (k', v') :: object_insert k v l'
      end
  end.

(** [json!({ ... })]. *)
Definition json_object (fields : list (string * Value)) : Value :=
  VObject (foldl (λ m kv, object_insert kv.1 kv.2 m) [] fields).

Definition json_opt_string (o : option string) : Value :=
  match o with Some s => VString s | None => VNull end.

(** Object keys strictly ascending, at every depth: what a [BTreeMap] holds. *)
Fixpoint keys_ascending (l : list (string * Value)) : bool :=
  match l with
  | (k1, _) :: (((k2, _) :: _) as l') =>
      match String.compare k1 k2 with Lt => keys_ascending l' | _ => false end
  | _ => true
  end.

Fixpoint wf_value (v : Value) : bool :=
  match v with
  | VArray l => forallb wf_value l
  | VObject l => keys_ascending l && forallb (λ kv, wf_value kv.2) l
  | _ => true
  end.

Lemma object_insert_ascending k v l :
  keys_ascending l = true → keys_ascending (object_insert k v l) = true.
Proof.
  induction l as [|[k1 v1] l IH]; [done|]. intros Hl. simpl.
  destruct (String.compare k k1) eqn:Hc.
  - apply String.compare_eq_iff in Hc. by subst.
  - simpl. by rewrite Hc.
  - assert (String.compare k1 k = Lt) as Hk by (by rewrite String.compare_antisym, Hc).
    destruct l as [|[k2 v2] l]; [by simpl; rewrite Hk|]. simpl in Hl.
    destruct (String.compare k1 k2) eqn:H12; try done. specialize (IH Hl). simpl in IH |- *.
    destruct (String.compare k k2) eqn:H2; simpl; rewrite ?Hk, ?H12; done.
Qed.

Lemma object_insert_all (p : string * Value → bool) k v l :
  p (k, v) = true → forallb p l = true → forallb p (object_insert k v l) = true.
Proof.
  intros Hp. induction l as [|[k1 v1] l IH]; simpl; [by rewrite Hp|].
  intros [H1 H2]%andb_true_iff. destruct (String.compare k k1); simpl; rewrite ?Hp, ?H1, ?H2; auto.
Qed.

(** An object literal of well-formed values is well-formed. *)
Lemma wf_json_object fields :
  forallb (λ kv, wf_value kv.2) fields = true → wf_value (json_object fields) = true.
Proof.
  unfold json_object. simpl. intros Hf.
  enough (∀ l, keys_ascending l = true → forallb (λ kv, wf_value kv.2) l = true →
    let m := foldl (λ m kv, object_insert kv.1 kv.2 m) l fields in
    keys_ascending m && forallb (λ kv, wf_value kv.2) m = true) as He by by apply He.
  induction fields as [|[k v] fields IH]; intros l Ha Hl; simpl; [by rewrite Ha, Hl|].
  simpl in Hf. apply andb_true_iff in Hf as [Hv Hf].
  apply IH; [done|by apply object_insert_ascending|by apply (object_insert_all (λ kv, wf_value kv.2))].
Qed.

(** [Value::get] on an object key; [Value::as_i64]; [Value::as_str]. *)
Fixpoint object_get (k : string) (l : list (string * Value)) : option Value :=
  match l with
  | [] => None
  | (k', v) :: l => if bool_decide (k = k') then Some v else object_get k l
  end.
Definition value_get (k : string) (v : Value) : option Value :=
  match v with VObject l => object_get k l | _ => None end.
Definition value_as_i64 (v : Value) : option Z :=
  match v with VNumber n => if is_i64 n then Some n else None | _ => None end.
Definition value_as_str (v : Value) : option string :=
  match v with VString s => Some s | _ => None end.

(** [hex::encode(Sha256::digest(bytes))]. *)
Class Sha256 : Type := sha256_hex : string → string.
Class Sha256Laws `{Sha256} : Prop :=
  sha256_hex_length : ∀ s, String.length (sha256_hex s) = 64.

(** Two different inputs with the same digest. *)
Definition sha256_collision `{Sha256} (a b : string) : Prop :=
  a ≠ b ∧ sha256_hex a = sha256_hex b.

(** [hex::encode]: two lowercase digits per byte. *)
Class HexEncode : Type := hex_encode : string → string.
Class HexEncodeLaws `{HexEncode} : Prop := {
  hex_length : ∀ s, String.length (hex_encode s) = 2 * String.length s;
  hex_digits : ∀ s, str_all is_ascii_alphanumeric (hex_encode s) = true;
}.

(** [str::to_lowercase], by the Unicode tables; on ASCII it is the ASCII one. *)
Class ToLowercase : Type := to_lowercase : string → string.
Class ToLowercaseLaws `{ToLowercase} : Prop :=
  to_lowercase_ascii : ∀ s, str_all (λ c, byte_code c <? 128)%Z s = true →
    to_lowercase s = to_ascii_lowercase s.

(** [format!("{:?}", strings)]; the text is only logged. *)
Class DebugStrings : Type := debug_strings : list string → string.

(** [format!("{:?}", string)]: quotes and escapes, by the Unicode tables. *)
Class DebugStr : Type := debug_str : string → string.

(** [chrono]: rendering and parsing of RFC 3339 instants. *)
Class Chrono : Type := {
  to_rfc3339_millis : Z → string;
  to_rfc3339_secs : Z → string;
  to_rfc3339 : Z → string;
  parse_from_rfc3339 : string → option Z;
}.
Class ChronoLaws `{Chrono} : Prop := {
  parse_millis : ∀ t, rfc3339_range t = true →
    parse_from_rfc3339 (to_rfc3339_millis t) = Some (trunc_millis t);
  parse_secs : ∀ t, rfc3339_range t = true →
    parse_from_rfc3339 (to_rfc3339_secs t) = Some (trunc_secs t);
}.
(** For the years 0000 to 9999 every field of the rendering has a fixed width, the
    most significant first and the zone always [Z]: the order of the texts, which
    is what an [ORDER BY] on the column compares, is the order of the instants. *)
Class ChronoOrder `{Chrono} : Prop :=
  millis_order : ∀ t u, rfc3339_range t = true → rfc3339_range u = true →
    str_leb (to_rfc3339_millis t) (to_rfc3339_millis u) = (trunc_millis t <=? trunc_millis u)%Z.

(** [serde_json]: a value or a struct of such values, in field order. *)
Class SerdeJson : Type := {
  json_to_string : Value → option string;
  json_from_str : string → option Value;
}.
Class SerdeJsonLaws `{SerdeJson} : Prop := {
  json_total : ∀ v, is_Some (json_to_string v);
  json_inj : ∀ v w s, json_to_string v = Some s → json_to_string w = Some s → v = w;
  json_roundtrip : ∀ v s, wf_value v = true →
    json_to_string v = Some s → json_from_str s = Some v;
}.

(** [base64] with the standard alphabet and padding. *)
Class Base64 : Type := {
  b64_encode : string → string;
  b64_decode : string → option string;
}.
Class Base64Laws `{Base64} : Prop :=
  b64_roundtrip : ∀ s, b64_decode (b64_encode s) = Some s.

(** [ssh-key] public keys. *)
Class SshKey : Type := {
  pubkey : Type;
  from_openssh : string → option pubkey;
  to_openssh : pubkey → option string;
  algorithm_is_ed25519 : pubkey → bool;
  (** [key_data().ed25519()], the 32 raw bytes. *)
  ed25519_bytes : pubkey → option string;
  fingerprint_sha256 : pubkey → string;
  (** [PublicKey::from(KeyData::Ed25519(..))]. *)
  from_ed25519 : string → pubkey;
}.
Class SshKeyLaws `{SshKey} : Prop := {
  ed25519_bytes_from : ∀ b, ed25519_bytes (from_ed25519 b) = Some b;
  openssh_roundtrip : ∀ b s,
    to_openssh (from_ed25519 b) = Some s → from_openssh s = Some (from_ed25519 b);
  from_ed25519_encodes : ∀ b, is_Some (to_openssh (from_ed25519 b));
}.

(** [ed25519-dalek]. Seeds, keys and signatures are raw byte strings. *)
Class Ed25519 : Type := {
  verifying_key_ok : string → bool;
  verify_strict : string → string → string → bool;
  dalek_sign : string → string → string;
  dalek_public : string → string;
}.
Class Ed25519Laws `{Ed25519} : Prop := {
  dalek_public_ok : ∀ seed, verifying_key_ok (dalek_public seed) = true;
  dalek_sign_length : ∀ seed msg, String.length (dalek_sign seed msg) = 64;
  dalek_verify : ∀ seed msg,
    verify_strict (dalek_public seed) msg (dalek_sign seed msg) = true;
}.

(** [ssh-key] certificates.  The contents a certificate states through its
    accessors, and who signed it. *)
Inductive CertType : Type := CertUser | CertHost.

Record CertView {K : Type} : Type := MkCertView {
  cv_public_key : K;
  cv_serial : Z;
  cv_cert_type : CertType;
  cv_key_id : string;
  cv_valid_principals : list string;
  cv_valid_after : Z;
  cv_valid_before : Z;
  cv_extensions : gmap string string;
  cv_comment : string;
}.
Arguments CertView : clear implicits.

(** The [Builder] is threaded by value; an error carries its text.  The random
    nonce is the [rng] argument. *)
Class SshCert `{SshKey} : Type := {
  privkey : Type;
  private_public : privkey → pubkey;
  (** [algorithm().as_str()] when it is not Ed25519. *)
  private_algorithm : privkey → string;
  private_is_ed25519 : privkey → bool;
  private_from_openssh : string → result privkey string;
  private_to_openssh : privkey → result string string;
  is_encrypted : privkey → bool;
  decrypt : string → privkey → option privkey;
  encrypt : string → string → privkey → result privkey string;
  (** The texts of the errors [from_openssh] and [to_openssh] return. *)
  from_openssh_error : string → string;
  to_openssh_error : pubkey → string;
  builder : Type;
  new_with_random_nonce : string → pubkey → Z → Z → result builder string;
  builder_serial : Z → builder → result builder string;
  builder_key_id : string → builder → result builder string;
  builder_cert_type : CertType → builder → result builder string;
  builder_valid_principal : string → builder → result builder string;
  builder_comment : string → builder → result builder string;
  builder_extension : string → string → builder → result builder string;
  ssh_certificate : Type;
  builder_sign : privkey → builder → result ssh_certificate string;
  cert_to_openssh : ssh_certificate → result string string;
  cert_view : ssh_certificate → CertView pubkey;
  (** [Certificate::validate_at] with the accepted signers' fingerprints. *)
  cert_validate_at : Z → list string → ssh_certificate → bool;
  (** What a builder has been told so far. *)
  builder_view : builder → CertView pubkey;
}.

Class SshCertLaws `{SshCert} : Prop := {
  new_view : ∀ rng k a b bd, new_with_random_nonce rng k a b = Ok bd →
    builder_view bd = MkCertView _ k 0 CertUser "" [] a b ∅ "";
  serial_view : ∀ n bd bd', builder_serial n bd = Ok bd' →
    let v := builder_view bd in
    builder_view bd' = MkCertView _ (cv_public_key v) n (cv_cert_type v) (cv_key_id v)
      (cv_valid_principals v) (cv_valid_after v) (cv_valid_before v) (cv_extensions v)
      (cv_comment v);
  key_id_view : ∀ i bd bd', builder_key_id i bd = Ok bd' →
    let v := builder_view bd in
    builder_view bd' = MkCertView _ (cv_public_key v) (cv_serial v) (cv_cert_type v) i
      (cv_valid_principals v) (cv_valid_after v) (cv_valid_before v) (cv_extensions v)
      (cv_comment v);
  cert_type_view : ∀ t bd bd', builder_cert_type t bd = Ok bd' →
    let v := builder_view bd in
    builder_view bd' = MkCertView _ (cv_public_key v) (cv_serial v) t (cv_key_id v)
      (cv_valid_principals v) (cv_valid_after v) (cv_valid_before v) (cv_extensions v)
      (cv_comment v);
  valid_principal_view : ∀ p bd bd', builder_valid_principal p bd = Ok bd' →
    let v := builder_view bd in
    builder_view bd' = MkCertView _ (cv_public_key v) (cv_serial v) (cv_cert_type v)
      (cv_key_id v) (cv_valid_principals v ++ [p]) (cv_valid_after v) (cv_valid_before v)
      (cv_extensions v) (cv_comment v);
  comment_view : ∀ c bd bd', builder_comment c bd = Ok bd' →
    let v := builder_view bd in
    builder_view bd' = MkCertView _ (cv_public_key v) (cv_serial v) (cv_cert_type v)
      (cv_key_id v) (cv_valid_principals v) (cv_valid_after v) (cv_valid_before v)
      (cv_extensions v) c;
  extension_view : ∀ n d bd bd', builder_extension n d bd = Ok bd' →
    let v := builder_view bd in
    builder_view bd' = MkCertView _ (cv_public_key v) (cv_serial v) (cv_cert_type v)
      (cv_key_id v) (cv_valid_principals v) (cv_valid_after v) (cv_valid_before v)
      (<[n := d]> (cv_extensions v)) (cv_comment v);
  sign_view : ∀ k bd c, builder_sign k bd = Ok c → cert_view c = builder_view bd;
  (** A fresh signature validates inside its window against its signer. *)
  sign_validates : ∀ k bd c t, builder_sign k bd = Ok c →
    (cv_valid_after (cert_view c) <= t < cv_valid_before (cert_view c))%Z →
    cert_validate_at t [fingerprint_sha256 (private_public k)] c = true;
  (** A key encrypted with a passphrase is read back with it. *)
  encrypt_decrypts : ∀ rng p k e s, is_encrypted k = false → encrypt rng p k = Ok e →
    private_to_openssh e = Ok s →
    private_from_openssh s = Ok e ∧ is_encrypted e = true ∧ decrypt p e = Some k;
}.
