(* ===== verification/Errors.v ===== *)
(** * Error types and their HTTP mapping ([src/src/errors.rs])

    [AuditError], [ApiError] with its status, code and client message, the
    response it becomes, and [sqlx::Error] as the repositories see it. *)
From S2P Require Import Prelude External.

(** [sqlx::Error]: an I/O or pool failure, a constraint violation reported by
    the database (with its message), or a column that does not decode. *)
Inductive sqlx_error : Type :=
| SqlIo
| SqlDatabase (message : string)
| SqlDecode (message : string).

Inductive AuditError : Type :=
| Serialization (message : string)
| Corrupt (message : string)
| Repository (err : sqlx_error).

(** The causes an [anyhow::Error] carries into [Internal]. *)
Inductive cause : Type :=
| CauseSqlx (err : sqlx_error)
| CauseAudit (err : AuditError)
| CauseMessage (message : string).

Inductive ApiError : Type :=
| BadRequest (message : string)
| Unauthorized (message : string)
| Forbidden (message : string)
| NotFound (message : string)
| Conflict (message : string)
| TooManyRequests (message : string)
| Internal (c : cause).

Definition ApiError_status (e : ApiError) : Z :=
  match e with
  | BadRequest _ => 400
  | Unauthorized _ => 401
  | Forbidden _ => 403
  | NotFound _ => 404
  | Conflict _ => 409
  | TooManyRequests _ => 429
  | Internal _ => 500
  end%Z.

Definition ApiError_code (e : ApiError) : string :=
  match e with
  | BadRequest _ => "bad_request"
  | Unauthorized _ => "unauthorized"
  | Forbidden _ => "forbidden"
  | NotFound _ => "not_found"
  | Conflict _ => "conflict"
  | TooManyRequests _ => "rate_limited"
  | Internal _ => "internal_error"
  end.

Definition ApiError_client_message (e : ApiError) : string :=
  match e with
  | Internal _ => "internal server error"
  | BadRequest m | Unauthorized m | Forbidden m | NotFound m | Conflict m
  | TooManyRequests m => m
  end.

(** The response [IntoResponse] builds: status, [WWW-Authenticate] and body. *)
Record ErrorResponse : Type := {
  er_status : Z;
  er_www_authenticate : option string;
  er_code : string;
  er_message : string;
}.

Definition ApiError_into_response (e : ApiError) : ErrorResponse :=
  {| er_status := ApiError_status e;
     er_www_authenticate := match e with Unauthorized _ => Some "Bearer" | _ => None end;
     er_code := ApiError_code e;
     er_message := ApiError_client_message e |}.

Definition ApiError_of_audit (e : AuditError) : ApiError := Internal (CauseAudit e).
Definition ApiError_of_sqlx (e : sqlx_error) : ApiError := Internal (CauseSqlx e).
