(* ===== verification/Database.v ===== *)
(** * The SQLite database ([src/src/db/migrations])

    The tables the server writes, a computation over them, statements that may
    fail, and transactions.  [faults] decides which statements fail: each call
    that awaits the database consumes one entry, [true] makes it fail with
    [SqlIo], and an exhausted list means no further failure.  A statement and a
    transaction are atomic: SQLite serializes writers. *)
From S2P Require Import Prelude External Errors.

(** [001_audit_log.sql]. *)
Record AuditRow : Type := MkAuditRow {
  ar_id : Z;
  ar_chain_position : Z;
  ar_event_type : string;
  ar_actor : string;
  ar_subject : option string;
  ar_metadata : string;
  ar_recorded_at : string;
  ar_previous_hash : string;
  ar_canonical_json : string;
  ar_entry_hash : string;
}.

(** [002_machines.sql], [003_machine_protocol.sql], [004_ca_bundle.sql]. *)
Record MachineRow : Type := MkMachineRow {
  mr_machine_id : string;
  mr_hostname : string;
  mr_public_key : string;
  mr_os : string;
  mr_arch : string;
  mr_agent_version : string;
  mr_status : string;
  mr_ip : option string;
  mr_current_generation : Z;
  mr_synced_generation : option Z;
  mr_bundle_fingerprint : option string;
  mr_last_sync : option string;
  mr_last_seen : option string;
  mr_enrolled_at : string;
  mr_created_at : string;
  mr_updated_at : string;
}.

Record TokenRow : Type := MkTokenRow {
  tr_id : string;
  tr_token_hash : string;
  tr_created_at : string;
  tr_expires_at : string;
  tr_used_at : option string;
  tr_created_by : string;
  tr_single_use : Z;
}.

(** [004_ca_bundle.sql]. *)
Record CaKeyRow : Type := MkCaKeyRow {
  ck_key_id : string;
  ck_public_key : string;
  ck_created_at : string;
  ck_generation : Z;
  ck_enabled : Z;
}.

Record Db : Type := MkDb {
  audit_log : list AuditRow;
  audit_next_id : Z;
  machines : list MachineRow;
  enrollment_tokens : list TokenRow;
  ca_keys : list CaKeyRow;
  ca_bundle_state : option Z;
}.

Record World : Type := MkWorld { db : Db; faults : list bool }.

Definition set_audit_log (f : list AuditRow → list AuditRow) (d : Db) : Db :=
  MkDb (f (audit_log d)) (audit_next_id d) (machines d) (enrollment_tokens d)
       (ca_keys d) (ca_bundle_state d).
Definition bump_audit_id (d : Db) : Db :=
  MkDb (audit_log d) (audit_next_id d + 1) (machines d) (enrollment_tokens d)
       (ca_keys d) (ca_bundle_state d).
Definition set_machines (f : list MachineRow → list MachineRow) (d : Db) : Db :=
  MkDb (audit_log d) (audit_next_id d) (f (machines d)) (enrollment_tokens d)
       (ca_keys d) (ca_bundle_state d).
Definition set_tokens (f : list TokenRow → list TokenRow) (d : Db) : Db :=
  MkDb (audit_log d) (audit_next_id d) (machines d) (f (enrollment_tokens d))
       (ca_keys d) (ca_bundle_state d).
Definition set_ca_keys (f : list CaKeyRow → list CaKeyRow) (d : Db) : Db :=
  MkDb (audit_log d) (audit_next_id d) (machines d) (enrollment_tokens d)
       (f (ca_keys d)) (ca_bundle_state d).
Definition set_ca_bundle_state (g : Z) (d : Db) : Db :=
  MkDb (audit_log d) (audit_next_id d) (machines d) (enrollment_tokens d)
       (ca_keys d) (Some g).

(** The freshly migrated database. *)
Definition empty_db : Db := MkDb [] 1 [] [] [] None.
Definition empty_world : World := MkWorld empty_db [].

Definition with_db (w : World) (d : Db) : World := MkWorld d (faults w).

(** One awaited database call. *)
Definition db_call : M World sqlx_error unit := λ w,
  match faults w with
  | [] => (Ok tt, w)
  | b :: fs =>
      let w' := MkWorld (db w) fs in
      if b then (Err SqlIo, w') else (Ok tt, w')
  end.

(** A statement that reads. *)
Definition query {A} (f : Db → A) : M World sqlx_error A :=
  _ ← db_call; gets (λ w, f (db w)).

(** A statement that writes, or is refused by a constraint. *)
Definition apply_statement {A} (f : Db → result (A * Db) sqlx_error)
  : M World sqlx_error A := λ w,
  match f (db w) with
  | Ok (a, d) => (Ok a, with_db w d)
  | Err e => (Err e, w)
  end.
Definition execute {A} (f : Db → result (A * Db) sqlx_error) : M World sqlx_error A :=
  _ ← db_call; apply_statement f.

(** [pool.begin()] ... [tx.commit()]: dropping the transaction rolls it back. *)
Definition transaction {A E} (conv : sqlx_error → E) (body : M World E A) : M World E A :=
  λ w,
    match db_call w with
    | (Err e, w1) => (Err (conv e), w1)
    | (Ok _, w1) =>
        match body w1 with
        | (Err e, w2) => (Err e, with_db w2 (db w1))
        | (Ok a, w2) =>
            match db_call w2 with
            | (Err e, w3) => (Err (conv e), with_db w3 (db w1))
            | (Ok _, w3) => (Ok a, w3)
            end
        end
    end.

(** ** Running computations *)
Definition no_faults (w : World) : Prop := faults w = [].

Lemma no_faults_with_db w d : no_faults w → no_faults (with_db w d).
Proof. done. Qed.

Lemma db_call_ok w : no_faults w → db_call w = (Ok tt, w).
Proof. unfold db_call, no_faults. by intros ->. Qed.

Lemma db_call_db w r w' : db_call w = (r, w') → db w' = db w.
Proof. unfold db_call. intros. by cases. Qed.

Lemma query_ok {A} (f : Db → A) w : no_faults w → query f w = (Ok (f (db w)), w).
Proof. intros. unfold query, mbind, M_bind. by rewrite db_call_ok. Qed.

Lemma query_inv {A} (f : Db → A) w r w' :
  query f w = (r, w') → db w' = db w ∧ (r = Ok (f (db w)) ∨ r = Err SqlIo).
Proof.
  unfold query, gets, mbind, M_bind, db_call. intros. cases; auto.
Qed.

Lemma execute_ok {A} (f : Db → result (A * Db) sqlx_error) w :
  no_faults w →
  execute f w =
    match f (db w) with Ok (a, d) => (Ok a, with_db w d) | Err e => (Err e, w) end.
Proof. intros. unfold execute, mbind, M_bind. by rewrite db_call_ok. Qed.

(** A write either fails and leaves the tables alone, or did what it computes. *)
Lemma execute_inv {A} (f : Db → result (A * Db) sqlx_error) w r w' :
  execute f w = (r, w') →
  (∃ e, r = Err e ∧ db w' = db w) ∨ (∃ a, r = Ok a ∧ f (db w) = Ok (a, db w')).
Proof.
  unfold execute, apply_statement, mbind, M_bind, db_call. intros. cases; eauto.
Qed.

(** Atomicity: a failed transaction leaves the tables as they were. *)
Lemma transaction_err {A E} (conv : sqlx_error → E) (body : M World E A) w e w' :
  transaction conv body w = (Err e, w') → db w' = db w.
Proof.
  unfold transaction. intros. cases;
    repeat match goal with H : db_call _ = _ |- _ => apply db_call_db in H end;
    simpl in *; congruence.
Qed.

Lemma transaction_ok {A E} (conv : sqlx_error → E) (body : M World E A) w a w' :
  transaction conv body w = (Ok a, w') →
  ∃ w1 w2, db w1 = db w ∧ body w1 = (Ok a, w2) ∧ db w' = db w2.
Proof.
  unfold transaction. intros. cases. eexists _, _. split_and!; [|done|];
    by eapply db_call_db.
Qed.

Lemma transaction_no_faults {A E} (conv : sqlx_error → E) (body : M World E A) w a w' :
  no_faults w → body w = (Ok a, w') → no_faults w' →
  transaction conv body w = (Ok a, w').
Proof.
  intros Hw Hbody Hw'. unfold transaction.
  rewrite db_call_ok by done. rewrite Hbody. by rewrite db_call_ok.
Qed.

Lemma query_ok_inv {A} (f : Db → A) w a w' :
  query f w = (Ok a, w') → a = f (db w) ∧ db w' = db w.
Proof. intros Hq. destruct (query_inv _ _ _ _ Hq) as [? [|]]; by simplify_eq. Qed.

Lemma execute_ok_inv {A} (f : Db → result (A * Db) sqlx_error) w a w' :
  execute f w = (Ok a, w') → f (db w) = Ok (a, db w').
Proof. intros He. destruct (execute_inv _ _ _ _ He) as [(?&?&?)|(?&?&?)]; by simplify_eq. Qed.

(** As [ok_step], for statements as well. *)
Ltac db_step :=
  match goal with
  | H : query _ _ = (Ok _, _) |- _ =>
      let H1 := fresh "Hq" in let H2 := fresh "Hdb" in
      apply query_ok_inv in H as [H1 H2]
  | H : execute _ _ = (Ok _, _) |- _ => apply execute_ok_inv in H
  | _ => ok_step
  end.
Ltac db_steps := repeat db_step.

(** ** What a computation may do to the tables

    [frame R m]: whatever [m] returns and whichever of its calls fail, the tables
    after it are related by [R] to the tables before.  [R] is [eq] for a reader. *)
Definition frame {E A} (R : Db → Db → Prop) (m : M World E A) : Prop :=
  ∀ w r w', m w = (r, w') → R (db w) (db w').

Section frame.
Context (R : Db → Db → Prop) `{!PreOrder R}.

Lemma frame_lift {E A} (x : result A E) : frame R (lift x).
Proof. by intros w r w' [= _ <-]. Qed.
Lemma frame_ret {E A} (a : A) : frame (E := E) R (ret a).
Proof. by intros w r w' [= _ <-]. Qed.
Lemma frame_throw {E A} (e : E) : frame (A := A) R (throw e).
Proof. by intros w r w' [= _ <-]. Qed.
Lemma frame_ensure {E} b (e : E) : frame R (ensure b e).
Proof. destruct b; [apply frame_ret|apply frame_throw]. Qed.

Lemma frame_bind {E A B} (m : M World E A) (f : A → M World E B) :
  frame R m → (∀ a, frame R (f a)) → frame R (m ≫= f).
Proof.
  intros Hm Hf w r w'. unfold mbind, M_bind. destruct (m w) as [x w1] eqn:Hw. apply Hm in Hw.
  destruct x as [a|e]; [|by intros [= _ <-]]. intros Hrun%Hf. by etrans.
Qed.

Lemma frame_with_err {E F A} (f : E → F) (m : M World E A) : frame R m → frame R (with_err f m).
Proof.
  intros Hm w r w'. unfold with_err. destruct (m w) as [x w1] eqn:Hw. apply Hm in Hw.
  destruct x; by intros [= _ <-].
Qed.

Lemma frame_db_call : frame R db_call.
Proof. intros w r w' Hc%db_call_db. by rewrite Hc. Qed.
Lemma frame_query {A} (f : Db → A) : frame R (query f).
Proof. intros w r w' [Hq _]%query_inv. by rewrite Hq. Qed.
Lemma frame_execute {A} (f : Db → result (A * Db) sqlx_error) :
  (∀ d a d', f d = Ok (a, d') → R d d') → frame R (execute f).
Proof. intros Hf w r w' [(e & _ & ->)|(a & _ & Ha)]%execute_inv; [done|by eapply Hf]. Qed.
End frame.

Create HintDb frame discriminated.
#[export] Hint Resolve frame_lift frame_ret frame_throw frame_ensure frame_bind frame_with_err
  frame_db_call frame_query : frame.
#[export] Hint Extern 0 (PreOrder _) => typeclasses eauto : frame.

Lemma frame_impl {E A} (R R' : Db → Db → Prop) (m : M World E A) :
  (∀ d d', R d d' → R' d d') → frame R m → frame R' m.
Proof. intros Hi Hm w r w' Hw%Hm. auto. Qed.
