(* ===== verification/Toy.v ===== *)
(** * Reference instances of the external libraries

    Small computable functions that satisfy the laws of [External].  They show
    that the laws are consistent and let a witness run the model on concrete
    inputs.  They are not SHA-256, Ed25519 or RFC 3339. *)
From S2P Require Import Prelude External.

Fixpoint str_take (n : nat) (s : string) : string :=
  match n, s with
  | S n, String c s => String c (str_take n s)
  | _, _ => ""
  end.

Definition str_replicate (n : nat) (c : ascii) : string := str_concat (replicate n (String c "")).

(** Cut or pad to 64 bytes. *)
Definition pad64 (s : string) : string := str_take 64 (s +:+ str_replicate 64 (byte_of 48)).

#[local] Instance toy_sha256 : Sha256 := pad64.

#[local] Instance toy_lowercase : ToLowercase := to_ascii_lowercase.

#[local] Instance toy_debug : DebugStrings := λ l, "[" +:+ str_concat l +:+ "]".

#[local] Instance toy_hex : HexEncode := fix hex s :=
  match s with
  | EmptyString => ""
  | String c s =>
      String (hex_digit (byte_code c / 16)) (String (hex_digit (byte_code c mod 16)) (hex s))
  end.

(** Positive numbers as strings of bits. *)
Fixpoint bits (p : positive) : string :=
  match p with
  | xH => ""
  | xO p => String (byte_of 48) (bits p)
  | xI p => String (byte_of 49) (bits p)
  end.
Fixpoint unbits (s : string) : option positive :=
  match s with
  | EmptyString => Some xH
  | String c s =>
      p ← unbits s;
      if bool_decide (c = byte_of 48) then Some (xO p)
      else if bool_decide (c = byte_of 49) then Some (xI p) else None
  end.

Definition toy_print_time (t : Z) : string := bits (encode t).
#[local] Instance toy_chrono : Chrono := {
  to_rfc3339_millis t := toy_print_time (trunc_millis t);
  to_rfc3339_secs t := toy_print_time (trunc_secs t);
  to_rfc3339 t := toy_print_time t;
  parse_from_rfc3339 s := unbits s ≫= decode;
}.

(** JSON values as trees, for the generic encoding. *)
Definition leaf : Type := string + (Z + bool).

Fixpoint value_to_tree (v : Value) : gen_tree leaf :=
  match v with
  | VNull => GenNode 0 []
  | VBool b => GenNode 1 [GenLeaf (inr (inr b))]
  | VNumber n => GenNode 2 [GenLeaf (inr (inl n))]
  | VString s => GenNode 3 [GenLeaf (inl s)]
  | VArray l => GenNode 4 (map value_to_tree l)
  | VObject l =>
      GenNode 5 (map (λ kv, GenNode 6 [GenLeaf (inl kv.1); value_to_tree kv.2]) l)
  end.

Fixpoint tree_to_value (t : gen_tree leaf) : Value :=
  match t with
  | GenNode 1 [GenLeaf (inr (inr b))] => VBool b
  | GenNode 2 [GenLeaf (inr (inl n))] => VNumber n
  | GenNode 3 [GenLeaf (inl s)] => VString s
  | GenNode 4 l => VArray (map tree_to_value l)
  | GenNode 5 l =>
      VObject (map (λ t, match t with
                         | GenNode _ [GenLeaf (inl k); t] => (k, tree_to_value t)
                         | _ => ("", VNull)
                         end) l)
  | _ => VNull
  end.

#[local] Instance toy_serde_json : SerdeJson := {
  json_to_string v := Some (bits (encode (value_to_tree v)));
  json_from_str s := p ← unbits s; t ← decode p; Some (tree_to_value t);
}.

#[local] Instance toy_base64 : Base64 := { b64_encode s := s; b64_decode s := Some s }.

#[local] Instance toy_ssh_key : SshKey := {
  pubkey := bool * string;
  from_openssh s :=
    match strip_prefix "ssh-ed25519 " s with
    | Some b => Some (true, b)
    | None => match strip_prefix "ssh-rsa " s with
              | Some b => Some (false, b)
              | None => None
              end
    end;
  to_openssh k := Some ((if k.1 : bool then "ssh-ed25519 " else "ssh-rsa ") +:+ k.2);
  algorithm_is_ed25519 k := k.1;
  ed25519_bytes k := if k.1 : bool then Some k.2 else None;
  fingerprint_sha256 k := "SHA256:" +:+ k.2;
  from_ed25519 b := (true, b);
}.

#[local] Instance toy_ed25519 : Ed25519 := {
  verifying_key_ok _ := true;
  verify_strict pk msg sig := bool_decide (sig = pad64 (pk +:+ msg));
  dalek_sign seed msg := pad64 (seed +:+ msg);
  dalek_public seed := seed;
}.

(** ** The laws hold *)
Lemma length_str_take n s : n ≤ String.length s → String.length (str_take n s) = n.
Proof.
  revert s. induction n as [|n IH]; intros [|c s]; simpl; try done; [lia|].
  intros. rewrite IH; lia.
Qed.

Lemma length_pad64 s : String.length (pad64 s) = 64.
Proof.
  unfold pad64. apply length_str_take. rewrite length_string_app.
  change (String.length (str_replicate 64 (byte_of 48))) with 64. lia.
Qed.

#[local] Instance toy_sha256_laws : Sha256Laws.
Proof. intros s. apply length_pad64. Qed.

#[local] Instance toy_lowercase_laws : ToLowercaseLaws.
Proof. done. Qed.

#[local] Instance toy_hex_laws : HexEncodeLaws.
Proof.
  split; intros s; induction s as [|c s IH]; try done.
  - change (S (S (String.length (hex_encode s))) = 2 * S (String.length s)). lia.
  - change (is_ascii_alphanumeric (hex_digit (byte_code c / 16)) &&
      (is_ascii_alphanumeric (hex_digit (byte_code c mod 16)) &&
       str_all is_ascii_alphanumeric (hex_encode s)) = true).
    rewrite IH. by destruct c as [[] [] [] [] [] [] [] []].
Qed.

Lemma unbits_bits p : unbits (bits p) = Some p.
Proof. induction p as [p IH|p IH|]; simpl; [by rewrite IH..|done]. Qed.

#[local] Instance toy_chrono_laws : ChronoLaws.
Proof.
  split; intros t _; simpl; unfold toy_print_time; rewrite unbits_bits; simpl;
    apply decode_encode.
Qed.

Fixpoint tree_to_value_to_tree (v : Value) : tree_to_value (value_to_tree v) = v.
Proof.
  destruct v as [|b|n|s|l|l]; simpl; try done; f_equal.
  - induction l as [|v l IH]; simpl; [done|]. f_equal; [|done]. apply tree_to_value_to_tree.
  - induction l as [|[k v] l IH]; simpl; [done|]. f_equal; [|done].
    f_equal. apply tree_to_value_to_tree.
Qed.

#[local] Instance toy_serde_json_laws : SerdeJsonLaws.
Proof.
  split.
  - intros v. eexists. reflexivity.
  - intros v w s. simpl. intros [= <-] [= Hvw].
    apply (f_equal unbits) in Hvw. rewrite !unbits_bits in Hvw.
    assert (value_to_tree v = value_to_tree w) as Ht by (apply (inj encode); congruence).
    by rewrite <-(tree_to_value_to_tree v), Ht, tree_to_value_to_tree.
  - intros v s _. simpl. intros [= <-]. rewrite unbits_bits. simpl.
    rewrite decode_encode. simpl. by rewrite tree_to_value_to_tree.
Qed.

#[local] Instance toy_base64_laws : Base64Laws.
Proof. done. Qed.

#[local] Instance toy_ssh_key_laws : SshKeyLaws.
Proof.
  split.
  - done.
  - intros b s [= <-]. done.
  - intros b. eexists. reflexivity.
Qed.

#[local] Instance toy_ed25519_laws : Ed25519Laws.
Proof.
  split; intros; simpl; [done|apply length_pad64|].
  by apply bool_decide_eq_true.
Qed.

(** Certificates that carry their view and their signer; a private key is a seed and, when
    it is encrypted, its passphrase. *)
Definition toy_view_with (v : CertView pubkey) (serial : Z) (t : CertType) (key_id : string)
    (principals : list string) (ext : gmap string string) (comment : string) : CertView pubkey :=
  MkCertView _ (cv_public_key v) serial t key_id principals (cv_valid_after v)
    (cv_valid_before v) ext comment.

#[local] Instance toy_ssh_cert : SshCert := {
  privkey := string * option string;
  private_public k := (true, k.1);
  private_algorithm _ := "ssh-ed25519";
  private_is_ed25519 _ := true;
  private_from_openssh s :=
    match unbits s ≫= decode with Some k => Ok k | None => Err "format" end;
  private_to_openssh k := Ok (bits (encode k));
  is_encrypted k := match k.2 with Some _ => true | None => false end;
  decrypt p k := if bool_decide (k.2 = Some p) then Some (k.1, None) else None;
  encrypt _ p k := Ok (k.1, Some p);
  from_openssh_error _ := "format";
  to_openssh_error _ := "format";
  builder := CertView pubkey;
  new_with_random_nonce _ k a b :=
    if (a <=? b)%Z then Ok (MkCertView _ k 0 CertUser "" [] a b ∅ "") else Err "window";
  builder_serial n v := Ok (toy_view_with v n (cv_cert_type v) (cv_key_id v)
    (cv_valid_principals v) (cv_extensions v) (cv_comment v));
  builder_key_id i v := Ok (toy_view_with v (cv_serial v) (cv_cert_type v) i
    (cv_valid_principals v) (cv_extensions v) (cv_comment v));
  builder_cert_type t v := Ok (toy_view_with v (cv_serial v) t (cv_key_id v)
    (cv_valid_principals v) (cv_extensions v) (cv_comment v));
  builder_valid_principal p v := Ok (toy_view_with v (cv_serial v) (cv_cert_type v) (cv_key_id v)
    (cv_valid_principals v ++ [p]) (cv_extensions v) (cv_comment v));
  builder_comment c v := Ok (toy_view_with v (cv_serial v) (cv_cert_type v) (cv_key_id v)
    (cv_valid_principals v) (cv_extensions v) c);
  builder_extension n d v := Ok (toy_view_with v (cv_serial v) (cv_cert_type v) (cv_key_id v)
    (cv_valid_principals v) (<[n := d]> (cv_extensions v)) (cv_comment v));
  ssh_certificate := CertView pubkey * string;
  builder_sign k v := Ok (v, fingerprint_sha256 (true, k.1));
  cert_to_openssh c :=
    Ok ("cert " +:+ str_concat (cv_valid_principals c.1) +:+ " by " +:+ c.2);
  cert_view c := c.1;
  cert_validate_at t fps c :=
    bool_decide (c.2 ∈ fps) && in_range (cv_valid_after c.1) (cv_valid_before c.1 - 1) t;
  builder_view v := v;
}.

#[local] Instance toy_ssh_cert_laws : SshCertLaws.
Proof.
  split; try (intros; match goal with Hx : _ = Ok _ |- _ => cbn in Hx; apply Ok_inj in Hx as <- end;
    done).
  - intros rng k a b bd. simpl. case_match; [|done]. by intros [= <-].
  - intros k v c t Hs Ht. cbn in Hs, Ht. apply Ok_inj in Hs as <-. simpl in *.
    rewrite bool_decide_true by set_solver.
    unfold in_range. simpl. apply andb_true_iff. rewrite !Z.leb_le. lia.
  - intros rng p [seed [q|]] e s Hk He Hs; [done|]. cbn in He, Hs.
    apply Ok_inj in He as <-. apply Ok_inj in Hs as <-. simpl.
    rewrite unbits_bits. simpl. by rewrite decode_encode, bool_decide_true.
Qed.
