(* ===== verification/Sha2.v ===== *)
(** * SHA-256, base64 and hexadecimal, executable

    The hash, the codec and the hexadecimal rendering that the sources take from
    crates are parameters of the development.  This file gives the functions the
    standards define (FIPS 180-4, RFC 4648), shows that they satisfy the laws the
    theorems assume of the parameters, and checks them on the standards' own
    examples, so that the protocol vectors of the repository can be computed. *)
From S2P Require Import Prelude External.

(** ** Words *)
Definition w32 (z : Z) : Z := Z.land z 4294967295.
Definition add32 (a b : Z) : Z := w32 (a + b).
Definition rotr (n x : Z) : Z := Z.lor (Z.shiftr x n) (w32 (Z.shiftl x (32 - n))).

Definition Ch (x y z : Z) : Z := Z.lxor (Z.land x y) (Z.land (Z.lxor x 4294967295) z).
Definition Maj (x y z : Z) : Z := Z.lxor (Z.lxor (Z.land x y) (Z.land x z)) (Z.land y z).
Definition Sigma0 (x : Z) : Z := Z.lxor (Z.lxor (rotr 2 x) (rotr 13 x)) (rotr 22 x).
Definition Sigma1 (x : Z) : Z := Z.lxor (Z.lxor (rotr 6 x) (rotr 11 x)) (rotr 25 x).
Definition sigma0 (x : Z) : Z := Z.lxor (Z.lxor (rotr 7 x) (rotr 18 x)) (Z.shiftr x 3).
Definition sigma1 (x : Z) : Z := Z.lxor (Z.lxor (rotr 17 x) (rotr 19 x)) (Z.shiftr x 10).

(** ** Constants

    The standard defines them by the first primes: the first 32 bits of the fractional
    parts of their cube roots, and of the square roots of the first eight. *)
Definition is_prime (n : nat) : bool :=
  forallb (λ d, negb (n mod d =? 0)%nat) (seq 2 (n - 2)).
Definition first_primes (count : nat) : list Z :=
  Z.of_nat <$> take count (List.filter is_prime (seq 2 310)).

(** The largest [r] with [r ^ 3 <= n], bit by bit from above. *)
Fixpoint cube_root (bits : nat) (r n : Z) : Z :=
  match bits with
  | O => r
  | S bits =>
      let c := (r + 2 ^ Z.of_nat bits)%Z in
      cube_root bits (if (c * c * c <=? n)%Z then c else r) n
  end.

Definition K256 : list Z :=
  Eval vm_compute in (λ p, w32 (cube_root 40 0 (p * 2 ^ 96))) <$> first_primes 64.
Definition H256 : list Z :=
  Eval vm_compute in (λ p, w32 (Z.sqrt (p * 2 ^ 64))) <$> first_primes 8.

(** ** Padding and blocks *)

(** The low [n] bytes of [z], most significant first. *)
Fixpoint be_bytes (n : nat) (z : Z) : list Z :=
  match n with
  | O => []
  | S n => be_bytes n (Z.shiftr z 8) ++ [Z.land z 255]
  end.

Definition pad (m : list Z) : list Z :=
  let n := Z.of_nat (length m) in
  m ++ [128%Z] ++ repeat 0%Z (Z.to_nat ((55 - n) mod 64)) ++ be_bytes 8 (8 * n).

Fixpoint words (l : list Z) : list Z :=
  match l with
  | a :: b :: c :: d :: l =>
      Z.lor (Z.lor (Z.shiftl a 24) (Z.shiftl b 16)) (Z.lor (Z.shiftl c 8) d) :: words l
  | _ => []
  end.

(** ** Compression *)

(** One round on the working variables. *)
Definition round (st : list Z) (kw : Z * Z) : list Z :=
  match st with
  | [a; b; c; d; e; f; g; h] =>
      let t1 := add32 h (add32 (Sigma1 e) (add32 (Ch e f g) (add32 kw.1 kw.2))) in
      let t2 := add32 (Sigma0 a) (Maj a b c) in
      [add32 t1 t2; a; b; c; add32 d t1; e; f; g]
  | _ => st
  end.

(** The next [n] words of the schedule from the last sixteen. *)
Fixpoint schedule (n : nat) (w : list Z) : list Z :=
  match n with
  | O => w
  | S n =>
      match w with
      | w0 :: ((w1 :: w2 :: w3 :: w4 :: w5 :: w6 :: w7 :: w8 :: w9 :: w10 :: w11 :: w12 :: w13
              :: w14 :: w15 :: []) as rest) =>
          w0 :: schedule n (rest ++
                  [add32 (sigma1 w14) (add32 w9 (add32 (sigma0 w1) w0))])
      | _ => w
      end
  end.

Definition compress (h : list Z) (block : list Z) : list Z :=
  zip_with add32 h (foldl round h (zip K256 (schedule 48 block))).

(** Sixteen words at a time; [fuel] is the number of words. *)
Fixpoint absorb (fuel : nat) (h : list Z) (w : list Z) : list Z :=
  match fuel, w with
  | S fuel, _ :: _ => absorb fuel (compress h (take 16 w)) (drop 16 w)
  | _, _ => h
  end.

Definition sha256_words (m : list Z) : list Z :=
  let w := words (pad m) in absorb (length w) H256 w.

(** ** Hexadecimal *)
Definition hex_byte (b : Z) : string :=
  String (hex_digit (Z.shiftr b 4)) (String (hex_digit (Z.land b 15)) "").
Definition hex_word (w : Z) : string := str_concat (hex_byte <$> be_bytes 4 w).

#[local] Instance fips_sha256 : Sha256 := λ s, str_concat (hex_word <$> sha256_words (as_bytes s)).
#[local] Instance rfc_hex : HexEncode := λ s, str_concat (hex_byte <$> as_bytes s).

(** The examples of the standard. *)
Lemma sha256_empty :
  sha256_hex "" = "e3b0c44298fc1c149afbf4c8996fb92427ae41e4649b934ca495991b7852b855".
Proof. vm_compute. reflexivity. Qed.
Lemma sha256_abc :
  sha256_hex "abc" = "ba7816bf8f01cfea414140de5dae2223b00361a396177a9cb410ff61f20015ad".
Proof. vm_compute. reflexivity. Qed.
Lemma sha256_two_blocks :
  sha256_hex "abcdbcdecdefdefgefghfghighijhijkijkljklmklmnlmnomnopnopq" =
  "248d6a61d20638b8e5c026930c3e6039a33ce45964ff2167f6ecedd419db06c1".
Proof. vm_compute. reflexivity. Qed.

(** ** The laws *)
Lemma round_length st kw : length st = 8 → length (round st kw) = 8.
Proof. by destruct st as [|? [|? [|? [|? [|? [|? [|? [|? [|? ?]]]]]]]]]. Qed.

Lemma compress_length h block : length h = 8 → length (compress h block) = 8.
Proof.
  intros Hh. unfold compress. rewrite length_zip_with.
  assert (∀ l st, length st = 8 → length (foldl round st l) = 8) as Hf.
  { intros l. induction l as [|kw l IH]; intros st Hst; [done|]. by apply IH, round_length. }
  by rewrite Hf, Hh.
Qed.

Lemma sha256_words_length m : length (sha256_words m) = 8.
Proof.
  unfold sha256_words.
  assert (∀ n h w, length h = 8 → length (absorb n h w) = 8) as Ha; [|by apply Ha].
  intros n. induction n as [|n IH]; intros h w Hh; [done|]. destruct w as [|x w]; [done|].
  by apply IH, compress_length.
Qed.

Lemma str_concat_length (l : list string) n :
  (∀ s, s ∈ l → String.length s = n) → String.length (str_concat l) = length l * n.
Proof.
  induction l as [|s l IH]; intros Hl; [done|]. simpl. rewrite length_string_app, IH by set_solver.
  rewrite Hl by set_solver. lia.
Qed.

Lemma hex_word_length w : String.length (hex_word w) = 8.
Proof. done. Qed.

#[local] Instance fips_sha256_laws : Sha256Laws.
Proof.
  intros s. unfold sha256_hex, fips_sha256. rewrite (str_concat_length _ 8).
  - by rewrite length_fmap, sha256_words_length.
  - intros x (w & -> & _)%list_elem_of_fmap. apply hex_word_length.
Qed.

Lemma hex_digit_alphanumeric n :
  (0 <= n < 16)%Z → is_ascii_alphanumeric (hex_digit n) = true.
Proof.
  intros Hn. assert (forallb (λ k, is_ascii_alphanumeric (hex_digit (Z.of_nat k))) (seq 0 16) = true)
    as Hall by (vm_compute; reflexivity).
  rewrite forallb_forall in Hall. specialize (Hall (Z.to_nat n)). rewrite Z2Nat.id in Hall by lia.
  apply Hall, in_seq. lia.
Qed.

Lemma as_bytes_range s b : b ∈ as_bytes s → (0 <= b < 256)%Z.
Proof.
  induction s as [|c s IH]; simpl; [by intros ?%not_elem_of_nil|].
  intros [->|Hb]%elem_of_cons; [|auto]. unfold byte_code. pose proof (N_ascii_bounded c). lia.
Qed.

#[local] Instance rfc_hex_laws : HexEncodeLaws.
Proof.
  split; intros s; unfold hex_encode, rfc_hex.
  - rewrite (str_concat_length _ 2).
    + rewrite length_fmap, length_as_bytes. lia.
    + by intros x (b & -> & _)%list_elem_of_fmap.
  - assert (∀ l, (∀ b, b ∈ l → (0 <= b < 256)%Z) →
      str_all is_ascii_alphanumeric (str_concat (hex_byte <$> l)) = true) as Hl.
    { intros l. induction l as [|b l IH]; intros Hb; [done|]. csimpl. rewrite str_all_app.
      rewrite IH, andb_true_r by set_solver. unfold hex_byte. simpl.
      assert (0 <= b < 256)%Z by set_solver.
      rewrite Z.shiftr_div_pow2 by lia. change 15%Z with (Z.ones 4). rewrite Z.land_ones by lia.
      change (2 ^ 4)%Z with 16%Z.
      rewrite !hex_digit_alphanumeric; [done|..].
      - apply Z.mod_pos_bound. lia.
      - split; [apply Z.div_pos; lia|apply Z.div_lt_upper_bound; lia]. }
    apply Hl, as_bytes_range.
Qed.

(** ** Base64 *)
Definition B64_ALPHABET : string :=
  "ABCDEFGHIJKLMNOPQRSTUVWXYZabcdefghijklmnopqrstuvwxyz0123456789+/".

Definition b64_char (n : Z) : ascii := default "="%char (String.get (Z.to_nat n) B64_ALPHABET).

Definition b64_value (c : ascii) : option Z :=
  let z := byte_code c in
  if in_range 65 90 z then Some (z - 65)%Z
  else if in_range 97 122 z then Some (z - 71)%Z
  else if in_range 48 57 z then Some (z + 4)%Z
  else if (z =? 43)%Z then Some 62%Z
  else if (z =? 47)%Z then Some 63%Z
  else None.

Definition chr (z : Z) : ascii := ascii_of_N (Z.to_N z).

Fixpoint b64_groups (s : string) : string :=
  match s with
  | "" => ""
  | String x "" =>
      let a := byte_code x in
      String (b64_char (a `div` 4)) (String (b64_char (a `mod` 4 * 16)) "==")
  | String x (String y "") =>
      let a := byte_code x in let b := byte_code y in
      String (b64_char (a `div` 4)) (String (b64_char (a `mod` 4 * 16 + b `div` 16))
        (String (b64_char (b `mod` 16 * 4)) "="))
  | String x (String y (String z s)) =>
      let a := byte_code x in let b := byte_code y in let c := byte_code z in
      String (b64_char (a `div` 4)) (String (b64_char (a `mod` 4 * 16 + b `div` 16))
        (String (b64_char (b `mod` 16 * 4 + c `div` 64))
          (String (b64_char (c `mod` 64)) (b64_groups s))))
  end%Z.

(** Padding is required and canonical, and no bit is left over. *)
Fixpoint b64_ungroup (s : string) : option string :=
  match s with
  | "" => Some ""
  | String p (String q (String r (String t rest))) =>
      v1 ← b64_value p; v2 ← b64_value q;
      let a := chr (v1 * 4 + v2 `div` 16) in
      if bool_decide (r = "="%char ∧ t = "="%char ∧ rest = "") then
        if (v2 `mod` 16 =? 0)%Z then Some (String a "") else None
      else
        v3 ← b64_value r;
        let b := chr (v2 `mod` 16 * 16 + v3 `div` 4) in
        if bool_decide (t = "="%char ∧ rest = "") then
          if (v3 `mod` 4 =? 0)%Z then Some (String a (String b "")) else None
        else
          v4 ← b64_value t;
          let c := chr (v3 `mod` 4 * 64 + v4) in
          tail ← b64_ungroup rest;
          Some (String a (String b (String c tail)))
  | _ => None
  end%Z.

#[local] Instance rfc_base64 : Base64 := { b64_encode := b64_groups; b64_decode := b64_ungroup }.

Lemma b64_value_char n : (0 <= n < 64)%Z → b64_value (b64_char n) = Some n.
Proof.
  intros Hn.
  assert (forallb (λ k, bool_decide (b64_value (b64_char (Z.of_nat k)) = Some (Z.of_nat k)))
    (seq 0 64) = true) as Hall by (vm_compute; reflexivity).
  rewrite forallb_forall in Hall. specialize (Hall (Z.to_nat n)). rewrite Z2Nat.id in Hall by lia.
  eapply bool_decide_eq_true_1, Hall, in_seq. lia.
Qed.

(** No digit is the padding character. *)
Lemma b64_char_pad n : (0 <= n < 64)%Z → b64_char n ≠ "="%char.
Proof. intros Hn Heq. pose proof (b64_value_char n Hn) as Hv. by rewrite Heq in Hv. Qed.

Lemma chr_byte c : chr (byte_code c) = c.
Proof. unfold chr, byte_code. rewrite N2Z.id. apply ascii_N_embedding. Qed.

Lemma byte_range c : (0 <= byte_code c < 256)%Z.
Proof. unfold byte_code. pose proof (N_ascii_bounded c). lia. Qed.

(** Induction by groups of three bytes. *)
Lemma string_ind3 (P : string → Prop) :
  P "" → (∀ x, P (String x "")) → (∀ x y, P (String x (String y ""))) →
  (∀ x y z s, P s → P (String x (String y (String z s)))) → ∀ s, P s.
Proof.
  intros H0 H1 H2 H3. fix IH 1. intros [|x [|y [|z s]]]; [done|apply H1|apply H2|]. apply H3, IH.
Qed.

(** Linear arithmetic with division by constants. *)
Ltac div_lia := Z.to_euclidean_division_equations; lia.

#[local] Instance rfc_base64_laws : Base64Laws.
Proof.
  intros s. simpl. induction s as [|x|x y|x y z s IH] using string_ind3; [done|..];
    pose proof (byte_range x) as Hx; try pose proof (byte_range y) as Hy;
    try pose proof (byte_range z) as Hz;
    assert (0 <= byte_code x `div` 4 < 64)%Z by div_lia; simpl.
  - rewrite !b64_value_char by div_lia. simpl. rewrite ?bool_decide_true by done.
    replace ((byte_code x `mod` 4 * 16) `mod` 16)%Z with 0%Z by div_lia. simpl.
    replace (byte_code x `div` 4 * 4 + (byte_code x `mod` 4 * 16) `div` 16)%Z with (byte_code x) by div_lia.
    by rewrite chr_byte.
  - rewrite !b64_value_char by div_lia. simpl.
    rewrite bool_decide_false by (intros [Hp _]; by apply b64_char_pad in Hp; div_lia).
    rewrite ?b64_value_char by div_lia. simpl. rewrite ?bool_decide_true by done.
    replace ((byte_code y `mod` 16 * 4) `mod` 4)%Z with 0%Z by div_lia. simpl.
    replace (byte_code x `div` 4 * 4 + (byte_code x `mod` 4 * 16 + byte_code y `div` 16) `div` 16)%Z
      with (byte_code x) by div_lia.
    replace ((byte_code x `mod` 4 * 16 + byte_code y `div` 16) `mod` 16 * 16 +
             (byte_code y `mod` 16 * 4) `div` 4)%Z with (byte_code y) by div_lia.
    by rewrite !chr_byte.
  - rewrite !b64_value_char by div_lia. simpl.
    rewrite bool_decide_false by (intros [Hp _]; by apply b64_char_pad in Hp; div_lia).
    rewrite ?b64_value_char by div_lia. simpl.
    rewrite bool_decide_false by (intros [Hp _]; by apply b64_char_pad in Hp; div_lia).
    rewrite ?b64_value_char by div_lia. simpl. rewrite IH. simpl.
    replace (byte_code x `div` 4 * 4 + (byte_code x `mod` 4 * 16 + byte_code y `div` 16) `div` 16)%Z
      with (byte_code x) by div_lia.
    replace ((byte_code x `mod` 4 * 16 + byte_code y `div` 16) `mod` 16 * 16 +
             (byte_code y `mod` 16 * 4 + byte_code z `div` 64) `div` 4)%Z with (byte_code y) by div_lia.
    replace ((byte_code y `mod` 16 * 4 + byte_code z `div` 64) `mod` 4 * 64 + byte_code z `mod` 64)%Z
      with (byte_code z) by div_lia.
    by rewrite !chr_byte.
Qed.

(** The examples of RFC 4648. *)
Lemma base64_examples :
  b64_encode <$> ["f"; "fo"; "foo"; "foob"; "fooba"; "foobar"] =
  ["Zg=="; "Zm8="; "Zm9v"; "Zm9vYg=="; "Zm9vYmE="; "Zm9vYmFy"] ∧
  b64_decode <$> ["Zh=="; "Zg="; "Zg"; "Z g="] = [None; None; None; None].
Proof. vm_compute. split; reflexivity. Qed.
