(* ===== verification/Testing.v ===== *)
(** * Unit tests as programs

    What the files [TestsMachines], [TestsAudit], [TestsBundle], [TestsAgent], [TestsFleet]
    and [TestsStartup] share: the assertions of the [tests] modules of the source, and a
    test as a program over a freshly migrated database that fails with the message of
    the step that went wrong. *)
From S2P Require Import Prelude External Errors Database Toy Sha2.

Abbreviation test := (M World string unit).

(** [.expect(..)], [.expect_err(..)] and [assert!]. *)
Definition expect {E A} (what : string) (m : M World E A) : M World string A :=
  with_err (λ _, what) m.
Definition expect_err {E A} (what : string) (m : M World E A) : M World string E := λ w,
  match m w with
  | (Ok _, w') => (Err what, w')
  | (Err e, w') => (Ok e, w')
  end.
Definition present {A} (what : string) (o : option A) : M World string A := lift (ok_or what o).
Definition assert (what : string) (b : bool) : M World string unit := ensure b what.

Definition test_passes (t : test) : bool := is_ok (t empty_world).1.

(** The loops of the tests. *)
Fixpoint for_each {A} (l : list A) (f : A → test) : test :=
  match l with
  | [] => ret tt
  | x :: l => _ ← f x; for_each l f
  end.

(** 2026-06-24T12:00:00Z, and so many seconds after it. *)
Definition at_ (s : Z) : Z := seconds (1782302400 + s).

(** ** A signature scheme for the tests

    The tests change a signed message somewhere and expect the signature to fail.  The
    checksum below sees every byte of key and message, and the public key is the seed
    in hexadecimal, so that it can be part of a text; it satisfies the laws of
    [Ed25519] and nothing is claimed of its strength. *)
Definition checksum (s : string) : Z :=
  foldl (λ acc b, (acc * 257 + b + 1) `mod` (2 ^ 61 - 1))%Z 0%Z (as_bytes s).

Definition tag (key msg : string) : string := pad64 (display_int (checksum (key +:+ msg))).

#[local] Instance tag_ed25519 : Ed25519 := {
  verifying_key_ok _ := true;
  verify_strict pk msg sig := bool_decide (sig = tag pk msg);
  dalek_sign seed := tag (rfc_hex seed);
  dalek_public := rfc_hex;
}.

#[local] Instance tag_ed25519_laws : Ed25519Laws.
Proof.
  split; [done|intros; apply length_pad64|]. intros seed msg. by apply bool_decide_eq_true.
Qed.

(** [[byte; 32]], and the OpenSSH text of the public key of such a seed. *)
Definition seed_of (n : nat) : string := str_replicate 32 (byte_of n).
Definition openssh_public `{SshKey, Ed25519} (n : nat) : string :=
  default "" (to_openssh (from_ed25519 (dalek_public (seed_of n)))).

(** [str::starts_with] and [str::contains]. *)
Definition starts_with (p s : string) : bool := bool_decide (strip_prefix p s ≠ None).
Definition contains (p s : string) : bool := bool_decide (String.index 0 p s ≠ None).
