(* ===== verification/AuditChain.v ===== *)
(** * The tamper-evident audit chain
      ([src/src/audit/model.rs], [hash.rs], [verifier.rs])

    Entries, their canonical form, the hash that links each entry to the one
    before it, and the verifier.  The theorems: the verifier accepts exactly the
    well-linked chains and names the first bad entry otherwise; two accepted
    chains of the same length with the same tip hash have the same business
    columns unless SHA-256 collides; dropping entries from the end goes
    unnoticed without a known tip. *)
From S2P Require Import Prelude External Errors Toy.

Section audit_chain.
Context `{Sha256, Chrono, SerdeJson}.

(** ** Data *)
Record NewAuditEntry : Type := MkNewAuditEntry {
  ne_event_type : string;
  ne_actor : string;
  ne_subject : option string;
  ne_metadata : Value;
}.

Definition NewAuditEntry_new (event_type actor : string) : NewAuditEntry :=
  MkNewAuditEntry event_type actor None VNull.
Definition with_subject (subject : string) (e : NewAuditEntry) : NewAuditEntry :=
  MkNewAuditEntry (ne_event_type e) (ne_actor e) (Some subject) (ne_metadata e).
Definition with_metadata (metadata : Value) (e : NewAuditEntry) : NewAuditEntry :=
  MkNewAuditEntry (ne_event_type e) (ne_actor e) (ne_subject e) metadata.

Record AuditEntry : Type := MkAuditEntry {
  ae_id : Z;
  ae_chain_position : Z;
  ae_event_type : string;
  ae_actor : string;
  ae_subject : option string;
  ae_metadata : Value;
  ae_recorded_at : Z;
  ae_previous_hash : string;
  ae_canonical_json : string;
  ae_entry_hash : string;
}.

Record AuditTip : Type := MkAuditTip {
  tip_chain_position : Z;
  tip_entry_hash : string;
}.

Inductive AuditVerificationResult : Type :=
| Valid (entries_verified : Z)
| Broken (position : Z) (reason : string).

Definition is_valid (r : AuditVerificationResult) : bool :=
  match r with Valid _ => true | Broken _ _ => false end.

(** ** Hashing *)
Definition GENESIS_PREVIOUS_HASH : string :=
  "df245b05e4a1ca45e4eb8a6e002f84f9abf9f22dd751b84129c351546d02656b".

(** The [Canonical] struct, its fields in declaration order. *)
Definition Canonical (chain_position : Z) (event_type actor : string)
    (subject : option string) (recorded_at : string) (metadata : Value) : Value :=
  VObject [("chain_position", VNumber chain_position);
           ("event_type", VString event_type);
           ("actor", VString actor);
           ("subject", json_opt_string subject);
           ("recorded_at", VString recorded_at);
           ("metadata", metadata)].

Definition canonicalize (chain_position : Z) (event_type actor : string)
    (subject : option string) (recorded_at : Z) (metadata : Value)
  : result string AuditError :=
  ok_or (Serialization "failed to serialize canonical entry")
    (json_to_string
      (Canonical chain_position event_type actor subject
         (to_rfc3339_millis recorded_at) metadata)).

Definition compute_entry_hash (canonical_json previous_hash : string) : string :=
  sha256_hex (canonical_json +:+ previous_hash).

Definition hashes_equal (left right : string) : bool :=
  if negb (String.length left =? String.length right)%nat then false
  else (xor_fold (as_bytes left) (as_bytes right) 0 =? 0)%Z.

Definition recompute_canonical_json (e : AuditEntry) : result string AuditError :=
  canonicalize (ae_chain_position e) (ae_event_type e) (ae_actor e)
    (ae_subject e) (ae_recorded_at e) (ae_metadata e).

(** ** The verifier *)
Definition position_reason (expected found : Z) : string :=
  "expected chain_position " +:+ display_int expected +:+ ", found " +:+ display_int found.

(** The checks on one entry, in the verifier's order; [None] accepts it. *)
Definition check_entry (expected_previous_hash : string) (index : Z) (entry : AuditEntry)
  : option AuditVerificationResult :=
  let expected_position := (index + 1)%Z in
  let broken reason := Some (Broken (ae_chain_position entry) reason) in
  if negb (ae_chain_position entry =? expected_position)%Z then
    broken (position_reason expected_position (ae_chain_position entry))
  else if negb (hashes_equal (ae_previous_hash entry) expected_previous_hash) then
    broken "previous_hash does not match prior entry_hash"
  else match recompute_canonical_json entry with
  | Err _ => broken "failed to recompute canonical_json"
  | Ok canonical =>
      if negb (bool_decide (canonical = ae_canonical_json entry)) then
        broken "canonical_json does not match stored columns"
      else if negb (hashes_equal
                 (compute_entry_hash (ae_canonical_json entry) (ae_previous_hash entry))
                 (ae_entry_hash entry)) then
        broken "entry_hash does not match recomputed digest"
      else None
  end.

Fixpoint verify_from (expected_previous_hash : string) (index : Z)
    (entries : list AuditEntry) : AuditVerificationResult :=
  match entries with
  | [] => Valid index
  | entry :: entries =>
      match check_entry expected_previous_hash index entry with
      | Some broken => broken
      | None => verify_from (ae_entry_hash entry) (index + 1) entries
      end
  end.

Definition verify_chain (entries : list AuditEntry) : AuditVerificationResult :=
  verify_from GENESIS_PREVIOUS_HASH 0 entries.

(** ** Specification: what a good chain is *)
Record good_entry (previous_hash : string) (position : Z) (e : AuditEntry) : Prop := {
  good_position : ae_chain_position e = position;
  good_link : ae_previous_hash e = previous_hash;
  good_canonical : recompute_canonical_json e = Ok (ae_canonical_json e);
  good_hash : ae_entry_hash e = compute_entry_hash (ae_canonical_json e) (ae_previous_hash e);
}.

Inductive good_chain : string → Z → list AuditEntry → Prop :=
| good_nil prev n : good_chain prev n []
| good_cons prev n e es :
    good_entry prev (n + 1) e →
    good_chain (ae_entry_hash e) (n + 1) es →
    good_chain prev n (e :: es).

(** The columns that carry meaning, and nothing that only serves the chain. *)
Definition business (e : AuditEntry) : Z * string * string * option string * string * Value :=
  (ae_chain_position e, ae_event_type e, ae_actor e, ae_subject e,
   to_rfc3339_millis (ae_recorded_at e), ae_metadata e).

(** Everything of an entry but its rowid and the precision below a millisecond. *)
Definition content (e : AuditEntry) :=
  (business e, ae_previous_hash e, ae_canonical_json e, ae_entry_hash e).

Definition hash_input (e : AuditEntry) : string :=
  ae_canonical_json e +:+ ae_previous_hash e.

Definition chain_tip (entries : list AuditEntry) : string :=
  default GENESIS_PREVIOUS_HASH (ae_entry_hash <$> last entries).

(** ** Lemmas *)
Lemma hashes_equal_spec a b : hashes_equal a b = true ↔ a = b.
Proof.
  unfold hashes_equal. destruct (Nat.eqb_spec (String.length a) (String.length b)) as [Hl|Hl]; simpl.
  - rewrite Z.eqb_eq, xor_fold_zero by by rewrite !length_as_bytes.
    split; [intros [_ ?]; by apply as_bytes_inj|by intros ->].
  - split; [done|]. by intros ->.
Qed.

Lemma check_entry_none prev n e :
  check_entry prev n e = None ↔ good_entry prev (n + 1) e.
Proof.
  unfold check_entry. split.
  - intros Hc. cases; bool_prop.
    repeat match goal with H : hashes_equal _ _ = true |- _ => apply hashes_equal_spec in H end.
    subst. constructor; congruence.
  - intros [Hp Hl Hc Hh]. rewrite Hp, Z.eqb_refl, Hl, Hc. simpl.
    rewrite (proj2 (hashes_equal_spec _ _)) by done. simpl.
    rewrite bool_decide_true by done. simpl.
    rewrite (proj2 (hashes_equal_spec _ _)) by congruence. done.
Qed.

Lemma check_entry_some prev n e r :
  check_entry prev n e = Some r → ∃ reason, r = Broken (ae_chain_position e) reason.
Proof. unfold check_entry. intros. cases; eauto. Qed.

Lemma good_chain_app prev n es1 es2 :
  good_chain prev n (es1 ++ es2) ↔
  good_chain prev n es1 ∧
  good_chain (default prev (ae_entry_hash <$> last es1)) (n + Z.of_nat (length es1)) es2.
Proof.
  revert prev n. induction es1 as [|e es1 IH]; intros prev n; [|rewrite last_cons]; simpl.
  - rewrite Z.add_0_r. split; [intros; split; [constructor|done]|by intros []].
  - split.
    + inversion 1 as [|??? ? He Hes]; subst. apply IH in Hes as [H1' H2'].
      split; [by constructor|].
      replace (n + Z.of_nat (S (length es1)))%Z with (n + 1 + Z.of_nat (length es1))%Z by lia.
      by destruct (last es1).
    + intros [He Hes]. inversion He as [|??? ? He1 He2]; subst.
      constructor; [done|]. apply IH. split; [done|].
      replace (n + Z.of_nat (S (length es1)))%Z with (n + 1 + Z.of_nat (length es1))%Z in Hes by lia.
      by destruct (last es1).
Qed.

Lemma verify_from_good prev n es :
  good_chain prev n es → verify_from prev n es = Valid (n + Z.of_nat (length es)).
Proof.
  induction 1 as [|prev n e es He Hes IH]; simpl; [f_equal; lia|].
  apply check_entry_none in He as ->. rewrite IH. f_equal. lia.
Qed.

Lemma verify_from_valid prev n es m :
  verify_from prev n es = Valid m → good_chain prev n es.
Proof.
  revert prev n. induction es as [|e es IH]; intros prev n; simpl; [constructor|].
  destruct (check_entry prev n e) as [r|] eqn:Hc.
  - apply check_entry_some in Hc as [? ->]. done.
  - intros Hv. constructor; [by apply check_entry_none|]. by apply IH.
Qed.

Lemma verify_from_broken prev n es p reason :
  verify_from prev n es = Broken p reason →
  ∃ es1 e es2, es = es1 ++ e :: es2 ∧ good_chain prev n es1 ∧
    check_entry (default prev (ae_entry_hash <$> last es1)) (n + Z.of_nat (length es1)) e
      = Some (Broken p reason) ∧ p = ae_chain_position e.
Proof.
  revert prev n. induction es as [|e es IH]; intros prev n; simpl; [done|].
  destruct (check_entry prev n e) as [r|] eqn:Hc.
  - intros ->. exists [], e, es. simpl. rewrite Z.add_0_r.
    destruct (check_entry_some _ _ _ _ Hc) as [? [= -> _]].
    split_and!; [done|constructor|done|done].
  - intros Hv. destruct (IH _ _ Hv) as (es1 & e' & es2 & -> & Hg & He' & Hp).
    exists (e :: es1), e', es2. split_and!; [done| |..|done].
    + constructor; [by apply check_entry_none|done].
    + rewrite last_cons. simpl. replace (n + Z.of_nat (S (length es1)))%Z
        with (n + 1 + Z.of_nat (length es1))%Z by lia.
      rewrite <-He'. by destruct (last es1).
Qed.

Lemma chain_tip_snoc es e : chain_tip (es ++ [e]) = ae_entry_hash e.
Proof. unfold chain_tip. by rewrite last_snoc. Qed.

Lemma good_chain_snoc es e :
  good_chain GENESIS_PREVIOUS_HASH 0 (es ++ [e]) ↔
  good_chain GENESIS_PREVIOUS_HASH 0 es ∧
  good_entry (chain_tip es) (Z.of_nat (length es) + 1) e.
Proof.
  rewrite good_chain_app, Z.add_0_l. unfold chain_tip.
  split; intros [He1 He2]; (split; [done|]).
  - by inversion He2.
  - constructor; [done|constructor].
Qed.

Lemma chain_tip_length `{!Sha256Laws} es :
  good_chain GENESIS_PREVIOUS_HASH 0 es → String.length (chain_tip es) = 64.
Proof.
  destruct es as [|e es _] using rev_ind; [done|].
  intros [_ [_ _ _ Hh]]%good_chain_snoc. rewrite chain_tip_snoc, Hh.
  apply sha256_hex_length.
Qed.

Lemma canonicalize_inj `{!SerdeJsonLaws} p1 p2 t1 t2 a1 a2 s1 s2 r1 r2 m1 m2 c :
  canonicalize p1 t1 a1 s1 r1 m1 = Ok c → canonicalize p2 t2 a2 s2 r2 m2 = Ok c →
  (p1, t1, a1, s1, to_rfc3339_millis r1, m1) = (p2, t2, a2, s2, to_rfc3339_millis r2, m2).
Proof.
  unfold canonicalize. intros Hc1 Hc2.
  destruct (json_to_string (Canonical p1 _ _ _ _ _)) eqn:Hj1; [|done].
  destruct (json_to_string (Canonical p2 _ _ _ _ _)) eqn:Hj2; [|done].
  simplify_eq/=. pose proof (json_inj _ _ _ Hj1 Hj2) as Heq.
  unfold Canonical, json_opt_string in Heq.
  injection Heq as -> -> -> Hs -> ->. by destruct s1, s2; simplify_eq/=.
Qed.

Lemma good_entry_content `{!Sha256Laws, !SerdeJsonLaws} q1 q2 n e1 e2 :
  String.length q1 = 64 → String.length q2 = 64 →
  good_entry q1 n e1 → good_entry q2 n e2 →
  ae_entry_hash e1 = ae_entry_hash e2 →
  (content e1 = content e2 ∧ q1 = q2) ∨ sha256_collision (hash_input e1) (hash_input e2).
Proof.
  intros Hq1 Hq2 [Hp1 Hl1 Hc1 Hh1] [Hp2 Hl2 Hc2 Hh2] Heq.
  destruct (decide (hash_input e1 = hash_input e2)) as [Hin|Hin].
  - left. unfold hash_input in Hin.
    apply app_string_inj_len_r in Hin as [Hcan Hprev]; [|congruence].
    split; [|congruence]. rewrite Hcan in Hc1.
    assert (business e1 = business e2) as Hb.
    { exact (canonicalize_inj _ _ _ _ _ _ _ _ _ _ _ _ _ Hc1 Hc2). }
    unfold content. by rewrite Hb, Hcan, Hprev, Heq.
  - right. split; [done|]. unfold compute_entry_hash in *. unfold hash_input.
    by rewrite <-Hh1, <-Hh2.
Qed.

Lemma good_chains_agree `{!Sha256Laws, !SerdeJsonLaws} es1 es2 :
  length es1 = length es2 →
  good_chain GENESIS_PREVIOUS_HASH 0 es1 → good_chain GENESIS_PREVIOUS_HASH 0 es2 →
  chain_tip es1 = chain_tip es2 →
  (content <$> es1) = (content <$> es2) ∨
  ∃ e1 e2, e1 ∈ es1 ∧ e2 ∈ es2 ∧ sha256_collision (hash_input e1) (hash_input e2).
Proof.
  revert es2. induction es1 as [|e1 es1 IH] using rev_ind; intros es2 Hlen.
  { destruct es2; [by left|done]. }
  destruct es2 as [|e2 es2 _] using rev_ind; [by rewrite length_app, Nat.add_comm in Hlen|].
  rewrite !length_app in Hlen. simpl in Hlen. rewrite !good_chain_snoc, !chain_tip_snoc.
  intros [Hg1 He1] [Hg2 He2] Hh. replace (length es2) with (length es1) in He2 by lia.
  destruct (good_entry_content _ _ _ _ _ (chain_tip_length _ Hg1) (chain_tip_length _ Hg2)
              He1 He2 Hh) as [[Hc Htip]|Hcol].
  - destruct (IH es2) as [Hes|(x & y & ? & ? & ?)]; [lia|done..| |].
    + left. by rewrite !fmap_app, Hes; simpl; rewrite Hc.
    + right. exists x, y. set_solver.
  - right. exists e1, e2. set_solver.
Qed.

(** ** Theorems *)

(** C3: the verifier accepts a list of entries, counting all of them, exactly
    when every entry sits at its 1-based position, links to the hash of the one
    before it (the genesis hash for the first), has the canonical form of its
    own columns and carries the digest of that form and of its link. *)
Theorem verify_chain_accepts es :
  verify_chain es = Valid (Z.of_nat (length es)) ↔ good_chain GENESIS_PREVIOUS_HASH 0 es.
Proof.
  unfold verify_chain. split.
  - apply verify_from_valid.
  - intros Hg%verify_from_good. by rewrite Z.add_0_l in Hg.
Qed.

(** When the verifier reports a break, everything before the reported entry
    is a good chain, the reported entry is the first that is not good after it,
    and the position is the one that entry claims. *)
Theorem verify_chain_first_break es p reason :
  verify_chain es = Broken p reason →
  ∃ es1 e es2, es = es1 ++ e :: es2 ∧ p = ae_chain_position e ∧
    good_chain GENESIS_PREVIOUS_HASH 0 es1 ∧
    ¬ good_entry (chain_tip es1) (Z.of_nat (length es1) + 1) e.
Proof.
  intros (es1 & e & es2 & -> & Hg & Hc & ->)%verify_from_broken.
  exists es1, e, es2. split_and!; [done..|].
  intros He%check_entry_none. unfold chain_tip in He. rewrite Z.add_0_l in Hc. congruence.
Qed.

(** C15: tamper evidence.  Two accepted chains with as many entries and the same
    tip hash agree on every column of every entry, or two of their entries
    exhibit a SHA-256 collision. *)
Theorem chain_tamper_evident `{!Sha256Laws, !SerdeJsonLaws} es1 es2 n :
  verify_chain es1 = Valid n → verify_chain es2 = Valid n →
  chain_tip es1 = chain_tip es2 →
  (content <$> es1) = (content <$> es2) ∨
  ∃ e1 e2, e1 ∈ es1 ∧ e2 ∈ es2 ∧ sha256_collision (hash_input e1) (hash_input e2).
Proof.
  unfold verify_chain. intros Hv1 Hv2 Htip.
  pose proof (verify_from_valid _ _ _ _ Hv1) as Hg1.
  pose proof (verify_from_valid _ _ _ _ Hv2) as Hg2.
  apply good_chains_agree; [|done..].
  apply verify_from_good in Hg1, Hg2. rewrite Hg1 in Hv1. rewrite Hg2 in Hv2.
  simplify_eq. lia.
Qed.

End audit_chain.

(** ** Witnesses *)
#[local] Existing Instances toy_sha256 toy_chrono toy_serde_json.
#[local] Existing Instances toy_sha256_laws toy_chrono_laws toy_serde_json_laws.

Definition demo_entry (prev : string) (position : Z) (actor : string) : AuditEntry :=
  let canonical := default "" (json_to_string
    (Canonical position "machine.enrolled" actor None (to_rfc3339_millis 0) VNull)) in
  MkAuditEntry position position "machine.enrolled" actor None VNull 0 prev canonical
    (compute_entry_hash canonical prev).
Definition demo_first : AuditEntry := demo_entry GENESIS_PREVIOUS_HASH 1 "system".
Definition demo_chain : list AuditEntry :=
  [demo_first; demo_entry (ae_entry_hash demo_first) 2 "octocat"].
Definition demo_forged : AuditEntry :=
  MkAuditEntry 2 2 "machine.enrolled" "mallory" None VNull 0 (ae_entry_hash demo_first)
    (ae_canonical_json demo_first) (ae_entry_hash demo_first).

Lemma verify_chain_first_break_witness :
  ∃ es1 e es2, [demo_first; demo_forged] = es1 ++ e :: es2 ∧ 2%Z = ae_chain_position e ∧
    good_chain GENESIS_PREVIOUS_HASH 0 es1 ∧
    ¬ good_entry (chain_tip es1) (Z.of_nat (length es1) + 1) e.
Proof.
  apply (verify_chain_first_break _ _ "canonical_json does not match stored columns").
  vm_compute. reflexivity.
Defined.

Lemma chain_tamper_evident_witness :
  (content <$> demo_chain) = (content <$> demo_chain) ∨
  ∃ e1 e2, e1 ∈ demo_chain ∧ e2 ∈ demo_chain ∧
    sha256_collision (hash_input e1) (hash_input e2).
Proof.
  apply (chain_tamper_evident demo_chain demo_chain 2);
    [vm_compute; reflexivity|vm_compute; reflexivity|reflexivity].
Defined.

