(* ===== verification/AuditRepo.v ===== *)
(** * Append-only persistence of the audit log
      ([src/src/audit/repository.rs], [src/src/audit/service.rs])

    The repository over the [audit_log] table and the service in front of it.
    The invariant [audit_ok] says the stored rows decode to a good chain; every
    append keeps it, whatever statements fail, and changes nothing but the end
    of the table. *)
From S2P Require Import Prelude External Errors Database AuditChain Toy.

Section audit_repository.
Context `{Sha256, Chrono, SerdeJson}.

(** ** Operations *)

(** [impl TryFrom<AuditRow> for AuditEntry]. *)
Definition audit_try_from (row : AuditRow) : result AuditEntry AuditError :=
  let? metadata := ok_or (Corrupt "invalid metadata json") (json_from_str (ar_metadata row)) in
  let? recorded_at := ok_or (Corrupt "invalid recorded_at")
                        (parse_from_rfc3339 (ar_recorded_at row)) in
  Ok {| ae_id := ar_id row;
        ae_chain_position := ar_chain_position row;
        ae_event_type := ar_event_type row;
        ae_actor := ar_actor row;
        ae_subject := ar_subject row;
        ae_metadata := metadata;
        ae_recorded_at := recorded_at;
        ae_previous_hash := ar_previous_hash row;
        ae_canonical_json := ar_canonical_json row;
        ae_entry_hash := ar_entry_hash row |}.

(** [ORDER BY chain_position ASC] and [DESC]. *)
Definition by_position_asc (a b : AuditRow) : bool :=
  (ar_chain_position a <=? ar_chain_position b)%Z.
Definition by_position_desc (a b : AuditRow) : bool :=
  (ar_chain_position b <=? ar_chain_position a)%Z.

(** [SELECT ... ORDER BY chain_position DESC LIMIT 1]. *)
Definition select_latest (d : Db) : option AuditRow :=
  head (sort_by by_position_desc (audit_log d)).

(** [INSERT INTO audit_log]: [chain_position] is unique, [id] autoincrements. *)
Definition insert_audit (row : Z → AuditRow) (d : Db) : result (Z * Db) sqlx_error :=
  let r := row (audit_next_id d) in
  if existsb (λ r', ar_chain_position r' =? ar_chain_position r)%Z (audit_log d) then
    Err (SqlDatabase "UNIQUE constraint failed: audit_log.chain_position")
  else Ok (audit_next_id d, bump_audit_id (set_audit_log (λ l, l ++ [r]) d)).

(** The position and link of the next entry, from the latest row. *)
Definition next_link (latest : option AuditRow) : Z * string :=
  match latest with
  | Some row => ((ar_chain_position row + 1)%Z, ar_entry_hash row)
  | None => (1%Z, GENESIS_PREVIOUS_HASH)
  end.

(** The part of [append_entry] inside the transaction. *)
Definition append_body (new : NewAuditEntry) (recorded_at : Z)
    (recorded_at_text metadata_text : string) : M World AuditError AuditEntry :=
  latest ← with_err Repository (query select_latest);
  let '(chain_position, previous_hash) := next_link latest in
  canonical_json ← lift (canonicalize chain_position (ne_event_type new) (ne_actor new)
                           (ne_subject new) recorded_at (ne_metadata new));
  let entry_hash := compute_entry_hash canonical_json previous_hash in
  id ← with_err Repository (execute (insert_audit (λ id,
         {| ar_id := id;
            ar_chain_position := chain_position;
            ar_event_type := ne_event_type new;
            ar_actor := ne_actor new;
            ar_subject := ne_subject new;
            ar_metadata := metadata_text;
            ar_recorded_at := recorded_at_text;
            ar_previous_hash := previous_hash;
            ar_canonical_json := canonical_json;
            ar_entry_hash := entry_hash |})));
  ret {| ae_id := id;
          ae_chain_position := chain_position;
          ae_event_type := ne_event_type new;
          ae_actor := ne_actor new;
          ae_subject := ne_subject new;
          ae_metadata := ne_metadata new;
          ae_recorded_at := recorded_at;
          ae_previous_hash := previous_hash;
          ae_canonical_json := canonical_json;
          ae_entry_hash := entry_hash |}.

Definition append_entry (new : NewAuditEntry) (recorded_at : Z) : M World AuditError AuditEntry :=
  let recorded_at_text := to_rfc3339_millis recorded_at in
  recorded_at ← lift (ok_or (Corrupt "invalid recorded_at")
                        (parse_from_rfc3339 recorded_at_text));
  metadata_text ← lift (ok_or (Serialization "failed to serialize metadata")
                          (json_to_string (ne_metadata new)));
  transaction Repository (append_body new recorded_at recorded_at_text metadata_text).

Definition latest_entry : M World AuditError (option AuditEntry) :=
  row ← with_err Repository (query select_latest);
  lift (transpose (audit_try_from <$> row)).

Definition list_entries : M World AuditError (list AuditEntry) :=
  rows ← with_err Repository (query (λ d, sort_by by_position_asc (audit_log d)));
  lift (collect (audit_try_from <$> rows)).

(** [AuditService]: the clock's reading is an argument. *)
Definition append_audit_event (now : Z) (event : NewAuditEntry) : M World AuditError AuditEntry :=
  append_entry event now.

Definition service_verify_chain : M World AuditError AuditVerificationResult :=
  entries ← list_entries;
  ret (verify_chain entries).

Definition get_tip : M World AuditError (option AuditTip) :=
  entry ← latest_entry;
  ret ((λ e, MkAuditTip (ae_chain_position e) (ae_entry_hash e)) <$> entry).

(** ** The invariant *)
Definition decodes (row : AuditRow) (e : AuditEntry) : Prop := audit_try_from row = Ok e.

Definition audit_rows_ok (rows : list AuditRow) : Prop :=
  ∃ es, Forall2 decodes rows es ∧ good_chain GENESIS_PREVIOUS_HASH 0 es.

Definition audit_ok (d : Db) : Prop := audit_rows_ok (audit_log d).

(** What an event must satisfy for its row to be read back as written. *)
Definition event_ok (now : Z) (new : NewAuditEntry) : bool :=
  rfc3339_range now && wf_value (ne_metadata new).

Lemma event_ok_object now fields event :
  rfc3339_range now = true → forallb (λ kv, wf_value kv.2) fields = true →
  event_ok now (with_metadata (json_object fields) event) = true.
Proof.
  intros Hn Hf. unfold event_ok. rewrite Hn. apply (wf_json_object _ Hf).
Qed.

(** The tables other than the audit log. *)
Definition same_but_audit (d d' : Db) : Prop :=
  machines d' = machines d ∧ enrollment_tokens d' = enrollment_tokens d ∧
  ca_keys d' = ca_keys d ∧ ca_bundle_state d' = ca_bundle_state d.

(** Logs that appends can produce from an empty table. *)
Inductive audit_reachable : World → Prop :=
| reach_empty w : audit_log (db w) = [] → audit_reachable w
| reach_append w now event r w' :
    audit_reachable w → event_ok now event = true →
    append_audit_event now event w = (r, w') → audit_reachable w'.

(** ** Lemmas *)
Lemma decodes_fields row e :
  decodes row e →
  ae_id e = ar_id row ∧ ae_chain_position e = ar_chain_position row ∧
  ae_event_type e = ar_event_type row ∧ ae_actor e = ar_actor row ∧
  ae_subject e = ar_subject row ∧ ae_previous_hash e = ar_previous_hash row ∧
  ae_canonical_json e = ar_canonical_json row ∧ ae_entry_hash e = ar_entry_hash row.
Proof. unfold decodes, audit_try_from. intros Hd. by cases. Qed.

(** Positions of a good chain ascend. *)
Lemma good_chain_positions prev n es :
  good_chain prev n es →
  Forall (λ e, n < ae_chain_position e)%Z es ∧
  StronglySorted (λ a b, ae_chain_position a < ae_chain_position b)%Z es.
Proof.
  induction 1 as [|prev n e es He Hes [IH1 IH2]]; [by split; constructor|].
  pose proof (good_position _ _ _ He) as Hp. split.
  - constructor; [lia|]. eapply Forall_impl; [done|]. simpl. lia.
  - constructor; [done|]. eapply Forall_impl; [done|]. simpl. lia.
Qed.

Lemma rows_positions rows es :
  Forall2 decodes rows es → good_chain GENESIS_PREVIOUS_HASH 0 es →
  StronglySorted (λ a b, ar_chain_position a < ar_chain_position b)%Z rows.
Proof.
  intros Hd [_ Hsort]%good_chain_positions. revert Hsort.
  induction Hd as [|r e rows es Hr Hrows IH]; [constructor|].
  intros Hsort. inversion Hsort as [|?? Hs He]; subst. constructor; [auto|].
  clear IH Hs Hsort. induction Hrows as [|r' e' rows es Hr' Hrows IH]; constructor.
  - inversion He; subst. destruct (decodes_fields _ _ Hr) as (_ & <- & _).
    destruct (decodes_fields _ _ Hr') as (_ & <- & _). done.
  - apply IH. by inversion He.
Qed.

Lemma rows_sort_asc rows : audit_rows_ok rows → sort_by by_position_asc rows = rows.
Proof.
  intros (es & Hd & Hg). apply sort_by_id.
  eapply sorted_impl; [|by eapply rows_positions].
  intros x y. simpl. unfold by_position_asc. rewrite Z.leb_le. lia.
Qed.

Lemma rows_sort_desc rows : audit_rows_ok rows → sort_by by_position_desc rows = reverse rows.
Proof.
  intros (es & Hd & Hg). apply sort_by_reverse.
  eapply sorted_impl; [|by eapply rows_positions].
  intros x y. simpl. unfold by_position_desc. rewrite Z.leb_gt. lia.
Qed.

Lemma select_latest_last d : audit_ok d → select_latest d = last (audit_log d).
Proof.
  intros Hok. unfold select_latest. rewrite rows_sort_desc by done.
  destruct (audit_log d) as [|r l _] using rev_ind; [done|].
  by rewrite reverse_snoc, last_snoc.
Qed.

Lemma insert_audit_inv row d id d' :
  insert_audit row d = Ok (id, d') →
  id = audit_next_id d ∧ audit_log d' = audit_log d ++ [row id] ∧ same_but_audit d d'.
Proof. unfold insert_audit. intros Hi. cases. done. Qed.

(** A good entry at the end of a good table. *)
Lemma audit_rows_ok_snoc rows row e :
  audit_rows_ok rows → decodes row e →
  (∀ es, Forall2 decodes rows es → good_chain GENESIS_PREVIOUS_HASH 0 es →
    good_entry (chain_tip es) (Z.of_nat (length es) + 1) e) →
  audit_rows_ok (rows ++ [row]).
Proof.
  intros (es & Hd & Hg) He Hgood. exists (es ++ [e]). split.
  - apply Forall2_app; [done|]. by repeat constructor.
  - apply good_chain_snoc. auto.
Qed.

Lemma next_link_good rows es :
  Forall2 decodes rows es → good_chain GENESIS_PREVIOUS_HASH 0 es →
  next_link (last rows) = ((Z.of_nat (length es) + 1)%Z, chain_tip es).
Proof.
  intros Hd Hg. destruct rows as [|r rows _] using rev_ind.
  { by inversion Hd; subst. }
  apply Forall2_app_inv_l in Hd as (es1 & es2 & Hd1 & Hd2 & ->).
  apply Forall2_cons_inv_l in Hd2 as (e & es' & Hr & Hnil & ->).
  inversion Hnil; subst. rewrite last_snoc, chain_tip_snoc. simpl.
  apply good_chain_snoc in Hg as [_ Hge]. pose proof (good_position _ _ _ Hge) as Hp.
  destruct (decodes_fields _ _ Hr) as (_ & <- & _ & _ & _ & _ & _ & <-).
  rewrite length_app. simpl. f_equal. lia.
Qed.

Lemma append_body_ok `{!ChronoLaws, !SerdeJsonLaws} new now text w e w' :
  audit_ok (db w) → event_ok now new = true →
  json_to_string (ne_metadata new) = Some text →
  append_body new (trunc_millis now) (to_rfc3339_millis now) text w = (Ok e, w') →
  ∃ row, audit_log (db w') = audit_log (db w) ++ [row] ∧ decodes row e ∧
    same_but_audit (db w) (db w') ∧ audit_ok (db w').
Proof.
  intros Hok [Hr Hm]%andb_true_iff Htext Happ. unfold append_body in Happ.
  db_steps. destruct (next_link _) as [pos prev] eqn:Hlink. db_steps.
  apply insert_audit_inv in Hm1 as (-> & Hlog & Hsame). rewrite Hdb in Hlog, Hsame.
  eexists. split; [exact Hlog|].
  match goal with |- decodes ?row ?e ∧ _ => assert (decodes row e) as Hdec end.
  { unfold decodes, audit_try_from. simpl.
    rewrite (json_roundtrip _ _ Hm Htext), (parse_millis _ Hr). simpl. by rewrite Hdb. }
  split_and!; [done|done|]. unfold audit_ok. rewrite Hlog.
  eapply audit_rows_ok_snoc; [done|exact Hdec|]. intros es Hd Hg.
  rewrite select_latest_last, (next_link_good _ _ Hd Hg) in Hlink by done.
  simplify_eq. by constructor.
Qed.

Lemma append_entry_ok `{!ChronoLaws, !SerdeJsonLaws} new now w e w' :
  audit_ok (db w) → event_ok now new = true →
  append_entry new now w = (Ok e, w') →
  ∃ row, audit_log (db w') = audit_log (db w) ++ [row] ∧ decodes row e ∧
    same_but_audit (db w) (db w') ∧ audit_ok (db w').
Proof.
  intros Hok Hev. pose proof Hev as [Hr Hm]%andb_true_iff.
  unfold append_entry. rewrite (parse_millis _ Hr). intros Happ. ok_steps.
  simplify_eq/=. destruct (json_to_string _) as [text|] eqn:Htext; simplify_eq/=.
  apply transaction_ok in Hk0 as (w1 & w2 & Hw1 & Hb & Hw2).
  rewrite <-Hw1 in Hok |- *. rewrite Hw2.
  eapply append_body_ok; [done|exact Hev|done|done].
Qed.

Lemma append_entry_err new now w e w' :
  append_entry new now w = (Err e, w') → db w' = db w.
Proof.
  unfold append_entry. intros Happ.
  apply bind_err_inv in Happ as [[_ ->]%lift_inv|(?&?&[_ ->]%lift_inv&Happ)]; [done|].
  apply bind_err_inv in Happ as [[_ ->]%lift_inv|(?&?&[_ ->]%lift_inv&Happ)]; [done|].
  by eapply transaction_err.
Qed.

Lemma same_but_audit_refl d : same_but_audit d d.
Proof. done. Qed.

Lemma good_chain_positions_le prev n es :
  good_chain prev n es → Forall (λ e, ae_chain_position e <= n + Z.of_nat (length es))%Z es.
Proof.
  induction 1 as [|prev n e es He Hes IH]; simpl; constructor.
  - rewrite (good_position _ _ _ He). lia.
  - eapply Forall_impl; [done|]. simpl. lia.
Qed.

(** The next position is not taken. *)
Lemma next_position_fresh rows :
  audit_rows_ok rows →
  existsb (λ r, ar_chain_position r =? (next_link (last rows)).1)%Z rows = false.
Proof.
  intros (es & Hd & Hg). rewrite (next_link_good _ _ Hd Hg). simpl.
  apply good_chain_positions_le in Hg. revert Hg.
  generalize (length es). intros n Hg.
  induction Hd as [|r e rows es Hr Hd IH]; simpl; [done|].
  inversion Hg; subst. rewrite IH by done. destruct (decodes_fields _ _ Hr) as (_ & <- & _).
  rewrite orb_false_r. apply Z.eqb_neq. lia.
Qed.

Lemma append_entry_no_faults `{!ChronoLaws, !SerdeJsonLaws} new now w :
  audit_ok (db w) → event_ok now new = true → no_faults w →
  ∃ e w', append_entry new now w = (Ok e, w') ∧ no_faults w'.
Proof.
  intros Hok [Hr Hm]%andb_true_iff Hw. unfold append_entry. rewrite (parse_millis _ Hr).
  destruct (json_total (ne_metadata new)) as [text Htext]. rewrite Htext.
  unfold mbind, M_bind, lift. simpl.
  enough (∃ e w', append_body new (trunc_millis now) (to_rfc3339_millis now) text w
                  = (Ok e, w') ∧ no_faults w') as (e & w' & Hb & Hw').
  { exists e, w'. split; [|done]. by apply transaction_no_faults. }
  unfold append_body, mbind, M_bind, with_err. rewrite query_ok by done.
  pose proof (next_position_fresh _ Hok) as Hfresh.
  rewrite select_latest_last by done. destruct (next_link _) as [pos prev]. simpl in *.
  unfold canonicalize, lift. destruct (json_total (Canonical pos (ne_event_type new)
    (ne_actor new) (ne_subject new) (to_rfc3339_millis (trunc_millis now)) (ne_metadata new)))
    as [c ->]. simpl.
  rewrite execute_ok by done. unfold insert_audit. simpl. rewrite Hfresh. simpl.
  eexists _, _. split; [reflexivity|done].
Qed.

(** The entry returned is the event that was asked for. *)
Lemma append_entry_fields `{!ChronoLaws} new now w e w' :
  rfc3339_range now = true → append_entry new now w = (Ok e, w') →
  ae_event_type e = ne_event_type new ∧ ae_actor e = ne_actor new ∧
  ae_subject e = ne_subject new ∧ ae_metadata e = ne_metadata new ∧
  ae_recorded_at e = trunc_millis now.
Proof.
  intros Hr Happ. unfold append_entry in Happ. rewrite (parse_millis _ Hr) in Happ.
  ok_steps. simplify_eq/=.
  apply transaction_ok in Hk0 as (? & ? & _ & Hb & _). unfold append_body in Hb.
  db_steps. destruct (next_link _) as [pos prev]. by db_steps.
Qed.

(** The log has grown by the entry of one event, and nothing else has changed. *)
Definition appended (now : Z) (event : NewAuditEntry) (d d' : Db) : Prop :=
  ∃ row e, audit_log d' = audit_log d ++ [row] ∧ decodes row e ∧
    ae_event_type e = ne_event_type event ∧ ae_actor e = ne_actor event ∧
    ae_subject e = ne_subject event ∧ ae_metadata e = ne_metadata event ∧
    ae_recorded_at e = trunc_millis now ∧ same_but_audit d d' ∧ audit_ok d'.

(** Whatever comes of it, only the log changes. *)
Lemma append_tables {E} (conv : AuditError → E) now event :
  frame same_but_audit (with_err conv (append_audit_event now event)).
Proof.
  apply (frame_with_err same_but_audit). intros w r w' Happ. destruct r as [e|e].
  - unfold append_audit_event, append_entry in Happ. ok_steps.
    apply transaction_ok in Hk0 as (w1 & w2 & <- & Hb & ->). unfold append_body in Hb.
    db_steps. destruct (next_link _). db_steps.
    match goal with Hi : insert_audit _ _ = Ok _ |- _ =>
      apply insert_audit_inv in Hi as (_ & _ & Hsame) end. by rewrite Hdb in Hsame.
  - apply append_entry_err in Happ. by rewrite Happ.
Qed.

(** An append with its error converted, as the handlers call it. *)
Lemma append_outcome `{!ChronoLaws, !SerdeJsonLaws} {E} (conv : AuditError → E) now event w r w' :
  audit_ok (db w) → event_ok now event = true →
  with_err conv (append_audit_event now event) w = (r, w') →
  match r with Ok _ => appended now event (db w) (db w') | Err _ => db w' = db w end.
Proof.
  intros Hok Hev Happ. pose proof Hev as [Hr _]%andb_true_iff. destruct r as [e|e].
  - apply with_err_ok_inv in Happ.
    destruct (append_entry_ok _ _ _ _ _ Hok Hev Happ) as (row & ? & ? & ? & ?).
    destruct (append_entry_fields _ _ _ _ _ Hr Happ) as (? & ? & ? & ? & ?).
    exists row, e. by split_and!.
  - apply with_err_err_inv in Happ as (e' & Happ & _). by apply append_entry_err in Happ.
Qed.

(** With a database that answers the append happens. *)
Lemma append_runs `{!ChronoLaws, !SerdeJsonLaws} {E} (conv : AuditError → E) now event w :
  audit_ok (db w) → event_ok now event = true → no_faults w →
  ∃ e w', with_err conv (append_audit_event now event) w = (Ok e, w') ∧
    appended now event (db w) (db w').
Proof.
  intros Hok Hev Hw. destruct (append_entry_no_faults _ _ _ Hok Hev Hw) as (e & w' & Happ & _).
  exists e, w'. split; [by apply with_err_ok|].
  by apply (append_outcome conv _ _ _ (Ok e) _ Hok Hev), with_err_ok.
Qed.

(** ** Handlers that write nothing but one audit entry *)
Definition log_only {E A} (now : Z) (m : M World E A) : Prop := ∀ w r w',
  audit_ok (db w) → m w = (r, w') →
  db w' = db w ∨ ∃ event, appended now event (db w) (db w').

Lemma log_only_reads {E A} now (m : M World E A) : frame eq m → log_only now m.
Proof. intros Hm w r w' _ Hw. left. symmetry. by eapply Hm. Qed.

Lemma log_only_bind {E A B} now (m : M World E A) (f : A → M World E B) :
  frame eq m → (∀ a, log_only now (f a)) → log_only now (m ≫= f).
Proof.
  intros Hm Hf w r w' Hok. unfold mbind, M_bind. destruct (m w) as [x w1] eqn:Hw.
  apply Hm in Hw. destruct x as [a|e]; [|by intros [= _ <-]; left].
  intros Hrun. rewrite Hw in Hok |- *. by eapply Hf.
Qed.

Lemma log_only_append `{!ChronoLaws, !SerdeJsonLaws} {E B} (conv : AuditError → E) now event
    (f : AuditEntry → M World E B) :
  event_ok now event = true → (∀ e, frame eq (f e)) →
  log_only now (with_err conv (append_audit_event now event) ≫= f).
Proof.
  intros Hev Hf w r w' Hok. unfold mbind, M_bind.
  destruct (with_err conv _ w) as [x w1] eqn:Happ.
  apply append_outcome in Happ; [|done|done]. destruct x as [e|e].
  - intros Hrun%Hf. rewrite <-Hrun. right. by exists event.
  - intros [= _ <-]. by left.
Qed.

(** ** Handlers whose last write is one audit entry *)

(** The log is as it was; other tables may have changed. *)
Definition same_log (d d' : Db) : Prop := audit_log d' = audit_log d.

#[export] Instance same_log_preorder : PreOrder same_log.
Proof. split; [done|]. intros d1 d2 d3 H12 H23. unfold same_log in *. congruence. Qed.

(** One entry of that type and actor has been added to the log. *)
Definition recorded (ty actor : string) (d d' : Db) : Prop :=
  ∃ row e, audit_log d' = audit_log d ++ [row] ∧ decodes row e ∧
    ae_event_type e = ty ∧ ae_actor e = actor.

(** A handler that succeeds only with its entry in the log, and otherwise adds none. *)
Definition audited {E A} (ty actor : string) (m : M World E A) : Prop := ∀ w r w',
  audit_ok (db w) → m w = (r, w') →
  match r with Ok _ => recorded ty actor (db w) (db w') | Err _ => same_log (db w) (db w') end.

Lemma audited_bind {E A B} ty actor (m : M World E A) (f : A → M World E B) :
  frame same_log m → (∀ a, audited ty actor (f a)) → audited ty actor (m ≫= f).
Proof.
  intros Hm Hf w r w' Hok. unfold mbind, M_bind. destruct (m w) as [x w1] eqn:Hw.
  apply Hm in Hw. destruct x as [a|e]; [|by intros [= <- <-]]. intros Hrun.
  assert (audit_ok (db w1)) as Hok1 by (unfold audit_ok; by rewrite Hw).
  specialize (Hf a _ _ _ Hok1 Hrun). destruct r; unfold recorded in *; [by rewrite <-Hw|by etrans].
Qed.

Lemma audited_ret {E A B} ty actor (m : M World E A) (g : A → B) :
  audited ty actor m → audited ty actor (m ≫= λ a, ret (g a)).
Proof.
  intros Hm w r w' Hok. unfold mbind, M_bind, ret. destruct (m w) as [x w1] eqn:Hw.
  apply Hm in Hw; [|done]. destruct x; by intros [= <- <-].
Qed.

Lemma audited_append `{!ChronoLaws, !SerdeJsonLaws} {E} (conv : AuditError → E) now event :
  event_ok now event = true →
  audited (ne_event_type event) (ne_actor event) (with_err conv (append_audit_event now event)).
Proof.
  intros Hev w r w' Hok Happ. apply append_outcome in Happ; [|done|done].
  destruct r; [|by unfold same_log; rewrite Happ].
  destruct Happ as (row & e & ? & ? & ? & ? & _). by exists row, e.
Qed.

Lemma list_entries_ok w es :
  Forall2 decodes (audit_log (db w)) es → good_chain GENESIS_PREVIOUS_HASH 0 es →
  no_faults w → list_entries w = (Ok es, w).
Proof.
  intros Hd Hg Hw. unfold list_entries, mbind, M_bind, with_err. rewrite query_ok by done.
  rewrite rows_sort_asc by by exists es. unfold lift. f_equal.
  by apply collect_ok_Forall2.
Qed.

Lemma verify_ok_service w :
  audit_ok (db w) → no_faults w →
  service_verify_chain w = (Ok (Valid (Z.of_nat (length (audit_log (db w))))), w).
Proof.
  intros (es & Hd & Hg) Hw. unfold service_verify_chain.
  erewrite bind_ok by by eapply list_entries_ok.
  unfold ret, verify_chain. rewrite (verify_from_good _ _ _ Hg).
  by rewrite (Forall2_length _ _ _ Hd), Z.add_0_l.
Qed.

(** ** Theorems *)

(** Appending never breaks the log, whatever database calls fail.  From a
    log that decodes to a good chain, an append that returns an entry has added
    exactly the row that reads back as that entry, and an append that returns an
    error has changed no table; the log still decodes to a good chain. *)
Theorem append_preserves_chain `{!ChronoLaws, !SerdeJsonLaws} now event w r w' :
  audit_ok (db w) → event_ok now event = true →
  append_audit_event now event w = (r, w') →
  audit_ok (db w') ∧ same_but_audit (db w) (db w') ∧
  match r with
  | Ok e => ∃ row, audit_log (db w') = audit_log (db w) ++ [row] ∧ decodes row e
  | Err _ => audit_log (db w') = audit_log (db w)
  end.
Proof.
  unfold append_audit_event. intros Hok Hev Happ. destruct r as [e|e].
  - destruct (append_entry_ok _ _ _ _ _ Hok Hev Happ) as (row & ? & ? & ? & ?). eauto.
  - apply append_entry_err in Happ. rewrite Happ. auto using same_but_audit_refl.
Qed.

(** With a database that answers, an append succeeds: the position it picks
    is never taken, so the log never refuses an event. *)
Theorem append_succeeds `{!ChronoLaws, !SerdeJsonLaws} now event w :
  audit_ok (db w) → event_ok now event = true → no_faults w →
  ∃ e w', append_audit_event now event w = (Ok e, w') ∧
    ae_event_type e = ne_event_type event ∧ ae_actor e = ne_actor event ∧
    ae_subject e = ne_subject event ∧ ae_metadata e = ne_metadata event ∧
    ae_recorded_at e = trunc_millis now.
Proof.
  intros Hok Hev Hw. destruct (append_entry_no_faults _ _ _ Hok Hev Hw) as (e & w' & Happ & _).
  exists e, w'. split; [done|]. pose proof Hev as [Hr _]%andb_true_iff.
  by eapply append_entry_fields.
Qed.

(** The service's own verification accepts every log that appends can
    produce, through any events, readings of the clock and failing calls: it
    reports as many verified entries as the table has rows. *)
Theorem reachable_log_verifies `{!ChronoLaws, !SerdeJsonLaws} w :
  audit_reachable w → no_faults w →
  service_verify_chain w = (Ok (Valid (Z.of_nat (length (audit_log (db w))))), w).
Proof.
  intros Hreach. apply verify_ok_service.
  induction Hreach as [w Hw|w now ev r w' _ IH Hev Happ].
  - exists []. rewrite Hw. split; constructor.
  - destruct r as [e|e].
    + by destruct (append_entry_ok _ _ _ _ _ IH Hev Happ) as (?&?&?&?&?).
    + apply append_entry_err in Happ. unfold audit_ok. by rewrite Happ.
Qed.
End audit_repository.

(** ** Witnesses *)
#[local] Existing Instances toy_sha256 toy_chrono toy_serde_json.
#[local] Existing Instances toy_sha256_laws toy_chrono_laws toy_serde_json_laws.

Definition demo_event : NewAuditEntry :=
  with_subject "srv_1" (with_metadata (json_object [("hostname", VString "web-01")])
    (NewAuditEntry_new "machine.enrolled" "system")).

Lemma empty_audit_ok fs : audit_ok (db (MkWorld empty_db fs)).
Proof. exists []. split; constructor. Qed.

(** The log after one event. *)
Definition demo_world : World := (append_audit_event (seconds 5) demo_event empty_world).2.

Lemma demo_audit_ok : audit_ok (db demo_world).
Proof.
  destruct (append_entry_no_faults demo_event (seconds 5) empty_world (empty_audit_ok []))
    as (e & w' & Happ & _); [done..|].
  unfold demo_world, append_audit_event. rewrite Happ. simpl.
  by destruct (append_entry_ok demo_event (seconds 5) empty_world _ _ (empty_audit_ok [])
    eq_refl Happ) as (?&?&?&?&?).
Qed.

Lemma append_preserves_chain_witness :
  let r := append_audit_event (seconds 5) demo_event empty_world in
  audit_ok (db r.2) ∧ length (audit_log (db r.2)) = 1.
Proof.
  split; [|vm_compute; reflexivity].
  refine (proj1 (append_preserves_chain (seconds 5) demo_event empty_world _ _
    (empty_audit_ok []) _ (surjective_pairing _))).
  reflexivity.
Defined.

Lemma append_succeeds_witness :
  ∃ e w', append_audit_event (seconds 5) demo_event empty_world = (Ok e, w') ∧
    ae_event_type e = "machine.enrolled" ∧ ae_actor e = "system" ∧
    ae_subject e = Some "srv_1" ∧ ae_metadata e = ne_metadata demo_event ∧
    ae_recorded_at e = trunc_millis (seconds 5).
Proof.
  apply (append_succeeds (seconds 5) demo_event empty_world (empty_audit_ok []));
    reflexivity.
Defined.

Lemma reachable_log_verifies_witness :
  let w := (append_audit_event (seconds 5) demo_event empty_world).2 in
  service_verify_chain w = (Ok (Valid (Z.of_nat (length (audit_log (db w))))), w) ∧
  length (audit_log (db w)) = 1.
Proof.
  split; [|vm_compute; reflexivity].
  apply (reachable_log_verifies (append_audit_event (seconds 5) demo_event empty_world).2).
  - eapply (reach_append empty_world (seconds 5) demo_event);
      [by apply reach_empty|reflexivity|apply surjective_pairing].
  - vm_compute. reflexivity.
Defined.
