(* ===== verification/AuditSearch.v ===== *)
(** * Read-only search over the audit log
      ([src/src/audit/query.rs], [search]/[count] of [repository.rs])

    The [WHERE] clause [push_filters] builds, as the list of its conjuncts, with
    SQLite's meaning of [LIKE], [COLLATE NOCASE], [json_extract] and text
    comparison; paging by [limit] and by the [chain_position] cursor. *)
From S2P Require Import Prelude External Errors Database AuditChain AuditRepo Toy.

Section audit_search.
Context `{Sha256, Chrono, SerdeJson}.

(** ** Queries *)
Inductive Order : Type := Ascending | Descending.
Inductive ResultFilter : Type := Success | Failure.

Definition MAX_LIMIT : Z := 1000.
Definition DEFAULT_LIMIT : Z := 50.

Record AuditQuery : Type := MkAuditQuery {
  q_event_type : option string;
  q_event_prefix : option string;
  q_actor : option string;
  q_subject : option string;
  q_machine : option string;
  q_provider : option string;
  q_serial : option string;
  q_request_id : option string;
  q_result : option ResultFilter;
  q_since : option Z;
  q_until : option Z;
  q_after_position : option Z;
  q_before_position : option Z;
  q_limit : Z;
  q_order : Order;
}.

(** [AuditQuery::default()]: a derived default, so [limit] is [0]. *)
Definition AuditQuery_default : AuditQuery :=
  MkAuditQuery None None None None None None None None None None None None None 0 Descending.

Definition with_limit (n : Z) (q : AuditQuery) : AuditQuery :=
  MkAuditQuery (q_event_type q) (q_event_prefix q) (q_actor q) (q_subject q) (q_machine q)
    (q_provider q) (q_serial q) (q_request_id q) (q_result q) (q_since q) (q_until q)
    (q_after_position q) (q_before_position q) n (q_order q).

(** [after_position], the cursor a follower advances. *)
Definition with_after (p : Z) (q : AuditQuery) : AuditQuery :=
  MkAuditQuery (q_event_type q) (q_event_prefix q) (q_actor q) (q_subject q) (q_machine q)
    (q_provider q) (q_serial q) (q_request_id q) (q_result q) (q_since q) (q_until q)
    (Some p) (q_before_position q) (q_limit q) (q_order q).

Definition AuditQuery_recent : AuditQuery := with_limit DEFAULT_LIMIT AuditQuery_default.

(** [limit.clamp(1, MAX_LIMIT)]. *)
Definition effective_limit (q : AuditQuery) : Z := Z.min (Z.max (q_limit q) 1) MAX_LIMIT.

Definition since_text (q : AuditQuery) : option string := to_rfc3339_millis <$> q_since q.
Definition until_text (q : AuditQuery) : option string := to_rfc3339_millis <$> q_until q.

(** ** SQLite expressions *)
Definition backslash : ascii := byte_of 92.
Definition percent : ascii := byte_of 37.
Definition underscore : ascii := byte_of 95.

Definition fold_eq (a b : ascii) : bool :=
  bool_decide (byte_to_ascii_lowercase a = byte_to_ascii_lowercase b).

Fixpoint skip_continuation (s : string) : string :=
  match s with
  | String c s' => if is_continuation c then skip_continuation s' else s
  | EmptyString => ""
  end.

(** [text LIKE pattern ESCAPE '\']: ASCII case-insensitive. *)
Fixpoint sql_like (p : string) : string → bool :=
  match p with
  | EmptyString => str_is_empty
  | String c p' =>
      if bool_decide (c = percent) then
        fix any (s : string) : bool :=
          sql_like p' s || match s with EmptyString => false | String _ s' => any s' end
      else if bool_decide (c = backslash) then
        match p' with
        | EmptyString => λ _, false
        | String d p'' => λ s, match s with
            | EmptyString => false
            | String e s' => fold_eq d e && sql_like p'' s'
            end
        end
      else if bool_decide (c = underscore) then
        λ s, match s with
             | EmptyString => false
             | String _ s' => sql_like p' (skip_continuation s')
             end
      else
        λ s, match s with
             | EmptyString => false
             | String e s' => fold_eq c e && sql_like p' s'
             end
  end.

(** [str::replace] of one byte. *)
Fixpoint str_replace (c : ascii) (by_ : string) (s : string) : string :=
  match s with
  | EmptyString => ""
  | String d s => (if bool_decide (d = c) then by_ else String d "") +:+ str_replace c by_ s
  end.

Definition escaped (c : ascii) : string := String backslash (String c "").

Definition like_escape (value : string) : string :=
  str_replace underscore (escaped underscore)
    (str_replace percent (escaped percent)
      (str_replace backslash (escaped backslash) value)).

(** [FAILURE_PREDICATE]: [lower(event_type) LIKE '%kw%'] for each keyword. *)
Definition FAILURE_KEYWORDS : list string :=
  ["denied"; "failed"; "rejected"; "rollback"; "error"].
Definition failure_predicate (event_type : string) : bool :=
  existsb (λ kw, sql_like (String percent (kw +:+ String percent ""))
                   (to_ascii_lowercase event_type)) FAILURE_KEYWORDS.

(** A SQL value as [json_extract] returns it. *)
Inductive sql_value : Type :=
| SqlNull
| SqlInteger (n : Z)
| SqlText (s : string).

Definition sql_of_value (v : Value) : sql_value :=
  match v with
  | VNull => SqlNull
  | VBool b => SqlInteger (if b then 1 else 0)
  | VNumber n => SqlInteger n
  | VString s => SqlText s
  | VArray _ | VObject _ =>
      match json_to_string v with Some s => SqlText s | None => SqlNull end
  end.

Fixpoint value_path (path : list string) (v : Value) : option Value :=
  match path with
  | [] => Some v
  | k :: path => value_get k v ≫= value_path path
  end.

(** [json_extract(metadata, '$.a.b')]: an error when the text is not JSON. *)
Definition json_extract (path : list string) (metadata : string) : result sql_value sqlx_error :=
  match json_from_str metadata with
  | None => Err (SqlDatabase "malformed JSON")
  | Some v => Ok match value_path path v with Some v => sql_of_value v | None => SqlNull end
  end.

(** [value = ?] with a text parameter: neither side has an affinity, so an
    integer never equals a text.  [NOCASE] folds ASCII case. *)
Definition sql_eq_text (nocase : bool) (param : string) (v : sql_value) : bool :=
  match v with
  | SqlText s => if nocase then eq_ignore_ascii_case s param else bool_decide (s = param)
  | _ => false
  end.

Definition opt_text (o : option string) : sql_value :=
  match o with Some s => SqlText s | None => SqlNull end.

(** ** The [WHERE] clause *)
Definition conjunct : Type := AuditRow → result bool sqlx_error.

Definition on {A} (o : option A) (f : A → conjunct) : list conjunct :=
  match o with Some a => [f a] | None => [] end.

(** All conjuncts but the two cursors. *)
Definition content_filters (q : AuditQuery) : list conjunct :=
  on (q_event_type q) (λ v r, Ok (bool_decide (ar_event_type r = v))) ++
  on (q_event_prefix q) (λ v r,
    Ok (sql_like (like_escape v +:+ String percent "") (ar_event_type r))) ++
  on (q_actor q) (λ v r, Ok (sql_eq_text true v (SqlText (ar_actor r)))) ++
  on (q_subject q) (λ v r, Ok (sql_eq_text false v (opt_text (ar_subject r)))) ++
  on (q_machine q) (λ v r,
    let? hostname := json_extract ["hostname"] (ar_metadata r) in
    Ok (sql_eq_text false v (opt_text (ar_subject r)) || sql_eq_text false v hostname)) ++
  on (q_provider q) (λ v r,
    let? x := json_extract ["provider"] (ar_metadata r) in Ok (sql_eq_text true v x)) ++
  on (q_serial q) (λ v r,
    let? x := json_extract ["serial"] (ar_metadata r) in Ok (sql_eq_text false v x)) ++
  on (q_request_id q) (λ v r,
    let? x := json_extract ["client"; "request_id"] (ar_metadata r) in
    Ok (sql_eq_text false v x)) ++
  on (q_result q) (λ v r,
    Ok match v with
       | Failure => failure_predicate (ar_event_type r)
       | Success => negb (failure_predicate (ar_event_type r))
       end) ++
  on (since_text q) (λ v r, Ok (str_leb v (ar_recorded_at r))) ++
  on (until_text q) (λ v r, Ok (str_leb (ar_recorded_at r) v)).

Definition push_filters (q : AuditQuery) : list conjunct :=
  content_filters q ++
  on (q_after_position q) (λ v r, Ok (v <? ar_chain_position r)%Z) ++
  on (q_before_position q) (λ v r, Ok (ar_chain_position r <? v)%Z).

Fixpoint conjunction (cs : list conjunct) (r : AuditRow) : result bool sqlx_error :=
  match cs with
  | [] => Ok true
  | c :: cs =>
      let? b := c r in
      if b then conjunction cs r else Ok false
  end.

Definition row_matches (q : AuditQuery) (r : AuditRow) : result bool sqlx_error :=
  conjunction (push_filters q) r.

(** [SELECT ... WHERE]. *)
Fixpoint select_where (p : AuditRow → result bool sqlx_error) (rows : list AuditRow)
  : result (list AuditRow) sqlx_error :=
  match rows with
  | [] => Ok []
  | r :: rows =>
      let? b := p r in
      let? rs := select_where p rows in
      Ok (if b then r :: rs else rs)
  end.

Definition order_by (o : Order) (rows : list AuditRow) : list AuditRow :=
  match o with
  | Ascending => sort_by by_position_asc rows
  | Descending => sort_by by_position_desc rows
  end.

(** ** Operations *)
Record AuditPage : Type := MkAuditPage { page_entries : list AuditEntry; page_has_more : bool }.

Definition search (q : AuditQuery) : M World AuditError AuditPage :=
  let limit := effective_limit q in
  rows ← with_err Repository (query (λ d, select_where (row_matches q) (audit_log d)));
  rows ← with_err Repository (lift rows);
  let rows := take (Z.to_nat (limit + 1)) (order_by (q_order q) rows) in
  entries ← lift (collect (audit_try_from <$> rows));
  let has_more := (limit <? Z.of_nat (length entries))%Z in
  ret (MkAuditPage (if has_more then take (Z.to_nat limit) entries else entries) has_more).

Definition count (q : AuditQuery) : M World AuditError Z :=
  rows ← with_err Repository (query (λ d, select_where (row_matches q) (audit_log d)));
  rows ← with_err Repository (lift rows);
  ret (Z.of_nat (length rows)).

Definition service_search (q : AuditQuery) : M World AuditError AuditPage := search q.
Definition service_count (q : AuditQuery) : M World AuditError Z := count q.

(** ** Specification *)
Definition holds (r : AuditRow) (c : conjunct) : bool :=
  match c r with Ok b => b | Err _ => false end.
Definition matches (q : AuditQuery) (r : AuditRow) : bool := forallb (holds r) (push_filters q).

(** The rows a query is about, in its order and without its limit. *)
Definition matching (q : AuditQuery) (d : Db) : list AuditRow :=
  order_by (q_order q) (List.filter (matches q) (audit_log d)).

(** ** Lemmas on LIKE *)
Definition is_wild (c : ascii) : bool :=
  bool_decide (c = backslash) || bool_decide (c = percent) || bool_decide (c = underscore).

Definition escape_byte (c : ascii) : string :=
  if is_wild c then escaped c else String c "".

Fixpoint escape_bytes (s : string) : string :=
  match s with EmptyString => "" | String c s => escape_byte c +:+ escape_bytes s end.

Fixpoint fold_prefix (p s : string) : bool :=
  match p, s with
  | EmptyString, _ => true
  | String a p, String b s => fold_eq a b && fold_prefix p s
  | String _ _, EmptyString => false
  end.

Lemma str_replace_app c b s t :
  str_replace c b (s +:+ t) = str_replace c b s +:+ str_replace c b t.
Proof.
  induction s as [|d s IH]; [done|]. rewrite app_String. simpl.
  by rewrite IH, app_string_assoc.
Qed.

(** The three replacements in sequence escape each byte once. *)
Lemma like_escape_bytes s : like_escape s = escape_bytes s.
Proof.
  unfold like_escape. induction s as [|c s IH]; [done|]. simpl.
  rewrite !str_replace_app, IH. f_equal. unfold escape_byte, is_wild, escaped.
  destruct (decide (c = backslash)) as [->|Hb]; [done|].
  destruct (decide (c = percent)) as [->|Hp]; [done|].
  destruct (decide (c = underscore)) as [->|Hu]; [done|].
  rewrite !bool_decide_false by done. simpl.
  rewrite !bool_decide_false by done. simpl.
  rewrite !bool_decide_false by done. done.
Qed.

Lemma sql_like_percent s : sql_like (String percent "") s = true.
Proof.
  induction s as [|c s IH]; [done|].
  change (str_is_empty (String c s) || sql_like (String percent "") s = true).
  by rewrite IH, orb_true_r.
Qed.

Lemma sql_like_escaped p s :
  sql_like (escape_bytes p +:+ String percent "") s = fold_prefix p s.
Proof.
  revert s. induction p as [|c p IH]; intros s; [apply sql_like_percent|].
  simpl. unfold escape_byte, is_wild.
  destruct (decide (c = backslash)) as [->|Hb]; [by destruct s; simpl; rewrite ?IH|].
  destruct (decide (c = percent)) as [->|Hp]; [by destruct s; simpl; rewrite ?IH|].
  destruct (decide (c = underscore)) as [->|Hu]; [by destruct s; simpl; rewrite ?IH|].
  rewrite !bool_decide_false by done. simpl. rewrite !bool_decide_false by done.
  destruct s; simpl; by rewrite ?IH.
Qed.

(** ** Lemmas on selection *)
Lemma decodes_json r e path : decodes r e → ∃ v, json_extract path (ar_metadata r) = Ok v.
Proof.
  unfold decodes, audit_try_from, json_extract. destruct (json_from_str _); [eauto|done].
Qed.

Lemma on_total {A} (o : option A) (f : A → conjunct) r :
  (∀ a, ∃ b, f a r = Ok b) → Forall (λ c, ∃ b, c r = Ok b) (on o f).
Proof. destruct o; repeat constructor; auto. Qed.

(** On a row that decodes, no conjunct of the clause fails. *)
Lemma push_filters_total q r e :
  decodes r e → Forall (λ c, ∃ b, c r = Ok b) (push_filters q).
Proof.
  intros Hd. unfold push_filters, content_filters. rewrite !Forall_app. split_and!; apply on_total; intros v;
    eauto;
    match goal with |- context [json_extract ?p _] =>
      destruct (decodes_json _ _ p Hd) as [? ->]; eauto end.
Qed.

Lemma conjunction_total cs r :
  Forall (λ c : conjunct, ∃ b, c r = Ok b) cs → conjunction cs r = Ok (forallb (holds r) cs).
Proof.
  induction 1 as [|c cs [b Hb] Hcs IH]; simpl; [done|]. unfold holds at 1.
  rewrite Hb. by destruct b.
Qed.

Lemma row_matches_ok q r e : decodes r e → row_matches q r = Ok (matches q r).
Proof. intros Hd. by eapply conjunction_total, push_filters_total. Qed.

Lemma select_where_ok q rows es :
  Forall2 decodes rows es →
  select_where (row_matches q) rows = Ok (List.filter (matches q) rows).
Proof.
  induction 1 as [|r e rows es Hr Hrows IH]; simpl; [done|].
  by rewrite (row_matches_ok _ _ _ Hr), IH.
Qed.

Lemma decodes_order_by o rows es :
  Forall2 decodes rows es → ∃ es', Forall2 decodes (order_by o rows) es'.
Proof.
  intros Hd. assert (Forall (λ r, ∃ e, decodes r e) (order_by o rows)) as Hall.
  { assert (order_by o rows ≡ₚ rows) as -> by by destruct o; apply sort_by_perm.
    induction Hd; constructor; eauto. }
  induction Hall as [|r rows' [e He] _ [es' IH]]; [by exists []|]. exists (e :: es'). by constructor.
Qed.

Lemma decodes_filter p rows es :
  Forall2 decodes rows es → ∃ es', Forall2 decodes (List.filter p rows) es'.
Proof.
  induction 1 as [|r e rows es Hr _ [es' IH]]; simpl; [by exists []|].
  destruct (p r); eauto.
Qed.

Lemma matching_decodes q d : audit_ok d → ∃ es, Forall2 decodes (matching q d) es.
Proof.
  intros (es & Hd & _). destruct (decodes_filter (matches q) _ _ Hd) as [es' Hd'].
  by eapply decodes_order_by.
Qed.

Lemma take_decodes n rows es :
  Forall2 decodes rows es → collect (audit_try_from <$> take n rows) = Ok (take n es).
Proof. intros Hd. apply collect_ok_Forall2. by apply Forall2_take. Qed.

Lemma effective_limit_bounds q : (1 <= effective_limit q <= MAX_LIMIT)%Z.
Proof. unfold effective_limit, MAX_LIMIT. lia. Qed.

(** ** Lemmas on cursors *)
Lemma filter_sorted {A} (R : A → A → Prop) p l :
  StronglySorted R l → StronglySorted R (List.filter p l).
Proof.
  induction 1 as [|x l Hl IH Hx]; simpl; [constructor|]. destruct (p x); [|done].
  constructor; [done|]. rewrite Forall_forall in Hx |- *. intros y Hy.
  apply Hx. apply list_elem_of_In in Hy. apply filter_In in Hy as [Hy _].
  by apply list_elem_of_In.
Qed.

Lemma matching_ascending q d :
  audit_ok d → q_order q = Ascending → matching q d = List.filter (matches q) (audit_log d).
Proof.
  intros (es & Hd & Hg) Ho. unfold matching. rewrite Ho. simpl. apply sort_by_id.
  apply filter_sorted. eapply sorted_impl; [|by eapply rows_positions].
  intros x y. unfold by_position_asc. rewrite Z.leb_le. lia.
Qed.

Lemma matching_sorted q d :
  audit_ok d → q_order q = Ascending →
  StronglySorted (λ a b, ar_chain_position a < ar_chain_position b)%Z (matching q d).
Proof.
  intros Hok Ho. rewrite matching_ascending by done. apply filter_sorted.
  destruct Hok as (es & Hd & Hg). by eapply rows_positions.
Qed.

(** In a list with ascending keys, what is above the k-th key is the rest. *)
Lemma filter_above {A} (key : A → Z) l k x :
  StronglySorted (λ a b, key a < key b)%Z l → l !! k = Some x →
  List.filter (λ y, key x <? key y)%Z l = drop (S k) l.
Proof.
  intros Hs. revert k. induction Hs as [|y l Hl IH Hy]; intros k Hk; [done|].
  destruct k as [|k]; simplify_eq/=.
  - rewrite Z.ltb_irrefl, drop_0. clear IH Hl.
    induction Hy as [|z l Hz _ IH]; simpl; [done|].
    rewrite (proj2 (Z.ltb_lt _ _)) by done. by f_equal.
  - rewrite Forall_lookup in Hy. specialize (Hy _ _ Hk).
    rewrite (proj2 (Z.ltb_ge _ _)) by lia. by apply IH.
Qed.

Lemma filter_filter_and {A} (p q : A → bool) l :
  List.filter p (List.filter q l) = List.filter (λ x, q x && p x) l.
Proof. induction l as [|x l IH]; simpl; [done|]. destruct (q x); simpl; by rewrite ?IH. Qed.

Definition after_holds (o : option Z) (r : AuditRow) : bool :=
  match o with Some p => (p <? ar_chain_position r)%Z | None => true end.

Lemma matches_after q r :
  matches q r =
    forallb (holds r) (content_filters q) && (after_holds (q_after_position q) r &&
      forallb (holds r) (on (q_before_position q) (λ v r, Ok (ar_chain_position r <? v)%Z))).
Proof.
  unfold matches, push_filters. rewrite !forallb_app. f_equal. f_equal.
  destruct (q_after_position q); simpl; [by rewrite andb_true_r|done].
Qed.

Lemma matches_with_after p q r :
  (∀ c, q_after_position q = Some c → (c < p)%Z) →
  matches (with_after p q) r = matches q r && (p <? ar_chain_position r)%Z.
Proof.
  intros Hc. rewrite !matches_after.
  change (content_filters (with_after p q)) with (content_filters q). simpl.
  destruct (forallb (holds r) (content_filters q)); [|done]. simpl.
  destruct (forallb (holds r) _); [|by rewrite !andb_false_r]. rewrite !andb_true_r.
  unfold after_holds. destruct (q_after_position q) as [c|]; [|done]. specialize (Hc c eq_refl).
  destruct (Z.ltb_spec p (ar_chain_position r)); [|by rewrite andb_false_r].
  rewrite (proj2 (Z.ltb_lt _ _)); [done|lia].
Qed.

(** A descending result starts with the newest entry. *)
Lemma matching_descending q d es :
  Forall2 decodes (matching q d) es → q_order q = Descending →
  StronglySorted (λ a b, ae_chain_position b <= ae_chain_position a)%Z es.
Proof.
  intros Hd Ho. unfold matching in Hd. rewrite Ho in Hd. simpl in Hd.
  assert (StronglySorted (λ a b, by_position_desc a b = true)
    (sort_by by_position_desc (List.filter (matches q) (audit_log d)))) as Hs.
  { apply sort_by_sorted; unfold by_position_desc; intros; rewrite !Z.leb_le in *; lia. }
  revert Hs. induction Hd as [|r e rows es' Hr Hrows IH]; intros Hs; [constructor|].
  inversion Hs as [|?? Hs' Hall]; subst. constructor; [by apply IH|].
  destruct (decodes_fields _ _ Hr) as (_ & Hp & _).
  clear -Hp Hall Hrows. induction Hrows as [|r' e' rows es' Hr' _ IH]; constructor.
  - inversion Hall as [|?? Hle _]; subst. unfold by_position_desc in Hle.
    apply Z.leb_le in Hle. destruct (decodes_fields _ _ Hr') as (_ & -> & _). lia.
  - apply IH. by inversion Hall.
Qed.

(** The page cut from the rows that matched. *)
Definition page_of (q : AuditQuery) (es : list AuditEntry) : AuditPage :=
  MkAuditPage (take (Z.to_nat (effective_limit q)) es)
    (effective_limit q <? Z.of_nat (length es))%Z.

Lemma cut_page q es :
  let L := effective_limit q in
  let entries := take (Z.to_nat (L + 1)) es in
  let has_more := (L <? Z.of_nat (length entries))%Z in
  MkAuditPage (if has_more then take (Z.to_nat L) entries else entries) has_more = page_of q es.
Proof.
  cbv zeta. unfold page_of. pose proof (effective_limit_bounds q) as HL.
  set (L := effective_limit q) in *.
  rewrite length_take. destruct (Z.ltb_spec L (Z.of_nat (length es))).
  - rewrite (proj2 (Z.ltb_lt _ _)) by lia. rewrite take_take. do 2 f_equal. lia.
  - rewrite (proj2 (Z.ltb_ge _ _)) by lia. by rewrite !take_ge by lia.
Qed.

Lemma select_matching q d :
  audit_ok d → select_where (row_matches q) (audit_log d) = Ok (List.filter (matches q) (audit_log d)).
Proof. intros (es & Hd & _). by eapply select_where_ok. Qed.

(** A search that answers gives that page, whichever calls could have failed. *)
Lemma search_ok_inv q w page w' :
  audit_ok (db w) → search q w = (Ok page, w') →
  ∃ es, Forall2 decodes (matching q (db w)) es ∧ page = page_of q es.
Proof.
  intros Hok Hs. destruct (matching_decodes q _ Hok) as [es Hes]. exists es. split; [done|].
  unfold search in Hs. db_steps. subst. rewrite (select_matching q _ Hok) in *. simplify_eq.
  match goal with Hc : collect _ = Ok _ |- _ =>
    fold (matching q (db w)) in Hc; rewrite (take_decodes _ _ _ Hes) in Hc; simplify_eq end.
  apply cut_page.
Qed.

(** The two operations without failures. *)
Lemma search_run q w :
  audit_ok (db w) → no_faults w →
  ∃ es, Forall2 decodes (matching q (db w)) es ∧
    search q w = (Ok (page_of q es), w) ∧
    count q w = (Ok (Z.of_nat (length es)), w) ∧
    (1 <= effective_limit q <= MAX_LIMIT)%Z.
Proof.
  intros Hok Hw. destruct (matching_decodes q _ Hok) as [es Hes]. exists es.
  split_and!; [done| | |apply effective_limit_bounds..].
  - unfold search, mbind, M_bind, with_err. rewrite query_ok by done.
    rewrite (select_matching _ _ Hok). unfold lift, ret. fold (matching q (db w)).
    rewrite (take_decodes _ _ _ Hes). by rewrite cut_page.
  - unfold count, mbind, M_bind, with_err. rewrite query_ok by done.
    rewrite (select_matching _ _ Hok). unfold lift, ret. do 3 f_equal.
    rewrite <-(Forall2_length _ _ _ Hes). unfold matching, order_by.
    by destruct (q_order q); rewrite length_sort_by.
Qed.

(** ** Theorems *)

(** [like_escape] makes the prefix literal.  The pattern built from a prefix
    matches an event type exactly when it starts with that prefix byte for byte,
    up to ASCII case: no [%], [_] or backslash in the prefix acts as a wildcard. *)
Theorem like_escape_literal prefix event_type :
  sql_like (like_escape prefix +:+ String percent "") event_type =
    fold_prefix prefix event_type.
Proof. rewrite like_escape_bytes. apply sql_like_escaped. Qed.


(** Following the cursor neither skips nor repeats an entry.  Asking again
    with [after] set to the position of the k-th entry of an ascending result
    gives exactly the entries that came after it. *)
Theorem cursor_resumes q d k row :
  audit_ok d → q_order q = Ascending → matching q d !! k = Some row →
  matching (with_after (ar_chain_position row) q) d = drop (S k) (matching q d).
Proof.
  intros Hok Ho Hk. rewrite <-(filter_above ar_chain_position _ _ _ (matching_sorted q d Hok Ho) Hk).
  rewrite (matching_ascending (with_after _ q)) by done.
  rewrite matching_ascending in Hk |- * by done. rewrite filter_filter_and.
  apply filter_ext. intros r. apply matches_with_after. intros c Hc.
  apply list_elem_of_lookup_2, list_elem_of_In, filter_In in Hk as [_ Hm].
  rewrite matches_after in Hm. bool_prop. rewrite Hc in *. simpl in *. by bool_prop.
Qed.

(** A [serial] filter never finds an entry whose metadata holds the serial
    as a JSON number, whatever text is searched for. *)
Theorem serial_filter_misses_numbers q s row v n :
  q_serial q = Some s → json_from_str (ar_metadata row) = Some v →
  value_get "serial" v = Some (VNumber n) → matches q row = false.
Proof.
  intros Hq Hv Hn. destruct (matches q row) eqn:Hm; [|done]. exfalso.
  unfold matches, push_filters, content_filters in Hm.
  rewrite !forallb_app, Hq in Hm. bool_prop.
  match goal with Hh : forallb (holds row) (on (Some s) _) = true |- _ =>
    unfold on, holds, json_extract in Hh; simpl in Hh; rewrite Hv in Hh; simpl in Hh;
    rewrite Hn in Hh; simpl in Hh; discriminate Hh end.
Qed.
End audit_search.

(** ** Witnesses *)
#[local] Existing Instances toy_sha256 toy_chrono toy_serde_json.
#[local] Existing Instances toy_sha256_laws toy_chrono_laws toy_serde_json_laws.

Definition demo_query : AuditQuery :=
  MkAuditQuery None (Some "machine.") None None None None None None None None None None None
    5000 Ascending.


Lemma cursor_resumes_witness :
  ∃ row, matching demo_query (db demo_world) !! 0 = Some row ∧
    matching (with_after (ar_chain_position row) demo_query) (db demo_world) =
      drop 1 (matching demo_query (db demo_world)).
Proof.
  eexists. split; [vm_compute; reflexivity|].
  apply (cursor_resumes demo_query (db demo_world) 0 _ demo_audit_ok eq_refl).
  vm_compute. reflexivity.
Defined.

(** A row as the certificate route writes it: the serial is a number. *)
Definition serial_row : AuditRow :=
  MkAuditRow 1 1 "certificate.issued" "alice" None
    (bits (encode (value_to_tree (json_object [("serial", VNumber 7)])))) "" "" "" "".
Definition serial_query : AuditQuery :=
  MkAuditQuery None None None None None None (Some "7") None None None None None None
    50 Descending.

Lemma serial_filter_misses_numbers_witness : matches serial_query serial_row = false.
Proof.
  apply (serial_filter_misses_numbers serial_query "7" serial_row
           (json_object [("serial", VNumber 7)]) 7); vm_compute; reflexivity.
Defined.
