(* ===== verification/Machines.v ===== *)
(** * Machines and enrollment tokens
      ([src/src/machines/models.rs], [token.rs], [validation.rs], [repository.rs])

    The domain types, the checks made on what an agent sends, and the SQLite
    repositories.  The invariants [machines_ok] and [tokens_ok] say that keys are
    unique and every row decodes. *)
From S2P Require Import Prelude External Errors Database Toy.

(** ** Domain types ([models.rs]) *)
Inductive MachineStatus : Type := Pending | Active | Disabled | Revoked.
#[export] Instance MachineStatus_eq_dec : EqDecision MachineStatus.
Proof. solve_decision. Defined.

Definition MachineStatus_as_str (s : MachineStatus) : string :=
  match s with
  | Pending => "pending"
  | Active => "active"
  | Disabled => "disabled"
  | Revoked => "revoked"
  end.

Definition MachineStatus_from_db_str (value : string) : option MachineStatus :=
  if bool_decide (value = "pending") then Some Pending
  else if bool_decide (value = "active") then Some Active
  else if bool_decide (value = "disabled") then Some Disabled
  else if bool_decide (value = "revoked") then Some Revoked
  else None.

Record Machine : Type := MkMachine {
  machine_id : string;
  hostname : string;
  public_key : string;
  os : string;
  arch : string;
  agent_version : string;
  status : MachineStatus;
  ip : option string;
  current_generation : Z;
  synced_generation : option Z;
  bundle_fingerprint : option string;
  last_sync : option Z;
  last_seen : option Z;
  enrolled_at : Z;
  created_at : Z;
  updated_at : Z;
}.

Record NewMachine : Type := MkNewMachine {
  nm_machine_id : string;
  nm_hostname : string;
  nm_public_key : string;
  nm_os : string;
  nm_arch : string;
  nm_agent_version : string;
  nm_status : MachineStatus;
  nm_enrolled_at : Z;
}.

Record EnrollmentToken : Type := MkEnrollmentToken {
  et_id : string;
  et_token_hash : string;
  et_created_at : Z;
  et_expires_at : Z;
  et_used_at : option Z;
  et_created_by : string;
  et_single_use : bool;
}.

Record NewEnrollmentToken : Type := MkNewEnrollmentToken {
  nt_id : string;
  nt_token_hash : string;
  nt_created_at : Z;
  nt_expires_at : Z;
  nt_created_by : string;
  nt_single_use : bool;
}.

Record IssuedEnrollmentToken : Type := MkIssuedEnrollmentToken {
  it_plaintext : string;
  it_record : EnrollmentToken;
}.

Record EnrollRequest : Type := MkEnrollRequest {
  eq_enrollment_token : string;
  eq_hostname : string;
  eq_os : string;
  eq_arch : string;
  eq_agent_version : string;
  eq_public_key : string;
}.

(** [impl Debug for EnrollRequest]: the token is never rendered. *)
Definition EnrollRequest_debug `{DebugStr} (r : EnrollRequest) : string :=
  debug_struct "EnrollRequest"
    [("enrollment_token", debug_str "<redacted>");
     ("hostname", debug_str (eq_hostname r));
     ("os", debug_str (eq_os r));
     ("arch", debug_str (eq_arch r));
     ("agent_version", debug_str (eq_agent_version r));
     ("public_key", debug_str (eq_public_key r))].

Record EnrollResponse : Type := MkEnrollResponse {
  es_machine_id : string;
  es_heartbeat_interval : Z;
  es_sync_interval : Z;
  es_server_identity : string;
  es_bundle_signing_key : option string;
}.

(** [HeartbeatUpdate], the fields a heartbeat refreshes. *)
Record HeartbeatUpdate : Type := MkHeartbeatUpdate {
  hu_machine_id : string;
  hu_now : Z;
  hu_agent_version : string;
  hu_ip : option string;
  hu_current_generation : Z;
}.

(** ** Enrollment tokens ([token.rs]) *)
Definition TOKEN_PREFIX : string := "mf_enroll_".
Definition TOKEN_ENTROPY_BYTES : Z := 32.
Definition MAX_TOKEN_LEN : Z := 256.

(** The bytes the random generator filled in are an argument. *)
Definition generate_token `{HexEncode} (bytes : string) : string :=
  TOKEN_PREFIX +:+ hex_encode bytes.

Definition hash_token `{Sha256} (token : string) : string := sha256_hex token.

Definition is_well_formed (token : string) : bool :=
  if (MAX_TOKEN_LEN <? str_len token)%Z then false else
  match strip_prefix TOKEN_PREFIX token with
  | None => false
  | Some suffix =>
      negb (str_is_empty suffix) &&
      str_all (λ c, is_ascii_alphanumeric c || bool_decide (c = "_"%char)) suffix
  end.

Definition constant_time_eq (a b : list Z) : bool :=
  if negb (Z.of_nat (length a) =? Z.of_nat (length b))%Z then false
  else (xor_fold a b 0 =? 0)%Z.

(** ** Validation ([validation.rs]) *)
Definition MAX_HOSTNAME_LEN : Z := 253.
Definition MAX_LABEL_LEN : Z := 63.

Definition is_valid_label (label : string) : bool :=
  negb (str_is_empty label) && (str_len label <=? MAX_LABEL_LEN)%Z &&
  negb (starts_with_byte "-" label) && negb (ends_with_byte "-" label) &&
  str_all (λ c, is_ascii_alphanumeric c || bool_decide (c = "-"%char)) label.

Definition is_valid_hostname (hostname : string) : bool :=
  if str_is_empty hostname || (MAX_HOSTNAME_LEN <? str_len hostname)%Z then false
  else forallb is_valid_label (split_on "." hostname).

Inductive PublicKeyError : Type := PkMalformed | PkNotEd25519.

Definition validate_ed25519_public_key `{SshKey} (public_key : string)
  : result string PublicKeyError :=
  let? key := ok_or PkMalformed (from_openssh public_key) in
  guard? algorithm_is_ed25519 key else PkNotEd25519 in
  ok_or PkMalformed (to_openssh key).

Definition public_key_fingerprint `{SshKey} (public_key : string) : option string :=
  fingerprint_sha256 <$> from_openssh public_key.

(** ** Repositories ([repository.rs]) *)
Section repository.
Context `{Chrono}.

Definition to_text (dt : Z) : string := to_rfc3339_millis dt.

Definition parse_dt (value : string) : result Z sqlx_error :=
  ok_or (SqlDecode "invalid stored timestamp") (parse_from_rfc3339 value).

Definition machine_try_from (row : MachineRow) : result Machine sqlx_error :=
  let? status := ok_or (SqlDecode ("unknown machine status '" +:+ mr_status row +:+ "'"))
                   (MachineStatus_from_db_str (mr_status row)) in
  let? last_seen := transpose (parse_dt <$> mr_last_seen row) in
  let? last_sync := transpose (parse_dt <$> mr_last_sync row) in
  let? enrolled_at := parse_dt (mr_enrolled_at row) in
  let? created_at := parse_dt (mr_created_at row) in
  let? updated_at := parse_dt (mr_updated_at row) in
  Ok {| machine_id := mr_machine_id row;
        hostname := mr_hostname row;
        public_key := mr_public_key row;
        os := mr_os row;
        arch := mr_arch row;
        agent_version := mr_agent_version row;
        status := status;
        ip := mr_ip row;
        current_generation := mr_current_generation row;
        synced_generation := mr_synced_generation row;
        bundle_fingerprint := mr_bundle_fingerprint row;
        last_sync := last_sync;
        last_seen := last_seen;
        enrolled_at := enrolled_at;
        created_at := created_at;
        updated_at := updated_at |}.

(** [SELECT ... WHERE p] with [fetch_optional], then [try_from]. *)
Definition fetch_machine (p : MachineRow → bool) : M World sqlx_error (option Machine) :=
  row ← query (λ d, find p (machines d));
  lift (transpose (machine_try_from <$> row)).

Definition find_by_hostname (h : string) : M World sqlx_error (option Machine) :=
  fetch_machine (λ r, bool_decide (mr_hostname r = h)).
Definition find_by_public_key (k : string) : M World sqlx_error (option Machine) :=
  fetch_machine (λ r, bool_decide (mr_public_key r = k)).
Definition find_by_id (i : string) : M World sqlx_error (option Machine) :=
  fetch_machine (λ r, bool_decide (mr_machine_id r = i)).

(** The row [INSERT INTO machines] writes; absent columns are [NULL] or [0]. *)
Definition new_machine_row (new : NewMachine) : MachineRow :=
  let enrolled_at := to_text (nm_enrolled_at new) in
  {| mr_machine_id := nm_machine_id new;
     mr_hostname := nm_hostname new;
     mr_public_key := nm_public_key new;
     mr_os := nm_os new;
     mr_arch := nm_arch new;
     mr_agent_version := nm_agent_version new;
     mr_status := MachineStatus_as_str (nm_status new);
     mr_ip := None;
     mr_current_generation := 0;
     mr_synced_generation := None;
     mr_bundle_fingerprint := None;
     mr_last_sync := None;
     mr_last_seen := None;
     mr_enrolled_at := enrolled_at;
     mr_created_at := enrolled_at;
     mr_updated_at := enrolled_at |}.

(** [PRIMARY KEY (machine_id)], [UNIQUE (hostname)], [UNIQUE (public_key)], in
    the order of the declaration. *)
Definition insert_machine_row (r : MachineRow) (d : Db) : result (unit * Db) sqlx_error :=
  let taken {A} `{EqDecision A} (f : MachineRow → A) :=
    existsb (λ r', bool_decide (f r' = f r)) (machines d) in
  guard? negb (taken mr_machine_id) else
    SqlDatabase "UNIQUE constraint failed: machines.machine_id" in
  guard? negb (taken mr_hostname) else
    SqlDatabase "UNIQUE constraint failed: machines.hostname" in
  guard? negb (taken mr_public_key) else
    SqlDatabase "UNIQUE constraint failed: machines.public_key" in
  Ok (tt, set_machines (λ l, l ++ [r]) d).

Definition machine_insert (new : NewMachine) : M World sqlx_error Machine :=
  _ ← execute (insert_machine_row (new_machine_row new));
  ret {| machine_id := nm_machine_id new;
         hostname := nm_hostname new;
         public_key := nm_public_key new;
         os := nm_os new;
         arch := nm_arch new;
         agent_version := nm_agent_version new;
         status := nm_status new;
         ip := None;
         current_generation := 0;
         synced_generation := None;
         bundle_fingerprint := None;
         last_sync := None;
         last_seen := None;
         enrolled_at := nm_enrolled_at new;
         created_at := nm_enrolled_at new;
         updated_at := nm_enrolled_at new |}.

(** [UPDATE t SET f WHERE p]: the rows affected and the new table. *)
Definition update_where {A} (p : A → bool) (f : A → A) (l : list A) : Z * list A :=
  (Z.of_nat (length (List.filter p l)), (λ x, if p x then f x else x) <$> l).

(** [UPDATE machines SET f WHERE machine_id = ?]; [rows_affected() == 1]. *)
Definition update_machine (i : string) (f : MachineRow → MachineRow) : M World sqlx_error bool :=
  n ← execute (λ d,
        let '(n, l) := update_where (λ r, bool_decide (mr_machine_id r = i)) f (machines d) in
        Ok (n, set_machines (λ _, l) d));
  ret (n =? 1)%Z.

Definition heartbeat_row (u : HeartbeatUpdate) (r : MachineRow) : MachineRow :=
  let now_text := to_text (hu_now u) in
  {| mr_machine_id := mr_machine_id r;
     mr_hostname := mr_hostname r;
     mr_public_key := mr_public_key r;
     mr_os := mr_os r;
     mr_arch := mr_arch r;
     mr_agent_version := hu_agent_version u;
     mr_status := mr_status r;
     mr_ip := hu_ip u;
     mr_current_generation := hu_current_generation u;
     mr_synced_generation := mr_synced_generation r;
     mr_bundle_fingerprint := mr_bundle_fingerprint r;
     mr_last_sync := mr_last_sync r;
     mr_last_seen := Some now_text;
     mr_enrolled_at := mr_enrolled_at r;
     mr_created_at := mr_created_at r;
     mr_updated_at := now_text |}.

Definition update_last_seen (u : HeartbeatUpdate) : M World sqlx_error bool :=
  update_machine (hu_machine_id u) (heartbeat_row u).

(** [ORDER BY last_seen DESC NULLS LAST, created_at DESC]. *)
Definition by_recency (a b : MachineRow) : bool :=
  match mr_last_seen a, mr_last_seen b with
  | None, None => str_leb (mr_created_at b) (mr_created_at a)
  | Some _, None => true
  | None, Some _ => false
  | Some x, Some y =>
      if bool_decide (x = y) then str_leb (mr_created_at b) (mr_created_at a)
      else str_leb y x
  end.

(** [LIMIT n]: a negative limit is no limit. *)
Definition sql_limit {A} (n : Z) (l : list A) : list A :=
  if (n <? 0)%Z then l else take (Z.to_nat n) l.

Definition list_recent (limit : Z) : M World sqlx_error (list Machine) :=
  rows ← query (λ d, sql_limit limit (sort_by by_recency (machines d)));
  lift (collect (machine_try_from <$> rows)).

Definition by_hostname (a b : MachineRow) : bool := str_leb (mr_hostname a) (mr_hostname b).

Definition list_all : M World sqlx_error (list Machine) :=
  rows ← query (λ d, sort_by by_hostname (machines d));
  lift (collect (machine_try_from <$> rows)).

Definition status_row (s : MachineStatus) (now : Z) (r : MachineRow) : MachineRow :=
  {| mr_machine_id := mr_machine_id r;
     mr_hostname := mr_hostname r;
     mr_public_key := mr_public_key r;
     mr_os := mr_os r;
     mr_arch := mr_arch r;
     mr_agent_version := mr_agent_version r;
     mr_status := MachineStatus_as_str s;
     mr_ip := mr_ip r;
     mr_current_generation := mr_current_generation r;
     mr_synced_generation := mr_synced_generation r;
     mr_bundle_fingerprint := mr_bundle_fingerprint r;
     mr_last_sync := mr_last_sync r;
     mr_last_seen := mr_last_seen r;
     mr_enrolled_at := mr_enrolled_at r;
     mr_created_at := mr_created_at r;
     mr_updated_at := to_text now |}.

Definition update_status (i : string) (s : MachineStatus) (now : Z) : M World sqlx_error bool :=
  update_machine i (status_row s now).

Definition machine_delete (i : string) : M World sqlx_error bool :=
  n ← execute (λ d,
        let p r := bool_decide (mr_machine_id r = i) in
        Ok (Z.of_nat (length (List.filter p (machines d))),
            set_machines (List.filter (λ r, negb (p r))) d));
  ret (n =? 1)%Z.

Definition token_try_from (row : TokenRow) : result EnrollmentToken sqlx_error :=
  let? used_at := transpose (parse_dt <$> tr_used_at row) in
  let? created_at := parse_dt (tr_created_at row) in
  let? expires_at := parse_dt (tr_expires_at row) in
  Ok {| et_id := tr_id row;
        et_token_hash := tr_token_hash row;
        et_created_at := created_at;
        et_expires_at := expires_at;
        et_used_at := used_at;
        et_created_by := tr_created_by row;
        et_single_use := negb (tr_single_use row =? 0)%Z |}.

Definition new_token_row (new : NewEnrollmentToken) : TokenRow :=
  {| tr_id := nt_id new;
     tr_token_hash := nt_token_hash new;
     tr_created_at := to_text (nt_created_at new);
     tr_expires_at := to_text (nt_expires_at new);
     tr_used_at := None;
     tr_created_by := nt_created_by new;
     tr_single_use := if nt_single_use new then 1 else 0 |}.

Definition insert_token_row (r : TokenRow) (d : Db) : result (unit * Db) sqlx_error :=
  let taken (f : TokenRow → string) :=
    existsb (λ r', bool_decide (f r' = f r)) (enrollment_tokens d) in
  guard? negb (taken tr_id) else
    SqlDatabase "UNIQUE constraint failed: machine_enrollment_tokens.id" in
  guard? negb (taken tr_token_hash) else
    SqlDatabase "UNIQUE constraint failed: machine_enrollment_tokens.token_hash" in
  Ok (tt, set_tokens (λ l, l ++ [r]) d).

Definition token_create (new : NewEnrollmentToken) : M World sqlx_error EnrollmentToken :=
  _ ← execute (insert_token_row (new_token_row new));
  ret {| et_id := nt_id new;
         et_token_hash := nt_token_hash new;
         et_created_at := nt_created_at new;
         et_expires_at := nt_expires_at new;
         et_used_at := None;
         et_created_by := nt_created_by new;
         et_single_use := nt_single_use new |}.

Definition find_by_hash (h : string) : M World sqlx_error (option EnrollmentToken) :=
  row ← query (λ d, find (λ r, bool_decide (tr_token_hash r = h)) (enrollment_tokens d));
  lift (transpose (token_try_from <$> row)).

Definition used_row (now : Z) (r : TokenRow) : TokenRow :=
  {| tr_id := tr_id r;
     tr_token_hash := tr_token_hash r;
     tr_created_at := tr_created_at r;
     tr_expires_at := tr_expires_at r;
     tr_used_at := Some (to_text now);
     tr_created_by := tr_created_by r;
     tr_single_use := tr_single_use r |}.

(** Which rows a consumption touches. *)
Definition consumable (i : string) (single_use : bool) (r : TokenRow) : bool :=
  bool_decide (tr_id r = i) && (if single_use then bool_decide (tr_used_at r = None) else true).

Definition token_consume (i : string) (single_use : bool) (now : Z) : M World sqlx_error bool :=
  n ← execute (λ d,
        let '(n, l) := update_where (consumable i single_use) (used_row now)
                         (enrollment_tokens d) in
        Ok (n, set_tokens (λ _, l) d));
  ret (n =? 1)%Z.

(** ** Invariants *)
Definition machine_row_ok (r : MachineRow) : Prop := ∃ m, machine_try_from r = Ok m.

Definition machine_rows_ok (rows : list MachineRow) : Prop :=
  NoDup (mr_machine_id <$> rows) ∧ NoDup (mr_hostname <$> rows) ∧
  NoDup (mr_public_key <$> rows) ∧ Forall machine_row_ok rows.

Definition machines_ok (d : Db) : Prop := machine_rows_ok (machines d).

Definition token_row_ok (r : TokenRow) : Prop := ∃ t, token_try_from r = Ok t.

Definition token_rows_ok (rows : list TokenRow) : Prop :=
  NoDup (tr_id <$> rows) ∧ NoDup (tr_token_hash <$> rows) ∧ Forall token_row_ok rows.

Definition tokens_ok (d : Db) : Prop := token_rows_ok (enrollment_tokens d).

(** What a change of a row must leave alone for the table to stay well formed. *)
Definition keeps_keys (f : MachineRow → MachineRow) : Prop :=
  ∀ r, mr_machine_id (f r) = mr_machine_id r ∧ mr_hostname (f r) = mr_hostname r ∧
       mr_public_key (f r) = mr_public_key r ∧ (machine_row_ok r → machine_row_ok (f r)).

(** ** Lemmas *)
Lemma from_db_str_as_str s : MachineStatus_from_db_str (MachineStatus_as_str s) = Some s.
Proof. by destruct s. Qed.

Lemma parse_to_text `{!ChronoLaws} t :
  rfc3339_range t = true → parse_dt (to_text t) = Ok (trunc_millis t).
Proof. intros Ht. unfold parse_dt, to_text. by rewrite parse_millis. Qed.

Lemma machine_try_from_keys r m :
  machine_try_from r = Ok m →
  machine_id m = mr_machine_id r ∧ hostname m = mr_hostname r ∧
  public_key m = mr_public_key r ∧ mr_status r = MachineStatus_as_str (status m).
Proof.
  unfold machine_try_from. intros Hm. cases. split_and!; try done.
  unfold MachineStatus_from_db_str in *. by repeat case_bool_decide; simplify_eq/=.
Qed.

(** At most one row has a given key. *)
Lemma update_where_key {A B} `{EqDecision B} (f : A → B) (k : B) (g : A → A) l x :
  NoDup (f <$> l) → x ∈ l → f x = k →
  (update_where (λ x, bool_decide (f x = k)) g l).1 = 1%Z.
Proof.
  intros Hnd Hx Hfx. simpl.
  rewrite (filter_ext _ (λ y, bool_decide (f y = k) && true)).
  - by rewrite (filter_key f k (λ _, true) l x).
  - intros y. by rewrite andb_true_r.
Qed.

Lemma update_where_no_key {A B} `{EqDecision B} (f : A → B) (k : B) (g : A → A) l :
  k ∉ f <$> l → update_where (λ x, bool_decide (f x = k)) g l = (0%Z, l).
Proof.
  unfold update_where. induction l as [|y l IH]; csimpl; [done|].
  intros Hk. rewrite bool_decide_false by set_solver.
  assert (k ∉ f <$> l) as Hl by set_solver. simpl.
  pose proof (IH Hl) as [= Hn Hm]. f_equal; [done|]. by f_equal.
Qed.

(** An update by identifier touches at most one row; without one it does nothing. *)
Lemma update_by_id_none i (f : MachineRow → MachineRow) rows :
  NoDup (mr_machine_id <$> rows) →
  ((update_where (λ r, bool_decide (mr_machine_id r = i)) f rows).1 =? 1)%Z = false →
  (update_where (λ r, bool_decide (mr_machine_id r = i)) f rows).2 = rows.
Proof.
  intros Hnd Hn. destruct (decide (i ∈ mr_machine_id <$> rows)) as [Hin|Hni].
  - apply list_elem_of_fmap in Hin as (r & -> & Hr).
    by rewrite (update_where_key mr_machine_id _ f rows r) in Hn.
  - by rewrite update_where_no_key.
Qed.

(** How an update relates the old rows to the new ones. *)
Lemma update_where_Forall2 {A} (R : A → A → Prop) p f (l : list A) :
  (∀ x, p x = true → R x (f x)) → (∀ x, p x = false → R x x) →
  Forall2 R l (update_where p f l).2.
Proof.
  intros Ht Hf. unfold update_where. simpl. induction l as [|x l IH]; csimpl; constructor; [|done].
  destruct (p x) eqn:Hp; auto.
Qed.

Lemma machine_rows_ok_update p g rows :
  keeps_keys g → machine_rows_ok rows → machine_rows_ok (update_where p g rows).2.
Proof.
  intros Hg (H1 & H2 & H3 & H4). unfold update_where. simpl.
  assert (∀ (k : MachineRow → string), (∀ r, k (g r) = k r) →
    k <$> ((λ x, if p x then g x else x) <$> rows) = k <$> rows) as Hk.
  { intros k Hk. rewrite <-list_fmap_compose. apply list_fmap_ext.
    intros ? x _. simpl. by destruct (p x). }
  unfold machine_rows_ok. rewrite !Hk by apply Hg. split_and!; try done.
  apply Forall_fmap. eapply Forall_impl; [done|]. intros r Hr. simpl.
  destruct (p r); [by apply Hg|done].
Qed.

Lemma update_machine_inv i f w r w' :
  update_machine i f w = (r, w') →
  (∃ e, r = Err e ∧ db w' = db w) ∨
  (∃ b, r = Ok b ∧
    let u := update_where (λ r, bool_decide (mr_machine_id r = i)) f (machines (db w)) in
    b = (u.1 =? 1)%Z ∧ db w' = set_machines (λ _, u.2) (db w)).
Proof.
  unfold update_machine. intros Hu. destruct r as [b|e].
  - db_steps. right. eexists. split; [done|]. by simplify_eq/=.
  - left. exists e. split; [done|]. apply bind_err_inv in Hu as [He|(?&?&_&?)].
    + apply execute_inv in He as [(?&_&?)|(?&?&_)]; [done|by simplify_eq].
    + by apply ret_inv in H0 as [? _].
Qed.

Lemma update_machine_run i f w :
  no_faults w →
  update_machine i f w =
    (Ok ((update_where (λ r, bool_decide (mr_machine_id r = i)) f (machines (db w))).1 =? 1)%Z,
     with_db w (set_machines (λ _,
       (update_where (λ r, bool_decide (mr_machine_id r = i)) f (machines (db w))).2) (db w))).
Proof. intros Hw. unfold update_machine. by erewrite bind_ok by by rewrite execute_ok. Qed.

Lemma heartbeat_keeps_keys `{!ChronoLaws} u :
  rfc3339_range (hu_now u) = true → keeps_keys (heartbeat_row u).
Proof.
  intros Hu r. split_and!; try done. intros [m Hm].
  unfold machine_row_ok, machine_try_from in *. cases.
  all: rewrite ?parse_to_text in * by done; simplify_eq/=; eauto.
Qed.

Lemma status_keeps_keys `{!ChronoLaws} s now :
  rfc3339_range now = true → keeps_keys (status_row s now).
Proof.
  intros Hu r. split_and!; try done. intros [m Hm].
  unfold machine_row_ok, machine_try_from in *. simpl. rewrite from_db_str_as_str. simpl.
  cases. all: rewrite ?parse_to_text in * by done; simplify_eq/=; eauto.
Qed.

Lemma insert_machine_row_inv r d u d' :
  insert_machine_row r d = Ok (u, d') →
  d' = set_machines (λ l, l ++ [r]) d ∧
  (mr_machine_id r ∉ mr_machine_id <$> machines d) ∧
  (mr_hostname r ∉ mr_hostname <$> machines d) ∧
  (mr_public_key r ∉ mr_public_key <$> machines d).
Proof.
  unfold insert_machine_row. intros Hi. cases. bool_prop.
  rewrite <-!existsb_key. done.
Qed.

Lemma insert_machine_row_ok r d :
  mr_machine_id r ∉ mr_machine_id <$> machines d →
  mr_hostname r ∉ mr_hostname <$> machines d →
  mr_public_key r ∉ mr_public_key <$> machines d →
  insert_machine_row r d = Ok (tt, set_machines (λ l, l ++ [r]) d).
Proof. rewrite <-!existsb_key. unfold insert_machine_row. by intros -> -> ->. Qed.

Lemma machine_rows_ok_snoc r rows :
  machine_rows_ok rows → machine_row_ok r →
  mr_machine_id r ∉ mr_machine_id <$> rows → mr_hostname r ∉ mr_hostname <$> rows →
  mr_public_key r ∉ mr_public_key <$> rows → machine_rows_ok (rows ++ [r]).
Proof.
  intros (H1 & H2 & H3 & H4) Hr Hi Hh Hk. unfold machine_rows_ok.
  rewrite !fmap_app. split_and!; try (apply NoDup_app_snoc; done).
  apply Forall_app. auto.
Qed.

(** What a freshly written row reads back as: times in whole milliseconds. *)
Definition read_back (new : NewMachine) : Machine :=
  let t := trunc_millis (nm_enrolled_at new) in
  MkMachine (nm_machine_id new) (nm_hostname new) (nm_public_key new) (nm_os new)
    (nm_arch new) (nm_agent_version new) (nm_status new) None 0 None None None None t t t.

Lemma new_machine_row_ok `{!ChronoLaws} new :
  rfc3339_range (nm_enrolled_at new) = true →
  machine_try_from (new_machine_row new) = Ok (read_back new).
Proof.
  intros Ht. unfold machine_try_from. simpl. rewrite from_db_str_as_str. simpl.
  by rewrite !parse_to_text.
Qed.

Lemma machine_rows_ok_filter p rows :
  machine_rows_ok rows → machine_rows_ok (List.filter p rows).
Proof.
  intros (H1 & H2 & H3 & H4). unfold machine_rows_ok.
  pose proof (filter_sublist p rows) as Hs.
  split_and!.
  1-3: eapply sublist_NoDup; [|by apply (fmap_sublist _ _ _ Hs)]; done.
  apply Forall_forall. intros r Hr. rewrite Forall_forall in H4. apply H4.
  by eapply elem_of_sublist.
Qed.

Lemma fetch_machine_ok p w :
  no_faults w → machines_ok (db w) →
  fetch_machine p w =
    match find p (machines (db w)) with
    | None => (Ok None, w)
    | Some r => (map_ok Some (machine_try_from r), w)
    end.
Proof.
  intros Hw _. unfold fetch_machine. erewrite bind_ok by by apply query_ok. simpl.
  unfold lift. destruct (find p _) as [r|]; csimpl; [|done].
  by destruct (machine_try_from r).
Qed.

(** A lookup by a key column finds a machine exactly when the key is taken. *)
Lemma fetch_by_key (f : MachineRow → string) k w :
  no_faults w → machines_ok (db w) →
  if bool_decide (k ∉ f <$> machines (db w)) then
    fetch_machine (λ r, bool_decide (f r = k)) w = (Ok None, w)
  else ∃ m, fetch_machine (λ r, bool_decide (f r = k)) w = (Ok (Some m), w).
Proof.
  intros Hw Hok. rewrite fetch_machine_ok by done.
  destruct (find _ _) as [r|] eqn:Hf; case_bool_decide as Hk.
  - apply find_key_none in Hk. congruence.
  - apply find_some in Hf as [Hin%list_elem_of_In _]. destruct Hok as (_ & _ & _ & Hrows).
    rewrite Forall_forall in Hrows. destruct (Hrows _ Hin) as [m Hm]. rewrite Hm. by exists m.
  - done.
  - by apply find_key_none in Hf.
Qed.

(** A lookup changes nothing. *)
Lemma fetch_machine_db p w r w' : fetch_machine p w = (r, w') → db w' = db w.
Proof.
  unfold fetch_machine, mbind, M_bind, lift. intros Hf. cases;
    match goal with Hq : query _ _ = _ |- _ => by destruct (query_inv _ _ _ _ Hq) end.
Qed.

Lemma fetch_machine_found p w m w' :
  fetch_machine p w = (Ok (Some m), w') →
  ∃ r, r ∈ machines (db w) ∧ p r = true ∧ machine_try_from r = Ok m.
Proof.
  unfold fetch_machine. intros Hf. db_steps. subst.
  destruct (find p _) as [r|] eqn:Hr; [|done]. exists r.
  apply find_some in Hr as [Hin Hp]. split_and!; [by apply list_elem_of_In|done|].
  simpl in *. by destruct (machine_try_from r); simplify_eq/=.
Qed.

Lemma fetch_machine_none p w w' :
  fetch_machine p w = (Ok None, w') → find p (machines (db w)) = None.
Proof.
  unfold fetch_machine. intros Hf. db_steps. subst.
  destruct (find p _) as [r|] eqn:Hr; [|done]. simpl in *.
  by destruct (machine_try_from r); simplify_eq/=.
Qed.

(** ** Theorems *)

(** A machine row reads back as it was written.  After an insert returns,
    looking it up by identifier, by hostname and by key all give the machine that
    was inserted, its times cut to the millisecond the database stores; the table
    keeps unique keys and decodable rows. *)
Theorem machine_insert_lookup `{!ChronoLaws} new w m w' :
  machines_ok (db w) → no_faults w → rfc3339_range (nm_enrolled_at new) = true →
  machine_insert new w = (Ok m, w') →
  machines_ok (db w') ∧
  find_by_id (nm_machine_id new) w' = (Ok (Some (read_back new)), w') ∧
  find_by_hostname (nm_hostname new) w' = (Ok (Some (read_back new)), w') ∧
  find_by_public_key (nm_public_key new) w' = (Ok (Some (read_back new)), w').
Proof.
  intros Hok Hw Ht Hi. unfold machine_insert in Hi. apply bind_ok_inv in Hi as (u & w1 & Hi & Hr).
  apply ret_inv in Hr as [_ ->]. rewrite execute_ok in Hi by done.
  destruct (insert_machine_row _ _) as [[u' d']|] eqn:Hrow; simplify_eq/=.
  apply insert_machine_row_inv in Hrow as (-> & Hid & Hh & Hk).
  pose proof (new_machine_row_ok new Ht) as Hdec.
  assert (machine_rows_ok (machines (db w) ++ [new_machine_row new])) as Hok'.
  { apply machine_rows_ok_snoc; try done. by eexists. }
  assert (new_machine_row new ∈ machines (db w) ++ [new_machine_row new]) as Hin by set_solver.
  split; [done|]. pose proof Hok' as (H1 & H2 & H3 & _).
  unfold find_by_id, find_by_hostname, find_by_public_key.
  split_and!; (rewrite fetch_machine_ok by done); simpl.
  - rewrite (proj2 (find_key mr_machine_id _ _ _ H1) (conj Hin eq_refl)). by rewrite Hdec.
  - rewrite (proj2 (find_key mr_hostname _ _ _ H2) (conj Hin eq_refl)). by rewrite Hdec.
  - rewrite (proj2 (find_key mr_public_key _ _ _ H3) (conj Hin eq_refl)). by rewrite Hdec.
Qed.
End repository.

(** ** Witnesses *)
#[local] Existing Instances toy_chrono toy_chrono_laws.

Definition demo_machine : NewMachine :=
  MkNewMachine "srv_1" "web-01" "ssh-ed25519 AAAA" "linux" "x86_64" "0.1.0" Active (seconds 7).

Lemma empty_machines_ok : machines_ok empty_db.
Proof. by repeat constructor. Qed.

(** A database with that machine enrolled. *)
Definition machine_world : World :=
  MkWorld (set_machines (λ _, [new_machine_row demo_machine]) empty_db) [].

Lemma machine_world_ok : machines_ok (db machine_world).
Proof.
  split_and!; [apply NoDup_singleton..|]. apply Forall_singleton. eexists.
  vm_compute. reflexivity.
Qed.

Lemma machine_insert_lookup_witness :
  ∃ m w', machine_insert demo_machine empty_world = (Ok m, w') ∧ machines_ok (db w') ∧
    find_by_id "srv_1" w' = (Ok (Some (read_back demo_machine)), w') ∧
    find_by_hostname "web-01" w' = (Ok (Some (read_back demo_machine)), w') ∧
    find_by_public_key "ssh-ed25519 AAAA" w' = (Ok (Some (read_back demo_machine)), w').
Proof.
  eexists _, _. split; [vm_compute; reflexivity|].
  eapply (machine_insert_lookup demo_machine empty_world _ _ empty_machines_ok);
    vm_compute; reflexivity.
Defined.
