(* ===== verification/Enrollment.v ===== *)
(** * Machine enrollment
      ([src/src/machines/service.rs], [src/src/machines/errors.rs])

    An agent presents a token, a hostname and a public key.  The service checks
    them, then looks the token up, consumes it and inserts the machine in one
    transaction, and records an audit event afterwards.  [verdict] is the
    admission rule read off the tables; the theorems show the handler implements
    it, on every branch and under failing database calls. *)
From S2P Require Import Prelude External Errors Database AuditChain AuditRepo Machines Toy.

(** ** Errors ([errors.rs]) *)
Inductive EnrollmentError : Type :=
| TokenInvalid
| TokenExpired
| TokenAlreadyUsed
| InvalidRequest (message : string)
| PublicKeyInvalid
| HostAlreadyEnrolled
| PublicKeyAlreadyExists
| EnrollmentInternal (c : cause).

Definition EnrollmentError_status (e : EnrollmentError) : Z :=
  match e with
  | TokenInvalid | TokenExpired => 401
  | InvalidRequest _ | PublicKeyInvalid => 400
  | TokenAlreadyUsed | HostAlreadyEnrolled | PublicKeyAlreadyExists => 409
  | EnrollmentInternal _ => 500
  end%Z.

Definition EnrollmentError_code (e : EnrollmentError) : string :=
  match e with
  | TokenInvalid => "TOKEN_INVALID"
  | TokenExpired => "TOKEN_EXPIRED"
  | TokenAlreadyUsed => "TOKEN_ALREADY_USED"
  | InvalidRequest _ => "bad_request"
  | PublicKeyInvalid => "PUBLIC_KEY_INVALID"
  | HostAlreadyEnrolled => "HOST_ALREADY_ENROLLED"
  | PublicKeyAlreadyExists => "PUBLIC_KEY_ALREADY_EXISTS"
  | EnrollmentInternal _ => "internal_error"
  end.

Definition EnrollmentError_client_message (e : EnrollmentError) : string :=
  match e with
  | TokenInvalid => "enrollment token is invalid"
  | TokenExpired => "enrollment token has expired"
  | TokenAlreadyUsed => "enrollment token has already been used"
  | InvalidRequest m => m
  | PublicKeyInvalid => "public key is invalid"
  | HostAlreadyEnrolled => "a machine with this hostname is already enrolled"
  | PublicKeyAlreadyExists => "a machine with this public key is already enrolled"
  | EnrollmentInternal _ => "internal server error"
  end.

(** [EnrollmentError::internal]. *)
Definition EnrollmentError_internal (c : cause) : EnrollmentError := EnrollmentInternal c.
Definition EnrollmentError_of_sqlx (e : sqlx_error) : EnrollmentError :=
  EnrollmentInternal (CauseSqlx e).
Definition EnrollmentError_from_audit (e : AuditError) : EnrollmentError :=
  EnrollmentInternal (CauseAudit e).

Definition EnrollmentError_into_response (e : EnrollmentError) : ErrorResponse :=
  {| er_status := EnrollmentError_status e;
     er_www_authenticate := None;
     er_code := EnrollmentError_code e;
     er_message := EnrollmentError_client_message e |}.

(** ** The service ([service.rs]) *)
Definition DEFAULT_HEARTBEAT_INTERVAL : Z := 60.
Definition DEFAULT_SYNC_INTERVAL : Z := 300.
Definition EVENT_MACHINE_ENROLLED : string := "machine.enrolled".

Record EnrollmentService : Type := MkEnrollmentService {
  sv_server_identity : string;
  sv_heartbeat_interval : Z;
  sv_sync_interval : Z;
  sv_bundle_signing_key : option string;
}.

Definition EnrollmentService_sqlite (server_identity : string) : EnrollmentService :=
  MkEnrollmentService server_identity DEFAULT_HEARTBEAT_INTERVAL DEFAULT_SYNC_INTERVAL None.
Definition with_sync_interval (n : Z) (s : EnrollmentService) : EnrollmentService :=
  MkEnrollmentService (sv_server_identity s) (sv_heartbeat_interval s) n
    (sv_bundle_signing_key s).
Definition with_bundle_signing_key (k : option string) (s : EnrollmentService)
  : EnrollmentService :=
  MkEnrollmentService (sv_server_identity s) (sv_heartbeat_interval s)
    (sv_sync_interval s) k.

Section enrollment.
Context `{Sha256, HexEncode, Chrono, SerdeJson, SshKey}.

(** The random bytes, the identifier [Uuid::now_v7] returned and the clock's
    reading are arguments. *)
Definition create_enrollment_token (random uuid : string) (now : Z)
    (created_by : string) (ttl : Z) (single_use : bool)
  : M World EnrollmentError IssuedEnrollmentToken :=
  let plaintext := generate_token random in
  let token_hash := hash_token plaintext in
  let new := {| nt_id := uuid;
                nt_token_hash := token_hash;
                nt_created_at := now;
                nt_expires_at := (now + ttl)%Z;
                nt_created_by := created_by;
                nt_single_use := single_use |} in
  _ ← with_err EnrollmentError_of_sqlx db_call;
  record ← with_err EnrollmentError_of_sqlx (token_create new);
  ret {| it_plaintext := plaintext; it_record := record |}.

Definition validate_token_state (token : EnrollmentToken) (now : Z)
  : result unit EnrollmentError :=
  if (et_expires_at token <=? now)%Z then Err TokenExpired
  else if et_single_use token && bool_decide (is_Some (et_used_at token)) then
    Err TokenAlreadyUsed
  else Ok tt.

(** [format!("srv_{}", uuid.simple())]. *)
Definition generate_machine_id (uuid : string) : string := "srv_" +:+ uuid.

Definition map_insert_error (err : sqlx_error) : EnrollmentError :=
  match err with
  | SqlDatabase message =>
      if str_contains "machines.hostname" message then HostAlreadyEnrolled
      else if str_contains "machines.public_key" message then PublicKeyAlreadyExists
      else EnrollmentInternal (CauseSqlx err)
  | _ => EnrollmentInternal (CauseSqlx err)
  end.

Definition enrolled_machine (request : EnrollRequest) (pk uuid : string) (now : Z) : NewMachine :=
  {| nm_machine_id := generate_machine_id uuid;
     nm_hostname := eq_hostname request;
     nm_public_key := pk;
     nm_os := eq_os request;
     nm_arch := eq_arch request;
     nm_agent_version := eq_agent_version request;
     nm_status := Active;
     nm_enrolled_at := now |}.

(** Between [pool.begin()] and [tx.commit()]. *)
Definition enroll_body (request : EnrollRequest) (pk token_hash uuid : string) (now : Z)
  : M World EnrollmentError Machine :=
  found ← with_err EnrollmentError_of_sqlx (find_by_hash token_hash);
  token_record ← lift (ok_or TokenInvalid found);
  _ ← ensure (constant_time_eq (as_bytes (et_token_hash token_record)) (as_bytes token_hash))
        TokenInvalid;
  _ ← lift (validate_token_state token_record now);
  host ← with_err EnrollmentError_of_sqlx (find_by_hostname (eq_hostname request));
  _ ← ensure (bool_decide (host = None)) HostAlreadyEnrolled;
  key ← with_err EnrollmentError_of_sqlx (find_by_public_key pk);
  _ ← ensure (bool_decide (key = None)) PublicKeyAlreadyExists;
  consumed ← with_err EnrollmentError_of_sqlx
               (token_consume (et_id token_record) (et_single_use token_record) now);
  _ ← ensure consumed TokenAlreadyUsed;
  with_err map_insert_error (machine_insert (enrolled_machine request pk uuid now)).

Definition enrolled_event (machine : Machine) (pk : string) : NewAuditEntry :=
  let fingerprint := default "unknown" (public_key_fingerprint pk) in
  with_metadata (json_object [("hostname", VString (hostname machine));
                              ("agent_version", VString (agent_version machine));
                              ("public_key_fingerprint", VString fingerprint)])
    (with_subject (machine_id machine) (NewAuditEntry_new EVENT_MACHINE_ENROLLED "system")).

(** [audit_now] is the reading the audit service takes for itself. *)
Definition enroll (sv : EnrollmentService) (uuid : string) (now audit_now : Z)
    (request : EnrollRequest) : M World EnrollmentError EnrollResponse :=
  _ ← ensure (is_well_formed (eq_enrollment_token request)) TokenInvalid;
  _ ← ensure (is_valid_hostname (eq_hostname request)) (InvalidRequest "invalid hostname");
  pk ← lift (map_err (λ _, PublicKeyInvalid)
                     (validate_ed25519_public_key (eq_public_key request)));
  let token_hash := hash_token (eq_enrollment_token request) in
  machine ← transaction EnrollmentError_of_sqlx (enroll_body request pk token_hash uuid now);
  _ ← with_err EnrollmentError_from_audit
        (append_audit_event audit_now (enrolled_event machine pk));
  ret {| es_machine_id := machine_id machine;
         es_heartbeat_interval := sv_heartbeat_interval sv;
         es_sync_interval := sv_sync_interval sv;
         es_server_identity := sv_server_identity sv;
         es_bundle_signing_key := sv_bundle_signing_key sv |}.

(** ** The admission rule *)

(** What the tables say of a request with hash [h] and normalized key [pk]. *)
Definition admission (request : EnrollRequest) (pk h : string) (now : Z) (d : Db)
  : result EnrollmentToken EnrollmentError :=
  match find (λ r, bool_decide (tr_token_hash r = h)) (enrollment_tokens d) with
  | None => Err TokenInvalid
  | Some row =>
      let? t := map_err EnrollmentError_of_sqlx (token_try_from row) in
      guard? (now <? et_expires_at t)%Z else TokenExpired in
      guard? negb (et_single_use t && bool_decide (is_Some (et_used_at t)))
        else TokenAlreadyUsed in
      guard? bool_decide (eq_hostname request ∉ mr_hostname <$> machines d)
        else HostAlreadyEnrolled in
      guard? bool_decide (pk ∉ mr_public_key <$> machines d)
        else PublicKeyAlreadyExists in
      Ok t
  end.

(** The whole rule: [Err] is the refusal, [Ok] carries the token and the key. *)
Definition verdict (request : EnrollRequest) (now : Z) (d : Db)
  : result (EnrollmentToken * string) EnrollmentError :=
  guard? is_well_formed (eq_enrollment_token request) else TokenInvalid in
  guard? is_valid_hostname (eq_hostname request) else InvalidRequest "invalid hostname" in
  let? pk := map_err (λ _, PublicKeyInvalid)
               (validate_ed25519_public_key (eq_public_key request)) in
  let? t := admission request pk (hash_token (eq_enrollment_token request)) now d in
  Ok (t, pk).

(** The tables after an admission: the token stamped, the machine added. *)
Definition admitted (request : EnrollRequest) (t : EnrollmentToken) (pk uuid : string)
    (now : Z) (d : Db) : Db :=
  set_machines (λ l, l ++ [new_machine_row (enrolled_machine request pk uuid now)])
    (set_tokens (λ l, (update_where (consumable (et_id t) (et_single_use t)) (used_row now) l).2)
       d).

(** A single-use token that has been consumed. *)
Definition token_spent (h : string) (d : Db) : Prop :=
  ∃ r, r ∈ enrollment_tokens d ∧ tr_token_hash r = h ∧ tr_single_use r ≠ 0%Z ∧
       is_Some (tr_used_at r).

(** The record the insert returns. *)
Definition inserted (new : NewMachine) : Machine :=
  let t := nm_enrolled_at new in
  MkMachine (nm_machine_id new) (nm_hostname new) (nm_public_key new) (nm_os new)
    (nm_arch new) (nm_agent_version new) (nm_status new) None 0 None None None None t t t.

(** ** Lemmas *)
Lemma constant_time_eq_spec a b : constant_time_eq a b = bool_decide (a = b).
Proof.
  unfold constant_time_eq. destruct (Z.eqb_spec (Z.of_nat (length a)) (Z.of_nat (length b)))
    as [Hl|Hl]; simpl.
  - apply eq_bool_prop_intro. rewrite !Is_true_true, bool_decide_eq_true, Z.eqb_eq.
    rewrite xor_fold_zero by lia. naive_solver.
  - symmetry. apply bool_decide_eq_false. intros ->. lia.
Qed.

Lemma find_by_hash_ok h w :
  no_faults w →
  find_by_hash h w =
    (match find (λ r, bool_decide (tr_token_hash r = h)) (enrollment_tokens (db w)) with
     | None => Ok None
     | Some r => map_ok Some (token_try_from r)
     end, w).
Proof.
  intros Hw. unfold find_by_hash. erewrite bind_ok by by apply query_ok. simpl.
  unfold lift. destruct (find _ _) as [r|]; csimpl; [|done]. by destruct (token_try_from r).
Qed.

Lemma find_by_hash_inv h w o w' :
  find_by_hash h w = (Ok o, w') →
  db w' = db w ∧
  match find (λ r, bool_decide (tr_token_hash r = h)) (enrollment_tokens (db w)) with
  | None => o = None
  | Some r => ∃ t, token_try_from r = Ok t ∧ o = Some t
  end.
Proof.
  unfold find_by_hash. intros Hf. db_steps. subst. split; [done|].
  destruct (find _ _) as [r|]; csimpl in *; [|by simplify_eq].
  destruct (token_try_from r); simplify_eq/=. eauto.
Qed.

Lemma token_consume_inv i su now w b w' :
  token_consume i su now w = (Ok b, w') →
  let u := update_where (consumable i su) (used_row now) (enrollment_tokens (db w)) in
  b = (u.1 =? 1)%Z ∧ db w' = set_tokens (λ l, (update_where (consumable i su) (used_row now) l).2) (db w).
Proof. unfold token_consume. intros Hc. db_steps. by simplify_eq/=. Qed.

Lemma machine_insert_inv new w m w' :
  machine_insert new w = (Ok m, w') →
  m = inserted new ∧ insert_machine_row (new_machine_row new) (db w) = Ok (tt, db w').
Proof. unfold machine_insert. intros Hi. db_steps. by destruct a. Qed.

Lemma token_try_from_fields r t :
  token_try_from r = Ok t →
  et_id t = tr_id r ∧ et_token_hash t = tr_token_hash r ∧
  et_single_use t = negb (tr_single_use r =? 0)%Z ∧
  (is_Some (et_used_at t) ↔ is_Some (tr_used_at r)).
Proof.
  unfold token_try_from. intros Ht. cases. split_and!; try done.
  destruct (tr_used_at r) as [u|]; simpl in *; [|by simplify_eq].
  destruct (parse_dt u); simplify_eq/=. split; eauto.
Qed.

(** A body that committed was admitted by the rule. *)
Lemma enroll_body_ok_inv request pk h uuid now w m w' :
  enroll_body request pk h uuid now w = (Ok m, w') →
  ∃ t, admission request pk h now (db w) = Ok t ∧
    m = inserted (enrolled_machine request pk uuid now) ∧
    (generate_machine_id uuid ∉ mr_machine_id <$> machines (db w)) ∧
    db w' = admitted request t pk uuid now (db w).
Proof.
  unfold enroll_body. intros He. ok_steps.
  repeat match goal with
  | Hf : find_by_hash _ _ = _ |- _ => apply find_by_hash_inv in Hf as [? Hf]
  | Hf : find_by_hostname _ _ = _ |- _ => pose proof (fetch_machine_db _ _ _ _ Hf);
      bool_prop; subst; apply fetch_machine_none, find_key_none in Hf
  | Hf : find_by_public_key _ _ = _ |- _ => pose proof (fetch_machine_db _ _ _ _ Hf);
      bool_prop; subst; apply fetch_machine_none, find_key_none in Hf
  | Hf : token_consume _ _ _ _ = _ |- _ => apply token_consume_inv in Hf as [? ?]
  | Hf : machine_insert _ _ = _ |- _ => apply machine_insert_inv in Hf as [? Hf];
      apply insert_machine_row_inv in Hf as (? & ? & _ & _)
  end.
  unfold admission, validate_token_state in *.
  repeat match goal with Hd : db _ = db _ |- _ => rewrite Hd in *; clear Hd end.
  destruct (find _ _) as [row|]; [destruct Hm as (t & Ht & ->)|by subst]. simplify_eq/=.
  rewrite Ht. simpl. exists a0. rewrite Z.leb_antisym in Hl.
  destruct (now <? et_expires_at a0)%Z; [|done]. simpl in Hl. case_match; [done|].
  rewrite !bool_decide_true by done. simpl. split_and!; try done; unfold admitted;
    repeat match goal with Hd : db _ = _ |- _ => rewrite Hd in *; clear Hd end; done.
Qed.

(** Consuming an acceptable token stamps its row and no other. *)
Lemma token_consume_run i su now r w :
  no_faults w → NoDup (tr_id <$> enrollment_tokens (db w)) →
  r ∈ enrollment_tokens (db w) → tr_id r = i → (su = true → tr_used_at r = None) →
  token_consume i su now w =
    (Ok true, with_db w (set_tokens (λ l, (update_where (consumable i su) (used_row now) l).2)
                           (db w))).
Proof.
  intros Hw Hnd Hin Hi Hu. unfold token_consume. erewrite bind_ok by by rewrite execute_ok.
  unfold ret. simpl. unfold consumable at 1.
  rewrite (filter_key tr_id i _ _ r); try done.
  destruct su; [|done]. rewrite bool_decide_true; auto.
Qed.

(** Without failures the body does what the rule says. *)
Lemma enroll_body_run request pk h uuid now w :
  tokens_ok (db w) → machines_ok (db w) → no_faults w →
  generate_machine_id uuid ∉ mr_machine_id <$> machines (db w) →
  enroll_body request pk h uuid now w =
    match admission request pk h now (db w) with
    | Err e => (Err e, w)
    | Ok t => (Ok (inserted (enrolled_machine request pk uuid now)),
               with_db w (admitted request t pk uuid now (db w)))
    end.
Proof.
  intros (Hti & Hth & Htr) Hm Hw Hid. unfold enroll_body, admission.
  unfold mbind, M_bind, with_err. rewrite find_by_hash_ok by done.
  destruct (find _ (enrollment_tokens _)) as [row|] eqn:Hrow; [|done].
  apply find_key in Hrow as [Hin Hhash]; [|done].
  rewrite Forall_forall in Htr. destruct (Htr _ Hin) as [t Ht]. rewrite Ht. simpl.
  destruct (token_try_from_fields _ _ Ht) as (Hid' & Hh & Hsu & Hused).
  unfold lift, ensure at 1. rewrite constant_time_eq_spec, Hh, Hhash, bool_decide_true by done.
  unfold ret at 1, validate_token_state. rewrite Z.leb_antisym.
  destruct (now <? et_expires_at t)%Z; simpl; [|done].
  destruct (et_single_use t && _) eqn:Hu; simpl; [done|].
  pose proof (fetch_by_key mr_hostname (eq_hostname request) w Hw Hm) as Hhost.
  unfold find_by_hostname. case_bool_decide as Hnh; [|destruct Hhost as [m ->]; done].
  rewrite Hhost. unfold ensure at 1. simpl.
  pose proof (fetch_by_key mr_public_key pk w Hw Hm) as Hkey.
  unfold find_by_public_key. case_bool_decide as Hnk; [|destruct Hkey as [m ->]; done].
  rewrite Hkey. unfold ensure at 1. simpl.
  rewrite (token_consume_run _ _ _ row); try done.
  2:{ intros Hsu'. rewrite Hsu' in Hu. simpl in Hu. bool_prop.
      destruct (tr_used_at row); [|done]. destruct Hu. apply Hused. eauto. }
  simpl. unfold machine_insert. erewrite bind_ok; [done|].
  rewrite execute_ok by done. by rewrite insert_machine_row_ok.
Qed.

Lemma admission_row request pk h now d t :
  admission request pk h now d = Ok t →
  ∃ r, r ∈ enrollment_tokens d ∧ tr_token_hash r = h ∧ token_try_from r = Ok t ∧
    (et_single_use t = true → tr_used_at r = None) ∧
    (eq_hostname request ∉ mr_hostname <$> machines d) ∧
    (pk ∉ mr_public_key <$> machines d) ∧ (now < et_expires_at t)%Z.
Proof.
  unfold admission. intros Ha. destruct (find _ _) as [r|] eqn:Hf; [|done].
  apply find_some in Hf as [Hin%list_elem_of_In Hh]. exists r.
  destruct (token_try_from r) as [t'|] eqn:Ht; [|done]. simpl in Ha. cases. bool_prop.
  split_and!; try done. intros Hsu. rewrite Hsu in *. simpl in *. bool_prop.
  destruct (token_try_from_fields _ _ Ht) as (_ & _ & _ & Hu).
  destruct (tr_used_at r); [|done]. exfalso. naive_solver.
Qed.

(** An admission keeps both tables well formed. *)
Lemma admitted_machines_ok `{!ChronoLaws} request t pk h uuid now d :
  machines_ok d → rfc3339_range now = true → admission request pk h now d = Ok t →
  generate_machine_id uuid ∉ mr_machine_id <$> machines d →
  machines_ok (admitted request t pk uuid now d).
Proof.
  intros Hok Ht Ha Hid. apply admission_row in Ha as (r & _ & _ & _ & _ & Hh & Hk & _).
  apply machine_rows_ok_snoc; try done. eexists. by apply new_machine_row_ok.
Qed.

Lemma used_row_ok `{!ChronoLaws} now r :
  rfc3339_range now = true → token_row_ok r → token_row_ok (used_row now r).
Proof.
  intros Hn [t Ht]. unfold token_row_ok, token_try_from in *. simpl.
  rewrite parse_to_text by done. simpl. cases; eauto.
Qed.

Lemma consume_tokens_ok `{!ChronoLaws} p now rows :
  rfc3339_range now = true → token_rows_ok rows →
  token_rows_ok (update_where p (used_row now) rows).2.
Proof.
  intros Hn (H1' & H2' & H3'). unfold token_rows_ok, update_where. simpl.
  assert (∀ (k : TokenRow → string), (∀ r, k (used_row now r) = k r) →
    k <$> ((λ x, if p x then used_row now x else x) <$> rows) = k <$> rows) as Hk.
  { intros k Hk. rewrite <-list_fmap_compose. apply list_fmap_ext.
    intros ? x _. simpl. by destruct (p x). }
  rewrite !Hk by done. split_and!; try done.
  apply Forall_fmap. eapply Forall_impl; [done|]. intros r Hr. simpl.
  destruct (p r); [by apply used_row_ok|done].
Qed.

Lemma enrolled_event_ok machine pk now :
  rfc3339_range now = true → event_ok now (enrolled_event machine pk) = true.
Proof. intros Hn. unfold event_ok. by rewrite Hn. Qed.

(** The token of a successful single-use enrollment is spent, and a spent token
    is never admitted again. *)
Lemma admitted_spends request pk h uuid now d t :
  admission request pk h now d = Ok t → et_single_use t = true →
  token_spent h (admitted request t pk uuid now d).
Proof.
  intros Ha Hsu. apply admission_row in Ha as (r & Hin & Hh & Ht & Hu & _).
  exists (used_row now r). destruct (token_try_from_fields _ _ Ht) as (Hid & _ & Hsu' & _).
  split_and!; try done; [|by rewrite Hsu in Hsu'; destruct (Z.eqb_spec (tr_single_use r) 0)].
  unfold admitted, update_where. simpl. apply list_elem_of_fmap. exists r. split; [|done].
  unfold consumable. rewrite Hsu, Hid, !bool_decide_true; auto.
Qed.

Lemma spent_not_admitted request pk h now d t :
  tokens_ok d → token_spent h d → admission request pk h now d ≠ Ok t.
Proof.
  intros (_ & Hnd & _) (r & Hin & Hh & Hsu & Hused) Ha. unfold admission in Ha.
  rewrite (proj2 (find_key _ _ _ _ Hnd) (conj Hin Hh)) in Ha.
  destruct (token_try_from r) as [t'|] eqn:Ht; [|done].
  destruct (token_try_from_fields _ _ Ht) as (_ & _ & Hsu' & Hu). simpl in Ha.
  apply Hu in Hused. rewrite Hsu', (bool_decide_true _ Hused) in Ha.
  destruct (Z.eqb_spec (tr_single_use r) 0); [done|]. simpl in Ha. by cases.
Qed.

(** Consuming some token leaves a spent one spent. *)
Lemma admitted_keeps_spent request pk uuid now d t h :
  token_spent h d → token_spent h (admitted request t pk uuid now d).
Proof.
  intros (r & Hin & Hh & Hsu & Hused).
  exists (if consumable (et_id t) (et_single_use t) r then used_row now r else r).
  split_and!; [|by case_match..|].
  - unfold admitted, update_where. simpl. apply list_elem_of_fmap. by exists r.
  - case_match; [by eexists|done].
Qed.

Lemma generate_token_well_formed `{!HexEncodeLaws} random :
  String.length random = 32 → is_well_formed (generate_token random) = true.
Proof.
  intros Hr. unfold is_well_formed, generate_token, str_len.
  rewrite length_string_app, hex_length, Hr. simpl (_ <? _)%Z. rewrite strip_prefix_app.
  assert (str_is_empty (hex_encode random) = false) as ->.
  { apply bool_decide_eq_false. intros He. apply (f_equal String.length) in He.
    rewrite hex_length, Hr in He. done. }
  simpl. eapply str_all_impl; [|apply hex_digits]. by intros c ->.
Qed.

Lemma token_rows_ok_snoc r rows :
  token_rows_ok rows → token_row_ok r → tr_id r ∉ tr_id <$> rows →
  tr_token_hash r ∉ tr_token_hash <$> rows → token_rows_ok (rows ++ [r]).
Proof.
  intros (Hn1 & Hn2 & Hok) Hr Hi Hh. unfold token_rows_ok. rewrite !fmap_app.
  split_and!; try (apply NoDup_app_snoc; done). apply Forall_app. auto.
Qed.

Lemma insert_token_row_inv r d u d' :
  insert_token_row r d = Ok (u, d') →
  d' = set_tokens (λ l, l ++ [r]) d ∧ (tr_id r ∉ tr_id <$> enrollment_tokens d) ∧
  (tr_token_hash r ∉ tr_token_hash <$> enrollment_tokens d).
Proof. unfold insert_token_row. intros Hi. cases. bool_prop. by rewrite <-!existsb_key. Qed.

Lemma new_token_row_reads `{!ChronoLaws} new :
  rfc3339_range (nt_created_at new) = true → rfc3339_range (nt_expires_at new) = true →
  token_try_from (new_token_row new) =
    Ok (MkEnrollmentToken (nt_id new) (nt_token_hash new) (trunc_millis (nt_created_at new))
          (trunc_millis (nt_expires_at new)) None (nt_created_by new) (nt_single_use new)).
Proof.
  intros Hc He. unfold token_try_from. simpl. rewrite !parse_to_text by done.
  by destruct (nt_single_use new).
Qed.

(** What a successful creation did to the tables. *)
Lemma create_token_inv random uuid now by_ ttl su w it w' :
  create_enrollment_token random uuid now by_ ttl su w = (Ok it, w') →
  let new := MkNewEnrollmentToken uuid (hash_token (generate_token random)) now (now + ttl) by_ su in
  it_plaintext it = generate_token random ∧
  insert_token_row (new_token_row new) (db w) = Ok (tt, db w').
Proof.
  unfold create_enrollment_token, token_create. intros Hc. db_steps.
  apply db_call_db in Hm. rewrite Hm in *. split; [done|].
  by repeat match goal with u : () |- _ => destruct u end.
Qed.

(** The handler without failures; shared by the theorems below. *)
Lemma enroll_run `{!ChronoLaws, !SerdeJsonLaws} sv uuid now audit_now request w :
  tokens_ok (db w) → machines_ok (db w) → audit_ok (db w) → no_faults w →
  generate_machine_id uuid ∉ mr_machine_id <$> machines (db w) →
  rfc3339_range audit_now = true →
  match verdict request now (db w) with
  | Err e => enroll sv uuid now audit_now request w = (Err e, w)
  | Ok (t, pk) => ∃ w' row,
      enroll sv uuid now audit_now request w =
        (Ok (MkEnrollResponse (generate_machine_id uuid) (sv_heartbeat_interval sv)
               (sv_sync_interval sv) (sv_server_identity sv) (sv_bundle_signing_key sv)), w') ∧
      same_but_audit (admitted request t pk uuid now (db w)) (db w') ∧
      audit_log (db w') = audit_log (db w) ++ [row] ∧
      ar_event_type row = EVENT_MACHINE_ENROLLED ∧
      ar_subject row = Some (generate_machine_id uuid) ∧ audit_ok (db w')
  end.
Proof.
  intros Ht Hm Ha Hw Hid Hn. unfold verdict, enroll, ensure.
  destruct (is_well_formed _); [|done]. destruct (is_valid_hostname _); [|done].
  destruct (validate_ed25519_public_key _) as [pk|]; [|done]. simpl.
  unfold mbind, M_bind, ret, lift. simpl.
  pose proof (enroll_body_run request pk (hash_token (eq_enrollment_token request)) uuid now w
    Ht Hm Hw Hid) as Hbody.
  destruct (admission _ _ _ _ _) as [t|e].
  2:{ unfold transaction. rewrite db_call_ok, Hbody by done. by destruct w. }
  rewrite (transaction_no_faults _ _ _ _ _ Hw Hbody) by done.
  set (w1 := with_db w _). set (ev := enrolled_event _ pk).
  assert (event_ok audit_now ev = true) as Hev by by apply enrolled_event_ok.
  assert (audit_ok (db w1)) as Ha1 by done.
  destruct (append_entry_no_faults ev audit_now w1 Ha1 Hev Hw) as (e & w' & Happ & _).
  destruct (append_entry_ok _ _ _ _ _ Ha1 Hev Happ) as (row & Hlog & Hdec & Hsame & Hok).
  exists w', row. unfold with_err, append_audit_event. rewrite Happ.
  destruct (append_entry_fields _ _ _ _ _ Hn Happ) as (He & _ & Hs & _).
  destruct (decodes_fields _ _ Hdec) as (_ & _ & He' & _ & Hs' & _).
  rewrite <-He', <-Hs', He, Hs. split_and!; done.
Qed.

(** The handler whichever calls fail; shared with the system invariant. *)
Lemma enroll_effect `{!ChronoLaws, !SerdeJsonLaws} sv uuid now audit_now request w r w' :
  audit_ok (db w) → rfc3339_range audit_now = true →
  enroll sv uuid now audit_now request w = (r, w') →
  (db w' = db w ∧ ∃ e, r = Err e) ∨
  ∃ t pk, verdict request now (db w) = Ok (t, pk) ∧
    (generate_machine_id uuid ∉ mr_machine_id <$> machines (db w)) ∧
    same_but_audit (admitted request t pk uuid now (db w)) (db w') ∧ audit_ok (db w') ∧
    match r with
    | Ok resp => es_machine_id resp = generate_machine_id uuid ∧
        ∃ row, audit_log (db w') = audit_log (db w) ++ [row] ∧
          ar_subject row = Some (generate_machine_id uuid)
    | Err e => audit_log (db w') = audit_log (db w) ∧ ∃ c, e = EnrollmentInternal (CauseAudit c)
    end.
Proof.
  intros Ha Hn. unfold verdict, enroll, ensure.
  destruct (is_well_formed _); [|intros [= <- <-]; eauto].
  destruct (is_valid_hostname _); [|intros [= <- <-]; eauto].
  destruct (validate_ed25519_public_key _) as [pk|]; [|intros [= <- <-]; eauto]. simpl.
  do 4 (unfold mbind at 1, M_bind at 1; simpl).
  destruct (transaction _ _ w) as [[m|e] w1] eqn:Htx.
  2:{ intros [= <- <-]. apply transaction_err in Htx. eauto. }
  apply transaction_ok in Htx as (w2 & w3 & Hw2 & Hb & Hw3).
  apply enroll_body_ok_inv in Hb as (t & Hadm & -> & Hid & Hdb). rewrite Hw2 in *.
  rewrite Hdb in Hw3. set (ev := enrolled_event _ pk).
  assert (event_ok audit_now ev = true) as Hev by by apply enrolled_event_ok.
  assert (audit_ok (db w1)) as Ha1 by by rewrite Hw3.
  intros Hk. right. exists t, pk. rewrite Hadm. split; [done|]. split; [done|]. rewrite <-Hw3.
  unfold mbind, M_bind, with_err, append_audit_event in Hk.
  destruct (append_entry ev audit_now w1) as [[en|e] w4] eqn:Happ; simplify_eq/=.
  - destruct (append_entry_ok _ _ _ _ _ Ha1 Hev Happ) as (row & Hlog & Hdec & Hsame & Hok).
    destruct (append_entry_fields _ _ _ _ _ Hn Happ) as (_ & _ & Hs & _).
    destruct (decodes_fields _ _ Hdec) as (_ & _ & _ & _ & Hs' & _).
    unfold ret in Hk. simplify_eq/=.
    split_and!; [done|done|done|]. exists row. rewrite Hlog, Hw3. split; [done|]. congruence.
  - apply append_entry_err in Happ. rewrite Happ, Hw3. split_and!; [done|done|done|].
    by eexists.
Qed.

(** A new token in the table, unexpired and well formed, admits a machine. *)
Lemma known_token_enrolls `{!ChronoLaws, !SerdeJsonLaws} sv new uuid now audit_now request pk w :
  tokens_ok (db w) → machines_ok (db w) → audit_ok (db w) → no_faults w →
  new_token_row new ∈ enrollment_tokens (db w) →
  rfc3339_range (nt_created_at new) = true → rfc3339_range (nt_expires_at new) = true →
  rfc3339_range audit_now = true → (now < trunc_millis (nt_expires_at new))%Z →
  is_well_formed (eq_enrollment_token request) = true →
  nt_token_hash new = hash_token (eq_enrollment_token request) →
  is_valid_hostname (eq_hostname request) = true →
  validate_ed25519_public_key (eq_public_key request) = Ok pk →
  eq_hostname request ∉ mr_hostname <$> machines (db w) →
  pk ∉ mr_public_key <$> machines (db w) →
  generate_machine_id uuid ∉ mr_machine_id <$> machines (db w) →
  ∃ resp w' row, enroll sv uuid now audit_now request w = (Ok resp, w') ∧
    es_machine_id resp = generate_machine_id uuid ∧
    machines (db w') = machines (db w) ++ [row] ∧ mr_machine_id row = es_machine_id resp ∧
    mr_status row = MachineStatus_as_str Active ∧ mr_public_key row = pk.
Proof.
  intros Ht Hm Ha Hw Hin Hr1 Hr2 Han Hexp Hwf Hhash Hh Hpk Hfh Hfk Hfi.
  pose proof (enroll_run sv uuid now audit_now request w Ht Hm Ha Hw Hfi Han) as Hrun.
  unfold verdict, admission in Hrun. rewrite Hwf, Hh, Hpk in Hrun. simpl in Hrun.
  rewrite (proj2 (find_key tr_token_hash (hash_token (eq_enrollment_token request)) _
    (new_token_row new) (proj1 (proj2 Ht)))) in Hrun by done.
  rewrite (new_token_row_reads new Hr1 Hr2) in Hrun. simpl in Hrun.
  rewrite (proj2 (Z.ltb_lt _ _)) in Hrun by done.
  rewrite andb_false_r, !bool_decide_true in Hrun by done. simpl in Hrun.
  destruct Hrun as (w' & row & He & (Hmach & _) & _). eexists _, w', _.
  split; [exact He|]. by rewrite Hmach.
Qed.

Lemma create_token_stored `{!ChronoLaws} random tid created by_ ttl su it w0 w :
  tokens_ok (db w0) → rfc3339_range created = true → rfc3339_range (created + ttl) = true →
  create_enrollment_token random tid created by_ ttl su w0 = (Ok it, w) →
  let new := MkNewEnrollmentToken tid (hash_token (generate_token random)) created (created + ttl)
               by_ su in
  it_plaintext it = generate_token random ∧
  db w = set_tokens (λ l, l ++ [new_token_row new]) (db w0) ∧ tokens_ok (db w).
Proof.
  intros Ht Hr1 Hr2 [Hpl Hins]%create_token_inv.
  apply insert_token_row_inv in Hins as (Hdb & Hid & Hhash). split_and!; [done|done|].
  rewrite Hdb. apply token_rows_ok_snoc; try done. eexists. by apply new_token_row_reads.
Qed.

(** ** Theorems *)

(** C5: enrollment implements the admission rule.  With a database that answers,
    a refused request gets exactly the refusal of the rule, in its order, and no
    table changes; an admitted request gets its response, the tables become the
    admitted ones, and one [machine.enrolled] entry about the new machine is at
    the end of the audit log. *)
Theorem enroll_implements_verdict `{!ChronoLaws, !SerdeJsonLaws} sv uuid now audit_now request w :
  tokens_ok (db w) → machines_ok (db w) → audit_ok (db w) → no_faults w →
  generate_machine_id uuid ∉ mr_machine_id <$> machines (db w) →
  rfc3339_range audit_now = true →
  match verdict request now (db w) with
  | Err e => enroll sv uuid now audit_now request w = (Err e, w)
  | Ok (t, pk) => ∃ w' row,
      enroll sv uuid now audit_now request w =
        (Ok (MkEnrollResponse (generate_machine_id uuid) (sv_heartbeat_interval sv)
               (sv_sync_interval sv) (sv_server_identity sv) (sv_bundle_signing_key sv)), w') ∧
      same_but_audit (admitted request t pk uuid now (db w)) (db w') ∧
      audit_log (db w') = audit_log (db w) ++ [row] ∧
      ar_event_type row = EVENT_MACHINE_ENROLLED ∧
      ar_subject row = Some (generate_machine_id uuid) ∧ audit_ok (db w')
  end.
Proof. apply enroll_run. Qed.

(** C18: enrollment is all or nothing, whichever database calls fail.  Either no
    table changed and the caller got an error, or the rule admitted the request
    and both the token and the machine were written; then the caller got the
    response and one audit entry was added, or the audit alone failed, which the
    caller sees as an internal error about a machine that is enrolled. *)
Theorem enroll_all_or_nothing `{!ChronoLaws, !SerdeJsonLaws} sv uuid now audit_now request w r w' :
  audit_ok (db w) → rfc3339_range audit_now = true →
  enroll sv uuid now audit_now request w = (r, w') →
  (db w' = db w ∧ ∃ e, r = Err e) ∨
  ∃ t pk, verdict request now (db w) = Ok (t, pk) ∧
    (generate_machine_id uuid ∉ mr_machine_id <$> machines (db w)) ∧
    same_but_audit (admitted request t pk uuid now (db w)) (db w') ∧ audit_ok (db w') ∧
    match r with
    | Ok resp => es_machine_id resp = generate_machine_id uuid ∧
        ∃ row, audit_log (db w') = audit_log (db w) ++ [row] ∧
          ar_subject row = Some (generate_machine_id uuid)
    | Err e => audit_log (db w') = audit_log (db w) ∧ ∃ c, e = EnrollmentInternal (CauseAudit c)
    end.
Proof. apply enroll_effect. Qed.

(** C28: a freshly created token admits a machine.  The token the operator gets
    from [create_enrollment_token] is accepted by [enroll] at any time before its
    expiry (cut to the millisecond that is stored), for a valid hostname and key
    that no machine has: the agent gets its response and the machine it is told
    about is in the table as [Active]. *)
Theorem created_token_enrolls `{!ChronoLaws, !SerdeJsonLaws, !HexEncodeLaws}
    sv random tid created by_ ttl su it w0 w uuid now audit_now request pk :
  tokens_ok (db w0) → machines_ok (db w0) → audit_ok (db w0) → no_faults w →
  create_enrollment_token random tid created by_ ttl su w0 = (Ok it, w) →
  String.length random = 32 → rfc3339_range created = true →
  rfc3339_range (created + ttl) = true → rfc3339_range now = true →
  rfc3339_range audit_now = true → (now < trunc_millis (created + ttl))%Z →
  eq_enrollment_token request = it_plaintext it →
  is_valid_hostname (eq_hostname request) = true →
  validate_ed25519_public_key (eq_public_key request) = Ok pk →
  eq_hostname request ∉ mr_hostname <$> machines (db w) →
  pk ∉ mr_public_key <$> machines (db w) →
  generate_machine_id uuid ∉ mr_machine_id <$> machines (db w) →
  ∃ resp w' row, enroll sv uuid now audit_now request w = (Ok resp, w') ∧
    es_machine_id resp = generate_machine_id uuid ∧
    machines (db w') = machines (db w0) ++ [row] ∧ mr_machine_id row = es_machine_id resp ∧
    mr_status row = MachineStatus_as_str Active ∧ mr_public_key row = pk.
Proof.
  intros Ht Hm Ha Hw Hc Hlen Hr1 Hr2 Hn Han Hexp Hreq Hh Hpk Hfh Hfk Hfi.
  destruct (create_token_stored _ _ _ _ _ _ _ _ _ Ht Hr1 Hr2 Hc) as (Hpl & Hdb & Ht').
  set (new := MkNewEnrollmentToken _ _ _ _ _ _) in Hdb.
  rewrite <-(f_equal machines Hdb : machines (db w) = machines (db w0)).
  eapply (known_token_enrolls sv new); try done; rewrite ?Hdb; try done.
  - simpl. set_solver.
  - rewrite Hreq, Hpl. by apply generate_token_well_formed.
  - by rewrite Hreq, Hpl.
Qed.
End enrollment.

(** ** Witnesses *)
#[local] Existing Instances toy_sha256 toy_hex toy_chrono toy_serde_json toy_ssh_key.
#[local] Existing Instances toy_sha256_laws toy_hex_laws toy_chrono_laws toy_serde_json_laws.

Definition demo_random : string := "0123456789abcdef0123456789abcdef".
Definition demo_service : EnrollmentService := EnrollmentService_sqlite "ssh-ed25519 CA".

(** The database after an operator minted a single-use token. *)
Definition token_world : World :=
  (create_enrollment_token demo_random "tok-1" (seconds 5) "admin" (seconds 600) true
     empty_world).2.
Definition demo_request : EnrollRequest :=
  MkEnrollRequest (generate_token demo_random) "web-01" "linux" "x86_64" "0.1.0"
    "ssh-ed25519 AAAA".

Lemma empty_tokens_ok : tokens_ok empty_db.
Proof. by repeat constructor. Qed.
Lemma token_world_tokens_ok : tokens_ok (db token_world).
Proof.
  split_and!; [apply NoDup_singleton..|]. apply Forall_singleton. eexists.
  vm_compute. reflexivity.
Qed.
Lemma token_world_machines_ok : machines_ok (db token_world).
Proof. split_and!; constructor. Qed.
Lemma token_world_audit_ok : audit_ok (db token_world).
Proof. exists []. split; constructor. Qed.

Lemma enroll_implements_verdict_witness :
  ∃ t pk w' row, verdict demo_request (seconds 9) (db token_world) = Ok (t, pk) ∧
    enroll demo_service "u1" (seconds 9) (seconds 9) demo_request token_world =
      (Ok (MkEnrollResponse "srv_u1" 60 300 "ssh-ed25519 CA" None), w') ∧
    audit_log (db w') = [] ++ [row] ∧ ar_event_type row = "machine.enrolled".
Proof.
  pose proof (enroll_implements_verdict demo_service "u1" (seconds 9) (seconds 9) demo_request
    token_world token_world_tokens_ok token_world_machines_ok token_world_audit_ok eq_refl
    (not_elem_of_nil _) eq_refl) as Hrun.
  destruct (verdict demo_request (seconds 9) (db token_world)) as [[t pk]|e] eqn:Hv;
    [|vm_compute in Hv; discriminate Hv].
  destruct Hrun as (w' & row & He & _ & Hlog & Hty & _).
  exists t, pk, w', row. split_and!; done.
Defined.

(** The commit succeeds and the audit append that follows fails. *)
Definition audit_fails_world : World := MkWorld (db token_world)
  [false; false; false; false; false; false; false; true].

Lemma enroll_all_or_nothing_witness :
  let '(r, w') := enroll demo_service "u1" (seconds 9) (seconds 9) demo_request
                    audit_fails_world in
  length (machines (db w')) = 1 ∧ audit_log (db w') = [] ∧
  ∃ c, r = Err (EnrollmentInternal (CauseAudit c)).
Proof.
  destruct (enroll demo_service "u1" (seconds 9) (seconds 9) demo_request audit_fails_world)
    as [r w'] eqn:He.
  assert (length (machines (db w')) = 1) as Hlen.
  { change w' with (r, w').2. rewrite <-He. vm_compute. reflexivity. }
  assert (is_ok r = false) as Hr.
  { change r with (r, w').1. rewrite <-He. vm_compute. reflexivity. }
  destruct (enroll_all_or_nothing demo_service "u1" (seconds 9) (seconds 9) demo_request
    audit_fails_world r w' token_world_audit_ok eq_refl He)
    as [[Hdb _]|(t & pk & _ & _ & _ & _ & Hcase)].
  - rewrite Hdb in Hlen. vm_compute in Hlen. discriminate Hlen.
  - destruct r as [resp|e]; [discriminate Hr|]. destruct Hcase as [Hlog [c ->]].
    split_and!; [done|done|by exists c].
Defined.

Lemma created_token_enrolls_witness :
  ∃ resp w' row,
    enroll demo_service "u1" (seconds 9) (seconds 9) demo_request token_world = (Ok resp, w') ∧
    es_machine_id resp = "srv_u1" ∧ machines (db w') = [] ++ [row] ∧
    mr_machine_id row = es_machine_id resp ∧ mr_status row = "active" ∧
    mr_public_key row = "ssh-ed25519 AAAA".
Proof.
  destruct (create_enrollment_token demo_random "tok-1" (seconds 5) "admin" (seconds 600) true
    empty_world) as [[it|e] w] eqn:Hc; [|vm_compute in Hc; discriminate Hc].
  assert (w = token_world) as -> by (unfold token_world; by rewrite Hc).
  assert (eq_enrollment_token demo_request = it_plaintext it) as Hreq.
  { symmetry. exact (proj1 (create_token_inv _ _ _ _ _ _ _ _ _ Hc)). }
  exact (created_token_enrolls demo_service demo_random "tok-1" (seconds 5) "admin"
    (seconds 600) true it empty_world token_world "u1" (seconds 9) (seconds 9) demo_request
    "ssh-ed25519 AAAA" empty_tokens_ok empty_machines_ok (empty_audit_ok []) eq_refl Hc eq_refl
    eq_refl eq_refl eq_refl eq_refl eq_refl Hreq eq_refl eq_refl (not_elem_of_nil _)
    (not_elem_of_nil _) (not_elem_of_nil _)).
Defined.
