(* ===== verification/AgentAuth.v ===== *)
(** * Authentication of agent requests
      ([src/src/agentauth/signing.rs], [nonce.rs], [middleware.rs])

    An agent signs a canonical string of its request; the middleware checks the
    headers, the timestamp window, the body bound, the machine, the signature and
    its status, and consumes the nonce last.  The replay cache is an interface,
    as the trait is: the middleware's theorems are proved against its laws and
    [InMemoryNonceCache] is an instance. *)
From S2P Require Import Prelude External Errors Database Machines Toy.

(** ** Signing ([signing.rs]) *)
Definition SIGNING_DOMAIN : string := "mayfly-agent-auth-v1".
Definition HEADER_MACHINE_ID : string := "x-mayfly-machine-id".
Definition HEADER_TIMESTAMP : string := "x-mayfly-timestamp".
Definition HEADER_NONCE : string := "x-mayfly-nonce".
Definition HEADER_SIGNATURE : string := "x-mayfly-signature".
Definition SIGNATURE_LENGTH : Z := 64.

Inductive SignatureError : Type :=
| MalformedPublicKey
| NotEd25519
| MalformedSignature
| Invalid.

Definition SignatureError_display (e : SignatureError) : string :=
  match e with
  | MalformedPublicKey => "malformed public key"
  | NotEd25519 => "public key is not ed25519"
  | MalformedSignature => "malformed signature"
  | Invalid => "signature verification failed"
  end.

Definition body_sha256_hex `{Sha256} (body : string) : string := sha256_hex body.

(** A field followed by a newline and the rest. *)
Definition line (field rest : string) : string := field +:+ String newline rest.

Definition canonical_string (machine_id : string) (timestamp : Z)
    (nonce method path body_hash_hex : string) : string :=
  line SIGNING_DOMAIN (line machine_id (line (display_int timestamp)
    (line nonce (line method (line path body_hash_hex))))).

Section signing.
Context `{SshKey, Base64, Ed25519}.

Definition verifying_key (public_key_openssh : string) : result string SignatureError :=
  let? key := ok_or MalformedPublicKey (from_openssh public_key_openssh) in
  let? ed := ok_or NotEd25519 (ed25519_bytes key) in
  guard? verifying_key_ok ed else MalformedPublicKey in
  Ok ed.

Definition verify_signature (public_key_openssh canonical signature_b64 : string)
  : result unit SignatureError :=
  let? key := verifying_key public_key_openssh in
  let? raw := ok_or MalformedSignature (b64_decode signature_b64) in
  guard? (str_len raw =? SIGNATURE_LENGTH)%Z else MalformedSignature in
  guard? verify_strict key canonical raw else Invalid in
  Ok tt.

Definition sign_canonical (seed canonical : string) : string :=
  b64_encode (dalek_sign seed canonical).
End signing.

(** ** The replay cache ([nonce.rs]) *)
Definition NONCE_TTL_SECS : Z := 120.

(** The trait: [true] when the nonce was newly recorded, and the cache after. *)
Class NonceCache (C : Type) : Type :=
  check_and_record : C → string → string → Z → bool * C.

(** What the trait promises, over the pairs a cache still refuses at an instant. *)
Class NonceCacheLaws (C : Type) `{NonceCache C} : Type := {
  refuses : C → string → string → Z → bool;
  check_decides : ∀ c m n now,
    (check_and_record c m n now).1 = negb (refuses c m n now);
  check_records : ∀ c m n now t,
    (check_and_record c m n now).1 = true →
    refuses (check_and_record c m n now).2 m n t = (t <? now + seconds NONCE_TTL_SECS)%Z;
  check_keeps : ∀ c m n now m' n' t,
    (now <= t)%Z → refuses c m' n' t = true →
    refuses (check_and_record c m n now).2 m' n' t = true;
  check_adds_only : ∀ c m n now m' n' t,
    refuses (check_and_record c m n now).2 m' n' t = true →
    refuses c m' n' t = true ∨
    (m', n') = (m, n) ∧ (check_and_record c m n now).1 = true;
}.

(** [HashMap<(String, String), DateTime<Utc>>] of expiry instants. *)
Abbreviation InMemoryNonceCache := (gmap (string * string) Z).
Definition InMemoryNonceCache_new : InMemoryNonceCache := ∅.
Definition InMemoryNonceCache_len (map : InMemoryNonceCache) : Z := Z.of_nat (size map).
Definition InMemoryNonceCache_is_empty (map : InMemoryNonceCache) : bool :=
  bool_decide (map = ∅).

(** [retain(|_, exp| *exp > now)]. *)
Definition retain (now : Z) (map : InMemoryNonceCache) : InMemoryNonceCache :=
  filter (λ kv, (now < kv.2)%Z) map.

#[export] Instance InMemory_check_and_record : NonceCache InMemoryNonceCache :=
  λ map machine_id nonce now,
    let expiry := (now + seconds NONCE_TTL_SECS)%Z in
    let map := retain now map in
    match map !! (machine_id, nonce) with
    | Some _ => (false, map)
    | None => (true, <[(machine_id, nonce) := expiry]> map)
    end.

(** ** The middleware ([middleware.rs]) *)
Definition MAX_SIGNED_BODY_BYTES : Z := 64 * 1024.
Definition TIMESTAMP_SKEW_SECS : Z := 60.

(** What the middleware reads of a request.  Header names are in lower case; a
    body that cannot be read is [None]. *)
Record Request : Type := MkRequest {
  rq_headers : list (string * string);
  rq_method : string;
  rq_path : string;
  rq_body : option string;
}.

Definition reject : ApiError := Unauthorized "request authentication failed".

(** [HeaderValue::to_str]: visible ASCII and tab. *)
Definition header_to_str (v : string) : option string :=
  if str_all (λ c, in_range 32 126 (byte_code c) || (byte_code c =? 9)%Z) v then Some v else None.

Definition header_get (name : string) (headers : list (string * string)) : option string :=
  snd <$> find (λ kv, bool_decide (kv.1 = name)) headers.

Definition header_value (headers : list (string * string)) (name : string)
  : result string ApiError :=
  ok_or (Unauthorized "missing or malformed signing headers")
    (v ← header_get name headers; v ← header_to_str v;
     if str_is_empty v then None else Some v).

(** The release build's [(now.timestamp() - timestamp).abs() > SKEW], in [i64]. *)
Definition outside_window (now timestamp_claimed : Z) : bool :=
  (TIMESTAMP_SKEW_SECS <? wrap_i64 (Z.abs (wrap_i64 (timestamp now - timestamp_claimed))))%Z.

Section middleware.
Context `{Sha256, Chrono, SshKey, Base64, Ed25519, NonceCache C}.

(** The server's shared state as the middleware sees it. *)
Record Server : Type := MkServer { sv_world : World; sv_nonces : C }.

Definition on_world {E A} (m : M World E A) : M Server E A := λ s,
  let '(r, w) := m (sv_world s) in (r, MkServer w (sv_nonces s)).

(** [state.nonce_cache().check_and_record(..)]. *)
Definition consume_nonce (machine_id nonce : string) (now : Z) : M Server ApiError bool := λ s,
  let '(fresh, c) := check_and_record (sv_nonces s) machine_id nonce now in
  (Ok fresh, MkServer (sv_world s) c).

(** Steps (1) to (5b): everything before the nonce is consumed. *)
Definition check_request (now : Z) (request : Request)
  : M Server ApiError (Machine * string * string * string) :=
  machine_id ← lift (header_value (rq_headers request) HEADER_MACHINE_ID);
  timestamp_raw ← lift (header_value (rq_headers request) HEADER_TIMESTAMP);
  nonce ← lift (header_value (rq_headers request) HEADER_NONCE);
  signature ← lift (header_value (rq_headers request) HEADER_SIGNATURE);
  timestamp ← lift (ok_or reject (parse_i64 timestamp_raw));
  _ ← ensure (negb (outside_window now timestamp)) reject;
  body ← lift (ok_or reject (rq_body request));
  _ ← ensure (str_len body <=? MAX_SIGNED_BODY_BYTES)%Z reject;
  let body_hash := body_sha256_hex body in
  _ ← with_err ApiError_of_sqlx (on_world db_call);
  found ← with_err ApiError_of_sqlx (on_world (find_by_id machine_id));
  machine ← lift (ok_or reject found);
  let canonical := canonical_string machine_id timestamp nonce (rq_method request)
                     (rq_path request) body_hash in
  _ ← lift (map_err (λ _, reject) (verify_signature (public_key machine) canonical signature));
  _ ← ensure (bool_decide (status machine = Active)) reject;
  ret (machine, machine_id, nonce, body).

(** Step (6) follows; the verified machine and the body go to the handler that
    runs next. *)
Definition verify_machine_signature (now : Z) (request : Request)
  : M Server ApiError (Machine * string) :=
  checked ← check_request now request;
  let '(machine, machine_id, nonce, body) := checked in
  fresh ← consume_nonce machine_id nonce now;
  _ ← ensure fresh reject;
  ret (machine, body).

(** ** What acceptance means *)

(** The checks a request passes against a database, and what was signed. *)
Record authentic (d : Db) (now : Z) (request : Request) (nonce : string) (ts : Z)
    (machine : Machine) (body : string) : Prop := {
  auth_row : ∃ r, r ∈ machines d ∧ machine_try_from r = Ok machine;
  auth_active : status machine = Active;
  auth_id_header : header_value (rq_headers request) HEADER_MACHINE_ID = Ok (machine_id machine);
  auth_nonce_header : header_value (rq_headers request) HEADER_NONCE = Ok nonce;
  auth_timestamp : ∃ raw, header_value (rq_headers request) HEADER_TIMESTAMP = Ok raw ∧
    parse_i64 raw = Some ts;
  auth_window : outside_window now ts = false;
  auth_body : rq_body request = Some body;
  auth_body_len : (str_len body <= MAX_SIGNED_BODY_BYTES)%Z;
  auth_signed : ∃ sig, header_value (rq_headers request) HEADER_SIGNATURE = Ok sig ∧
    verify_signature (public_key machine)
      (canonical_string (machine_id machine) ts nonce (rq_method request) (rq_path request)
         (body_sha256_hex body)) sig = Ok tt;
}.

(** Calls at non-decreasing instants on one cache, and the answers. *)
Fixpoint run_nonces (c : C) (calls : list (string * string * Z)) : list bool :=
  match calls with
  | [] => []
  | (m, n, t) :: calls =>
      let '(b, c) := check_and_record c m n t in b :: run_nonces c calls
  end.

(** How the cache can change between two instants: any requests served. *)
Inductive nonces_evolve : Z → C → Z → C → Prop :=
| evolve_wait t t' c : (t <= t')%Z → nonces_evolve t c t' c
| evolve_check t c m n now t' c' :
    (t <= now)%Z → nonces_evolve now (check_and_record c m n now).2 t' c' →
    nonces_evolve t c t' c'.
End middleware.
Arguments Server : clear implicits.

(** ** The in-memory cache keeps the promise *)
Definition memory_refuses (c : InMemoryNonceCache) (m n : string) (t : Z) : bool :=
  match c !! (m, n) with Some exp => (t <? exp)%Z | None => false end.

Lemma retain_lookup now c k exp :
  retain now c !! k = Some exp ↔ c !! k = Some exp ∧ (now < exp)%Z.
Proof. apply (map_lookup_filter_Some (M := gmap (string * string))). Qed.

Lemma memory_check c m n now :
  check_and_record c m n now =
    if memory_refuses c m n now then (false, retain now c)
    else (true, <[(m, n) := (now + seconds NONCE_TTL_SECS)%Z]> (retain now c)).
Proof.
  unfold check_and_record, InMemory_check_and_record, memory_refuses.
  destruct (retain now c !! (m, n)) as [e|] eqn:Hr.
  - apply retain_lookup in Hr as [-> He]. by rewrite (proj2 (Z.ltb_lt _ _)).
  - destruct (c !! (m, n)) as [e|] eqn:Hc; [|done].
    destruct (Z.ltb_spec now e); [|done].
    rewrite (proj2 (retain_lookup now c (m, n) e)) in Hr; done.
Qed.

#[export] Instance InMemory_laws : NonceCacheLaws InMemoryNonceCache.
Proof.
  refine {| refuses := memory_refuses |}; intros c m n now; rewrite memory_check.
  - by destruct (memory_refuses c m n now).
  - intros t. destruct (memory_refuses c m n now); [done|]. intros _.
    unfold memory_refuses. simpl. by rewrite lookup_insert_eq.
  - intros m' n' t Ht Hr. unfold memory_refuses in Hr |- *.
    destruct (c !! (m', n')) as [e|] eqn:Hc; [|done]. bool_prop.
    assert (retain now c !! (m', n') = Some e) as Hret by (apply retain_lookup; split; [done|lia]).
    destruct (c !! (m, n)) as [e'|] eqn:Hc'; [destruct (Z.ltb_spec now e')|]; simpl.
    + rewrite Hret. by apply Z.ltb_lt.
    + rewrite lookup_insert_ne by congruence || (intros [= -> ->]; simplify_eq; lia).
      rewrite Hret. by apply Z.ltb_lt.
    + rewrite lookup_insert_ne by (intros [= -> ->]; simplify_eq).
      rewrite Hret. by apply Z.ltb_lt.
  - intros m' n' t. destruct (memory_refuses c m n now); simpl.
    + intros Hr. left. unfold memory_refuses in Hr |- *.
      destruct (retain now c !! _) as [e|] eqn:He; [|done].
      by apply retain_lookup in He as [-> _].
    + destruct (decide ((m', n') = (m, n))) as [Heq|Hne]; [by right|].
      intros Hr. left. unfold memory_refuses in Hr |- *. rewrite lookup_insert_ne in Hr by done.
      destruct (retain now c !! _) as [e|] eqn:He; [|done].
      by apply retain_lookup in He as [-> _].
Defined.

(** ** Lemmas *)
Lemma line_inj a b x y :
  str_mem newline a = false → str_mem newline b = false →
  line a x = line b y → a = b ∧ x = y.
Proof. apply separator_inj. Qed.

(** When the window check passes.  The second case is the wrap-around of [i64]:
    a difference of [2^63] becomes [i64::MIN], whose absolute value is itself. *)
Lemma window_spec now ts :
  rfc3339_range now = true → is_i64 ts = true → outside_window now ts = false →
  (Z.abs (timestamp now - ts) <= TIMESTAMP_SKEW_SECS)%Z ∨
  (Z.abs (timestamp now - ts) = 9223372036854775808)%Z.
Proof.
  unfold rfc3339_range, is_i64, in_range, outside_window, TIMESTAMP_SKEW_SECS, timestamp,
    wrap_i64, seconds, nanos_per_sec, i64_min, i64_max.
  intros Hn Ht Hw. bool_prop.
  pose proof (Z.div_mod now 1000000000 ltac:(lia)).
  pose proof (Z.mod_pos_bound now 1000000000 ltac:(lia)).
  set (q := (now `div` 1000000000)%Z) in *.
  assert (-62167219200 <= q <= 253402300799)%Z as Hq by lia. set (d := (q - ts)%Z) in *.
  assert (-9223372099022000000 < d <= 9223372290257076607)%Z as Hd by lia.
  destruct (Z_lt_le_dec d (-9223372036854775808));
    [|destruct (Z_lt_le_dec d 9223372036854775808)].
  - rewrite (Z.mod_eq (d + _)) in Hw by lia.
    assert ((d + 9223372036854775808) `div` 18446744073709551616 = -1)%Z as Hdiv
      by (symmetry; apply (Z.div_unique _ _ _ (d + 9223372036854775808 + 18446744073709551616)); lia).
    rewrite Hdiv in Hw. rewrite Z.mod_small in Hw by lia. lia.
  - rewrite (Z.mod_small (d + _)) in Hw by lia.
    destruct (Z.eq_dec d (-9223372036854775808)%Z) as [->|]; [by right|].
    rewrite Z.mod_small in Hw by lia. lia.
  - rewrite (Z.mod_eq (d + _)) in Hw by lia.
    assert ((d + 9223372036854775808) `div` 18446744073709551616 = 1)%Z as Hdiv
      by (symmetry; apply (Z.div_unique _ _ _ (d + 9223372036854775808 - 18446744073709551616)); lia).
    rewrite Hdiv in Hw. destruct (Z.eq_dec d 9223372036854775808%Z)as [->|]; [by right|].
    rewrite Z.mod_small in Hw by lia. lia.
Qed.

Lemma parse_i64_range s z : parse_i64 s = Some z → is_i64 z = true.
Proof.
  unfold parse_i64. intros Hp. cases;
    match goal with H : _ = Some z |- _ => apply bind_Some in H as (? & _ & Hz); by case_match; simplify_eq end.
Qed.

Section auth_proofs.
Context `{Sha256, Chrono, SshKey, Base64, Ed25519, NonceCache C, !NonceCacheLaws C}.

Lemma evolve_refuses t c t' c' m n u :
  nonces_evolve t c t' c' → (t' <= u)%Z → refuses c m n u = true → refuses c' m n u = true.
Proof.
  intros Hev Hu. induction Hev as [|t c m' n' now t' c' Hle Hev IH]; [done|].
  intros Hr. apply IH; [done|]. apply check_keeps; [|done].
  clear -Hev Hu. enough (now ≤ t')%Z by lia. clear Hu.
  induction Hev; lia.
Qed.

Lemma on_world_ok_inv {E A} (m : M World E A) (s : Server C) a s' :
  on_world m s = (Ok a, s') → m (sv_world s) = (Ok a, sv_world s') ∧ sv_nonces s' = sv_nonces s.
Proof. unfold on_world. intros Hm. by cases. Qed.

Lemma on_world_err_inv {E A} (m : M World E A) (s : Server C) e s' :
  on_world m s = (Err e, s') → m (sv_world s) = (Err e, sv_world s') ∧ sv_nonces s' = sv_nonces s.
Proof. unfold on_world. intros Hm. by cases. Qed.

(** Computations that change neither the cache nor the tables. *)
Definition reads_only {E A} (m : M (Server C) E A) : Prop :=
  ∀ s r s', m s = (r, s') →
    sv_nonces s' = sv_nonces s ∧ db (sv_world s') = db (sv_world s).

Lemma reads_only_bind {E A B} (m : M (Server C) E A) (f : A → M (Server C) E B) :
  reads_only m → (∀ a, reads_only (f a)) → reads_only (m ≫= f).
Proof.
  intros Hm Hf s r s'. unfold mbind, M_bind. destruct (m s) as [[a|e] s1] eqn:Hs1; intros Hs2.
  - apply Hm in Hs1 as [<- <-]. by eapply Hf.
  - simplify_eq. by apply Hm in Hs1.
Qed.
Lemma reads_only_lift {E A} (x : result A E) : reads_only (lift x).
Proof. intros s r s' [_ ->]%lift_inv. done. Qed.
Lemma reads_only_ret {E A} (x : A) : reads_only (E := E) (ret x).
Proof. intros s r s' [_ ->]%ret_inv. done. Qed.
Lemma reads_only_ensure {E} b (e : E) : reads_only (ensure b e).
Proof. intros s r s'. unfold ensure, ret, throw. by destruct b; intros [= _ <-]. Qed.
Lemma reads_only_world {E A} (f : sqlx_error → E) (m : M World sqlx_error A) :
  (∀ w r w', m w = (r, w') → db w' = db w) → reads_only (with_err f (on_world m)).
Proof.
  intros Hm s r s'. unfold with_err, on_world. destruct (m (sv_world s)) as [x w] eqn:Hx.
  apply Hm in Hx. destruct x; by intros [= _ <-].
Qed.
#[local] Hint Resolve reads_only_bind reads_only_lift reads_only_ret reads_only_ensure
  reads_only_world db_call_db fetch_machine_db : mayfly.

Lemma check_request_reads_only now request : reads_only (check_request now request).
Proof.
  unfold check_request, find_by_id.
  repeat (apply reads_only_bind; [eauto with mayfly|intros ?]). auto with mayfly.
Qed.

Lemma check_request_ok_inv now request (s : Server C) machine mid nonce body s' :
  check_request now request s = (Ok (machine, mid, nonce, body), s') →
  mid = machine_id machine ∧
  ∃ ts, authentic (db (sv_world s)) now request nonce ts machine body.
Proof.
  unfold check_request. intros Hv. ok_steps.
  destruct (parse_i64 _) as [ts|] eqn:Hts; simplify_eq/=.
  destruct (rq_body _) as [bd|] eqn:Hbody; simplify_eq/=.
  destruct a8 as [m|]; simplify_eq/=. bool_prop.
  apply on_world_ok_inv in Hm7 as [Hdb%db_call_db _].
  apply on_world_ok_inv in Hm8 as [(r & Hr & Hid & Hdec)%fetch_machine_found _].
  rewrite Hdb in Hr. bool_prop. destruct (machine_try_from_keys _ _ Hdec) as (Hmid & _).
  rewrite Hid in Hmid. clear Hid. subst a. split; [done|]. exists a3.
  split; try done; eauto. exists a2. split; [done|].
  by destruct (verify_signature _ _ _) as [[]|].
Qed.

Lemma verify_ok_inv now request (s : Server C) machine body s' :
  verify_machine_signature now request s = (Ok (machine, body), s') →
  ∃ nonce ts, authentic (db (sv_world s)) now request nonce ts machine body ∧
    db (sv_world s') = db (sv_world s) ∧
    check_and_record (sv_nonces s) (machine_id machine) nonce now = (true, sv_nonces s').
Proof.
  unfold verify_machine_signature. intros Hv. unfold mbind at 1, M_bind at 1 in Hv.
  destruct (check_request now request s) as [[[[[m mid] nonce] bd]|e] s1] eqn:Hc; [|done].
  pose proof (check_request_reads_only _ _ _ _ _ Hc) as [Hn Hdb].
  apply check_request_ok_inv in Hc as [-> [ts Hauth]].
  unfold mbind, M_bind, consume_nonce, ensure, ret, throw in Hv. rewrite Hn in Hv.
  destruct (check_and_record _ _ _ _) as [[] c] eqn:Hcr; simplify_eq/=. eauto.
Qed.

(** Two acceptances of one nonce are a lifetime apart. *)
Lemma replay_gap c0 m n now1 c1 now2 c2 c3 m' :
  check_and_record c0 m n now1 = (true, c1) → nonces_evolve now1 c1 now2 c2 → m = m' →
  check_and_record c2 m' n now2 = (true, c3) → (now1 + seconds NONCE_TTL_SECS <= now2)%Z.
Proof.
  intros Hc1 Hev <- Hc2. destruct (Z_lt_le_dec now2 (now1 + seconds NONCE_TTL_SECS)); [|done].
  exfalso. pose proof (check_decides c2 m n now2) as Hd. rewrite Hc2 in Hd. simpl in Hd.
  rewrite (evolve_refuses _ _ _ _ _ _ now2 Hev) in Hd; [done|done|].
  change c1 with (true, c1).2. rewrite <-Hc1, check_records by by rewrite Hc1.
  by apply Z.ltb_lt.
Qed.

(** A lifetime of 120 s inside a window of 60 s on each side leaves its two ends. *)
Lemma window_ends now1 now2 ts :
  rfc3339_range now1 = true → rfc3339_range now2 = true →
  (now1 + seconds NONCE_TTL_SECS <= now2)%Z →
  ((Z.abs (timestamp now1 - ts) <= TIMESTAMP_SKEW_SECS)%Z ∨
   (Z.abs (timestamp now1 - ts) = 9223372036854775808)%Z) →
  ((Z.abs (timestamp now2 - ts) <= TIMESTAMP_SKEW_SECS)%Z ∨
   (Z.abs (timestamp now2 - ts) = 9223372036854775808)%Z) →
  timestamp now1 = (ts - TIMESTAMP_SKEW_SECS)%Z ∧ timestamp now2 = (ts + TIMESTAMP_SKEW_SECS)%Z.
Proof.
  unfold rfc3339_range, in_range, TIMESTAMP_SKEW_SECS, NONCE_TTL_SECS, timestamp, seconds,
    nanos_per_sec. intros Hr1 Hr2 Hgap Hw1 Hw2. bool_prop.
  pose proof (Z.div_mod now1 1000000000 ltac:(lia)).
  pose proof (Z.mod_pos_bound now1 1000000000 ltac:(lia)).
  pose proof (Z.div_mod now2 1000000000 ltac:(lia)).
  pose proof (Z.mod_pos_bound now2 1000000000 ltac:(lia)). lia.
Qed.

Lemma run_nonces_later c calls m n t j tj :
  Forall (λ c, t <= c.2)%Z calls → StronglySorted (λ a b, a.2 <= b.2)%Z calls →
  refuses c m n tj = true → calls !! j = Some (m, n, tj) →
  run_nonces c calls !! j = Some false.
Proof.
  revert c t j. induction calls as [|[[m' n'] t'] calls IH]; intros c t j Hle Hs Hr Hj; [done|].
  inversion Hs as [|?? Hs' Ht']; subst. apply Forall_cons in Hle as [_ Hle]. simpl.
  pose proof (check_decides c m' n' t') as Hd.
  destruct (check_and_record c m' n' t') as [b c'] eqn:Hc. destruct j as [|j]; simpl in *.
  - simplify_eq. by rewrite Hr.
  - eapply IH; try done. change c' with (b, c').2. rewrite <-Hc. apply check_keeps; [|done].
    rewrite Forall_forall in Ht'. apply (Ht' (m, n, tj)). by eapply list_elem_of_lookup_2.
Qed.

Lemma same_headers request d d' now now' nonce nonce' ts ts' m m' b b' :
  authentic d now request nonce ts m b → authentic d' now' request nonce' ts' m' b' →
  machine_id m = machine_id m' ∧ nonce = nonce' ∧ ts = ts' ∧ b = b'.
Proof.
  intros [_ _ Hi Hn (raw & Hr & Hp) _ Hb _ _] [_ _ Hi' Hn' (raw' & Hr' & Hp') _ Hb' _ _].
  rewrite Hi in Hi'. rewrite Hn in Hn'. rewrite Hr in Hr'. by simplify_eq.
Qed.

(** What an agent holding [seed] sends: the reference signer on its own fields. *)
Definition agent_request (seed mid : string) (ts : Z) (nonce method path body : string)
  : Request :=
  MkRequest [(HEADER_MACHINE_ID, mid); (HEADER_TIMESTAMP, display_int ts);
             (HEADER_NONCE, nonce);
             (HEADER_SIGNATURE, sign_canonical seed
               (canonical_string mid ts nonce method path (body_sha256_hex body)))]
    method path (Some body).

(** A value that survives the transport in a header. *)
Definition header_ok (v : string) : bool :=
  bool_decide (header_to_str v = Some v) && negb (str_is_empty v).

Lemma header_value_ok headers name v :
  header_get name headers = Some v → header_ok v = true → header_value headers name = Ok v.
Proof.
  unfold header_value, header_ok. intros -> Hv. simpl. bool_prop.
  match goal with Hh : header_to_str v = _ |- _ => rewrite Hh end. simpl.
  by match goal with Hh : str_is_empty v = _ |- _ => rewrite Hh end.
Qed.

Lemma header_ok_display ts : header_ok (display_int ts) = true.
Proof.
  unfold header_ok, header_to_str. rewrite display_int_all.
  - rewrite bool_decide_true by done. simpl. apply negb_true_iff, bool_decide_eq_false.
    apply display_int_nonempty.
  - intros c. unfold is_ascii_digit, in_range. intros. bool_prop.
    rewrite (proj2 (Z.leb_le 32 _)), (proj2 (Z.leb_le _ 126)) by lia. done.
  - done.
Qed.

Lemma verify_signature_signed `{!SshKeyLaws, !Base64Laws, !Ed25519Laws} seed text canonical :
  to_openssh (from_ed25519 (dalek_public seed)) = Some text →
  verify_signature text canonical (sign_canonical seed canonical) = Ok tt.
Proof.
  intros Ht. unfold verify_signature, verifying_key, sign_canonical, str_len.
  rewrite (openssh_roundtrip _ _ Ht). simpl. rewrite ed25519_bytes_from. simpl.
  rewrite dalek_public_ok, b64_roundtrip. simpl. rewrite dalek_sign_length.
  by rewrite dalek_verify.
Qed.

(** ** Theorems *)

(** C29: an authentic request is accepted.  What the reference signer produces with
    the seed behind an active machine's stored key is accepted, with a fresh
    nonce, inside the timestamp window and the body bound. *)
Theorem signed_request_accepted `{!SshKeyLaws, !Base64Laws, !Ed25519Laws}
    seed now ts nonce method path body (s : Server C) row machine :
  machines_ok (db (sv_world s)) → no_faults (sv_world s) →
  row ∈ machines (db (sv_world s)) → machine_try_from row = Ok machine →
  status machine = Active →
  to_openssh (from_ed25519 (dalek_public seed)) = Some (public_key machine) →
  is_i64 ts = true → outside_window now ts = false →
  (str_len body <= MAX_SIGNED_BODY_BYTES)%Z →
  header_ok (machine_id machine) = true → header_ok nonce = true →
  (let sig := sign_canonical seed (canonical_string (machine_id machine) ts nonce method path
                                     (body_sha256_hex body)) in header_ok sig = true) →
  refuses (sv_nonces s) (machine_id machine) nonce now = false →
  ∃ c, verify_machine_signature now
         (agent_request seed (machine_id machine) ts nonce method path body) s
       = (Ok (machine, body), MkServer (sv_world s) c).
Proof.
  intros Hm Hw Hin Hdec Hact Hkey Hts Hwin Hlen Hh1 Hh2 Hh3 Hfresh.
  simpl in Hh3. set (req := agent_request _ _ _ _ _ _ _).
  assert (header_value (rq_headers req) HEADER_MACHINE_ID = Ok (machine_id machine)) as E1
    by (by apply header_value_ok).
  assert (header_value (rq_headers req) HEADER_TIMESTAMP = Ok (display_int ts)) as E2
    by (apply header_value_ok; [done|apply header_ok_display]).
  assert (header_value (rq_headers req) HEADER_NONCE = Ok nonce) as E3
    by (by apply header_value_ok).
  eassert (header_value (rq_headers req) HEADER_SIGNATURE = Ok _) as E4
    by (by apply header_value_ok).
  unfold verify_machine_signature, check_request, mbind, M_bind, lift.
  rewrite E1, E2, E3, E4, parse_i64_display by done. simpl. rewrite Hwin. simpl.
  rewrite (proj2 (Z.leb_le _ _)) by done. simpl. unfold with_err, on_world. simpl.
  rewrite db_call_ok by done. simpl. unfold find_by_id. rewrite fetch_machine_ok by done.
  destruct (machine_try_from_keys _ _ Hdec) as (Hid & _).
  rewrite (proj2 (find_key mr_machine_id (machine_id machine) _ row (proj1 Hm))) by done.
  rewrite Hdec. simpl. rewrite verify_signature_signed by done. simpl.
  rewrite bool_decide_true by done. simpl. unfold consume_nonce. simpl.
  pose proof (check_decides (sv_nonces s) (machine_id machine) nonce now) as Hd.
  rewrite Hfresh in Hd. destruct (check_and_record _ _ _ _) as [b c]. simpl in Hd. subst b.
  exists c. by destruct s.
Qed.

(** A nonce is accepted once per lifetime.  Whatever calls a cache that keeps
    the trait's promise serves, at non-decreasing instants, two accepted calls
    with the same machine and nonce are at least [NONCE_TTL_SECS] apart. *)
Theorem nonce_accepted_once c calls i j m n ti tj :
  StronglySorted (λ a b, a.2 <= b.2)%Z calls → i < j →
  calls !! i = Some (m, n, ti) → calls !! j = Some (m, n, tj) →
  run_nonces c calls !! i = Some true → run_nonces c calls !! j = Some true →
  (ti + seconds NONCE_TTL_SECS <= tj)%Z.
Proof.
  revert c i j. induction calls as [|[[m' n'] t'] calls IH]; intros c i j Hs Hij Hi Hj Hri Hrj;
    [done|].
  inversion Hs as [|?? Hs' Ht']; subst. simpl in *.
  destruct (check_and_record c m' n' t') as [b c'] eqn:Hc.
  destruct j as [|j]; [lia|]. simpl in *. destruct i as [|i]; simpl in *.
  - simplify_eq. destruct (Z_lt_le_dec tj (ti + seconds NONCE_TTL_SECS)) as [Hlt|]; [|done].
    exfalso. assert (refuses c' m n tj = true) as Hr.
    { change c' with (true, c').2. rewrite <-Hc. rewrite check_records by by rewrite Hc.
      by apply Z.ltb_lt. }
    rewrite (run_nonces_later c' calls m n ti j tj) in Hrj; try done.
  - eapply (IH c' i j); try done. lia.
Qed.

(** How long a captured request can be replayed.  If the very same request is
    accepted twice, any other requests being served in between, then the first
    acceptance was in the second [ts - 60] and the second one in the second
    [ts + 60], the two ends of the window of its timestamp. *)
Theorem replay_only_at_window_ends now1 now2 request (s1 s2 s3 s4 : Server C) m1 b1 m2 b2 :
  rfc3339_range now1 = true → rfc3339_range now2 = true → (now1 <= now2)%Z →
  verify_machine_signature now1 request s1 = (Ok (m1, b1), s2) →
  nonces_evolve now1 (sv_nonces s2) now2 (sv_nonces s3) →
  verify_machine_signature now2 request s3 = (Ok (m2, b2), s4) →
  ∃ raw ts, header_value (rq_headers request) HEADER_TIMESTAMP = Ok raw ∧
    parse_i64 raw = Some ts ∧
    timestamp now1 = (ts - TIMESTAMP_SKEW_SECS)%Z ∧ timestamp now2 = (ts + TIMESTAMP_SKEW_SECS)%Z.
Proof.
  intros Hr1 Hr2 Hle Hv1 Hev Hv2.
  apply verify_ok_inv in Hv1 as (n1 & ts & Ha1 & _ & Hc1).
  apply verify_ok_inv in Hv2 as (n2 & ts2 & Ha2 & _ & Hc2).
  destruct (same_headers _ _ _ _ _ _ _ _ _ _ _ _ _ Ha1 Ha2) as (Hid & <- & <- & _).
  destruct (auth_timestamp _ _ _ _ _ _ _ Ha1) as (raw & Hraw & Hts).
  exists raw, ts. split_and!; [done|done|..].
  all: assert (now1 + seconds NONCE_TTL_SECS <= now2)%Z as Hgap by (by eapply replay_gap).
  all: pose proof (parse_i64_range _ _ Hts) as Hi.
  all: pose proof (window_spec _ _ Hr1 Hi (auth_window _ _ _ _ _ _ _ Ha1)) as Hw1.
  all: pose proof (window_spec _ _ Hr2 Hi (auth_window _ _ _ _ _ _ _ Ha2)) as Hw2.
  all: destruct (window_ends _ _ ts Hr1 Hr2 Hgap Hw1 Hw2); done.
Qed.

(** C30: the canonical string determines the request.  Two requests whose fields
    hold no newline (header values, methods and paths cannot) and whose canonical
    strings agree have the same machine, timestamp, nonce, method, path and body
    hash, so a signature for one is never a signature for another. *)
Theorem canonical_string_injective m1 t1 n1 e1 p1 h1 m2 t2 n2 e2 p2 h2 :
  Forall (λ f, str_mem newline f = false) [m1; n1; e1; p1; m2; n2; e2; p2] →
  canonical_string m1 t1 n1 e1 p1 h1 = canonical_string m2 t2 n2 e2 p2 h2 →
  (m1, t1, n1, e1, p1, h1) = (m2, t2, n2, e2, p2, h2).
Proof.
  rewrite !Forall_cons. intros (? & ? & ? & ? & ? & ? & ? & ? & _) Heq.
  unfold canonical_string in Heq.
  assert (∀ t, str_mem newline (display_int t) = false) as Hd
    by (intros; by apply display_int_not_mem).
  repeat match goal with Hl : line _ _ = line _ _ |- _ =>
    apply line_inj in Hl as [? Hl]; [|done..] end.
  assert (t1 = t2) as -> by by apply (inj display_int). congruence.
Qed.

End auth_proofs.

(** ** Witnesses *)
#[local] Existing Instances toy_sha256 toy_chrono toy_ssh_key toy_base64 toy_ed25519.
#[local] Existing Instances toy_sha256_laws toy_chrono_laws toy_ssh_key_laws toy_base64_laws
  toy_ed25519_laws.

Definition demo_seed : string :=
  "0123456789abcdef0123456789abcdef0123456789abcdef0123456789abcdef".
Definition agent_machine : NewMachine :=
  MkNewMachine "srv_1" "web-01" ("ssh-ed25519 " +:+ demo_seed) "linux" "x86_64" "0.1.0" Active
    (seconds 7).
Definition agent_row : MachineRow := new_machine_row agent_machine.
Definition agent_server : Server InMemoryNonceCache :=
  MkServer (MkWorld (set_machines (λ _, [agent_row]) empty_db) []) InMemoryNonceCache_new.
Definition demo_signed : Request :=
  agent_request demo_seed "srv_1" 1000 "n1" "POST" "/api/v1/agent/heartbeat" "{}".

Lemma agent_server_machines_ok : machines_ok (db (sv_world agent_server)).
Proof.
  split_and!; [apply NoDup_singleton..|]. apply Forall_singleton. eexists.
  vm_compute. reflexivity.
Qed.

Lemma signed_request_accepted_witness :
  ∃ c, verify_machine_signature (seconds 1000) demo_signed agent_server
       = (Ok (read_back agent_machine, "{}"), MkServer (sv_world agent_server) c).
Proof.
  apply (signed_request_accepted demo_seed (seconds 1000) 1000 "n1" "POST"
    "/api/v1/agent/heartbeat" "{}" agent_server agent_row (read_back agent_machine)
    agent_server_machines_ok eq_refl (list_elem_of_here _ _)); try (vm_compute; reflexivity).
  vm_compute. discriminate.
Defined.

(** The window is reached.  A request captured when it is accepted in the
    second [ts - 60] is accepted again, unchanged, in the second [ts + 60]: the
    recorded nonce has just expired and the timestamp is still admissible. *)
Theorem captured_request_replays :
  is_ok (verify_machine_signature (seconds 940) demo_signed agent_server).1 = true ∧
  is_ok (verify_machine_signature (seconds 1060) demo_signed
           (verify_machine_signature (seconds 940) demo_signed agent_server).2).1 = true.
Proof. split; vm_compute; reflexivity. Qed.

Lemma canonical_string_injective_witness :
  canonical_string "srv_1" 5 "n" "POST" "/x" "h" = canonical_string "srv_1" 5 "n" "POST" "/x" "h" ∧
  ("srv_1", 5%Z, "n", "POST", "/x", "h") = ("srv_1", 5%Z, "n", "POST", "/x", "h").
Proof.
  split; [reflexivity|].
  apply (canonical_string_injective "srv_1" 5 "n" "POST" "/x" "h" "srv_1" 5 "n" "POST" "/x" "h");
    [|reflexivity].
  repeat (constructor; [vm_compute; reflexivity|]). constructor.
Defined.


Lemma nonce_accepted_once_witness :
  let calls := [("srv_1", "n", 0%Z); ("srv_2", "n", seconds 5); ("srv_1", "n", seconds 130)] in
  run_nonces InMemoryNonceCache_new calls = [true; true; true] ∧
  (0 + seconds NONCE_TTL_SECS <= seconds 130)%Z.
Proof.
  split; [vm_compute; reflexivity|].
  refine (nonce_accepted_once InMemoryNonceCache_new
    [("srv_1", "n", 0%Z); ("srv_2", "n", seconds 5); ("srv_1", "n", seconds 130)]
    0 2 "srv_1" "n" 0%Z (seconds 130) _ _ eq_refl eq_refl _ _); try (vm_compute; reflexivity).
  - repeat constructor; vm_compute; discriminate.
  - lia.
Defined.

Lemma replay_only_at_window_ends_witness :
  ∃ raw ts, header_value (rq_headers demo_signed) HEADER_TIMESTAMP = Ok raw ∧
    parse_i64 raw = Some ts ∧ timestamp (seconds 940) = (ts - TIMESTAMP_SKEW_SECS)%Z ∧
    timestamp (seconds 1060) = (ts + TIMESTAMP_SKEW_SECS)%Z.
Proof.
  destruct (is_ok_run (verify_machine_signature (seconds 940) demo_signed agent_server))
    as [[m1 b1] Hv1]; [vm_compute; reflexivity|].
  destruct (is_ok_run (verify_machine_signature (seconds 1060) demo_signed
    (verify_machine_signature (seconds 940) demo_signed agent_server).2))
    as [[m2 b2] Hv2]; [vm_compute; reflexivity|].
  refine (replay_only_at_window_ends (seconds 940) (seconds 1060) demo_signed agent_server _ _ _
    m1 b1 m2 b2 eq_refl eq_refl _ Hv1 (evolve_wait _ _ _ _) Hv2); vm_compute; discriminate.
Defined.
