(* ===== verification/Registry.v ===== *)
(** * Heartbeats and the server registry
      ([src/src/machines/protocol.rs], [src/src/routes/agent.rs])

    The heartbeat handler, its checks on what an agent reports, liveness derived
    from [last_seen], and the listing. *)
From S2P Require Import Prelude External Errors Database Machines Enrollment Toy.

Definition ONLINE_WITHIN_SECS : Z := 120.
Definition STALE_WITHIN_SECS : Z := 600.
Definition DEFAULT_LIST_LIMIT : Z := 1000.
Definition MAX_AGENT_VERSION_LEN : Z := 64.
Definition MAX_HB_HOSTNAME_LEN : Z := 253.
Definition MAX_OS_LEN : Z := 64.
Definition MAX_KERNEL_LEN : Z := 128.
Definition MAX_IP_LEN : Z := 64.

Inductive LivenessStatus : Type := Online | Stale | Offline.
#[export] Instance LivenessStatus_eq_dec : EqDecision LivenessStatus.
Proof. solve_decision. Defined.

Definition LivenessStatus_derive (last_seen : option Z) (now : Z) : LivenessStatus :=
  match last_seen with
  | None => Offline
  | Some seen =>
      let elapsed := num_seconds (now - seen) in
      if (elapsed <=? ONLINE_WITHIN_SECS)%Z then Online
      else if (elapsed <=? STALE_WITHIN_SECS)%Z then Stale
      else Offline
  end.

Record HeartbeatRequest : Type := MkHeartbeatRequest {
  hb_agent_version : string;
  hb_hostname : string;
  hb_os : string;
  hb_kernel : string;
  hb_ip : string;
  hb_current_generation : Z;
  hb_uptime_seconds : Z;
}.

Record HeartbeatResponse : Type := MkHeartbeatResponse {
  hr_status : string;
  hr_server_time : string;
  hr_next_heartbeat_seconds : Z;
}.

Record ServerSummary : Type := MkServerSummary {
  ss_machine_id : string;
  ss_hostname : string;
  ss_last_seen : option string;
  ss_status : LivenessStatus;
  ss_ip : option string;
  ss_current_generation : Z;
  ss_agent_version : string;
}.

Inductive RegistryError : Type :=
| Validation (message : string)
| UnknownMachine
| RegistryDatabase (err : sqlx_error).

Definition ApiError_of_registry (err : RegistryError) : ApiError :=
  match err with
  | Validation msg => BadRequest msg
  | UnknownMachine => Unauthorized "request authentication failed"
  | RegistryDatabase err => Internal (CauseSqlx err)
  end.

(** The local function [check] of [validate_heartbeat]. *)
Definition check_field (field value : string) (max : Z) : result unit RegistryError :=
  let trimmed := trim value in
  if str_is_empty trimmed then Err (Validation (field +:+ " must not be empty"))
  else if (max <? str_len trimmed)%Z then Err (Validation (field +:+ " is too long"))
  else if has_control trimmed then Err (Validation (field +:+ " contains control characters"))
  else Ok tt.

Definition validate_heartbeat (request : HeartbeatRequest)
  : result (option string) RegistryError :=
  let? _ := check_field "agent_version" (hb_agent_version request) MAX_AGENT_VERSION_LEN in
  let? _ := check_field "hostname" (hb_hostname request) MAX_HB_HOSTNAME_LEN in
  let? _ := check_field "os" (hb_os request) MAX_OS_LEN in
  let? _ := check_field "kernel" (hb_kernel request) MAX_KERNEL_LEN in
  if (hb_current_generation request <? 0)%Z then
    Err (Validation "current_generation must not be negative")
  else if (hb_uptime_seconds request <? 0)%Z then
    Err (Validation "uptime_seconds must not be negative")
  else
    let ip := trim (hb_ip request) in
    if str_is_empty ip then Ok None
    else if (MAX_IP_LEN <? str_len ip)%Z || has_control ip then Err (Validation "ip is invalid")
    else Ok (Some ip).

Section registry.
Context `{Chrono}.

Definition record_heartbeat (machine_id : string) (request : HeartbeatRequest) (now : Z)
  : M World RegistryError HeartbeatResponse :=
  ip ← lift (validate_heartbeat request);
  let update := {| hu_machine_id := machine_id;
                   hu_now := now;
                   hu_agent_version := trim (hb_agent_version request);
                   hu_ip := ip;
                   hu_current_generation := hb_current_generation request |} in
  _ ← with_err RegistryDatabase db_call;
  updated ← with_err RegistryDatabase (update_last_seen update);
  _ ← ensure updated UnknownMachine;
  ret {| hr_status := "ok";
         hr_server_time := to_rfc3339_millis now;
         hr_next_heartbeat_seconds := DEFAULT_HEARTBEAT_INTERVAL |}.

Definition server_summary (now : Z) (m : Machine) : ServerSummary :=
  {| ss_machine_id := machine_id m;
     ss_hostname := hostname m;
     ss_last_seen := to_rfc3339_millis <$> last_seen m;
     ss_status := LivenessStatus_derive (last_seen m) now;
     ss_ip := ip m;
     ss_current_generation := current_generation m;
     ss_agent_version := agent_version m |}.

Definition list_servers (now limit : Z) : M World RegistryError (list ServerSummary) :=
  _ ← with_err RegistryDatabase db_call;
  machines ← with_err RegistryDatabase (list_recent limit);
  ret (server_summary now <$> machines).

(** [routes/agent.rs]: the handler behind the middleware, which hands it the
    verified machine. *)
Definition heartbeat (authenticated : Machine) (now : Z) (request : HeartbeatRequest)
  : M World ApiError HeartbeatResponse :=
  with_err ApiError_of_registry (record_heartbeat (machine_id authenticated) request now).

(** ** Lemmas *)
Lemma check_field_ok field value max :
  check_field field value max = Ok tt →
  trim value ≠ "" ∧ (str_len (trim value) <= max)%Z ∧ has_control (trim value) = false.
Proof.
  unfold check_field, str_is_empty. intros Hc. cases. by bool_prop.
Qed.

Lemma validate_heartbeat_bounds request hip :
  validate_heartbeat request = Ok hip →
  (str_len (trim (hb_agent_version request)) <= MAX_AGENT_VERSION_LEN)%Z ∧
  has_control (trim (hb_agent_version request)) = false ∧
  (0 <= hb_current_generation request)%Z.
Proof.
  unfold validate_heartbeat. intros Hv.
  destruct (check_field "agent_version" _ _) as [[]|] eqn:Hc; [|done].
  apply check_field_ok in Hc as (_ & ? & ?).
  destruct (check_field "hostname" _ _); [|done]. destruct (check_field "os" _ _); [|done].
  destruct (check_field "kernel" _ _); [|done].
  destruct (Z.ltb_spec (hb_current_generation request) 0); done.
Qed.

(** What a heartbeat leaves alone in a row. *)
Definition same_but_telemetry (r r' : MachineRow) : Prop :=
  mr_machine_id r' = mr_machine_id r ∧ mr_hostname r' = mr_hostname r ∧
  mr_public_key r' = mr_public_key r ∧ mr_status r' = mr_status r ∧
  mr_synced_generation r' = mr_synced_generation r ∧
  mr_bundle_fingerprint r' = mr_bundle_fingerprint r ∧
  mr_enrolled_at r' = mr_enrolled_at r.

(** What the stored values satisfy after a heartbeat was accepted. *)
Definition reported (i : string) (now : Z) (request : HeartbeatRequest) (r' : MachineRow) : Prop :=
  mr_machine_id r' = i → mr_last_seen r' = Some (to_text now) ∧
    mr_agent_version r' = trim (hb_agent_version request) ∧
    (str_len (mr_agent_version r') <= MAX_AGENT_VERSION_LEN)%Z ∧
    has_control (mr_agent_version r') = false ∧
    mr_current_generation r' = hb_current_generation request ∧
    (0 <= mr_current_generation r')%Z.

(** The update a heartbeat sends to the table. *)
Definition heartbeat_update (i : string) (now : Z) (request : HeartbeatRequest)
    (ip : option string) : HeartbeatUpdate :=
  MkHeartbeatUpdate i now (trim (hb_agent_version request)) ip (hb_current_generation request).

Lemma heartbeat_inv authenticated now request w r w' :
  machines_ok (db w) → heartbeat authenticated now request w = (r, w') →
  (db w' = db w ∧ ∃ e, r = Err e) ∨
  ∃ ip x, validate_heartbeat request = Ok ip ∧ r = Ok x ∧
    db w' = set_machines (λ l, (update_where
      (λ r, bool_decide (mr_machine_id r = machine_id authenticated))
      (heartbeat_row (heartbeat_update (machine_id authenticated) now request ip)) l).2) (db w).
Proof.
  intros Hok. unfold heartbeat, record_heartbeat, with_err, mbind, M_bind, lift.
  destruct (validate_heartbeat request) as [hip|e] eqn:Hv; [|intros [= <- <-]; eauto].
  destruct (db_call w) as [x w1] eqn:Hc. apply db_call_db in Hc. rewrite <-Hc in *.
  destruct x as [?|?]; [|intros [= <- <-]; eauto].
  destruct (update_last_seen _ w1) as [x w2] eqn:Hu.
  apply update_machine_inv in Hu as [(e & -> & Hdb)|(b & -> & Hb & Hdb)].
  { intros [= <- <-]. left. rewrite Hdb. eauto. }
  destruct b; simpl.
  - intros [= <- <-]. right. exists hip. eexists. split_and!; [done|done|]. done.
  - intros [= <- <-]. left. rewrite Hdb. split; [|eauto].
    rewrite update_by_id_none; [by destruct (db w1)|apply Hok|by symmetry].
Qed.

(** ** Theorems *)

(** Liveness in exact instants.  A machine is online until 121 s after it was
    last seen, stale until 601 s, offline afterwards and before its first
    heartbeat; an instant in the future counts as just seen.  (The elapsed time is
    cut to whole seconds before it is compared with 120 and 600.) *)
Theorem liveness_thresholds last_seen now :
  LivenessStatus_derive last_seen now =
    match last_seen with
    | None => Offline
    | Some seen =>
        if (now - seen <? seconds 121)%Z then Online
        else if (now - seen <? seconds 601)%Z then Stale else Offline
    end.
Proof.
  destruct last_seen as [seen|]; [|done]. unfold LivenessStatus_derive, num_seconds,
    ONLINE_WITHIN_SECS, STALE_WITHIN_SECS, seconds, nanos_per_sec.
  set (d := (now - seen)%Z).
  assert (∀ k, 0 <= k → (Z.quot d 1000000000 <=? k) = (d <? (k + 1) * 1000000000))%Z as Hk.
  { intros k Hk. apply eq_bool_prop_intro. rewrite !Is_true_true, Z.leb_le, Z.ltb_lt.
    pose proof (Z.quot_rem' d 1000000000). destruct (Z_lt_le_dec d 0).
    - pose proof (Z.rem_bound_pos_neg d 1000000000 ltac:(lia) ltac:(lia)). lia.
    - pose proof (Z.rem_bound_pos_pos d 1000000000 ltac:(lia) ltac:(lia)). lia. }
  by rewrite !Hk.
Qed.

(** A heartbeat touches telemetry only.  Whichever database calls fail, no
    table but [machines] changes, no row appears, disappears or changes its
    identity, status or bundle state, and rows of other machines are untouched; a
    refused heartbeat changes nothing, and an accepted one leaves the row of its
    machine seen now, with a bounded version free of control characters and a
    non-negative generation. *)
Theorem heartbeat_touches_telemetry_only authenticated now request w r w' :
  machines_ok (db w) → heartbeat authenticated now request w = (r, w') →
  Forall2 same_but_telemetry (machines (db w)) (machines (db w')) ∧
  Forall2 (λ a b, mr_machine_id a = machine_id authenticated ∨ b = a)
    (machines (db w)) (machines (db w')) ∧
  db w' = set_machines (λ _, machines (db w')) (db w) ∧
  match r with
  | Ok _ => Forall (reported (machine_id authenticated) now request) (machines (db w'))
  | Err _ => machines (db w') = machines (db w)
  end.
Proof.
  intros Hok Hh.
  destruct (heartbeat_inv _ _ _ _ _ _ Hok Hh) as [[Hdb [e ->]]|(hip & x & Hv & -> & Hdb)].
  - rewrite Hdb. split_and!; [apply Forall_Forall2_diag, Forall_true..| |];
      (done || (by auto) || by destruct (db w)).
  - rewrite Hdb. simpl. split_and!.
    + by apply update_where_Forall2.
    + apply update_where_Forall2; intros y Hy; bool_prop; auto.
    + done.
    + pose proof (validate_heartbeat_bounds _ _ Hv) as (Hlen & Hctl & Hgen).
      apply Forall_fmap, Forall_true. intros y. unfold reported. simpl.
      case_bool_decide; [done|]. by intros ?.
Qed.
End registry.

(** ** Witnesses *)
#[local] Existing Instances toy_chrono toy_chrono_laws.

Definition demo_heartbeat : HeartbeatRequest :=
  MkHeartbeatRequest " 0.2.0 " "web-01" "linux" "6.12" "10.0.0.1" 3 99.

Lemma heartbeat_touches_telemetry_only_witness :
  let '(r, w') := heartbeat (read_back demo_machine) (seconds 50) demo_heartbeat machine_world in
  is_ok r = true ∧ Forall2 same_but_telemetry (machines (db machine_world)) (machines (db w')).
Proof.
  destruct (heartbeat (read_back demo_machine) (seconds 50) demo_heartbeat machine_world)
    as [r w'] eqn:Hh.
  split; [change r with (r, w').1; rewrite <-Hh; vm_compute; reflexivity|].
  exact (proj1 (heartbeat_touches_telemetry_only _ _ _ _ _ _ machine_world_ok Hh)).
Defined.
