(* ===== verification/MachineAdmin.v ===== *)
(** * Machine administration
      ([src/src/machines/admin.rs])

    The operator's view of a machine, the list filters, and the lifecycle writes.
    The main result joins it to the middleware: once an operator has taken a
    machine out of service, no signed request of it is accepted. *)
From S2P Require Import Prelude External Errors Database Machines Registry AgentAuth Toy.

Record MachineView : Type := MkMachineView {
  vw_machine_id : string;
  vw_hostname : string;
  vw_status : MachineStatus;
  vw_liveness : LivenessStatus;
  vw_os : string;
  vw_arch : string;
  vw_agent_version : string;
  vw_fingerprint : string;
  vw_ip : option string;
  vw_current_generation : Z;
  vw_synced_generation : option Z;
  vw_latest_generation : option Z;
  vw_up_to_date : bool;
  vw_bundle_fingerprint : option string;
  vw_last_seen : option string;
  vw_last_sync : option string;
  vw_enrolled_at : string;
}.

Record MachineFilter : Type := MkMachineFilter {
  mf_status : option MachineStatus;
  mf_liveness : option LivenessStatus;
  mf_hostname : option string;
  mf_generation : option Z;
  mf_os : option string;
  mf_arch : option string;
  mf_agent_version : option string;
}.

Definition MachineFilter_default : MachineFilter :=
  MkMachineFilter None None None None None None None.

Inductive MachineAdminError : Type :=
| AdminNotFound (id : string)
| AdminDatabase (err : sqlx_error).

Definition ApiError_of_admin (err : MachineAdminError) : ApiError :=
  match err with
  | AdminNotFound id => NotFound ("machine '" +:+ id +:+ "' was not found")
  | AdminDatabase err => Internal (CauseSqlx err)
  end.

(** An unset predicate passes. *)
Definition passes {A} (o : option A) (p : A → bool) : bool :=
  match o with Some a => p a | None => true end.

Section machine_admin.
Context `{Chrono, SshKey, ToLowercase}.

Definition from_machine (machine : Machine) (now : Z) (latest_generation : option Z)
  : MachineView :=
  let up_to_date :=
    match synced_generation machine, latest_generation with
    | Some synced, Some latest => (latest <=? synced)%Z
    | _, _ => false
    end in
  {| vw_machine_id := machine_id machine;
     vw_hostname := hostname machine;
     vw_status := status machine;
     vw_liveness := LivenessStatus_derive (last_seen machine) now;
     vw_os := os machine;
     vw_arch := arch machine;
     vw_agent_version := agent_version machine;
     vw_fingerprint := default "unknown" (public_key_fingerprint (public_key machine));
     vw_ip := ip machine;
     vw_current_generation := current_generation machine;
     vw_synced_generation := synced_generation machine;
     vw_latest_generation := latest_generation;
     vw_up_to_date := up_to_date;
     vw_bundle_fingerprint := bundle_fingerprint machine;
     vw_last_seen := to_rfc3339_secs <$> last_seen machine;
     vw_last_sync := to_rfc3339_secs <$> last_sync machine;
     vw_enrolled_at := to_rfc3339_secs (enrolled_at machine) |}.

Definition filter_matches (f : MachineFilter) (view : MachineView) : bool :=
  passes (mf_status f) (λ s, bool_decide (vw_status view = s)) &&
  passes (mf_liveness f) (λ l, bool_decide (vw_liveness view = l)) &&
  passes (mf_hostname f) (λ h, str_contains (to_lowercase h) (to_lowercase (vw_hostname view))) &&
  passes (mf_generation f) (λ g,
    bool_decide (vw_current_generation view = g) ||
    bool_decide (vw_synced_generation view = Some g)) &&
  passes (mf_os f) (eq_ignore_ascii_case (vw_os view)) &&
  passes (mf_arch f) (eq_ignore_ascii_case (vw_arch view)) &&
  passes (mf_agent_version f) (eq_ignore_ascii_case (vw_agent_version view)).

Definition admin_list (now : Z) (latest_generation : option Z) (f : MachineFilter)
  : M World sqlx_error (list MachineView) :=
  _ ← db_call;
  machines ← list_all;
  ret (List.filter (filter_matches f)
         ((λ m, from_machine m now latest_generation) <$> machines)).

Definition admin_find (i : string) : M World sqlx_error (option Machine) :=
  _ ← db_call;
  find_by_id i.

Definition admin_get (now : Z) (latest_generation : option Z) (i : string)
  : M World sqlx_error (option MachineView) :=
  found ← admin_find i;
  ret ((λ m, from_machine m now latest_generation) <$> found).

Definition set_status (i : string) (s : MachineStatus) (now : Z)
  : M World MachineAdminError Machine :=
  _ ← with_err AdminDatabase db_call;
  updated ← with_err AdminDatabase (update_status i s now);
  _ ← ensure updated (AdminNotFound i);
  found ← with_err AdminDatabase (find_by_id i);
  lift (ok_or (AdminNotFound i) found).

Definition admin_delete (i : string) : M World MachineAdminError Machine :=
  _ ← with_err AdminDatabase db_call;
  found ← with_err AdminDatabase (find_by_id i);
  existing ← lift (ok_or (AdminNotFound i) found);
  deleted ← with_err AdminDatabase (machine_delete i);
  _ ← ensure deleted (AdminNotFound i);
  ret existing.

(** ** Lemmas *)
Lemma set_status_ok_inv i st now w m w' :
  set_status i st now w = (Ok m, w') →
  db w' = set_machines (λ l, (update_where (λ r, bool_decide (mr_machine_id r = i))
    (status_row st now) l).2) (db w) ∧
  find (λ r, bool_decide (mr_machine_id r = i)) (machines (db w')) ≠ None.
Proof.
  unfold set_status. intros Hs. ok_steps. apply db_call_db in Hm.
  apply update_machine_inv in Hm0 as [(e & ? & _)|(b & ? & _ & Hdb)]; [done|].
  destruct a2 as [m'|]; simplify_eq/=.
  pose proof (fetch_machine_db _ _ _ _ Hm2) as Hdb2. rewrite Hdb2, Hdb, Hm. split; [done|].
  apply fetch_machine_found in Hm2 as (r & Hr & Hid & _). intros Hnone.
  rewrite Hdb, Hm in Hr. apply list_elem_of_In in Hr.
  pose proof (find_none _ _ Hnone r Hr) as Hf. simpl in Hf. congruence.
Qed.

Lemma status_row_status st now i rows r :
  r ∈ (update_where (λ r, bool_decide (mr_machine_id r = i)) (status_row st now) rows).2 →
  mr_machine_id r = i → mr_status r = MachineStatus_as_str st.
Proof.
  unfold update_where. simpl. intros (r0 & -> & Hin)%list_elem_of_fmap.
  case_bool_decide as Hi; [done|]. done.
Qed.

Lemma admin_delete_ok_inv i w m w' :
  admin_delete i w = (Ok m, w') →
  db w' = set_machines (List.filter (λ r, negb (bool_decide (mr_machine_id r = i)))) (db w).
Proof.
  unfold admin_delete, machine_delete. intros Hd. db_steps. apply db_call_db in Hm.
  apply fetch_machine_db in Hm0. simplify_eq. rewrite <-Hm, <-Hm0. by simplify_eq.
Qed.

Lemma as_str_inj s s' : MachineStatus_as_str s = MachineStatus_as_str s' → s = s'.
Proof.
  intros Heq. apply (f_equal MachineStatus_from_db_str) in Heq.
  rewrite !from_db_str_as_str in Heq. congruence.
Qed.
End machine_admin.

Section admin_theorems.
Context `{Sha256, Chrono, SshKey, Base64, Ed25519}.

(** ** Theorems *)

(** Taking a machine out of service takes effect.  After an operator has set a
    machine to any status but [Active], no request that names it in its header is
    accepted by the agent middleware, whatever it is signed with, at any time and
    with any state of the replay cache, as long as the table is as that write left
    it. *)
Theorem suspended_machine_refused `{NonceCache C, !NonceCacheLaws C}
    i st now w m w' now' request (s : Server C) r s' :
  set_status i st now w = (Ok m, w') → st ≠ Active →
  machines (db (sv_world s)) = machines (db w') →
  header_value (rq_headers request) HEADER_MACHINE_ID = Ok i →
  verify_machine_signature now' request s = (r, s') → is_ok r = false.
Proof.
  intros [Hdb _]%set_status_ok_inv Hst Hsame Hhdr Hv. destruct r as [[machine body]|e]; [|done].
  apply verify_ok_inv in Hv as (nonce & ts & Ha & _).
  destruct (auth_row _ _ _ _ _ _ _ Ha) as (row & Hin & Hdec).
  destruct (machine_try_from_keys _ _ Hdec) as (Hid & _ & _ & Hstat).
  rewrite (auth_active _ _ _ _ _ _ _ Ha) in Hstat.
  pose proof (auth_id_header _ _ _ _ _ _ _ Ha) as Hhdr'. rewrite Hhdr in Hhdr'. simplify_eq.
  rewrite Hsame, Hdb in Hin. apply status_row_status in Hin; [|done].
  rewrite Hstat in Hin. by apply as_str_inj in Hin.
Qed.

(** A lifecycle write on every branch.  A known machine gets the status (and a
    new [updated_at]) and is returned with it, every other row and every other
    table staying as they were; an unknown identifier is reported as such and
    nothing changes. *)
Theorem set_status_effect `{!ChronoLaws} i st now w :
  machines_ok (db w) → no_faults w → rfc3339_range now = true →
  if bool_decide (i ∈ mr_machine_id <$> machines (db w)) then
    ∃ m, set_status i st now w =
           (Ok m, with_db w (set_machines (λ l,
              (λ r, if bool_decide (mr_machine_id r = i) then status_row st now r else r) <$> l)
              (db w))) ∧ machine_id m = i ∧ status m = st
  else set_status i st now w = (Err (AdminNotFound i), w).
Proof.
  intros Hok Hw Hn. unfold set_status, mbind, M_bind, with_err. rewrite db_call_ok by done.
  unfold update_status. rewrite (update_machine_run _ _ _ Hw). case_bool_decide as Hi.
  - apply list_elem_of_fmap in Hi as (r & -> & Hr).
    rewrite (update_where_key mr_machine_id _ _ _ r) by (done || apply Hok). simpl.
    set (w1 := with_db w _).
    assert (machines_ok (db w1)) as Hok1
      by (eapply machine_rows_ok_update; [by apply status_keeps_keys|done]).
    assert (status_row st now r ∈ machines (db w1)) as Hr1.
    { apply list_elem_of_fmap. exists r. by rewrite bool_decide_true. }
    unfold find_by_id. rewrite fetch_machine_ok by done.
    rewrite (proj2 (find_key mr_machine_id (mr_machine_id r) _ (status_row st now r) (proj1 Hok1)))
      by done.
    destruct Hok1 as (_ & _ & _ & Hrows). rewrite Forall_forall in Hrows.
    destruct (Hrows _ Hr1) as [m Hm]. rewrite Hm. exists m.
    destruct (machine_try_from_keys _ _ Hm) as (Hid & _ & _ & Hst).
    split_and!; [done|done|]. by apply as_str_inj.
  - rewrite update_where_no_key by done. simpl. by destruct w as [[]].
Qed.

(** Deleting a machine removes its row and nothing else, and returns the row it
    removed; an unknown identifier is reported as such and nothing changes. *)
Theorem delete_effect i w :
  machines_ok (db w) → no_faults w →
  if bool_decide (i ∈ mr_machine_id <$> machines (db w)) then
    ∃ m r w', admin_delete i w = (Ok m, w') ∧ r ∈ machines (db w) ∧ machine_try_from r = Ok m ∧
      machine_id m = i ∧
      db w' = set_machines (List.filter (λ r, negb (bool_decide (mr_machine_id r = i)))) (db w) ∧
      machines_ok (db w') ∧ find_by_id i w' = (Ok None, w')
  else admin_delete i w = (Err (AdminNotFound i), w).
Proof.
  intros Hok Hw. unfold admin_delete, mbind, M_bind, with_err, find_by_id.
  rewrite db_call_ok by done. rewrite fetch_machine_ok by done. case_bool_decide as Hi.
  - apply list_elem_of_fmap in Hi as (r & -> & Hr).
    rewrite (proj2 (find_key mr_machine_id (mr_machine_id r) _ r (proj1 Hok))) by done.
    pose proof Hok as (_ & _ & _ & Hrows). rewrite Forall_forall in Hrows.
    destruct (Hrows _ Hr) as [m Hm]. rewrite Hm. simpl. unfold machine_delete.
    erewrite bind_ok by by rewrite execute_ok. unfold ret at 1.
    pose proof (update_where_key mr_machine_id (mr_machine_id r) id _ r (proj1 Hok) Hr eq_refl)
      as Hcount. simpl in Hcount. rewrite Hcount. simpl.
    destruct (machine_try_from_keys _ _ Hm) as (Hid & _).
    eexists m, r, _. split_and!; try done.
    + by apply machine_rows_ok_filter.
    + unfold find_by_id. rewrite fetch_machine_ok; [|done|by apply machine_rows_ok_filter].
      simpl. rewrite (proj2 (find_key_none mr_machine_id _ _)); [done|].
      rewrite list_elem_of_fmap. intros (r' & Heq & Hin%list_elem_of_In%filter_In).
      destruct Hin as [_ Hn]. by rewrite bool_decide_true in Hn.
  - by rewrite (proj2 (find_key_none mr_machine_id _ _)).
Qed.
End admin_theorems.

(** ** Witnesses *)
#[local] Existing Instances toy_sha256 toy_chrono toy_ssh_key toy_base64 toy_ed25519.
#[local] Existing Instances toy_chrono_laws.

(** The machine whose requests are accepted while it is active. *)
Lemma suspended_machine_refused_witness :
  is_ok (verify_machine_signature (seconds 1000) demo_signed agent_server).1 = true ∧
  let w' := (set_status "srv_1" Revoked (seconds 900) (sv_world agent_server)).2 in
  is_ok (verify_machine_signature (seconds 1000) demo_signed
           (MkServer w' InMemoryNonceCache_new)).1 = false.
Proof.
  split; [vm_compute; reflexivity|].
  destruct (is_ok_run (set_status "srv_1" Revoked (seconds 900) (sv_world agent_server)))
    as [m Hm]; [vm_compute; reflexivity|].
  eapply (suspended_machine_refused "srv_1" Revoked (seconds 900) (sv_world agent_server) m
    _ (seconds 1000) demo_signed (MkServer _ InMemoryNonceCache_new) _ _ Hm);
    [discriminate|reflexivity|vm_compute; reflexivity|apply surjective_pairing].
Defined.

Lemma set_status_effect_witness :
  ∃ m, (set_status "srv_1" Disabled (seconds 60) machine_world).1 = Ok m ∧
    machine_id m = "srv_1" ∧ status m = Disabled.
Proof.
  destruct (set_status_effect "srv_1" Disabled (seconds 60) machine_world machine_world_ok
    eq_refl eq_refl) as (m & Hm & Hid & Hst).
  exists m. rewrite Hm. split_and!; [reflexivity|exact Hid|exact Hst].
Defined.

Lemma delete_effect_witness :
  ∃ m w', admin_delete "srv_1" machine_world = (Ok m, w') ∧ machine_id m = "srv_1" ∧
    machines_ok (db w') ∧ find_by_id "srv_1" w' = (Ok None, w').
Proof.
  destruct (delete_effect "srv_1" machine_world machine_world_ok eq_refl)
    as (m & r & w' & Hd & _ & _ & Hid & _ & Hok & Hf).
  exists m, w'. split_and!; done.
Defined.
