(* ===== verification/ClientContext.v ===== *)
(** * Client context of audit entries ([src/src/audit/context.rs])

    What a handler records about its caller: header values, cut to size and
    without control characters, and the drift of the client's clock. *)
From S2P Require Import Prelude External Errors AuditChain AuditRepo AgentAuth Toy.

(** ** Header names *)
Definition HEADER_SESSION_ID : string := "x-mayfly-session-id".
Definition HEADER_CLIENT_VERSION : string := "x-mayfly-client-version".
Definition HEADER_CLIENT_BUILD : string := "x-mayfly-client-build".
Definition HEADER_PLATFORM : string := "x-mayfly-platform".
Definition HEADER_PLATFORM_VERSION : string := "x-mayfly-platform-version".
Definition HEADER_ARCH : string := "x-mayfly-arch".
Definition HEADER_HOSTNAME : string := "x-mayfly-hostname".
Definition HEADER_TIMEZONE : string := "x-mayfly-timezone".
Definition HEADER_UTC_OFFSET : string := "x-mayfly-utc-offset".
Definition HEADER_CLIENT_TIME : string := "x-mayfly-client-timestamp".
Definition HEADER_LOCALE : string := "x-mayfly-locale".
Definition HEADER_CLIENT_MACHINE_ID : string := "x-mayfly-machine-id".
Definition HEADER_SECURE_STORAGE : string := "x-mayfly-secure-storage".
Definition HEADER_SSH_VERSION : string := "x-mayfly-ssh-version".
Definition HEADER_TERMINAL : string := "x-mayfly-terminal".
Definition HEADER_CI : string := "x-mayfly-ci".
Definition HEADER_CONTAINER : string := "x-mayfly-container".

Definition MAX_VALUE_LEN : nat := 256.

Record RequestAuditContext : Type := MkRequestAuditContext {
  rc_provider : option string;
  rc_request_id : option string;
  rc_session_id : option string;
  rc_machine_id : option string;
  rc_remote_ip : option string;
  rc_forwarded_for : option string;
  rc_user_agent : option string;
  rc_cli_version : option string;
  rc_cli_build : option string;
  rc_platform : option string;
  rc_platform_version : option string;
  rc_arch : option string;
  rc_hostname : option string;
  rc_timezone : option string;
  rc_utc_offset : option string;
  rc_client_timestamp : option string;
  rc_server_timestamp : string;
  rc_clock_drift_ms : option Z;
  rc_locale : option string;
  rc_secure_storage : option string;
  rc_ssh_version : option string;
  rc_terminal : option string;
  rc_ci : option bool;
  rc_container : option bool;
  rc_certificate_id : option string;
  rc_request_duration_ms : option Z;
}.

Definition sanitize (value : string) : string :=
  str_concat (take MAX_VALUE_LEN (List.filter (λ c, negb (char_is_control c)) (chars value))).

Definition context_header (headers : list (string * string)) (name : string) : option string :=
  v ← header_get name headers;
  v ← header_to_str v;
  let v := trim v in
  if str_is_empty v then None else Some (sanitize v).

Definition remote_ip (headers : list (string * string)) : option string :=
  match context_header headers "x-real-ip" with
  | Some real => Some real
  | None =>
      chain ← context_header headers "x-forwarded-for";
      first ← trim <$> head (split_on "," chain);
      if str_is_empty first then None else Some first
  end.

(** [TimeDelta::num_milliseconds]: rounded towards zero. *)
Definition num_milliseconds (d : Z) : Z := Z.quot d nanos_per_milli.

(** ** Building and serializing *)
Definition from_headers `{Chrono} (headers : list (string * string)) (request_id : option string)
    (now : Z) : RequestAuditContext :=
  let get := context_header headers in
  let client_timestamp := get HEADER_CLIENT_TIME in
  {| rc_provider := None;
     rc_request_id := sanitize <$> request_id;
     rc_session_id := get HEADER_SESSION_ID;
     rc_machine_id := get HEADER_CLIENT_MACHINE_ID;
     rc_remote_ip := remote_ip headers;
     rc_forwarded_for := context_header headers "x-forwarded-for";
     rc_user_agent := context_header headers "user-agent";
     rc_cli_version := get HEADER_CLIENT_VERSION;
     rc_cli_build := get HEADER_CLIENT_BUILD;
     rc_platform := get HEADER_PLATFORM;
     rc_platform_version := get HEADER_PLATFORM_VERSION;
     rc_arch := get HEADER_ARCH;
     rc_hostname := get HEADER_HOSTNAME;
     rc_timezone := get HEADER_TIMEZONE;
     rc_utc_offset := get HEADER_UTC_OFFSET;
     rc_client_timestamp := client_timestamp;
     rc_server_timestamp := to_rfc3339_millis now;
     rc_clock_drift_ms :=
       (λ client, num_milliseconds (now - client)) <$> (client_timestamp ≫= parse_from_rfc3339);
     rc_locale := get HEADER_LOCALE;
     rc_secure_storage := get HEADER_SECURE_STORAGE;
     rc_ssh_version := get HEADER_SSH_VERSION;
     rc_terminal := get HEADER_TERMINAL;
     rc_ci := (λ v, bool_decide (v = "true")) <$> get HEADER_CI;
     rc_container := (λ v, bool_decide (v = "true")) <$> get HEADER_CONTAINER;
     rc_certificate_id := None;
     rc_request_duration_ms := None |}.

Definition with_provider (provider : string) (c : RequestAuditContext) : RequestAuditContext :=
  MkRequestAuditContext (Some provider) (rc_request_id c) (rc_session_id c) (rc_machine_id c)
    (rc_remote_ip c) (rc_forwarded_for c) (rc_user_agent c) (rc_cli_version c) (rc_cli_build c)
    (rc_platform c) (rc_platform_version c) (rc_arch c) (rc_hostname c) (rc_timezone c)
    (rc_utc_offset c) (rc_client_timestamp c) (rc_server_timestamp c) (rc_clock_drift_ms c)
    (rc_locale c) (rc_secure_storage c) (rc_ssh_version c) (rc_terminal c) (rc_ci c)
    (rc_container c) (rc_certificate_id c) (rc_request_duration_ms c).

(** [skip_serializing_if = "Option::is_none"]. *)
Definition field {A} (name : string) (f : A → Value) (o : option A) : list (string * Value) :=
  match o with Some a => [(name, f a)] | None => [] end.

Definition to_value (c : RequestAuditContext) : Value :=
  json_object (
    field "provider" VString (rc_provider c) ++
    field "request_id" VString (rc_request_id c) ++
    field "session_id" VString (rc_session_id c) ++
    field "machine_id" VString (rc_machine_id c) ++
    field "remote_ip" VString (rc_remote_ip c) ++
    field "forwarded_for" VString (rc_forwarded_for c) ++
    field "user_agent" VString (rc_user_agent c) ++
    field "cli_version" VString (rc_cli_version c) ++
    field "cli_build" VString (rc_cli_build c) ++
    field "platform" VString (rc_platform c) ++
    field "platform_version" VString (rc_platform_version c) ++
    field "arch" VString (rc_arch c) ++
    field "hostname" VString (rc_hostname c) ++
    field "timezone" VString (rc_timezone c) ++
    field "utc_offset" VString (rc_utc_offset c) ++
    field "client_timestamp" VString (rc_client_timestamp c) ++
    [("server_timestamp", VString (rc_server_timestamp c))] ++
    field "clock_drift_ms" VNumber (rc_clock_drift_ms c) ++
    field "locale" VString (rc_locale c) ++
    field "secure_storage" VString (rc_secure_storage c) ++
    field "ssh_version" VString (rc_ssh_version c) ++
    field "terminal" VString (rc_terminal c) ++
    field "ci" VBool (rc_ci c) ++
    field "container" VBool (rc_container c) ++
    field "certificate_id" VString (rc_certificate_id c) ++
    field "request_duration_ms" VNumber (rc_request_duration_ms c)).

(** ** Specification *)

(** Visible ASCII of at most 256 bytes: nothing that can break or bloat a log line. *)
Definition printable (s : string) : Prop :=
  str_all (λ c, in_range 32 126 (byte_code c)) s = true ∧ (str_len s <= 256)%Z.

(** The fields a client controls through headers. *)
Definition header_texts (c : RequestAuditContext) : list (option string) :=
  [rc_session_id c; rc_machine_id c; rc_remote_ip c; rc_forwarded_for c; rc_user_agent c;
   rc_cli_version c; rc_cli_build c; rc_platform c; rc_platform_version c; rc_arch c;
   rc_hostname c; rc_timezone c; rc_utc_offset c; rc_client_timestamp c; rc_locale c;
   rc_secure_storage c; rc_ssh_version c; rc_terminal c].

(** ** Lemmas *)
Lemma all_chars p s : str_all p s = true → Forall (λ ch, str_all p ch = true) (chars s).
Proof.
  induction s as [|c s IH]; simpl; [constructor|]. intros [Hc Hs]%andb_true_iff.
  specialize (IH Hs). destruct (chars s) as [|[|d h] t]; simpl;
    [by repeat constructor; simpl; rewrite Hc|by constructor; simpl; [rewrite Hc|]|].
  inversion_clear IH as [|? ? Hd Ht]. case_match; repeat constructor; simpl; try done;
    by rewrite Hc.
Qed.

Lemma all_concat p l : Forall (λ ch, str_all p ch = true) l → str_all p (str_concat l) = true.
Proof. induction 1 as [|ch l Hch _ IH]; simpl; [done|]. by rewrite str_all_app, Hch, IH. Qed.

Lemma drop_while_Forall {A} (p : A → bool) P l : Forall P l → Forall P (drop_while p l).
Proof. induction 1; simpl; [done|]. case_match; auto. Qed.

Lemma trim_all p s : str_all p s = true → str_all p (trim s) = true.
Proof.
  intros Hs. apply all_concat, Forall_reverse, drop_while_Forall, Forall_reverse,
    drop_while_Forall. by apply all_chars.
Qed.

Lemma concat_length_app l1 l2 :
  String.length (str_concat (l1 ++ l2)) =
  String.length (str_concat l1) + String.length (str_concat l2).
Proof. by rewrite str_concat_app, length_string_app. Qed.

Lemma concat_length_reverse l :
  String.length (str_concat (reverse l)) = String.length (str_concat l).
Proof.
  induction l as [|ch l IH]; [done|]. rewrite reverse_cons, concat_length_app, IH. simpl.
  rewrite app_string_nil, length_string_app. lia.
Qed.

Lemma concat_length_drop p l :
  String.length (str_concat (drop_while p l)) ≤ String.length (str_concat l).
Proof.
  induction l as [|ch l IH]; simpl; [done|]. case_match; [|done].
  rewrite length_string_app. lia.
Qed.

Lemma trim_length s : String.length (trim s) ≤ String.length s.
Proof.
  unfold trim. rewrite concat_length_reverse. etrans; [apply concat_length_drop|].
  rewrite concat_length_reverse. etrans; [apply concat_length_drop|].
  by rewrite str_concat_chars.
Qed.

(** A character that [HeaderValue::to_str] lets through is visible ASCII or a control. *)
Lemma header_char c :
  in_range 32 126 (byte_code c) || (byte_code c =? 9)%Z = true →
  char_is_control (String c "") = false → in_range 32 126 (byte_code c) = true.
Proof.
  intros [?|Hc%Z.eqb_eq]%orb_true_iff Hn; [done|]. simpl in Hn. by rewrite Hc in Hn.
Qed.

Lemma sanitize_printable v :
  str_all (λ c, in_range 32 126 (byte_code c) || (byte_code c =? 9)%Z) v = true →
  printable (sanitize v).
Proof.
  intros Hv.
  assert (str_all (λ c, byte_code c <? 128)%Z v = true) as Ha.
  { revert Hv. apply str_all_impl. unfold in_range. intros c Hc. apply Z.ltb_lt.
    apply orb_true_iff in Hc as [[_ Hc%Z.leb_le]%andb_true_iff|Hc%Z.eqb_eq]; lia. }
  unfold sanitize. rewrite (chars_ascii _ Ha).
  assert (Forall (λ ch, ∃ c, ch = String c "" ∧ in_range 32 126 (byte_code c) = true)
    (take MAX_VALUE_LEN (List.filter (λ c, negb (char_is_control c))
      ((λ c, String c "") <$> bytes_of v)))) as Hf.
  { apply Forall_take, Forall_forall. intros ch.
    rewrite list_elem_of_In, filter_In, <-list_elem_of_In, list_elem_of_fmap.
    intros [(c & -> & Hc) Hn%negb_true_iff]. exists c. split; [done|].
    apply header_char; [|done]. by apply (str_all_bytes _ _ _ Hv). }
  split.
  - apply all_concat. eapply Forall_impl; [exact Hf|]. intros ? (c & -> & Hc). simpl.
    by rewrite Hc.
  - assert (∀ l, Forall (λ ch, ∃ c, ch = String c "" ∧ in_range 32 126 (byte_code c) = true) l →
      String.length (str_concat l) = length l) as Hlen.
    { induction 1 as [|? l (c & -> & _) _ IH]; [done|]. csimpl. by f_equal. }
    unfold str_len. rewrite Hlen by done. rewrite length_take. unfold MAX_VALUE_LEN. lia.
Qed.

Lemma context_header_printable headers name v :
  context_header headers name = Some v → printable v.
Proof.
  unfold context_header, header_to_str.
  destruct (header_get name headers) as [raw|]; [|done]. simpl.
  destruct (str_all _ raw) eqn:Hraw; [|done]. simpl. case_match; [done|]. intros [= <-].
  by apply sanitize_printable, trim_all.
Qed.

Lemma split_on_head_all p c s h t :
  split_on c s = h :: t → str_all p s = true → str_all p h = true.
Proof.
  revert h t. induction s as [|d s IH]; simpl; [by intros h t [= <- _]|].
  intros h t Hs [Hd Hp]%andb_true_iff. case_bool_decide; [by simplify_eq|].
  destruct (split_on c s) as [|h' t'] eqn:He; simplify_eq/=; rewrite Hd; [done|].
  by eapply IH.
Qed.

Lemma split_on_head_length c s h t :
  split_on c s = h :: t → String.length h ≤ String.length s.
Proof.
  revert h t. induction s as [|d s IH]; simpl; [by intros h t [= <- _]|].
  intros h t Hs. case_bool_decide; [simplify_eq/=; lia|].
  destruct (split_on c s) as [|h' t'] eqn:He; simplify_eq/=; [lia|].
  specialize (IH _ _ eq_refl). lia.
Qed.

Lemma remote_ip_printable headers v : remote_ip headers = Some v → printable v.
Proof.
  unfold remote_ip. destruct (context_header headers "x-real-ip") eqn:Hr;
    [intros [= <-]; by eapply context_header_printable|].
  destruct (context_header headers "x-forwarded-for") as [chain|] eqn:Hc; [|done].
  apply context_header_printable in Hc as [Hall Hlen]. simpl.
  destruct (split_on _ chain) as [|h t] eqn:Hs; [done|]. simpl. case_match; [done|].
  intros [= <-]. split; [by eapply trim_all, split_on_head_all|].
  apply split_on_head_length in Hs. pose proof (trim_length h). unfold str_len in *. lia.
Qed.
#[export] Hint Resolve context_header_printable remote_ip_printable : mayfly.

Lemma field_wf {A} name (f : A → Value) o :
  (∀ a, wf_value (f a) = true) → forallb (λ kv, wf_value kv.2) (field name f o) = true.
Proof. intros Hf. destruct o; simpl; [by rewrite Hf|done]. Qed.

(** The context is a value that JSON writes and reads back. *)
Lemma to_value_wf c : wf_value (to_value c) = true.
Proof. apply wf_json_object. by rewrite !forallb_app, !field_wf. Qed.

(** Events whose metadata carries a client context. *)
Ltac context_event_ok :=
  apply event_ok_object; [done|];
  repeat match goal with |- context [to_value ?c] =>
    generalize (to_value_wf c); generalize (to_value c) end;
  simpl; intros; repeat match goal with Hv : wf_value _ = true |- _ => rewrite Hv; clear Hv end;
  try done.

(** ** Theorems *)

(** Whatever a client puts in its headers, each value recorded in the audit log is
    visible ASCII of at most 256 bytes, without control characters. *)
Theorem context_values_printable `{Chrono} headers request_id now o v :
  o ∈ header_texts (from_headers headers request_id now) → o = Some v → printable v.
Proof.
  unfold header_texts, from_headers. simpl. intros Ho ->.
  repeat (apply elem_of_cons in Ho as [Ho|Ho];
    [symmetry in Ho; by eauto with mayfly|]).
  by apply elem_of_nil in Ho.
Qed.

(** ** Witness *)
#[local] Existing Instances toy_chrono.

Lemma context_values_printable_witness :
  let headers := [("x-forwarded-for", "10.0.0.1 , 10.0.0.2");
                  (HEADER_HOSTNAME, "host" +:+ String (byte_of 9) "name")] in
  rc_hostname (from_headers headers None 0) = Some "hostname" ∧
  rc_remote_ip (from_headers headers None 0) = Some "10.0.0.1" ∧ printable "10.0.0.1".
Proof.
  split_and!; [vm_compute; reflexivity|vm_compute; reflexivity|].
  eapply (context_values_printable [("x-forwarded-for", "10.0.0.1 , 10.0.0.2");
                  (HEADER_HOSTNAME, "host" +:+ String (byte_of 9) "name")] None 0);
    [|reflexivity].
  vm_compute. right. right. left.
Defined.
