(* ===== verification/Authz.v ===== *)
(** * Authorization
      ([src/src/authz/models.rs], [service.rs], [errors.rs], [AccessConfig] of
      [src/src/config.rs])

    Deny by default: an identity is allowed only when one of its facts is on an
    allowlist, compared without regard to ASCII case. *)
From S2P Require Import Prelude External Errors Toy.

Record Identity : Type := MkIdentity {
  id_provider : string;
  id_subject : string;
  id_username : string;
  id_email : option string;
  id_display_name : option string;
  id_realm : option string;
  id_organizations : list string;
  id_teams : list string;
  id_groups : list string;
  id_roles : list string;
  (** The [BTreeMap], in key order. *)
  id_attributes : list (string * list string);
}.

Definition Identity_new (provider subject username : string) : Identity :=
  MkIdentity provider subject username None None None [] [] [] [] [].

(** The builder methods. *)
Definition with_orgs (orgs : list string) (i : Identity) : Identity :=
  MkIdentity (id_provider i) (id_subject i) (id_username i) (id_email i) (id_display_name i)
    (id_realm i) orgs (id_teams i) (id_groups i) (id_roles i) (id_attributes i).
Definition with_teams (teams : list string) (i : Identity) : Identity :=
  MkIdentity (id_provider i) (id_subject i) (id_username i) (id_email i) (id_display_name i)
    (id_realm i) (id_organizations i) teams (id_groups i) (id_roles i) (id_attributes i).
Definition with_groups (groups : list string) (i : Identity) : Identity :=
  MkIdentity (id_provider i) (id_subject i) (id_username i) (id_email i) (id_display_name i)
    (id_realm i) (id_organizations i) (id_teams i) groups (id_roles i) (id_attributes i).
Definition with_roles (roles : list string) (i : Identity) : Identity :=
  MkIdentity (id_provider i) (id_subject i) (id_username i) (id_email i) (id_display_name i)
    (id_realm i) (id_organizations i) (id_teams i) (id_groups i) roles (id_attributes i).

Inductive AuthzDecision : Type :=
| Allow
| Deny (reason : string).

Definition is_allowed (d : AuthzDecision) : bool :=
  match d with Allow => true | Deny _ => false end.

Record AccessConfig : Type := MkAccessConfig {
  allowed_users : list string;
  allowed_orgs : list string;
  allowed_teams : list string;
  allowed_groups : list string;
  allowed_roles : list string;
  allowed_attributes : list string;
}.

Inductive AuthzError : Type := Denied (reason : string).

Definition ApiError_of_authz (err : AuthzError) : ApiError :=
  match err with Denied _ => Forbidden "access denied" end.

Definition contains_ci (haystack : list string) (needle : string) : bool :=
  existsb (λ candidate, eq_ignore_ascii_case candidate needle) haystack.

Definition any_ci (allowlist facts : list string) : bool :=
  existsb (λ fact, contains_ci allowlist fact) facts.

(** The closure applied to each [allowed_attributes] entry. *)
Definition attribute_entry (attributes : list (string * list string)) (entry : string) : bool :=
  match split_once "=" entry with
  | None => false
  | Some (key, value) =>
      let '(key, value) := (trim key, trim value) in
      match find (λ kv, eq_ignore_ascii_case kv.1 key) attributes with
      | Some (_, values) => existsb (λ v, eq_ignore_ascii_case v value) values
      | None => false
      end
  end.

Definition attribute_match (access : AccessConfig) (identity : Identity) : bool :=
  if bool_decide (allowed_attributes access = []) || bool_decide (id_attributes identity = [])
  then false
  else existsb (attribute_entry (id_attributes identity)) (allowed_attributes access).

Definition authorize `{DebugStrings} (access : AccessConfig) (identity : Identity) : AuthzDecision :=
  if contains_ci (allowed_users access) (id_username identity) then Allow
  else if any_ci (allowed_orgs access) (id_organizations identity) then Allow
  else if any_ci (allowed_teams access) (id_teams identity) then Allow
  else if any_ci (allowed_groups access) (id_groups identity) then Allow
  else if any_ci (allowed_roles access) (id_roles identity) then Allow
  else if attribute_match access identity then Allow
  else Deny ("'" +:+ id_username identity +:+ "' (provider=" +:+ id_provider identity +:+
             ") is not in any allowlist (orgs=" +:+ debug_strings (id_organizations identity) +:+
             ", teams=" +:+ debug_strings (id_teams identity) +:+
             ", groups=" +:+ debug_strings (id_groups identity) +:+
             ", roles=" +:+ debug_strings (id_roles identity) +:+ ")").

(** ** What the allowlists permit *)

(** Equality up to ASCII case. *)
Definition same_ci (a b : string) : Prop := to_ascii_lowercase a = to_ascii_lowercase b.

#[export] Instance same_ci_equiv : Equivalence same_ci.
Proof. split; unfold same_ci; red; congruence. Qed.

Definition overlap (allowlist facts : list string) : Prop :=
  ∃ a f, a ∈ allowlist ∧ f ∈ facts ∧ same_ci a f.

Inductive permitted (access : AccessConfig) (i : Identity) : Prop :=
| permit_user a : a ∈ allowed_users access → same_ci a (id_username i) → permitted access i
| permit_org : overlap (allowed_orgs access) (id_organizations i) → permitted access i
| permit_team : overlap (allowed_teams access) (id_teams i) → permitted access i
| permit_group : overlap (allowed_groups access) (id_groups i) → permitted access i
| permit_role : overlap (allowed_roles access) (id_roles i) → permitted access i
| permit_attribute entry key value k vs v :
    entry ∈ allowed_attributes access → split_once "=" entry = Some (key, value) →
    (k, vs) ∈ id_attributes i → v ∈ vs → same_ci k (trim key) → same_ci v (trim value) →
    permitted access i.

(** ** Lemmas *)
Lemma existsb_elem_of {A} (f : A → bool) l : existsb f l = true ↔ ∃ x, x ∈ l ∧ f x = true.
Proof. rewrite existsb_exists. by setoid_rewrite <-list_elem_of_In. Qed.

Lemma eq_ci_same a b : eq_ignore_ascii_case a b = true ↔ same_ci a b.
Proof. apply eq_ignore_ascii_case_true. Qed.

#[export] Instance eq_ci_proper : Proper (same_ci ==> same_ci ==> eq) eq_ignore_ascii_case.
Proof. intros a a' Ha b b' Hb. unfold eq_ignore_ascii_case, same_ci in *. by rewrite Ha, Hb. Qed.

Lemma contains_ci_spec l s : contains_ci l s = true ↔ ∃ a, a ∈ l ∧ same_ci a s.
Proof. unfold contains_ci. rewrite existsb_elem_of. by setoid_rewrite eq_ci_same. Qed.

Lemma any_ci_spec allowlist facts : any_ci allowlist facts = true ↔ overlap allowlist facts.
Proof.
  unfold any_ci, overlap. rewrite existsb_elem_of. setoid_rewrite contains_ci_spec.
  naive_solver.
Qed.

(** With keys distinct up to case, the first match is the only one. *)
Lemma find_ci (attributes : list (string * list string)) key k vs :
  NoDup (to_ascii_lowercase ∘ fst <$> attributes) → (k, vs) ∈ attributes → same_ci k key →
  find (λ kv, eq_ignore_ascii_case kv.1 key) attributes = Some (k, vs).
Proof.
  induction attributes as [|[k' vs'] l IH]; csimpl; [set_solver|].
  intros [Hk' Hl]%NoDup_cons [Heq|Hin]%elem_of_cons Hkey.
  - simplify_eq. by rewrite (proj2 (eq_ci_same _ _) Hkey).
  - destruct (eq_ignore_ascii_case k' key) eqn:Hc; [|by apply IH].
    apply eq_ci_same in Hc. destruct Hk'. apply list_elem_of_fmap. exists (k, vs).
    split; [|done]. unfold same_ci in *. simpl. congruence.
Qed.

Lemma attribute_entry_sound attributes entry :
  attribute_entry attributes entry = true →
  ∃ key value k vs v, split_once "=" entry = Some (key, value) ∧ (k, vs) ∈ attributes ∧ v ∈ vs ∧
    same_ci k (trim key) ∧ same_ci v (trim value).
Proof.
  unfold attribute_entry. intros He. destruct (split_once _ _) as [[key value]|]; [|done].
  destruct (find _ _) as [[k vs]|] eqn:Hf; [|done].
  apply find_some in Hf as [Hin%list_elem_of_In Hk].
  apply existsb_elem_of in He as (v & Hv & Hve).
  exists key, value, k, vs, v. rewrite eq_ci_same in Hk, Hve. done.
Qed.

(** Nothing but the allowlists lets anyone in. *)
Lemma authorize_sound `{DebugStrings} access identity :
  is_allowed (authorize access identity) = true → permitted access identity.
Proof.
  unfold authorize. intros Ha.
  destruct (contains_ci _ _) eqn:H1; [apply contains_ci_spec in H1 as (a & ? & ?); by eapply permit_user|].
  destruct (any_ci (allowed_orgs _) _) eqn:H2; [by apply permit_org, any_ci_spec|].
  destruct (any_ci (allowed_teams _) _) eqn:H3; [by apply permit_team, any_ci_spec|].
  destruct (any_ci (allowed_groups _) _) eqn:H4; [by apply permit_group, any_ci_spec|].
  destruct (any_ci (allowed_roles _) _) eqn:H5; [by apply permit_role, any_ci_spec|].
  destruct (attribute_match _ _) eqn:H6; [|done].
  unfold attribute_match in H6. case_match; [done|].
  apply existsb_elem_of in H6 as (entry & Hin & He).
  apply attribute_entry_sound in He as (key & value & k & vs & v & ? & ? & ? & ? & ?).
  by eapply permit_attribute.
Qed.

(** Every allowlisted fact lets its holder in. *)
Lemma authorize_complete `{DebugStrings} access identity :
  NoDup (to_ascii_lowercase ∘ fst <$> id_attributes identity) →
  permitted access identity → authorize access identity = Allow.
Proof.
  intros Hnd Hp. unfold authorize.
  destruct (contains_ci _ _) eqn:H1; [done|].
  destruct (any_ci (allowed_orgs _) _) eqn:H2; [done|].
  destruct (any_ci (allowed_teams _) _) eqn:H3; [done|].
  destruct (any_ci (allowed_groups _) _) eqn:H4; [done|].
  destruct (any_ci (allowed_roles _) _) eqn:H5; [done|].
  destruct Hp as [a Ha Hs|Ho|Ho|Ho|Ho|entry key value k vs v He Hsp Hk Hv Hkey Hval];
    try (apply any_ci_spec in Ho; congruence).
  - assert (contains_ci (allowed_users access) (id_username identity) = true) as Hc
      by (apply contains_ci_spec; eauto). congruence.
  - assert (attribute_match access identity = true) as ->; [|done].
    unfold attribute_match. rewrite !bool_decide_false.
    + apply existsb_elem_of. exists entry. split; [done|]. unfold attribute_entry.
      rewrite Hsp. simpl. rewrite (find_ci _ _ k vs) by done.
      apply existsb_elem_of. exists v. by rewrite eq_ci_same.
    + intros Hnil. rewrite Hnil in Hk. set_solver.
    + intros Hnil. rewrite Hnil in He. set_solver.
Qed.

(** ** Theorems *)

(** C32: authorization is exactly membership.  An identity that is allowed has a fact on
    an allowlist, so with empty lists everyone is denied; and every allowlisted fact
    lets its holder in, as long as the identity's attribute keys differ by more than
    case. *)
Theorem authorize_exact `{DebugStrings} access identity :
  (is_allowed (authorize access identity) = true → permitted access identity) ∧
  (NoDup (to_ascii_lowercase ∘ fst <$> id_attributes identity) →
   permitted access identity → authorize access identity = Allow).
Proof. split; [apply authorize_sound|apply authorize_complete]. Qed.

(** ** Witnesses *)
#[local] Existing Instance toy_debug.

Definition demo_access : AccessConfig := MkAccessConfig ["Alice"] ["acme"] [] [] [] ["dept=eng"].
Definition demo_identity : Identity :=
  MkIdentity "keycloak" "42" "bob" None None None [] [] [] [] [("Dept", ["Eng"; "ops"])].

Lemma authorize_exact_witness :
  permitted demo_access demo_identity ∧ authorize demo_access demo_identity = Allow.
Proof.
  destruct (authorize_exact demo_access demo_identity) as [Hs Hc].
  assert (permitted demo_access demo_identity) as Hp by (apply Hs; vm_compute; reflexivity).
  split; [exact Hp|]. apply Hc; [apply NoDup_singleton|exact Hp].
Defined.

(** A second attribute key that differs only by case is not looked at.  The
    attribute [dept=eng] is allowed and the identity has it, but under a key that
    comes after [Dept]. *)
Theorem shadowed_attribute_denied :
  let identity := MkIdentity "keycloak" "42" "bob" None None None [] [] [] []
                    [("Dept", ["ops"]); ("dept", ["eng"])] in
  permitted demo_access identity ∧ is_allowed (authorize demo_access identity) = false.
Proof.
  split; [|vm_compute; reflexivity].
  apply (permit_attribute _ _ "dept=eng" "dept" "eng" "dept" ["eng"] "eng"); try set_solver.
  all: vm_compute; reflexivity.
Qed.
