(* ===== verification/Providers.v ===== *)
(** * Identity providers and the authentication routes
      ([src/src/auth/provider.rs], [registry.rs], [github.rs],
      [src/src/github/models.rs], [errors.rs], [src/src/routes/auth.rs])

    A provider is the record of its operations; what it answers over the network
    is given by those functions.  The registry picks one by identifier, and the
    routes turn its answers into identities, tokens and audit entries. *)
From S2P Require Import Prelude External Errors Database AuditChain AuditRepo.
From S2P Require Import AgentAuth Authz ClientContext Toy.

(** ** Errors *)
Inductive GitHubError : Type :=
| GhTransport (message : string)
| GhUnexpectedStatus (status : Z)
| GhDecode (message : string)
| GhUnauthorized
| GhRateLimited
| GhInvalidDeviceCode.

Inductive AuthProviderError : Type :=
| ApTransport (message : string)
| ApUnexpectedStatus (status : Z)
| ApDecode (message : string)
| ApUnauthorized
| ApRateLimited
| ApInvalidDeviceCode
| ApUnknownProvider.

(** The [#[error(..)]] texts and the conversion of a client error without a provider. *)
Definition GitHubError_display (err : GitHubError) : string :=
  match err with
  | GhTransport m => "github transport error: " +:+ m
  | GhUnexpectedStatus status => "github returned unexpected status " +:+ display_int status
  | GhDecode m => "failed to decode github response: " +:+ m
  | GhUnauthorized => "github rejected the access token"
  | GhRateLimited => "github rate limit exceeded"
  | GhInvalidDeviceCode => "github rejected the device code"
  end.

Definition ApiError_of_github (err : GitHubError) : ApiError :=
  match err with
  | GhUnauthorized => Unauthorized "the access token is invalid or expired"
  | GhRateLimited => TooManyRequests "upstream rate limit exceeded; retry later"
  | GhInvalidDeviceCode => BadRequest "the device_code is invalid"
  | other => Internal (CauseMessage (GitHubError_display other))
  end.

Definition AuthProviderError_of_github (err : GitHubError) : AuthProviderError :=
  match err with
  | GhTransport m => ApTransport m
  | GhUnexpectedStatus status => ApUnexpectedStatus status
  | GhDecode m => ApDecode m
  | GhUnauthorized => ApUnauthorized
  | GhRateLimited => ApRateLimited
  | GhInvalidDeviceCode => ApInvalidDeviceCode
  end.

(** The [#[error(..)]] texts. *)
Definition AuthProviderError_display (err : AuthProviderError) : string :=
  match err with
  | ApTransport m => "auth provider transport error: " +:+ m
  | ApUnexpectedStatus status =>
      "auth provider returned unexpected status " +:+ display_int status
  | ApDecode m => "failed to decode auth provider response: " +:+ m
  | ApUnauthorized => "auth provider rejected the access token"
  | ApRateLimited => "auth provider rate limit exceeded"
  | ApInvalidDeviceCode => "auth provider rejected the device code"
  | ApUnknownProvider => "unknown authentication provider"
  end.

Definition ApiError_of_provider (err : AuthProviderError) : ApiError :=
  match err with
  | ApUnauthorized => Unauthorized "the access token is invalid or expired"
  | ApRateLimited => TooManyRequests "upstream rate limit exceeded; retry later"
  | ApInvalidDeviceCode => BadRequest "the device_code is invalid"
  | ApUnknownProvider => BadRequest "unknown authentication provider"
  | other => Internal (CauseMessage (AuthProviderError_display other))
  end.

(** ** The provider interface *)
Inductive ProviderKind : Type := OAuth2Device | OidcDevice.

Definition ProviderKind_as_str (k : ProviderKind) : string :=
  match k with OAuth2Device => "oauth2-device" | OidcDevice => "oidc-device" end.

Record ProviderMetadata : Type := MkProviderMetadata {
  pm_id : string;
  pm_display_name : string;
  pm_kind : ProviderKind;
}.

Record AuthenticatedIdentity : Type := MkAuthenticatedIdentity {
  ai_provider : string;
  ai_subject : string;
  ai_username : string;
  ai_email : option string;
  ai_display_name : option string;
}.

Record AuthorizationNeeds : Type := MkAuthorizationNeeds {
  need_organizations : bool;
  need_teams : bool;
  need_groups : bool;
  need_roles : bool;
  need_attributes : bool;
}.

Definition needs_any (n : AuthorizationNeeds) : bool :=
  need_organizations n || need_teams n || need_groups n || need_roles n || need_attributes n.

Definition needs_all : AuthorizationNeeds := MkAuthorizationNeeds true true true true true.

Record AuthorizationContext : Type := MkAuthorizationContext {
  cx_realm : option string;
  cx_organizations : list string;
  cx_teams : list string;
  cx_groups : list string;
  cx_roles : list string;
  cx_attributes : list (string * list string);
}.

Definition AuthorizationContext_default : AuthorizationContext :=
  MkAuthorizationContext None [] [] [] [] [].

Record DeviceAuthorization : Type := MkDeviceAuthorization {
  da_device_code : string;
  da_user_code : string;
  da_verification_uri : string;
  da_expires_in : Z;
  da_interval : Z;
}.

Inductive DeviceTokenOutcome : Type :=
| Pending
| SlowDown
| Expired
| OutcomeDenied
| Approved (access_token scope : string).

(** [trait AuthenticationProvider]. *)
Record AuthenticationProvider : Type := MkProvider {
  ap_metadata : ProviderMetadata;
  start_device_authorization : result DeviceAuthorization AuthProviderError;
  poll_device_authorization : string → result DeviceTokenOutcome AuthProviderError;
  fetch_identity : string → result AuthenticatedIdentity AuthProviderError;
  resolve_authorization :
    string → AuthenticatedIdentity → AuthorizationNeeds →
    result AuthorizationContext AuthProviderError;
}.

(** The trait's default body. *)
Definition default_resolve_authorization (_access_token : string)
    (_identity : AuthenticatedIdentity) (_needs : AuthorizationNeeds)
  : result AuthorizationContext AuthProviderError := Ok AuthorizationContext_default.

(** ** GitHub *)
Record GitHubUser : Type := MkGitHubUser {
  gu_login : string;
  gu_id : Z;
  gu_name : option string;
  gu_email : option string;
}.

(** [trait GitHubClient]: HTTP calls to GitHub. *)
Record GitHubClient : Type := MkGitHubClient {
  start_device_flow : result DeviceAuthorization GitHubError;
  poll_device_flow : string → result DeviceTokenOutcome GitHubError;
  get_user : string → result GitHubUser GitHubError;
  get_user_orgs : string → result (list string) GitHubError;
  get_user_teams : string → result (list string) GitHubError;
}.

Definition PROVIDER_ID : string := "github".

Definition fetch_or_empty (r : result (list string) GitHubError) : list string :=
  match r with Ok values => values | Err _ => [] end.

Definition github_fetch_identity (client : GitHubClient) (access_token : string)
  : result AuthenticatedIdentity AuthProviderError :=
  let? user := map_err AuthProviderError_of_github (get_user client access_token) in
  Ok (MkAuthenticatedIdentity PROVIDER_ID (display_int (gu_id user)) (gu_login user)
        (gu_email user) (gu_name user)).

Definition github_resolve_authorization (client : GitHubClient) (access_token : string)
    (_identity : AuthenticatedIdentity) (needs : AuthorizationNeeds)
  : result AuthorizationContext AuthProviderError :=
  let organizations :=
    if need_organizations needs then fetch_or_empty (get_user_orgs client access_token) else [] in
  let teams :=
    if need_teams needs then fetch_or_empty (get_user_teams client access_token) else [] in
  Ok (MkAuthorizationContext None organizations teams [] [] []).

Definition GitHubProvider (client : GitHubClient) : AuthenticationProvider := {|
  ap_metadata := MkProviderMetadata PROVIDER_ID "GitHub" OAuth2Device;
  start_device_authorization :=
    map_err AuthProviderError_of_github (start_device_flow client);
  poll_device_authorization code :=
    map_err AuthProviderError_of_github (poll_device_flow client code);
  fetch_identity := github_fetch_identity client;
  resolve_authorization := github_resolve_authorization client;
|}.

(** ** The registry *)
Record ProviderRegistry : Type := MkProviderRegistry {
  pr_providers : gmap string AuthenticationProvider;
  pr_default_id : string;
}.

Definition ProviderRegistry_new (default_id : string) : ProviderRegistry :=
  MkProviderRegistry ∅ default_id.

Definition register (provider : AuthenticationProvider) (r : ProviderRegistry)
  : ProviderRegistry :=
  MkProviderRegistry (<[pm_id (ap_metadata provider) := provider]> (pr_providers r))
    (pr_default_id r).

(** [with] chains registrations. *)
Definition registry_with (r : ProviderRegistry) (provider : AuthenticationProvider)
  : ProviderRegistry := register provider r.
Definition default_id (r : ProviderRegistry) : string := pr_default_id r.

Definition provider_get (id : string) (r : ProviderRegistry) : option AuthenticationProvider :=
  pr_providers r !! id.

Definition resolve (selector : option string) (r : ProviderRegistry)
  : result AuthenticationProvider AuthProviderError :=
  let id := match trim <$> selector with
            | Some s => if negb (str_is_empty s) then s else pr_default_id r
            | None => pr_default_id r
            end in
  ok_or ApUnknownProvider (provider_get id r).

(** Sorted by identifier; the map yields each identifier once. *)
Definition provider_list (r : ProviderRegistry) : list ProviderMetadata :=
  sort_by (λ a b, str_leb (pm_id a) (pm_id b))
    ((λ kp, ap_metadata kp.2) <$> map_to_list (pr_providers r)).

(** ** The routes ([routes/auth.rs]) *)
Definition MAX_DEVICE_CODE_LEN : Z := 256.

(** The extractor behind every [Authorization: Bearer <token>]. *)
Definition BearerToken_from_request (headers : list (string * string)) : result string ApiError :=
  let? header := ok_or (Unauthorized "missing authorization header")
                   (header_get "authorization" headers) in
  let? value := ok_or (Unauthorized "malformed authorization header") (header_to_str header) in
  let token := match strip_prefix "Bearer " value with
               | Some t => Some t
               | None => strip_prefix "bearer " value
               end in
  ok_or (Unauthorized "expected 'Bearer <token>' authorization")
    (t ← trim <$> token; if str_is_empty t then None else Some t).

Definition needs_from_access (access : AccessConfig) : AuthorizationNeeds := {|
  need_organizations := negb (bool_decide (allowed_orgs access = []));
  need_teams := negb (bool_decide (allowed_teams access = []));
  need_groups := negb (bool_decide (allowed_groups access = []));
  need_roles := negb (bool_decide (allowed_roles access = []));
  need_attributes := negb (bool_decide (allowed_attributes access = []));
|}.

(** The record [resolve_identity] builds. *)
Definition identity_of (authd : AuthenticatedIdentity) (context : AuthorizationContext)
  : Identity := {|
  id_provider := ai_provider authd;
  id_subject := ai_subject authd;
  id_username := ai_username authd;
  id_email := ai_email authd;
  id_display_name := ai_display_name authd;
  id_realm := cx_realm context;
  id_organizations := cx_organizations context;
  id_teams := cx_teams context;
  id_groups := cx_groups context;
  id_roles := cx_roles context;
  id_attributes := cx_attributes context;
|}.

Definition resolve_identity (providers : ProviderRegistry) (access : AccessConfig)
    (provider_selector : option string) (token : string) : result Identity ApiError :=
  let? provider := map_err ApiError_of_provider (resolve provider_selector providers) in
  let? authd := map_err ApiError_of_provider (fetch_identity provider token) in
  let needs := needs_from_access access in
  let? context :=
    map_err ApiError_of_provider (resolve_authorization provider token authd needs) in
  Ok (identity_of authd context).

Definition device_start (providers : ProviderRegistry) (selector : option string)
  : result DeviceAuthorization ApiError :=
  let? provider := map_err ApiError_of_provider (resolve selector providers) in
  map_err ApiError_of_provider (start_device_authorization provider).

Record PollIdentity : Type := MkPollIdentity {
  pi_provider : string;
  pi_subject : string;
  pi_username : string;
  pi_email : option string;
  pi_name : option string;
}.

Record PollResponse : Type := MkPollResponse {
  ps_status : string;
  ps_access_token : option string;
  ps_identity : option PollIdentity;
}.

Definition PollResponse_status (status : string) : PollResponse :=
  MkPollResponse status None None.
Definition PollResponse_approved (access_token : string) : PollResponse :=
  MkPollResponse "approved" (Some access_token) None.
Definition PollResponse_approved_with (access_token : string) (identity : option PollIdentity)
  : PollResponse := MkPollResponse "approved" (Some access_token) identity.

Record DevicePollBody : Type := MkDevicePollBody {
  dp_device_code : string;
  dp_provider : option string;
}.

(** What [whoami] answers; the legacy identifier is [0] unless the subject is a [u64]. *)
Record WhoamiResponse : Type := MkWhoamiResponse {
  wh_provider : string;
  wh_subject : string;
  wh_username : string;
  wh_name : option string;
  wh_email : option string;
  wh_github_login : string;
  wh_github_id : Z;
}.

(** [str::parse::<u64>]. *)
Definition parse_u64 (s : string) : option Z :=
  let digits := match s with
                | String c s' => if bool_decide (c = "+"%char) then s' else s
                | EmptyString => s
                end in
  if str_is_empty digits then None
  else z ← parse_digits 0 digits; if in_range 0 18446744073709551615 z then Some z else None.

Definition WhoamiResponse_from_identity (identity : AuthenticatedIdentity) : WhoamiResponse := {|
  wh_provider := ai_provider identity;
  wh_subject := ai_subject identity;
  wh_username := ai_username identity;
  wh_name := ai_display_name identity;
  wh_email := ai_email identity;
  wh_github_login := ai_username identity;
  wh_github_id := default 0%Z (parse_u64 (ai_subject identity));
|}.

Section routes.
Context `{Sha256, Chrono, SerdeJson}.

Definition device_authorized_event (headers : list (string * string)) (request_id : string)
    (now : Z) (provider_id scope : string) (identity : option AuthenticatedIdentity)
  : NewAuditEntry :=
  let actor := default "unknown" (ai_username <$> identity) in
  let client := with_provider provider_id (from_headers headers (Some request_id) now) in
  let metadata := [("provider", VString provider_id); ("scopes", VString scope);
                   ("client", to_value client)] in
  let metadata := match identity with
                  | Some i => metadata ++ [("subject", VString (ai_subject i))]
                  | None => metadata
                  end in
  with_metadata (json_object metadata) (NewAuditEntry_new "auth.device_authorized" actor).

Definition device_poll (providers : ProviderRegistry) (headers : list (string * string))
    (request_id : string) (now audit_now : Z) (request : DevicePollBody)
  : M World ApiError PollResponse :=
  provider ← lift (map_err ApiError_of_provider (resolve (dp_provider request) providers));
  let device_code := trim (dp_device_code request) in
  _ ← ensure (negb (str_is_empty device_code || (MAX_DEVICE_CODE_LEN <? str_len device_code)%Z))
        (BadRequest "device_code is required");
  outcome ← lift (map_err ApiError_of_provider (poll_device_authorization provider device_code));
  match outcome with
  | Pending => ret (PollResponse_status "pending")
  | SlowDown => ret (PollResponse_status "slow_down")
  | Expired => ret (PollResponse_status "expired")
  | OutcomeDenied => ret (PollResponse_status "denied")
  | Approved access_token scope =>
      let provider_id := pm_id (ap_metadata provider) in
      let identity := match fetch_identity provider access_token with
                      | Ok i => Some i
                      | Err _ => None
                      end in
      _ ← with_err ApiError_of_audit (append_audit_event audit_now
            (device_authorized_event headers request_id now provider_id scope identity));
      let poll_identity := (λ i, MkPollIdentity provider_id (ai_subject i) (ai_username i)
                                   (ai_email i) (ai_display_name i)) <$> identity in
      ret (PollResponse_approved_with access_token poll_identity)
  end.

Definition identity_lookup_event (headers : list (string * string)) (request_id : string)
    (now : Z) (provider_id : string) (identity : AuthenticatedIdentity) : NewAuditEntry :=
  let client := with_provider provider_id (from_headers headers (Some request_id) now) in
  with_metadata (json_object [("provider", VString provider_id);
                              ("subject", VString (ai_subject identity));
                              ("client", to_value client)])
    (NewAuditEntry_new "auth.identity_lookup" (ai_username identity)).

(** The bearer token is extracted before the handler runs. *)
Definition whoami (providers : ProviderRegistry) (headers : list (string * string))
    (request_id : string) (now audit_now : Z) (selector : option string)
  : M World ApiError WhoamiResponse :=
  access_token ← lift (BearerToken_from_request headers);
  provider ← lift (map_err ApiError_of_provider (resolve selector providers));
  let provider_id := pm_id (ap_metadata provider) in
  identity ← lift (map_err ApiError_of_provider (fetch_identity provider access_token));
  _ ← with_err ApiError_of_audit (append_audit_event audit_now
        (identity_lookup_event headers request_id now provider_id identity));
  ret (WhoamiResponse_from_identity identity).

(** ** Lemmas *)
Lemma any_ci_nil facts : any_ci [] facts = false.
Proof. induction facts; [done|]. by simpl. Qed.

Lemma device_event_ok headers request_id now audit_now pid scope identity :
  rfc3339_range audit_now = true →
  event_ok audit_now (device_authorized_event headers request_id now pid scope identity) = true.
Proof.
  intros Hn. unfold device_authorized_event. destruct identity; context_event_ok.
Qed.

Lemma lookup_event_ok headers request_id now audit_now pid identity :
  rfc3339_range audit_now = true →
  event_ok audit_now (identity_lookup_event headers request_id now pid identity) = true.
Proof. intros Hn. unfold identity_lookup_event. context_event_ok. Qed.

Lemma device_poll_log_only `{!ChronoLaws, !SerdeJsonLaws} providers headers request_id now
    audit_now request :
  rfc3339_range audit_now = true →
  log_only audit_now (device_poll providers headers request_id now audit_now request).
Proof.
  intros Hn. apply log_only_bind; [apply (frame_lift eq)|]. intros provider.
  apply log_only_bind; [apply (frame_ensure eq)|]. intros _.
  apply log_only_bind; [apply (frame_lift eq)|]. intros [| | | |token scope];
    try apply log_only_reads, (frame_ret eq).
  apply log_only_append; [by apply device_event_ok|]. intros. apply (frame_ret eq).
Qed.

Lemma whoami_log_only `{!ChronoLaws, !SerdeJsonLaws} providers headers request_id now audit_now
    selector :
  rfc3339_range audit_now = true →
  log_only audit_now (whoami providers headers request_id now audit_now selector).
Proof.
  intros Hn. do 3 (apply log_only_bind; [apply (frame_lift eq)|]; intros ?).
  apply log_only_append; [by apply lookup_event_ok|]. intros. apply (frame_ret eq).
Qed.

(** Facts a policy does not list cannot change its decision. *)
Lemma unneeded_fact allowlist facts (b : bool) :
  b = negb (bool_decide (allowlist = [])) →
  any_ci allowlist (if b then facts else []) = any_ci allowlist facts.
Proof.
  intros ->. case_bool_decide as Ha; simpl; [|done]. rewrite Ha. by rewrite !any_ci_nil.
Qed.

(** ** Theorems *)

(** C33: no access token leaves the server unrecorded.  A poll hands out a token only if
    the selected provider approved the device code, and only together with one new
    [auth.device_authorized] entry in the log; in every other case, failed database
    calls included, nothing is written and no token is returned. *)
Theorem device_poll_fails_closed `{!ChronoLaws, !SerdeJsonLaws} providers headers request_id
    now audit_now request w r w' :
  audit_ok (db w) → rfc3339_range audit_now = true →
  device_poll providers headers request_id now audit_now request w = (r, w') →
  match r with
  | Err _ => db w' = db w
  | Ok resp =>
      match ps_access_token resp with
      | None => db w' = db w
      | Some token =>
          ∃ provider scope identity,
            resolve (dp_provider request) providers = Ok provider ∧
            poll_device_authorization provider (trim (dp_device_code request)) =
              Ok (Approved token scope) ∧
            appended audit_now (device_authorized_event headers request_id now
              (pm_id (ap_metadata provider)) scope identity) (db w) (db w')
      end
  end.
Proof.
  intros Hok Hn. unfold device_poll. unfold mbind at 1, M_bind at 1, lift at 1.
  destruct (resolve _ providers) as [provider|e] eqn:Hp; simpl; [|by intros [= <- <-]].
  unfold mbind at 1, M_bind at 1, ensure.
  destruct (str_is_empty _ || _); simpl; [by intros [= <- <-]|].
  unfold mbind at 1, M_bind at 1, lift.
  destruct (poll_device_authorization _ _) as [[]|e] eqn:Ho; simpl; try (by intros [= <- <-]).
  unfold mbind, M_bind.
  match goal with |- context [with_err _ ?m w] => destruct (with_err ApiError_of_audit m w)
    as [x w1] eqn:Happ end.
  apply append_outcome in Happ; [|done|by apply device_event_ok].
  destruct x as [e|e]; intros [= <- <-]; [|done]. simpl. by eexists _, _, _.
Qed.

(** Skipping lookups is safe.  For a GitHub caller the decision with only the
    memberships the allowlists mention is the decision with all of them. *)
Theorem needed_facts_suffice `{DebugStrings} client access token authd cx cx_all :
  github_resolve_authorization client token authd (needs_from_access access) = Ok cx →
  github_resolve_authorization client token authd needs_all = Ok cx_all →
  is_allowed (authorize access (identity_of authd cx)) =
  is_allowed (authorize access (identity_of authd cx_all)).
Proof.
  unfold github_resolve_authorization. intros [= <-] [= <-].
  unfold authorize, attribute_match. cbn [id_username id_organizations id_teams id_groups id_roles
    id_attributes identity_of cx_organizations cx_teams cx_groups cx_roles cx_attributes
    need_organizations need_teams needs_all needs_from_access].
  rewrite !unneeded_fact by done. by repeat case_match.
Qed.
End routes.

(** ** Witnesses *)
#[local] Existing Instances toy_sha256 toy_chrono toy_serde_json toy_debug.
#[local] Existing Instances toy_chrono_laws toy_serde_json_laws.

(** A GitHub that knows one user. *)
Definition demo_github : GitHubClient := {|
  start_device_flow := Ok (MkDeviceAuthorization "dc" "uc" "https://github.com/login/device" 900 5);
  poll_device_flow code :=
    if bool_decide (code = "dc") then Ok (Approved "gho_1" "read:org") else Ok Pending;
  get_user token :=
    if bool_decide (token = "gho_1") then Ok (MkGitHubUser "octo" 7 None None)
    else Err GhUnauthorized;
  get_user_orgs _ := Ok ["acme"];
  get_user_teams _ := Ok ["acme/core"];
|}.
Definition demo_providers : ProviderRegistry :=
  register (GitHubProvider demo_github) (ProviderRegistry_new "github").

Lemma device_poll_fails_closed_witness :
  let r := device_poll demo_providers [] "req-1" (seconds 5) (seconds 5)
             (MkDevicePollBody " dc " None) empty_world in
  match r.1 with Ok resp => ps_access_token resp = Some "gho_1" | Err _ => False end ∧
  length (audit_log (db r.2)) = 1 ∧ audit_ok (db r.2).
Proof.
  split_and!; [vm_compute; reflexivity|vm_compute; reflexivity|].
  set (r := device_poll demo_providers [] "req-1" (seconds 5) (seconds 5)
             (MkDevicePollBody " dc " None) empty_world).
  pose proof (device_poll_fails_closed demo_providers [] "req-1" (seconds 5) (seconds 5)
    (MkDevicePollBody " dc " None) empty_world r.1 r.2 (empty_audit_ok []) eq_refl
    (surjective_pairing r)) as Hp.
  assert (match r.1 with Ok resp => ps_access_token resp | Err _ => None end = Some "gho_1")
    as Ht by (vm_compute; reflexivity).
  destruct (r.1) as [resp|]; [|discriminate Ht]. rewrite Ht in Hp.
  destruct Hp as (? & ? & ? & _ & _ & Happ). destruct Happ as (? & ? & Hrest). apply Hrest.
Defined.

Lemma needed_facts_suffice_witness :
  let access := MkAccessConfig [] ["ACME"] [] [] [] [] in
  let authd := MkAuthenticatedIdentity "github" "7" "octo" None None in
  is_allowed (authorize access (identity_of authd
    (MkAuthorizationContext None ["acme"] [] [] [] []))) = true ∧
  is_allowed (authorize access (identity_of authd
    (MkAuthorizationContext None ["acme"] [] [] [] []))) =
  is_allowed (authorize access (identity_of authd
    (MkAuthorizationContext None ["acme"] ["acme/core"] [] [] []))).
Proof.
  split; [vm_compute; reflexivity|].
  apply (needed_facts_suffice demo_github (MkAccessConfig [] ["ACME"] [] [] [] []) "gho_1");
    reflexivity.
Defined.
