(* ===== verification/Keycloak.v ===== *)
(** * The Keycloak / OIDC provider
      ([src/src/auth/keycloak/mod.rs], [claims.rs], [verify.rs], [oidc.rs], [config.rs])

    Access tokens are JWTs: the provider fetches the realm's keys into a cache, pins the
    algorithm to the key, lets [jsonwebtoken] check the token, and maps its claims to an
    identity and authorization facts.  HTTP answers are arguments. *)
From S2P Require Import Prelude External Errors Authz Providers.

(** ** [jsonwebtoken], as a parameter *)
Inductive Algorithm : Type :=
| HS256 | HS384 | HS512 | ES256 | ES384 | RS256 | RS384 | RS512 | PS256 | PS384 | PS512 | EdDSA.

Inductive KeyAlgorithm : Type :=
| KHS256 | KHS384 | KHS512 | KES256 | KES384 | KRS256 | KRS384 | KRS512 | KPS256 | KPS384
| KPS512 | KEdDSA | KRSA1_5 | KRSA_OAEP | KRSA_OAEP_256.

Inductive AlgorithmParameters : Type := EllipticCurve | RSA | OctetKey | OctetKeyPair.

#[export] Instance algorithm_eq_dec : EqDecision Algorithm.
Proof. solve_decision. Defined.

Record Jwk : Type := MkJwk {
  jwk_key_id : option string;
  jwk_key_algorithm : option KeyAlgorithm;
  jwk_algorithm : AlgorithmParameters;
  jwk_material : string;
}.

(** [JwkSet::find]. *)
Definition JwkSet_find (kid : string) (set : list Jwk) : option Jwk :=
  find (λ k, bool_decide (jwk_key_id k = Some kid)) set.

Record JwtHeader : Type := MkJwtHeader { jh_alg : Algorithm; jh_kid : option string }.

(** The checks that [decode] is asked to make. *)
Record Validation : Type := MkValidation {
  vl_algorithms : list Algorithm;
  vl_iss : list string;
  vl_aud : option (list string);
  vl_leeway : Z;
  vl_validate_exp : bool;
  vl_validate_nbf : bool;
}.

(** [errors::ErrorKind], as far as the code tells kinds apart. *)
Inductive JwtErrorKind : Type :=
| InvalidSignature | ExpiredSignature | ImmatureSignature | InvalidIssuer | InvalidAudience
| InvalidAlgorithm | MissingRequiredClaim (claim : string) | OtherKind (message : string).

(** ** Claims ([claims.rs]) *)
Definition KEYCLOAK_PROVIDER_ID : string := "keycloak".

Record KeycloakClaims : Type := MkKeycloakClaims {
  kc_sub : string;
  kc_preferred_username : option string;
  kc_email : option string;
  kc_name : option string;
  kc_realm_access : option (list string);
  (** The [BTreeMap] of client roles, in key order. *)
  kc_resource_access : option (list (string * list string));
  kc_groups : list string;
  (** The remaining claims, in key order. *)
  kc_extra : list (string * Value);
}.

Definition to_identity (claims : KeycloakClaims) : AuthenticatedIdentity :=
  let username := match kc_preferred_username claims with
                  | Some u => if negb (str_is_empty u) then u else kc_sub claims
                  | None => kc_sub claims
                  end in
  MkAuthenticatedIdentity KEYCLOAK_PROVIDER_ID (kc_sub claims) username (kc_email claims)
    (kc_name claims).

(** The closure [push]. *)
Definition push_role (roles : list string) (r : string) : list string :=
  if negb (str_is_empty r) && negb (existsb (λ x, eq_ignore_ascii_case x r) roles)
  then roles ++ [r] else roles.

(** The roles in the order they are pushed. *)
Definition pushed_roles (claims : KeycloakClaims) : list string :=
  default [] (kc_realm_access claims) ++
  default [] ((λ resource, cs ← resource; r ← cs.2; [cs.1 +:+ "/" +:+ r; r])
                <$> kc_resource_access claims).

Definition collect_roles (claims : KeycloakClaims) : list string :=
  foldl push_role [] (pushed_roles claims).

Definition MAX_ATTRS : nat := 64.
Definition MAX_VALUES : nat := 64.

(** One claim: a string or an array with strings in it. *)
Definition attribute_values (v : Value) : option (list string) :=
  match v with
  | VString s => Some [s]
  | VArray items =>
      let values := take MAX_VALUES (omap value_as_str items) in
      if bool_decide (values = []) then None else Some values
  | _ => None
  end.

(** The loop; keys arrive in ascending order, so an insertion appends. *)
Fixpoint collect_from (extra : list (string * Value)) (out : list (string * list string))
  : list (string * list string) :=
  match extra with
  | [] => out
  | (key, value) :: extra =>
      if (MAX_ATTRS <=? length out)%nat then out
      else match attribute_values value with
           | Some values => collect_from extra (out ++ [(key, values)])
           | None => collect_from extra out
           end
  end.
Definition collect_attributes (claims : KeycloakClaims) : list (string * list string) :=
  collect_from (kc_extra claims) [].

(** [trim_start_matches('/')], [trim_end_matches('/')]. *)
Fixpoint trim_start_slash (s : string) : string :=
  match s with
  | String c s' => if bool_decide (c = "/"%char) then trim_start_slash s' else s
  | EmptyString => s
  end.
Fixpoint trim_end_slash (s : string) : string :=
  match s with
  | EmptyString => ""
  | String c s' =>
      let t := trim_end_slash s' in
      if str_is_empty t && bool_decide (c = "/"%char) then "" else String c t
  end.

(** [str::rsplit_once]: the last occurrence. *)
Fixpoint rsplit_once (sep s : string) : option (string * string) :=
  match s with
  | EmptyString => (λ rest, ("", rest)) <$> strip_prefix sep s
  | String c s' =>
      match rsplit_once sep s' with
      | Some (a, b) => Some (String c a, b)
      | None => (λ rest, ("", rest)) <$> strip_prefix sep s
      end
  end.

Definition realm_from_issuer (issuer : string) : option string :=
  '(_, realm) ← rsplit_once "/realms/" (trim_end_slash issuer);
  let r := trim_start_slash (trim_end_slash realm) in
  if negb (str_is_empty r) then Some r else None.

Definition normalize_groups (groups : list string) : list string :=
  List.filter (λ g, negb (str_is_empty g)) (trim_start_slash <$> groups).

Definition to_authorization (issuer : string) (claims : KeycloakClaims) : AuthorizationContext :=
  MkAuthorizationContext (realm_from_issuer issuer) [] [] (normalize_groups (kc_groups claims))
    (collect_roles claims) (collect_attributes claims).

(** The functions of [jsonwebtoken] the provider calls.  [decode] reads the system clock,
    given in seconds; the accessors say what a token contains. *)
Class JsonWebToken : Type := {
  decode_header : string → result JwtHeader string;
  decoding_key : Type;
  DecodingKey_from_jwk : Jwk → result decoding_key string;
  jwt_decode :
    string → decoding_key → Validation → Z → result KeycloakClaims (JwtErrorKind * string);
  signature_valid : string → decoding_key → Algorithm → bool;
  jwt_iss : string → option string;
  jwt_exp : string → option Z;
  jwt_nbf : string → option Z;
}.

(** What a successful [decode] has checked. *)
Class JsonWebTokenLaws `{JsonWebToken} : Prop := {
  decode_algorithm : ∀ t k v now c, jwt_decode t k v now = Ok c →
    ∃ h, decode_header t = Ok h ∧ jh_alg h ∈ vl_algorithms v ∧
      signature_valid t k (jh_alg h) = true;
  decode_iss : ∀ t k v now c i, jwt_decode t k v now = Ok c → jwt_iss t = Some i → i ∈ vl_iss v;
  decode_exp : ∀ t k v now c, jwt_decode t k v now = Ok c → vl_validate_exp v = true →
    ∃ e, jwt_exp t = Some e ∧ (now - vl_leeway v <= e)%Z;
  decode_nbf : ∀ t k v now c n, jwt_decode t k v now = Ok c → vl_validate_nbf v = true →
    jwt_nbf t = Some n → (n <= now + vl_leeway v)%Z;
}.

(** ** Configuration ([config.rs]) *)
Definition DEFAULT_CLOCK_SKEW_SECS : Z := 60.

Record KeycloakProviderConfig : Type := MkKeycloakConfig {
  kp_issuer_url : string;
  kp_client_id : string;
  kp_client_secret : option string;
  kp_scopes : string;
  kp_audience : option string;
  kp_clock_skew_secs : Z;
}.

(** [KeycloakProvider::new]: blank scopes get a default. *)
Definition KeycloakProvider_new (c : KeycloakProviderConfig) : KeycloakProviderConfig :=
  if str_is_empty (trim (kp_scopes c)) then
    MkKeycloakConfig (kp_issuer_url c) (kp_client_id c) (kp_client_secret c)
      "openid profile email" (kp_audience c) (kp_clock_skew_secs c)
  else c.

Definition config_issuer (c : KeycloakProviderConfig) : string := trim_end_slash (kp_issuer_url c).
Definition discovery_url (c : KeycloakProviderConfig) : string :=
  config_issuer c +:+ "/.well-known/openid-configuration".
Definition device_endpoint_convention (c : KeycloakProviderConfig) : string :=
  config_issuer c +:+ "/protocol/openid-connect/auth/device".
Definition token_endpoint_convention (c : KeycloakProviderConfig) : string :=
  config_issuer c +:+ "/protocol/openid-connect/token".

(** ** Discovery and keys ([oidc.rs]) *)
Definition MIN_JWKS_REFRESH : Z := seconds 30.

Record OidcDiscovery : Type := MkOidcDiscovery {
  od_issuer : string;
  od_token_endpoint : option string;
  od_device_authorization_endpoint : option string;
  od_jwks_uri : string;
}.

(** What came back from an HTTP request: nothing, or a status and a body that parses or
    does not. *)
Inductive http (A : Type) : Type :=
| HttpFailed (message : string)
| HttpAnswer (status : Z) (body : result A string).
Arguments HttpFailed {A} message.
Arguments HttpAnswer {A} status body.

Definition status_is_success (status : Z) : bool := in_range 200 299 status.

(** A JWKS request that was made: when it started, when its answer was stored, and
    whether there was one. *)
Record refresh : Type := MkRefresh { rf_start : Z; rf_done : Z; rf_ok : bool }.

(** The cache, with the JWKS requests made so far, oldest first. *)
Record OidcCache : Type := MkOidcCache {
  oc_discovery : option OidcDiscovery;
  oc_set : option (list Jwk);
  oc_last_refresh : option Z;
  oc_requests : list refresh;
}.
Definition OidcCache_new : OidcCache := MkOidcCache None None None [].

(** What the network would answer during one call. *)
Record Network : Type := MkNetwork {
  net_discovery : http OidcDiscovery;
  net_jwks : string → http (list Jwk);
  (** [Instant::now()] when the limit is checked and after the answer. *)
  net_start : Z;
  net_done : Z;
}.

Definition fetch_discovery (net : Network) : result OidcDiscovery AuthProviderError :=
  match net_discovery net with
  | HttpFailed m => Err (ApTransport m)
  | HttpAnswer status body =>
      if negb (status_is_success status) then Err (ApUnexpectedStatus status)
      else map_err (λ e, ApDecode ("discovery document: " +:+ e)) body
  end.

Definition fetch_jwks (net : Network) (jwks_uri : string)
  : result (list Jwk) AuthProviderError :=
  match net_jwks net jwks_uri with
  | HttpFailed m => Err (ApTransport m)
  | HttpAnswer status body =>
      if negb (status_is_success status) then Err (ApUnexpectedStatus status)
      else map_err (λ e, ApDecode ("jwks: " +:+ e)) body
  end.

Definition discovery (net : Network) : M OidcCache AuthProviderError OidcDiscovery := λ c,
  match oc_discovery c with
  | Some d => (Ok d, c)
  | None =>
      match fetch_discovery net with
      | Ok doc => (Ok doc, MkOidcCache (Some doc) (oc_set c) (oc_last_refresh c) (oc_requests c))
      | Err e => (Err e, c)
      end
  end.

Definition cache_find (kid : string) (c : OidcCache) : option Jwk :=
  oc_set c ≫= JwkSet_find kid.

(** [last.elapsed() < MIN_JWKS_REFRESH && guard.set.is_some()]. *)
Definition refresh_limited (net : Network) (c : OidcCache) : bool :=
  match oc_last_refresh c with
  | Some last =>
      (Z.max 0 (net_start net - last) <? MIN_JWKS_REFRESH)%Z && bool_decide (is_Some (oc_set c))
  | None => false
  end.

(** The request under the write lock. *)
Definition refresh_jwks (net : Network) (kid jwks_uri : string)
  : M OidcCache AuthProviderError Jwk := λ c,
  let made ok := oc_requests c ++ [MkRefresh (net_start net) (net_done net) ok] in
  match fetch_jwks net jwks_uri with
  | Err e => (Err e, MkOidcCache (oc_discovery c) (oc_set c) (oc_last_refresh c) (made false))
  | Ok set =>
      let c := MkOidcCache (oc_discovery c) (Some set) (Some (net_done net)) (made true) in
      (ok_or ApUnauthorized (cache_find kid c), c)
  end.

Definition jwk_for_kid (net : Network) (kid : string) : M OidcCache AuthProviderError Jwk :=
  known ← gets (cache_find kid);
  match known with
  | Some jwk => ret jwk
  | None =>
      document ← discovery net;
      known ← gets (cache_find kid);
      match known with
      | Some jwk => ret jwk
      | None =>
          limited ← gets (refresh_limited net);
          if limited : bool then throw ApUnauthorized
          else refresh_jwks net kid (od_jwks_uri document)
      end
  end.

(** ** Verification ([verify.rs]) *)
Definition key_algorithm_to_algorithm (alg : KeyAlgorithm) : result Algorithm AuthProviderError :=
  match alg with
  | KRS256 => Ok RS256 | KRS384 => Ok RS384 | KRS512 => Ok RS512
  | KPS256 => Ok PS256 | KPS384 => Ok PS384 | KPS512 => Ok PS512
  | KES256 => Ok ES256 | KES384 => Ok ES384 | KEdDSA => Ok EdDSA
  | _ => Err ApUnauthorized
  end.

Definition algorithm_for_jwk (jwk : Jwk) : result Algorithm AuthProviderError :=
  match jwk_key_algorithm jwk with
  | Some key_alg => key_algorithm_to_algorithm key_alg
  | None =>
      match jwk_algorithm jwk with
      | RSA => Ok RS256
      | EllipticCurve => Ok ES256
      | _ => Err ApUnauthorized
      end
  end.

Definition map_jwt_error (err : JwtErrorKind * string) : AuthProviderError :=
  match err.1 with
  | InvalidSignature | ExpiredSignature | ImmatureSignature | InvalidIssuer | InvalidAudience
  | InvalidAlgorithm | MissingRequiredClaim _ => ApUnauthorized
  | OtherKind _ => ApDecode err.2
  end.

Section verify.
Context `{JsonWebToken}.

Definition validation_for (alg : Algorithm) (doc : OidcDiscovery) (config : KeycloakProviderConfig)
  : Validation := {|
  vl_algorithms := [alg];
  vl_iss := [od_issuer doc];
  vl_aud := (λ aud, [aud]) <$> kp_audience config;
  vl_leeway := kp_clock_skew_secs config;
  vl_validate_exp := true;
  vl_validate_nbf := true;
|}.

Definition verify_access_token (token : string) (jwk : Jwk) (doc : OidcDiscovery)
    (config : KeycloakProviderConfig) (now : Z) : result KeycloakClaims AuthProviderError :=
  let? header := map_err ApDecode (decode_header token) in
  let? expected_alg := algorithm_for_jwk jwk in
  guard? bool_decide (jh_alg header = expected_alg) else ApUnauthorized in
  let? key := map_err ApDecode (DecodingKey_from_jwk jwk) in
  map_err map_jwt_error (jwt_decode token key (validation_for expected_alg doc config) now).

(** ** The provider ([mod.rs]) *)
Definition verified_claims (config : KeycloakProviderConfig) (net : Network) (now : Z)
    (access_token : string) : M OidcCache AuthProviderError (KeycloakClaims * string) :=
  doc ← discovery net;
  header ← lift (map_err ApDecode (decode_header access_token));
  kid ← lift (ok_or (ApDecode "access token has no 'kid'") (jh_kid header));
  jwk ← jwk_for_kid net kid;
  claims ← lift (verify_access_token access_token jwk doc config now);
  ret (claims, od_issuer doc).

Definition keycloak_fetch_identity (config : KeycloakProviderConfig) (net : Network) (now : Z)
    (access_token : string) : M OidcCache AuthProviderError AuthenticatedIdentity :=
  ci ← verified_claims config net now access_token;
  ret (to_identity ci.1).

Definition keycloak_resolve_authorization (config : KeycloakProviderConfig) (net : Network)
    (now : Z) (access_token : string) : M OidcCache AuthProviderError AuthorizationContext :=
  ci ← verified_claims config net now access_token;
  ret (to_authorization ci.2 ci.1).

(** Both fall back on the convention when discovery fails or lacks the endpoint. *)
Definition device_endpoint (config : KeycloakProviderConfig) (net : Network)
  : M OidcCache AuthProviderError string := λ c,
  match discovery net c with
  | (Ok d, c) => (Ok (default (device_endpoint_convention config)
                        (od_device_authorization_endpoint d)), c)
  | (Err _, c) => (Ok (device_endpoint_convention config), c)
  end.

Definition token_endpoint (config : KeycloakProviderConfig) (net : Network)
  : M OidcCache AuthProviderError string := λ c,
  match discovery net c with
  | (Ok d, c) => (Ok (default (token_endpoint_convention config) (od_token_endpoint d)), c)
  | (Err _, c) => (Ok (token_endpoint_convention config), c)
  end.
End verify.

(** [Value::as_u64]. *)
Definition value_as_u64 (v : Value) : option Z :=
  match v with
  | VNumber n => if in_range 0 18446744073709551615 n then Some n else None
  | _ => None
  end.

Definition string_field (body : Value) (key : string) : result string AuthProviderError :=
  ok_or (ApDecode ("missing field '" +:+ key +:+ "'")) (value_get key body ≫= value_as_str).

Definition DEVICE_GRANT_TYPE : string := "urn:ietf:params:oauth:grant-type:device_code".

Definition client_secret_form (config : KeycloakProviderConfig) : list (string * string) :=
  match kp_client_secret config with Some secret => [("client_secret", secret)] | None => [] end.

(** [post] is what the network answers to a form posted to an endpoint. *)
Definition keycloak_start_device_authorization (config : KeycloakProviderConfig) (net : Network)
    (post : string → list (string * string) → http Value)
  : M OidcCache AuthProviderError DeviceAuthorization :=
  endpoint ← device_endpoint config net;
  let form := [("client_id", kp_client_id config); ("scope", kp_scopes config)] ++
              client_secret_form config in
  lift match post endpoint form with
  | HttpFailed m => Err (ApTransport m)
  | HttpAnswer status body =>
      guard? status_is_success status else ApUnexpectedStatus status in
      let? body := map_err ApDecode body in
      let? device_code := string_field body "device_code" in
      let? user_code := string_field body "user_code" in
      let? verification_uri := string_field body "verification_uri" in
      Ok (MkDeviceAuthorization device_code user_code verification_uri
            (default 0%Z (value_get "expires_in" body ≫= value_as_u64))
            (default 5%Z (value_get "interval" body ≫= value_as_u64)))
  end.

Definition token_answer (body : Value) : result DeviceTokenOutcome AuthProviderError :=
  match value_get "access_token" body ≫= value_as_str with
  | Some token => Ok (Approved token (default "" (value_get "scope" body ≫= value_as_str)))
  | None =>
      match value_get "error" body ≫= value_as_str with
      | Some "authorization_pending" => Ok Pending
      | Some "slow_down" => Ok SlowDown
      | Some "expired_token" => Ok Expired
      | Some "access_denied" => Ok OutcomeDenied
      | Some "invalid_grant" | Some "unsupported_grant_type" => Err ApInvalidDeviceCode
      | _ => Err (ApDecode "token response had neither access_token nor a known error")
      end
  end.

Definition keycloak_poll_device_authorization (config : KeycloakProviderConfig) (net : Network)
    (post : string → list (string * string) → http Value) (device_code : string)
  : M OidcCache AuthProviderError DeviceTokenOutcome :=
  endpoint ← token_endpoint config net;
  let form := [("client_id", kp_client_id config); ("device_code", device_code);
               ("grant_type", DEVICE_GRANT_TYPE)] ++ client_secret_form config in
  lift match post endpoint form with
  | HttpFailed m => Err (ApTransport m)
  | HttpAnswer status body =>
      guard? (status =? 200)%Z || (status =? 400)%Z else ApUnexpectedStatus status in
      let? body := map_err ApDecode body in
      token_answer body
  end.

(** ** Lemmas *)

(** Pushing keeps the roles distinct up to case, and covers what was pushed. *)
Lemma push_role_spec roles r :
  NoDup (to_ascii_lowercase <$> roles) →
  NoDup (to_ascii_lowercase <$> push_role roles r) ∧
  (∀ x, x ∈ push_role roles r → x ∈ roles ∨ x = r ∧ r ≠ "") ∧
  (∀ x, x ∈ roles → x ∈ push_role roles r) ∧
  (r ≠ "" → ∃ x, x ∈ push_role roles r ∧ same_ci x r).
Proof.
  intros Hnd. unfold push_role, str_is_empty.
  destruct (existsb _ roles) eqn:He; case_bool_decide as Hr; simpl.
  - split_and!; auto. naive_solver.
  - split_and!; auto. intros _. apply existsb_elem_of in He as (x & Hx & Hs).
    exists x. by rewrite <-eq_ci_same.
  - split_and!; auto. naive_solver.
  - split_and!.
    + rewrite fmap_app. apply NoDup_app_snoc; [done|]. simpl.
      intros (x & Hx & Hin)%list_elem_of_fmap.
      assert (existsb (λ x, eq_ignore_ascii_case x r) roles = true) as Ht; [|congruence].
      apply existsb_elem_of. exists x. split; [done|]. by apply eq_ci_same.
    + set_solver.
    + set_solver.
    + intros _. exists r. split; [set_solver|done].
Qed.

Lemma push_all_spec pushed roles :
  NoDup (to_ascii_lowercase <$> roles) →
  let out := foldl push_role roles pushed in
  NoDup (to_ascii_lowercase <$> out) ∧
  (∀ x, x ∈ out → x ∈ roles ∨ x ∈ pushed ∧ x ≠ "") ∧
  (∀ x, x ∈ roles → x ∈ out) ∧
  (∀ r, r ∈ pushed → r ≠ "" → ∃ x, x ∈ out ∧ same_ci x r).
Proof.
  revert roles. induction pushed as [|r pushed IH]; intros roles Hnd; simpl; [set_solver|].
  destruct (push_role_spec roles r Hnd) as (Hnd1 & Hin1 & Hkeep1 & Hcov1).
  destruct (IH _ Hnd1) as (Hnd2 & Hin2 & Hkeep2 & Hcov2). split_and!.
  - done.
  - intros x [Hx|[Hx Hne]]%Hin2; [|set_solver]. apply Hin1 in Hx as [?|[-> ?]]; set_solver.
  - auto.
  - intros r' [->|Hr']%elem_of_cons Hne; [|by apply Hcov2].
    destruct (Hcov1 Hne) as (x & Hx & Hs). eauto.
Qed.

Lemma any_ci_cover allowlist facts facts' :
  (∀ f, f ∈ facts → ∃ f', f' ∈ facts' ∧ same_ci f' f) →
  any_ci allowlist facts = true → any_ci allowlist facts' = true.
Proof.
  intros Hc. rewrite !any_ci_spec. intros (a & f & Ha & Hf & Hs).
  destruct (Hc f Hf) as (f' & Hf' & Hs'). exists a, f'. split_and!; try done. by rewrite Hs'.
Qed.

(** Requests recorded so far respect the limit, and the cache remembers the latest. *)
Definition requests_ok (c : OidcCache) : Prop :=
  (∀ i j r s, oc_requests c !! i = Some r → oc_requests c !! j = Some s → i < j →
     rf_ok r = true → (rf_done r + MIN_JWKS_REFRESH <= rf_start s)%Z) ∧
  (∀ r, r ∈ oc_requests c → rf_ok r = true →
     is_Some (oc_set c) ∧ ∃ last, oc_last_refresh c = Some last ∧ (rf_done r <= last)%Z).

Lemma discovery_keeps net c r c' :
  discovery net c = (r, c') →
  oc_set c' = oc_set c ∧ oc_last_refresh c' = oc_last_refresh c ∧ oc_requests c' = oc_requests c.
Proof. unfold discovery. intros. by cases. Qed.

Lemma requests_ok_same c c' :
  oc_set c' = oc_set c → oc_last_refresh c' = oc_last_refresh c →
  oc_requests c' = oc_requests c → requests_ok c → requests_ok c'.
Proof. unfold requests_ok. by intros -> -> ->. Qed.

(** A request that was not limited comes late enough after every successful one. *)
Lemma not_limited_late net c r :
  requests_ok c → refresh_limited net c = false → r ∈ oc_requests c → rf_ok r = true →
  (rf_done r + MIN_JWKS_REFRESH <= net_start net)%Z.
Proof.
  intros [_ Hlast] Hl Hr Hok. destruct (Hlast r Hr Hok) as [Hs (last & Hlr & Hle)].
  unfold refresh_limited in Hl. rewrite Hlr, (bool_decide_true _ Hs), andb_true_r in Hl.
  apply Z.ltb_ge in Hl. unfold MIN_JWKS_REFRESH, seconds, nanos_per_sec in *. lia.
Qed.

Lemma requests_ok_snoc net c ok c' :
  requests_ok c → refresh_limited net c = false →
  oc_requests c' = oc_requests c ++ [MkRefresh (net_start net) (net_done net) ok] →
  (ok = true → is_Some (oc_set c') ∧ oc_last_refresh c' = Some (net_done net)) →
  (ok = false → oc_set c' = oc_set c ∧ oc_last_refresh c' = oc_last_refresh c) →
  (net_start net <= net_done net)%Z → requests_ok c'.
Proof.
  intros Hinv Hl Hreq Hyes Hno Htime. pose proof Hinv as [Hgap Hlast].
  assert (∀ r, r ∈ oc_requests c → rf_ok r = true →
    (rf_done r + MIN_JWKS_REFRESH <= net_start net)%Z) as Hlate
    by (intros; by eapply not_limited_late).
  split; rewrite Hreq.
  - intros i j r s Hi Hj Hij Hok.
    apply lookup_app_Some in Hj as [Hj|[Hlen Hj]].
    + apply (Hgap i j); try done. apply lookup_lt_Some in Hj.
      rewrite lookup_app_l in Hi by lia. done.
    + assert (j = length (oc_requests c)) as -> by (apply lookup_lt_Some in Hj; simpl in Hj; lia).
      rewrite Nat.sub_diag in Hj. simpl in Hj. injection Hj as <-. simpl.
      rewrite lookup_app_l in Hi by lia. eapply Hlate; [|done]. by eapply list_elem_of_lookup_2.
  - intros r Hr Hok. destruct ok.
    + destruct (Hyes eq_refl) as [Hs Hlr]. split; [done|]. exists (net_done net). split; [done|].
      apply elem_of_app in Hr as [Hr|Hr%list_elem_of_singleton]; [|by subst].
      specialize (Hlate r Hr Hok). unfold MIN_JWKS_REFRESH, seconds, nanos_per_sec in *. lia.
    + destruct (Hno eq_refl) as [-> ->].
      apply elem_of_app in Hr as [Hr|Hr%list_elem_of_singleton]; [by apply Hlast|by subst].
Qed.

Lemma jwk_for_kid_requests net kid c r c' :
  (net_start net <= net_done net)%Z → requests_ok c →
  jwk_for_kid net kid c = (r, c') → requests_ok c'.
Proof.
  intros Ht Hinv. unfold jwk_for_kid, mbind, M_bind, gets. simpl.
  destruct (cache_find kid c); [by intros [= _ <-]|].
  destruct (discovery net c) as [d c1] eqn:Hd. apply discovery_keeps in Hd as (H1 & H2 & H3).
  assert (requests_ok c1) as Hinv1 by (by eapply requests_ok_same).
  destruct d as [doc|]; [|by intros [= _ <-]].
  destruct (cache_find kid c1); [by intros [= _ <-]|].
  destruct (refresh_limited net c1) eqn:Hl; [by intros [= _ <-]|].
  unfold refresh_jwks. destruct (fetch_jwks net _) as [set|e]; intros [= _ <-];
    (eapply requests_ok_snoc; [exact Hinv1|exact Hl|reflexivity|by simpl; eauto|by simpl|done]).
Qed.

(** ** The cache over time *)
Section over_time.
Context `{JsonWebToken}.

(** One call of the provider that touches the cache. *)
Inductive cache_step : OidcCache → OidcCache → Prop :=
| step_verify config net now token c r c' :
    (net_start net <= net_done net)%Z →
    verified_claims config net now token c = (r, c') → cache_step c c'
| step_start config net post c r c' :
    keycloak_start_device_authorization config net post c = (r, c') → cache_step c c'
| step_poll config net post code c r c' :
    keycloak_poll_device_authorization config net post code c = (r, c') → cache_step c c'.

Lemma verified_claims_requests config net now token c r c' :
  (net_start net <= net_done net)%Z → requests_ok c →
  verified_claims config net now token c = (r, c') → requests_ok c'.
Proof.
  intros Ht Hinv. unfold verified_claims. unfold mbind at 1, M_bind at 1.
  destruct (discovery net c) as [d c1] eqn:Hd. apply discovery_keeps in Hd as (H1 & H2 & H3).
  assert (requests_ok c1) as Hinv1 by (by eapply requests_ok_same).
  destruct d as [doc|]; [|by intros [= _ <-]].
  unfold mbind, M_bind, lift. destruct (map_err _ (decode_header token)) as [h|];
    [|by intros [= _ <-]].
  destruct (ok_or _ (jh_kid h)) as [kid|]; [|by intros [= _ <-]].
  destruct (jwk_for_kid net kid c1) as [j c2] eqn:Hj. apply jwk_for_kid_requests in Hj; try done.
  destruct j as [jwk|]; [|by intros [= _ <-]].
  by destruct (verify_access_token _ _ _ _ _); intros [= _ <-].
Qed.

Lemma endpoint_requests config net c r c' :
  device_endpoint config net c = (r, c') ∨ token_endpoint config net c = (r, c') →
  requests_ok c → requests_ok c'.
Proof.
  unfold device_endpoint, token_endpoint. destruct (discovery net c) as [d c1] eqn:Hd.
  apply discovery_keeps in Hd as (H1 & H2 & H3). intros Hr Hinv.
  assert (c' = c1) as -> by (destruct d, Hr; congruence). by eapply requests_ok_same.
Qed.

Lemma cache_step_requests c c' : cache_step c c' → requests_ok c → requests_ok c'.
Proof.
  destruct 1 as [config net now token c r c' Ht Hv|config net post c r c' Hs
    |config net post code c r c' Hp]; intros Hinv.
  - by eapply verified_claims_requests.
  - revert Hs. unfold keycloak_start_device_authorization, mbind, M_bind, lift.
    destruct (device_endpoint config net c) as [e c1] eqn:He.
    destruct e; intros [= _ <-]; by eapply endpoint_requests; [left|].
  - revert Hp. unfold keycloak_poll_device_authorization, mbind, M_bind, lift.
    destruct (token_endpoint config net c) as [e c1] eqn:He.
    destruct e; intros [= _ <-]; by eapply endpoint_requests; [right|].
Qed.
End over_time.

(** ** Theorems *)
Definition asymmetric (a : Algorithm) : bool :=
  match a with HS256 | HS384 | HS512 => false | _ => true end.

Lemma algorithm_for_jwk_asymmetric jwk a : algorithm_for_jwk jwk = Ok a → asymmetric a = true.
Proof. unfold algorithm_for_jwk, key_algorithm_to_algorithm. intros. by cases. Qed.

Lemma jwk_for_kid_found net kid c jwk c' :
  jwk_for_kid net kid c = (Ok jwk, c') → cache_find kid c' = Some jwk.
Proof.
  unfold jwk_for_kid, mbind, M_bind, gets. simpl.
  destruct (cache_find kid c) eqn:Hk; [by intros [= <- <-]|].
  destruct (discovery net c) as [[doc|] c1]; [|done].
  destruct (cache_find kid c1) eqn:Hk1; [by intros [= <- <-]|].
  destruct (refresh_limited net c1); [done|]. unfold refresh_jwks.
  destruct (fetch_jwks net _) as [set|]; [|done].
  match goal with |- context [cache_find kid ?x] => destruct (cache_find kid x) eqn:Hk2 end;
    [by intros [= <- <-]|done].
Qed.


(** Unknown keys cannot be turned into a flood of requests while the realm answers.
    Whatever calls are made, in whatever order and with whatever tokens, once a JWKS
    request has been answered the next one starts at least thirty seconds later. *)
Theorem jwks_refresh_rate_limited `{JsonWebToken} c i j r s :
  rtc cache_step OidcCache_new c →
  oc_requests c !! i = Some r → oc_requests c !! j = Some s → i < j → rf_ok r = true →
  (rf_done r + seconds 30 <= rf_start s)%Z.
Proof.
  intros Hrun. enough (requests_ok c) as [Hgap _] by (intros; by eapply Hgap).
  assert (requests_ok OidcCache_new) as Hnew by (split; [by intros [] ?|set_solver]).
  revert Hnew. induction Hrun as [c|c1 c2 c3 Hstep _ IH]; [done|]. intros Hinv.
  by apply IH, (cache_step_requests c1).
Qed.

(** Dropping repeated roles changes no decision.  The collected roles are distinct up
    to case, come from the token, and overlap an allowlist exactly when the non-empty
    roles of the token do, client roles counted with and without their prefix. *)
Theorem collected_roles_decide claims allowlist :
  NoDup (to_ascii_lowercase <$> collect_roles claims) ∧
  (∀ r, r ∈ collect_roles claims → r ∈ pushed_roles claims ∧ r ≠ "") ∧
  any_ci allowlist (collect_roles claims) =
  any_ci allowlist (List.filter (λ r, negb (str_is_empty r)) (pushed_roles claims)).
Proof.
  destruct (push_all_spec (pushed_roles claims) []) as (Hnd & Hin & _ & Hcov); [constructor|].
  fold (collect_roles claims) in *.
  assert (∀ r, r ∈ List.filter (λ r, negb (str_is_empty r)) (pushed_roles claims) ↔
    r ∈ pushed_roles claims ∧ r ≠ "") as Hf.
  { intros r. rewrite !list_elem_of_In, filter_In. unfold str_is_empty.
    by rewrite negb_true_iff, bool_decide_eq_false. }
  split_and!; [done|set_solver|]. apply eq_bool_prop_intro. rewrite !Is_true_true. split.
  - apply any_ci_cover. intros f Hf'. exists f. split; [|done]. apply Hf. set_solver.
  - apply any_ci_cover. intros f [? ?]%Hf. by apply Hcov.
Qed.

(** The attributes taken from a token are bounded: at most 64 keys of 64 values. *)
Theorem attributes_bounded claims :
  (length (collect_attributes claims) <= 64)%nat ∧
  Forall (λ kv, (length kv.2 <= 64)%nat) (collect_attributes claims).
Proof.
  unfold collect_attributes.
  enough (∀ extra out, (length out <= 64)%nat → Forall (λ kv, (length kv.2 <= 64)%nat) out →
    (length (collect_from extra out) <= 64)%nat ∧
    Forall (λ kv, (length kv.2 <= 64)%nat) (collect_from extra out)) as He
    by (apply He; [simpl; lia|constructor]).
  induction extra as [|[k v] extra IH]; intros out Hlen Hall; cbn [collect_from]; [done|].
  destruct (Nat.leb_spec MAX_ATTRS (length out)) as [|Hlt]; [done|].
  destruct (attribute_values v) as [values|] eqn:Hv; [|by apply IH].
  apply IH; [rewrite length_app; simpl; unfold MAX_ATTRS in Hlt; lia|].
  apply Forall_app. split; [done|]. constructor; [|constructor]. simpl.
  unfold attribute_values in Hv. destruct v; simplify_eq/=; [lia|].
  case_bool_decide; simplify_eq. rewrite length_take. unfold MAX_VALUES. lia.
Qed.

(** ** Witnesses *)

(** Tokens of one realm: the text names the key that signed it. *)
#[local] Instance toy_jwt : JsonWebToken := {|
  decode_header t :=
    match strip_prefix "rs." t with
    | Some _ => Ok (MkJwtHeader RS256 (Some "k1"))
    | None => Ok (MkJwtHeader HS256 (Some "k2"))
    end;
  decoding_key := string;
  DecodingKey_from_jwk jwk := Ok (jwk_material jwk);
  jwt_decode t k v now :=
    if bool_decide (strip_prefix "rs." t = Some k) && bool_decide (RS256 ∈ vl_algorithms v) &&
       (now - vl_leeway v <=? 1000)%Z
    then Ok (MkKeycloakClaims "u-1" (Some "vasu") None None (Some ["admin"]) None [] [])
    else Err (InvalidSignature, "");
  signature_valid t k a := bool_decide (strip_prefix "rs." t = Some k);
  jwt_iss _ := None;
  jwt_exp _ := Some 1000%Z;
  jwt_nbf _ := None;
|}.

#[local] Instance toy_jwt_laws : JsonWebTokenLaws.
Proof.
  split; intros t k v now c; cbn [jwt_decode decode_header jwt_exp jwt_nbf jwt_iss
    signature_valid toy_jwt].
  - destruct (_ && _) eqn:Hb; [|done]. intros _. bool_prop. eexists.
    match goal with Hs : strip_prefix _ _ = _ |- _ => rewrite Hs end.
    split_and!; [done|done|by apply bool_decide_eq_true].
  - done.
  - destruct (_ && _) eqn:Hb; [|done]. intros _ _. bool_prop. exists 1000%Z. split; [done|lia].
  - done.
Qed.

Definition demo_realm : Network := {|
  net_discovery := HttpAnswer 200 (Ok (MkOidcDiscovery "https://kc/realms/eng" None None "jwks"));
  net_jwks _ := HttpAnswer 200 (Ok [MkJwk (Some "k1") None RSA "pub"]);
  net_start := seconds 5;
  net_done := seconds 6;
|}.
Definition demo_config : KeycloakProviderConfig :=
  MkKeycloakConfig "https://kc/realms/eng/" "mayfly" None "openid" None 60.


(** A known key, then an unknown one after the limit. *)
Definition later_realm : Network :=
  MkNetwork (net_discovery demo_realm) (net_jwks demo_realm) (seconds 36) (seconds 37).
Definition fresh_cache : OidcCache :=
  (verified_claims demo_config demo_realm 0 "rs.pub" OidcCache_new).2.
Definition refreshed_cache : OidcCache :=
  (verified_claims demo_config later_realm 0 "other" fresh_cache).2.

Lemma jwks_refresh_rate_limited_witness :
  oc_requests refreshed_cache = [MkRefresh (seconds 5) (seconds 6) true;
                                 MkRefresh (seconds 36) (seconds 37) true] ∧
  (seconds 6 + seconds 30 <= seconds 36)%Z.
Proof.
  split; [vm_compute; reflexivity|].
  refine (jwks_refresh_rate_limited refreshed_cache 0 1 (MkRefresh (seconds 5) (seconds 6) true)
    (MkRefresh (seconds 36) (seconds 37) true) _ _ _ _ _);
    [|vm_compute; reflexivity|vm_compute; reflexivity|lia|reflexivity].
  eapply rtc_l; [eapply (step_verify demo_config demo_realm 0 "rs.pub");
    [|apply surjective_pairing]; vm_compute; discriminate|].
  eapply rtc_l; [eapply (step_verify demo_config later_realm 0 "other");
    [|apply surjective_pairing]; vm_compute; discriminate|].
  apply rtc_refl.
Defined.

(** Requests that fail are not limited: two tokens one nanosecond apart make two requests. *)
Definition failing_realm (t : Z) : Network :=
  MkNetwork (net_discovery demo_realm) (λ _, HttpFailed "timeout") t t.

Lemma failed_requests_not_limited :
  let c1 := (verified_claims demo_config (failing_realm (seconds 40)) 0 "other" fresh_cache).2 in
  let c2 := (verified_claims demo_config (failing_realm (seconds 40 + 1)) 0 "other" c1).2 in
  oc_requests c2 = oc_requests fresh_cache ++
    [MkRefresh (seconds 40) (seconds 40) false; MkRefresh (seconds 40 + 1) (seconds 40 + 1) false].
Proof. vm_compute. reflexivity. Qed.
