(* ===== verification/Certificates.v ===== *)
(** * Certificate issuance
      ([src/src/ca/service.rs], [models.rs], [errors.rs],
      [src/src/routes/certificates.rs])

    A CA key signs user certificates with the [ssh-key] builder; the issuance route
    authenticates, authorizes, signs and audits.  The CA manager between them
    is a parameter: its sources are not in the repository. *)
From S2P Require Import Prelude External Errors Database AuditChain AuditRepo.
From S2P Require Import AgentAuth ClientContext Authz Providers Toy.

(** ** Requests and responses ([ca/models.rs]) *)
Definition MIN_TTL_SECONDS : Z := 60.
Definition MAX_TTL_SECONDS : Z := 3600.
Definition DEFAULT_TTL_SECONDS : Z := 300.

Record CertificateRequest : Type := MkCertificateRequest {
  cr_principal : string;
  cr_hostname : string;
  cr_public_key : string;
  cr_ttl_seconds : Z;
}.

Record CertificateValidation : Type := MkCertificateValidation {
  va_valid : bool;
  va_reason : option string;
  va_issued_by_this_ca : bool;
  va_principals : list string;
  va_serial : Z;
  va_valid_after : string;
  va_valid_before : string;
}.

Record CertificateResponse : Type := MkCertificateResponse {
  cs_certificate : string;
  cs_serial : Z;
  cs_valid_after : string;
  cs_valid_before : string;
  cs_ttl_seconds : Z;
  cs_principal : string;
  cs_fingerprint : string;
  cs_ca_key_id : string;
  cs_ca_fingerprint : string;
}.

(** ** Errors ([ca/errors.rs]) *)
Inductive CaError : Type :=
| CaKeyFile (key_id path source : string)
| CaStoragePassphraseMissing (env : string)
| CaParse (key_id message : string)
| CaDecrypt (key_id : string)
| CaNotEd25519 (key_id algorithm : string)
| CaNoKeysConfigured
| CaTooManyKeys (count max : Z)
| CaNoEnabledKeys
| CaCannotDisableLast (key_id : string)
| CaCannotRetireEnabled (key_id : string)
| CaCannotDeleteActive (key_id : string)
| CaDuplicateKeyId (key_id : string)
| CaDuplicatePublicKey (first second : string)
| CaDuplicateFingerprint (first second : string)
| CaNotFound (id : string)
| CaKeyIdInUse (key_id : string)
| CaPublicKeyInUse (key_id : string)
| CaFingerprintInUse (key_id : string)
| CaPassphraseMismatch
| CaInvalidRequest (message : string)
| CaInvalidInput (message : string)
| CaSign (message : string)
| CaEncode (message : string)
| CaStorage (message : string).

(** The [#[error(..)]] texts. *)
Definition CaError_display (err : CaError) : string :=
  match err with
  | CaKeyFile k p s =>
      "ca key '" +:+ k +:+ "' file '" +:+ p +:+ "' could not be accessed: " +:+ s
  | CaStoragePassphraseMissing env =>
      "ca storage passphrase environment variable '" +:+ env +:+ "' is not set or empty"
  | CaParse k m =>
      "ca key '" +:+ k +:+ "' could not be parsed as an OpenSSH private key: " +:+ m
  | CaDecrypt k => "ca key '" +:+ k +:+ "' could not be decrypted (wrong passphrase?)"
  | CaNotEd25519 k a => "ca key '" +:+ k +:+ "' must be Ed25519, found " +:+ a
  | CaNoKeysConfigured => "no ca keys are configured (at least one is required)"
  | CaTooManyKeys n m =>
      "too many ca keys: " +:+ display_int n +:+ " (maximum is " +:+ display_int m +:+ ")"
  | CaNoEnabledKeys => "no enabled ca keys (at least one key must be enabled)"
  | CaCannotDisableLast k => "cannot disable ca '" +:+ k +:+ "': it is the last enabled CA"
  | CaCannotRetireEnabled k =>
      "cannot retire ca '" +:+ k +:+ "': it is still enabled (disable it first)"
  | CaCannotDeleteActive k =>
      "cannot delete ca '" +:+ k +:+ "': it is still active (disable it first)"
  | CaDuplicateKeyId k => "duplicate ca key id '" +:+ k +:+ "'"
  | CaDuplicatePublicKey a b =>
      "duplicate ca public key shared by key ids '" +:+ a +:+ "' and '" +:+ b +:+ "'"
  | CaDuplicateFingerprint a b =>
      "duplicate ca key fingerprint shared by key ids '" +:+ a +:+ "' and '" +:+ b +:+ "'"
  | CaNotFound i => "ca '" +:+ i +:+ "' was not found"
  | CaKeyIdInUse k => "ca key id '" +:+ k +:+ "' is already in use"
  | CaPublicKeyInUse k => "ca public key is already managed (matches key id '" +:+ k +:+ "')"
  | CaFingerprintInUse k => "ca fingerprint is already managed (matches key id '" +:+ k +:+ "')"
  | CaPassphraseMismatch => "passphrase does not match the configured CA storage passphrase"
  | CaInvalidRequest m => "invalid certificate request: " +:+ m
  | CaInvalidInput m => m
  | CaSign m => "failed to sign certificate: " +:+ m
  | CaEncode m => "failed to encode openssh data: " +:+ m
  | CaStorage m => "ca storage error: " +:+ m
  end.

Definition ApiError_of_ca (err : CaError) : ApiError :=
  match err with
  | CaInvalidRequest m | CaInvalidInput m => BadRequest m
  | CaPassphraseMismatch => BadRequest "passphrase does not match the CA storage passphrase"
  | CaNotFound i => NotFound ("ca '" +:+ i +:+ "' was not found")
  | CaKeyIdInUse _ | CaPublicKeyInUse _ | CaFingerprintInUse _ | CaDuplicateKeyId _
  | CaDuplicatePublicKey _ _ | CaDuplicateFingerprint _ _ | CaCannotDisableLast _
  | CaCannotRetireEnabled _ | CaCannotDeleteActive _ => Conflict (CaError_display err)
  | other => Internal (CauseMessage (CaError_display other))
  end.

(** ** One signing key ([ca/service.rs]) *)
Definition STANDARD_EXTENSIONS : list string :=
  ["permit-pty"; "permit-port-forwarding"; "permit-agent-forwarding"].

Definition validate_ttl (requested : Z) : result Z CaError :=
  let ttl := if (requested =? 0)%Z then DEFAULT_TTL_SECONDS else requested in
  if negb (in_range MIN_TTL_SECONDS MAX_TTL_SECONDS ttl) then
    Err (CaInvalidRequest ("ttl_seconds must be between " +:+ display_int MIN_TTL_SECONDS +:+
           " and " +:+ display_int MAX_TTL_SECONDS +:+ ", got " +:+ display_int requested))
  else Ok ttl.

(** [DateTime::<Utc>::from_timestamp(secs, 0)]: years -262143 to 262142. *)
Definition from_timestamp (secs : Z) : option Z :=
  if in_range (-8334601228800) 8210266876799 secs then Some (seconds secs) else None.

(** [seconds as i64] wraps. *)
Definition format_timestamp `{Chrono} (secs : Z) : string :=
  default "" (to_rfc3339_secs <$> from_timestamp (wrap_i64 secs)).

Section ca_key.
Context `{SshCert, Chrono}.

Record CaKey : Type := MkCaKey {
  cak_private_key : privkey;
  cak_public_key : string;
  cak_fingerprint : string;
}.

(** [impl Debug for CaKey]: no key material. *)
Definition CaKey_debug `{DebugStr} (k : CaKey) : string :=
  debug_struct "CaKey" [("fingerprint", debug_str (cak_fingerprint k));
                        ("private_key", debug_str "<redacted>")].
Definition public_openssh (k : CaKey) : string := cak_public_key k.
Definition CaKey_fingerprint (k : CaKey) : string := cak_fingerprint k.

Definition from_private_key (private_key : privkey) (key_id : string) : result CaKey CaError :=
  if negb (private_is_ed25519 private_key) then
    Err (CaNotEd25519 key_id (private_algorithm private_key))
  else
    let public := private_public private_key in
    let? public_key := ok_or (CaEncode (to_openssh_error public)) (to_openssh public) in
    Ok (MkCaKey private_key public_key (fingerprint_sha256 public)).

Definition from_encrypted_openssh (encrypted passphrase key_id : string) : result CaKey CaError :=
  let? key := map_err (CaParse key_id) (private_from_openssh encrypted) in
  let? decrypted := (if is_encrypted key then ok_or (CaDecrypt key_id) (decrypt passphrase key)
                     else Ok key) in
  from_private_key decrypted key_id.

Definition to_encrypted_openssh (rng passphrase key_id : string) (k : CaKey)
  : result string CaError :=
  let? encrypted :=
    map_err (λ err, CaSign ("failed to encrypt ca key '" +:+ key_id +:+ "': " +:+ err))
      (encrypt rng passphrase (cak_private_key k)) in
  map_err CaEncode (private_to_openssh encrypted).

Definition ssh_fingerprint (k : CaKey) : string :=
  fingerprint_sha256 (private_public (cak_private_key k)).

Definition signed (k : CaKey) (certificate : ssh_certificate) : bool :=
  cert_validate_at (cv_valid_after (cert_view certificate)) [ssh_fingerprint k] certificate.

(** The [for] loop over the extensions. *)
Fixpoint add_extensions (names : list string) (b : builder) : result builder string :=
  match names with
  | [] => Ok b
  | extension :: names =>
      let? b := builder_extension extension "" b in
      add_extensions names b
  end.

(** From [Builder::new_with_random_nonce] to [builder.sign]. *)
Definition build_certificate (k : CaKey) (rng : string) (subject : pubkey)
    (valid_after valid_before serial : Z) (key_id principal hostname : string)
  : result ssh_certificate string :=
  let? b := new_with_random_nonce rng subject valid_after valid_before in
  let? b := builder_serial serial b in
  let? b := builder_key_id key_id b in
  let? b := builder_cert_type CertUser b in
  let? b := builder_valid_principal principal b in
  let? b := builder_comment (principal +:+ "@" +:+ hostname) b in
  let? b := add_extensions STANDARD_EXTENSIONS b in
  builder_sign (cak_private_key k) b.

Definition sign_certificate (k : CaKey) (rng : string) (request : CertificateRequest) (now : Z)
    (key_id : string) : result CertificateResponse CaError :=
  let? ttl := validate_ttl (cr_ttl_seconds request) in
  let principal := trim (cr_principal request) in
  guard? negb (str_is_empty principal) else CaInvalidRequest "principal must not be empty" in
  let hostname := trim (cr_hostname request) in
  guard? negb (str_is_empty hostname) else CaInvalidRequest "hostname must not be empty" in
  let? subject := ok_or (CaInvalidRequest ("invalid public_key: " +:+
                           from_openssh_error (cr_public_key request)))
                    (from_openssh (cr_public_key request)) in
  let fingerprint := fingerprint_sha256 subject in
  guard? (0 <=? now)%Z else CaSign "clock is before the unix epoch" in
  let valid_after := now in
  let serial := valid_after in
  let valid_before := (valid_after + ttl)%Z in
  let? certificate := map_err CaSign
    (build_certificate k rng subject valid_after valid_before serial key_id principal hostname) in
  let? openssh := map_err CaEncode (cert_to_openssh certificate) in
  Ok {| cs_certificate := openssh;
        cs_serial := serial;
        cs_valid_after := format_timestamp valid_after;
        cs_valid_before := format_timestamp valid_before;
        cs_ttl_seconds := ttl;
        cs_principal := principal;
        cs_fingerprint := fingerprint;
        cs_ca_key_id := key_id;
        cs_ca_fingerprint := cak_fingerprint k |}.
End ca_key.

(** ** The routes ([routes/certificates.rs]) *)

(** What the routes call of the CA manager. *)
Record CertificateAuthority : Type := MkCertificateAuthority {
  ca_sign_certificate : CertificateRequest → M World CaError CertificateResponse;
  ca_verify_certificate : string → Z → result CertificateValidation CaError;
}.

(** What its documentation promises: certificates are signed by one of its keys, at
    some reading of the clock, and its bookkeeping stays in tables of its own. *)
Class CertificateAuthorityLaws `{SshCert, Chrono} (ca : CertificateAuthority) : Prop := {
  ca_signs : ∀ request w resp w', ca_sign_certificate ca request w = (Ok resp, w') →
    ∃ k rng now key_id, sign_certificate k rng request now key_id = Ok resp;
  ca_own_tables : ∀ request w r w', ca_sign_certificate ca request w = (r, w') → db w' = db w;
}.

Record IssueCertificateRequest : Type := MkIssueCertificateRequest {
  ir_public_key : string;
  ir_hostname : string;
  ir_ttl_seconds : Z;
  ir_provider : option string;
}.

Definition require_ca (ca : option CertificateAuthority) : result CertificateAuthority ApiError :=
  ok_or (Internal (CauseMessage "certificate authority is not configured")) ca.

Definition denied_event (identity : Identity) (hostname reason : string) : NewAuditEntry :=
  with_metadata (json_object [("reason", VString reason);
                              ("provider", VString (id_provider identity));
                              ("subject", VString (id_subject identity))])
    (with_subject hostname (NewAuditEntry_new "certificate.denied" (id_username identity))).

Section issue.
Context `{Sha256, Chrono, SerdeJson, DebugStrings}.

Definition issued_event (identity : Identity) (hostname : string) (response : CertificateResponse)
    (client : RequestAuditContext) : NewAuditEntry :=
  with_metadata (json_object [("serial", VNumber (cs_serial response));
                              ("fingerprint", VString (cs_fingerprint response));
                              ("principal", VString (cs_principal response));
                              ("ttl_seconds", VNumber (cs_ttl_seconds response));
                              ("valid_before", VString (cs_valid_before response));
                              ("ca_key_id", VString (cs_ca_key_id response));
                              ("ca_fingerprint", VString (cs_ca_fingerprint response));
                              ("provider", VString (id_provider identity));
                              ("subject", VString (id_subject identity));
                              ("realm", json_opt_string (id_realm identity));
                              ("groups", VArray (VString <$> id_groups identity));
                              ("roles", VArray (VString <$> id_roles identity));
                              ("client", to_value client)])
    (with_subject hostname (NewAuditEntry_new "certificate.issued" (id_username identity))).

(** The principal of the request is the authenticated username. *)
Definition certificate_request (identity : Identity) (request : IssueCertificateRequest)
  : CertificateRequest :=
  MkCertificateRequest (id_username identity) (ir_hostname request) (ir_public_key request)
    (ir_ttl_seconds request).

Definition issue (ca : option CertificateAuthority) (providers : ProviderRegistry)
    (access : AccessConfig) (headers : list (string * string)) (request_id : string)
    (now audit_now : Z) (request : IssueCertificateRequest)
  : M World ApiError CertificateResponse :=
  token ← lift (BearerToken_from_request headers);
  ca ← lift (require_ca ca);
  identity ← lift (resolve_identity providers access (ir_provider request) token);
  match authorize access identity with
  | Deny reason =>
      _ ← with_err ApiError_of_audit (append_audit_event audit_now
            (denied_event identity (ir_hostname request) reason));
      throw (ApiError_of_authz (Denied reason))
  | Allow =>
      response ← with_err ApiError_of_ca
                   (ca_sign_certificate ca (certificate_request identity request));
      let client := with_provider (id_provider identity)
                      (from_headers headers (Some request_id) now) in
      _ ← with_err ApiError_of_audit (append_audit_event audit_now
            (issued_event identity (ir_hostname request) response client));
      ret response
  end.
End issue.

Definition validate (ca : option CertificateAuthority) (now : Z) (certificate : string)
  : result CertificateValidation ApiError :=
  let? ca := require_ca ca in
  map_err ApiError_of_ca (ca_verify_certificate ca certificate now).

(** ** Lemmas *)
Section lemmas.
Context `{Sha256, Chrono, SerdeJson, DebugStrings, SshCert, !SshCertLaws}.

Lemma add_extensions_view names b b' :
  add_extensions names b = Ok b' →
  let v := builder_view b in
  builder_view b' = MkCertView _ (cv_public_key v) (cv_serial v) (cv_cert_type v) (cv_key_id v)
    (cv_valid_principals v) (cv_valid_after v) (cv_valid_before v)
    (foldl (λ m n, <[n := ""]> m) (cv_extensions v) names) (cv_comment v).
Proof.
  revert b. induction names as [|n names IH]; intros b Hb; simpl in *.
  - simplify_eq. by destruct (builder_view b').
  - destruct (builder_extension n "" b) as [b1|] eqn:Hn; [|done]. apply IH in Hb. rewrite Hb.
    by rewrite (extension_view _ _ _ _ Hn).
Qed.

(** What the certificate states. *)
Definition issued_view (subject : pubkey) (now ttl : Z) (key_id principal hostname : string)
  : CertView pubkey := {|
  cv_public_key := subject;
  cv_serial := now;
  cv_cert_type := CertUser;
  cv_key_id := key_id;
  cv_valid_principals := [principal];
  cv_valid_after := now;
  cv_valid_before := now + ttl;
  cv_extensions := {["permit-pty" := ""; "permit-port-forwarding" := "";
                     "permit-agent-forwarding" := ""]};
  cv_comment := principal +:+ "@" +:+ hostname;
|}.

Lemma build_certificate_view k rng subject now ttl key_id principal hostname c :
  build_certificate k rng subject now (now + ttl) now key_id principal hostname = Ok c →
  cert_view c = issued_view subject now ttl key_id principal hostname ∧
  ∃ b, builder_sign (cak_private_key k) b = Ok c.
Proof.
  unfold build_certificate. intros Hb.
  destruct (new_with_random_nonce _ _ _ _) as [b0|] eqn:Hb0; [|done].
  destruct (builder_serial _ b0) as [b1|] eqn:Hb1; [|done].
  destruct (builder_key_id _ b1) as [b2|] eqn:Hb2; [|done].
  destruct (builder_cert_type _ b2) as [b3|] eqn:Hb3; [|done].
  destruct (builder_valid_principal _ b3) as [b4|] eqn:Hb4; [|done].
  destruct (builder_comment _ b4) as [b5|] eqn:Hb5; [|done].
  destruct (add_extensions _ b5) as [b6|] eqn:Hb6; [|done].
  split; [|by exists b6].
  rewrite (sign_view _ _ _ Hb), (add_extensions_view _ _ _ Hb6), (comment_view _ _ _ Hb5),
    (valid_principal_view _ _ _ Hb4), (cert_type_view _ _ _ Hb3), (key_id_view _ _ _ Hb2),
    (serial_view _ _ _ Hb1), (new_view _ _ _ _ _ Hb0). simpl.
  unfold issued_view. f_equal.
Qed.

Lemma strings_wf l : forallb wf_value (VString <$> l) = true.
Proof. by induction l. Qed.

Lemma issued_event_ok identity hostname response client now :
  rfc3339_range now = true →
  event_ok now (issued_event identity hostname response client) = true.
Proof.
  intros Hn. unfold issued_event. context_event_ok.
  rewrite !strings_wf. by destruct (id_realm identity).
Qed.

Lemma denied_event_ok identity hostname reason now :
  rfc3339_range now = true → event_ok now (denied_event identity hostname reason) = true.
Proof. intros Hn. by apply event_ok_object. Qed.

Lemma validate_ttl_ok requested ttl :
  validate_ttl requested = Ok ttl ↔
  (60 <= ttl <= 3600)%Z ∧ (requested = ttl ∨ requested = 0%Z ∧ ttl = 300%Z).
Proof.
  unfold validate_ttl, in_range, MIN_TTL_SECONDS, MAX_TTL_SECONDS, DEFAULT_TTL_SECONDS.
  destruct (Z.eqb_spec requested 0) as [->|Hr].
  - simpl. split; [intros [= <-]; lia|]. intros [? [?|[_ ->]]]; [lia|done].
  - destruct (Z.leb_spec 60 requested), (Z.leb_spec requested 3600); simpl;
      (split; [intros [= <-] || intros [=]; lia|intros [? [->|]]; lia || done]).
Qed.

(** Inversion of a successful signature. *)
Lemma sign_certificate_inv k rng request now key_id resp :
  sign_certificate k rng request now key_id = Ok resp →
  ∃ subject c ttl,
    from_openssh (cr_public_key request) = Some subject ∧
    cert_to_openssh c = Ok (cs_certificate resp) ∧
    cert_view c = issued_view subject now ttl key_id (trim (cr_principal request))
                    (trim (cr_hostname request)) ∧
    trim (cr_principal request) ≠ "" ∧ trim (cr_hostname request) ≠ "" ∧
    (0 <= now)%Z ∧ (60 <= ttl <= 3600)%Z ∧
    (cr_ttl_seconds request = ttl ∨ cr_ttl_seconds request = 0%Z ∧ ttl = 300%Z) ∧
    cs_serial resp = now ∧ cs_ttl_seconds resp = ttl ∧
    cs_principal resp = trim (cr_principal request) ∧
    cs_fingerprint resp = fingerprint_sha256 subject ∧
    cs_ca_key_id resp = key_id ∧ signed k c = true.
Proof.
  unfold sign_certificate. intros Hs.
  destruct (validate_ttl _) as [ttl|] eqn:Ht; [|done]. apply validate_ttl_ok in Ht as [Ht Hreq].
  destruct (str_is_empty (trim (cr_principal request))) eqn:Hp; [done|].
  destruct (str_is_empty (trim (cr_hostname request))) eqn:Hh; [done|]. simpl in Hs.
  destruct (from_openssh _) as [subject|] eqn:Hk; [|done]. simpl in Hs.
  destruct (Z.leb_spec 0 now); [|done].
  destruct (build_certificate _ _ _ _ _ _ _ _ _) as [c|] eqn:Hb; [|done]. simpl in Hs.
  apply build_certificate_view in Hb as [Hv [b Hb]].
  destruct (cert_to_openssh c) as [text|] eqn:Htext; [|done]. simplify_eq/=.
  unfold str_is_empty in *. bool_prop.
  exists subject, c, ttl. split_and!; try done; try lia.
  unfold signed. eapply sign_validates; [done|]. rewrite Hv. simpl. lia.
Qed.

Lemma issue_log_only `{!ChronoLaws, !SerdeJsonLaws} ca providers access headers request_id now
    audit_now request :
  CertificateAuthorityLaws ca → rfc3339_range audit_now = true →
  log_only audit_now
    (issue (Some ca) providers access headers request_id now audit_now request).
Proof.
  intros Hca Hn. apply log_only_bind; [apply (frame_lift eq)|]. intros token.
  match goal with |- log_only _ (_ ≫= ?f) => change (log_only audit_now (f ca)) end.
  apply log_only_bind; [apply (frame_lift eq)|]. intros identity.
  destruct (authorize access identity) as [|reason].
  - apply log_only_bind; [apply (frame_with_err eq); intros ? ? ? Hs; symmetry; by eapply ca_own_tables|].
    intros resp. apply log_only_append; [by apply issued_event_ok|]. intros. apply (frame_ret eq).
  - apply log_only_append; [by apply denied_event_ok|]. intros. apply (frame_throw eq).
Qed.

(** A stored CA key is read back with its passphrase. *)
Lemma encrypted_key_roundtrip rng passphrase key_id key_id' key k text :
  is_encrypted key = false → from_private_key key key_id = Ok k →
  to_encrypted_openssh rng passphrase key_id k = Ok text →
  from_encrypted_openssh text passphrase key_id' = Ok k.
Proof.
  unfold from_encrypted_openssh, to_encrypted_openssh, from_private_key. intros Hk Hfrom Hto.
  destruct (private_is_ed25519 key) eqn:Hed; [|done]. simpl in *.
  destruct (to_openssh _) as [pk|] eqn:Hpk; [|done]. simplify_eq/=.
  destruct (encrypt _ _ _) as [e|] eqn:He; [|done]. simpl in *.
  destruct (private_to_openssh e) as [s|] eqn:Hs; [|done]. simplify_eq/=.
  destruct (encrypt_decrypts _ _ _ _ _ Hk He Hs) as (-> & Henc & Hdec). simpl.
  rewrite Henc, Hdec. simpl. by rewrite Hed, Hpk.
Qed.

(** ** Theorems *)

(** C17: what a CA key signs.  An issued certificate is a user certificate for exactly one
    principal, the trimmed non-empty principal of the request, on the subject key of the
    request; it starts now and lasts between one minute and one hour, the requested time
    or five minutes; the response states the same values, and the key recognizes its
    own signature. *)
Theorem signed_certificate_exact k rng request now key_id resp :
  sign_certificate k rng request now key_id = Ok resp →
  ∃ subject c ttl,
    from_openssh (cr_public_key request) = Some subject ∧
    cert_to_openssh c = Ok (cs_certificate resp) ∧
    cert_view c = issued_view subject now ttl key_id (trim (cr_principal request))
                    (trim (cr_hostname request)) ∧
    trim (cr_principal request) ≠ "" ∧ trim (cr_hostname request) ≠ "" ∧
    (0 <= now)%Z ∧ (60 <= ttl <= 3600)%Z ∧
    (cr_ttl_seconds request = ttl ∨ cr_ttl_seconds request = 0%Z ∧ ttl = 300%Z) ∧
    cs_serial resp = now ∧ cs_ttl_seconds resp = ttl ∧
    cs_principal resp = trim (cr_principal request) ∧
    cs_fingerprint resp = fingerprint_sha256 subject ∧
    cs_ca_key_id resp = key_id ∧ signed k c = true.
Proof. apply sign_certificate_inv. Qed.

(** C1: nobody gets a certificate but for himself, when allowed, and on the record.  If
    issuance answers with a certificate then the bearer's identity was resolved and is
    on an allowlist, the certificate names that username and nothing from the body as
    principal and lasts at most an hour, and the log has grown by exactly one
    [certificate.issued] entry.  An error leaves the log alone, except that a denied
    identity is recorded as [certificate.denied]. *)
Theorem issue_authorized_and_audited `{!ChronoLaws, !SerdeJsonLaws} ca providers access headers
    request_id now audit_now request w r w' :
  CertificateAuthorityLaws ca → audit_ok (db w) → rfc3339_range audit_now = true →
  issue (Some ca) providers access headers request_id now audit_now request w = (r, w') →
  match r with
  | Ok resp => ∃ token identity client c,
      BearerToken_from_request headers = Ok token ∧
      resolve_identity providers access (ir_provider request) token = Ok identity ∧
      permitted access identity ∧
      cert_to_openssh c = Ok (cs_certificate resp) ∧
      cv_valid_principals (cert_view c) = [trim (id_username identity)] ∧
      (60 <= cv_valid_before (cert_view c) - cv_valid_after (cert_view c) <= 3600)%Z ∧
      appended audit_now (issued_event identity (ir_hostname request) resp client) (db w) (db w')
  | Err e => db w' = db w ∨ ∃ identity reason,
      authorize access identity = Deny reason ∧ e = Forbidden "access denied" ∧
      appended audit_now (denied_event identity (ir_hostname request) reason) (db w) (db w')
  end.
Proof.
  intros Hca Hok Hn. unfold issue, require_ca. unfold mbind at 1, M_bind at 1, lift at 1.
  destruct (BearerToken_from_request headers) as [token|]; [|intros [= <- <-]; by left].
  unfold mbind at 1, M_bind at 1, lift at 1. simpl.
  unfold mbind at 1, M_bind at 1, lift at 1.
  destruct (resolve_identity _ _ _ _) as [identity|] eqn:Hid; [|intros [= <- <-]; by left].
  destruct (authorize access identity) as [|reason] eqn:Ha.
  - unfold mbind, M_bind, with_err at 1.
    destruct (ca_sign_certificate _ _ _) as [x w1] eqn:Hs. pose proof (ca_own_tables _ _ _ _ Hs) as Hown.
    destruct x as [resp|e]; [|intros [= <- <-]; by left].
    match goal with |- context [with_err _ ?m w1] =>
      destruct (with_err ApiError_of_audit m w1) as [x w2] eqn:Happ end.
    apply append_outcome in Happ; [|by rewrite Hown|by apply issued_event_ok].
    rewrite Hown in Happ.
    destruct x as [e|e]; intros [= <- <-]; [|by left; rewrite Happ].
    destruct (ca_signs _ _ _ _ Hs) as (k & rng & t & key_id & Hk).
    apply sign_certificate_inv in Hk as (subject & c & ttl & ? & ? & Hv & ? & ? & ? & ? & _).
    eexists token, identity, _, c. rewrite Hv. simpl. split_and!; try done; try lia.
    apply authorize_sound. by rewrite Ha.
  - unfold mbind, M_bind.
    match goal with |- context [with_err _ ?m w] =>
      destruct (with_err ApiError_of_audit m w) as [x w1] eqn:Happ end.
    apply append_outcome in Happ; [|done|by apply denied_event_ok].
    destruct x as [e|e]; intros [= <- <-]; [|by left]. right. by exists identity, reason.
Qed.

(** With a database that answers, issuance decides.  A resolved identity that is not
    allowed is recorded and refused; an allowed one gets the certificate the authority
    signed, with its entry in the log, or the authority's error and no entry. *)
Theorem issue_outcome `{!ChronoLaws, !SerdeJsonLaws} ca providers access headers request_id
    now audit_now request token identity w :
  CertificateAuthorityLaws ca → audit_ok (db w) → rfc3339_range audit_now = true →
  no_faults w → BearerToken_from_request headers = Ok token →
  resolve_identity providers access (ir_provider request) token = Ok identity →
  ∃ w', let run := issue (Some ca) providers access headers request_id now audit_now request w in
  match authorize access identity with
  | Deny reason => run = (Err (Forbidden "access denied"), w') ∧
      appended audit_now (denied_event identity (ir_hostname request) reason) (db w) (db w')
  | Allow =>
      let '(signed, w1) := ca_sign_certificate ca (certificate_request identity request) w in
      no_faults w1 →
      match signed with
      | Err e => run = (Err (ApiError_of_ca e), w') ∧ db w' = db w
      | Ok resp => run = (Ok resp, w') ∧ ∃ client,
          appended audit_now (issued_event identity (ir_hostname request) resp client)
            (db w) (db w')
      end
  end.
Proof.
  intros Hca Hok Hn Hw Ht Hid. unfold issue, require_ca, mbind, M_bind, lift. rewrite Ht. simpl.
  rewrite Hid. destruct (authorize access identity) as [|reason].
  - destruct (ca_sign_certificate _ _ w) as [[resp|e] w1] eqn:Hs;
      [erewrite (with_err_ok ApiError_of_ca) by done
      |exists w1; intros _; erewrite (with_err_err ApiError_of_ca) by done; split;
         [done|by eapply ca_own_tables]].
    pose proof (ca_own_tables _ _ _ _ Hs) as Hown.
    set (client := with_provider _ _).
    destruct (decide (faults w1 = [])) as [Hw1|Hw1]; [|by exists w].
    destruct (append_runs ApiError_of_audit audit_now
      (issued_event identity (ir_hostname request) resp client) w1) as (e & w' & Happ & Ha);
      [by rewrite Hown|by apply issued_event_ok|done|].
    exists w'. intros _. rewrite Happ. rewrite Hown in Ha. split; [done|by exists client].
  - destruct (append_runs ApiError_of_audit audit_now
      (denied_event identity (ir_hostname request) reason) w) as (e & w' & Happ & Ha);
      [done|by apply denied_event_ok|done|].
    exists w'. by rewrite Happ.
Qed.
End lemmas.

(** ** Witnesses *)
#[local] Existing Instances toy_sha256 toy_chrono toy_serde_json toy_debug toy_ssh_key
  toy_ssh_cert.
#[local] Existing Instances toy_chrono_laws toy_serde_json_laws toy_ssh_cert_laws.

Definition demo_cakey : CaKey := MkCaKey ("seed", None) "ssh-ed25519 seed" "SHA256:seed".

Definition demo_signing (now : Z) : CertificateAuthority := {|
  ca_sign_certificate request w := (sign_certificate demo_cakey "rng" request now "ca-01", w);
  ca_verify_certificate _ _ := Err (CaInvalidRequest "not asked");
|}.

#[local] Instance demo_signing_laws now : CertificateAuthorityLaws (demo_signing now).
Proof.
  split; simpl.
  - intros request w resp w' [= Hs _]. eauto.
  - by intros request w r w' [= _ <-].
Qed.

Definition demo_cert_request : CertificateRequest :=
  MkCertificateRequest " octo " "web-01" "ssh-ed25519 USER" 0.

Lemma signed_certificate_exact_witness :
  match sign_certificate demo_cakey "rng" demo_cert_request 1000 "ca-01" with
  | Ok resp => cs_principal resp = "octo" ∧
      ∃ c : ssh_certificate, cv_valid_before (cert_view c) = 1300%Z ∧ signed demo_cakey c = true
  | Err _ => False
  end.
Proof.
  assert (match sign_certificate demo_cakey "rng" demo_cert_request 1000 "ca-01" with
          | Ok resp => cs_principal resp = "octo" | Err _ => False end) as Hp
    by (vm_compute; reflexivity).
  destruct (sign_certificate _ _ _ _ _) as [resp|] eqn:Hr; [|destruct Hp].
  split; [exact Hp|].
  destruct (signed_certificate_exact demo_cakey "rng" demo_cert_request 1000 "ca-01" resp Hr)
    as (subject & c & ttl & _ & _ & Hv & _ & _ & _ & Ht & Hreq & _ & _ & _ & _ & _ & Hs).
  exists c. split; [|exact Hs]. rewrite Hv. simpl in Hreq |- *. lia.
Defined.

Definition demo_issue_headers : list (string * string) := [("authorization", "Bearer gho_1")].
Definition demo_issue_request : IssueCertificateRequest :=
  MkIssueCertificateRequest "ssh-ed25519 USER" "web-01" 600 (Some "github").

Definition demo_issue : result CertificateResponse ApiError * World :=
  issue (Some (demo_signing 1000)) demo_providers (MkAccessConfig ["Octo"] [] [] [] [] [])
    demo_issue_headers "req-1" (seconds 1000) (seconds 1000) demo_issue_request empty_world.

Lemma issue_authorized_and_audited_witness :
  match demo_issue.1 with Ok resp => cs_ttl_seconds resp = 600%Z | Err _ => False end ∧
  audit_ok (db demo_issue.2) ∧ length (audit_log (db demo_issue.2)) = 1.
Proof.
  split; [vm_compute; reflexivity|]. split; [|vm_compute; reflexivity].
  destruct (is_ok_run demo_issue) as [resp Hr]; [vm_compute; reflexivity|].
  unfold demo_issue at 1 in Hr.
  destruct (issue_authorized_and_audited (demo_signing 1000) demo_providers
    (MkAccessConfig ["Octo"] [] [] [] [] []) demo_issue_headers "req-1" (seconds 1000)
    (seconds 1000) demo_issue_request empty_world (Ok resp) demo_issue.2 (demo_signing_laws 1000)
    (empty_audit_ok []) eq_refl Hr)
    as (? & ? & ? & ? & _ & _ & _ & _ & _ & _ & (? & ? & Hrest)).
  apply Hrest.
Defined.

Lemma issue_outcome_witness :
  ∃ w', issue (Some (demo_signing 1000)) demo_providers (MkAccessConfig [] [] [] [] [] [])
          demo_issue_headers "req-1" (seconds 1000) (seconds 1000) demo_issue_request empty_world
        = (Err (Forbidden "access denied"), w') ∧ audit_ok (db w').
Proof.
  destruct (issue_outcome (demo_signing 1000) demo_providers (MkAccessConfig [] [] [] [] [] [])
    demo_issue_headers "req-1" (seconds 1000) (seconds 1000) demo_issue_request "gho_1"
    (MkIdentity "github" "7" "octo" None None None [] [] [] [] []) empty_world
    (demo_signing_laws 1000) (empty_audit_ok []) eq_refl eq_refl) as [w' Hw'];
    [vm_compute; reflexivity|vm_compute; reflexivity|].
  destruct Hw' as [Hrun Happ]. exists w'. split; [exact Hrun|].
  destruct Happ as (? & ? & Hrest). apply Hrest.
Defined.

