(* ===== verification/JsonText.v ===== *)
(** * Hand-written JSON strings
      ([json_escape_into] of [src/src/cabundle/models.rs] and of
      [src/src/bundle/canonical.rs])

    Both escape functions work character by character; a multi-byte character is
    copied, so they are functions on bytes.  Each is a prefix code that never
    produces a bare quote: an escaped string followed by a quote can be read back
    in one way only, whatever comes after it. *)
From S2P Require Import Prelude.

Definition bslash : ascii := byte_of 92.

(** [format!("\\u{:04x}", c as u32)] for a byte below [0x20]. *)
Definition unicode_escape (c : ascii) : string :=
  String bslash (String "u" (String "0" (String "0"
    (String (hex_digit (byte_code c / 16)) (String (hex_digit (byte_code c mod 16)) ""))))).

Definition short_escape (c : ascii) : string := String bslash (String c "").

(** [cabundle/models.rs]: the byte after the quote. *)
Definition cabundle_escape (c : ascii) : string :=
  if bool_decide (c = dquote) then short_escape dquote
  else if bool_decide (c = bslash) then short_escape bslash
  else if bool_decide (c = byte_of 10) then short_escape "n"
  else if bool_decide (c = byte_of 13) then short_escape "r"
  else if bool_decide (c = byte_of 9) then short_escape "t"
  else if (byte_code c <? 32)%Z then unicode_escape c
  else String c "".

(** [bundle/canonical.rs]: also backspace and form feed. *)
Definition canonical_escape (c : ascii) : string :=
  if bool_decide (c = dquote) then short_escape dquote
  else if bool_decide (c = bslash) then short_escape bslash
  else if bool_decide (c = byte_of 10) then short_escape "n"
  else if bool_decide (c = byte_of 13) then short_escape "r"
  else if bool_decide (c = byte_of 9) then short_escape "t"
  else if bool_decide (c = byte_of 8) then short_escape "b"
  else if bool_decide (c = byte_of 12) then short_escape "f"
  else if (byte_code c <? 32)%Z then unicode_escape c
  else String c "".

Fixpoint escape (esc : ascii → string) (s : string) : string :=
  match s with
  | EmptyString => ""
  | String c s => esc c +:+ escape esc s
  end.

(** The string body; [cabundle/models.rs] adds the quotes itself. *)
Definition canonical_json_escape (s : string) : string := escape canonical_escape s.
Definition cabundle_json_escape (s : string) : string :=
  String dquote (escape cabundle_escape s +:+ String dquote "").

(** ** Prefix codes *)
Definition all_bytes : list ascii := byte_of <$> seq 0 256.

Definition is_prefix (p s : string) : bool :=
  match strip_prefix p s with Some _ => true | None => false end.

(** No code word is empty, starts with a quote, or begins another one. *)
Definition prefix_code (esc : ascii → string) : bool :=
  forallb (λ c,
    negb (str_is_empty (esc c)) && negb (starts_with_byte dquote (esc c)) &&
    forallb (λ d, bool_decide (c = d) || negb (is_prefix (esc c) (esc d))) all_bytes) all_bytes.

Lemma byte_in_all c : In c all_bytes.
Proof.
  apply list_elem_of_In, list_elem_of_fmap. exists (nat_of_ascii c). split.
  - symmetry. apply ascii_nat_embedding.
  - apply elem_of_seq. pose proof (nat_ascii_bounded c). lia.
Qed.

Lemma cabundle_prefix_code : prefix_code cabundle_escape = true.
Proof. vm_compute. reflexivity. Qed.
Lemma canonical_prefix_code : prefix_code canonical_escape = true.
Proof. vm_compute. reflexivity. Qed.

(** Two words that begin the same text: one begins the other. *)
Lemma common_text_prefix a b x y :
  a +:+ x = b +:+ y → is_prefix a b = true ∨ is_prefix b a = true.
Proof.
  unfold is_prefix. revert b. induction a as [|c a IH]; intros [|d b] Heq; simpl; try auto.
  rewrite !app_String in Heq. injection Heq as -> Heq. rewrite !bool_decide_true by done. auto.
Qed.

Section prefix.
Context (esc : ascii → string) (Hcode : prefix_code esc = true).

Lemma code_word c :
  esc c ≠ "" ∧ starts_with_byte dquote (esc c) = false ∧
  ∀ d, is_prefix (esc c) (esc d) = true → c = d.
Proof using Hcode.
  unfold prefix_code in Hcode. rewrite forallb_forall in Hcode.
  pose proof (Hcode c (byte_in_all c)) as Hc. bool_prop. split_and!; [|done|].
  - unfold str_is_empty in *. by bool_prop.
  - intros d Hd. match goal with Hf : forallb _ _ = true |- _ =>
      rewrite forallb_forall in Hf; specialize (Hf d (byte_in_all d)) end.
    rewrite Hd, orb_false_r in *. by bool_prop.
Qed.

(** The body is recovered from the text up to its closing quote. *)
Lemma escape_inj s1 s2 t1 t2 :
  escape esc s1 +:+ String dquote t1 = escape esc s2 +:+ String dquote t2 → s1 = s2 ∧ t1 = t2.
Proof using Hcode.
  assert (∀ c s t u, escape esc (String c s) +:+ t ≠ String dquote u) as Hq.
  { intros c s t u. simpl. rewrite app_string_assoc.
    destruct (code_word c) as (Hne & Hst & _). destruct (esc c) as [|d w]; [done|].
    rewrite app_String. intros [= -> _]. done. }
  revert s2. induction s1 as [|c s1 IH]; intros [|d s2] Heq.
  - by injection Heq.
  - symmetry in Heq. by apply Hq in Heq.
  - by apply Hq in Heq.
  - simpl in Heq. rewrite !app_string_assoc in Heq.
    assert (c = d) as ->.
    { destruct (common_text_prefix _ _ _ _ Heq) as [Hp|Hp]; [|symmetry]; by eapply code_word. }
    apply app_string_inj_l in Heq. by destruct (IH _ Heq) as [-> ->].
Qed.
End prefix.
