(* ===== verification/CaBundle.v ===== *)
(** * The CA key set kept in the database
      ([src/src/cabundle/models.rs], [service.rs], [repository.rs])

    Validation, ordering and fingerprint of a bundle, the one-time seed of the
    server's own key, and acknowledgements by agents. *)
From S2P Require Import Prelude External Errors Database Machines JsonText Toy.

Definition MIN_CA_KEYS : Z := 1.
Definition MAX_CA_KEYS : Z := 64.
Definition MAX_KEY_ID_LEN : Z := 64.
Definition MAX_PUBLIC_KEY_LEN : Z := 4096.
Definition MAX_FINGERPRINT_LEN : Z := 128.

Record CaKeyRecord : Type := MkCaKeyRecord {
  kr_key_id : string;
  kr_public_key : string;
  kr_created_at : string;
  kr_generation : Z;
  kr_enabled : bool;
}.

Record AckRequest : Type := MkAckRequest {
  aq_generation : Z;
  aq_fingerprint : string;
  aq_status : string;
}.

Record AckResponse : Type := MkAckResponse {
  ap_status : string;
  ap_generation : Z;
}.

Inductive CaBundleError : Type :=
| Empty
| TooManyKeys
| DuplicateKeyId
| DuplicatePublicKey
| InvalidKeyId
| InvalidPublicKey
| InvalidGeneration
| CaBundleDatabase (err : sqlx_error).

Inductive AckError : Type :=
| AckInvalid (message : string)
| Mismatch
| AckUnknownMachine
| AckBundle (err : CaBundleError).

Definition CaBundleError_display (e : CaBundleError) : string :=
  match e with
  | Empty => "bundle must contain at least one key"
  | TooManyKeys => "bundle exceeds the maximum of 64 keys"
  | DuplicateKeyId => "bundle contains a duplicate key_id"
  | DuplicatePublicKey => "bundle contains a duplicate public_key"
  | InvalidKeyId => "bundle contains an invalid key_id"
  | InvalidPublicKey => "bundle contains an invalid CA public key"
  | InvalidGeneration => "bundle generation is invalid"
  | CaBundleDatabase _ => "CA bundle database error"
  end.

(** Stored data or the database is at fault, never the client. *)
Definition ApiError_of_ca_bundle (e : CaBundleError) : ApiError :=
  Internal (CauseMessage (CaBundleError_display e)).

Definition ApiError_of_ack (e : AckError) : ApiError :=
  match e with
  | AckInvalid message => BadRequest message
  | Mismatch =>
      Conflict "acknowledged generation or fingerprint does not match the current bundle"
  | AckUnknownMachine => Unauthorized "request authentication failed"
  | AckBundle e => ApiError_of_ca_bundle e
  end.

Record CaBundleKey : Type := MkCaBundleKey { bk_key_id : string; bk_public_key : string }.
#[export] Instance CaBundleKey_eq_dec : EqDecision CaBundleKey.
Proof. solve_decision. Defined.

Record CaBundle : Type := MkCaBundle {
  cb_generation : Z;
  cb_fingerprint : string;
  cb_keys : list CaBundleKey;
}.

(** ** Validation and fingerprint ([models.rs]) *)
Definition validate_key_id (key_id : string) : result unit CaBundleError :=
  if str_is_empty key_id || (MAX_KEY_ID_LEN <? str_len key_id)%Z then Err InvalidKeyId
  else if str_all (λ c, is_ascii_alphanumeric c || str_mem c "-_.:") key_id then Ok tt
  else Err InvalidKeyId.

Definition validate_ca_public_key `{SshKey} (public_key : string) : result unit CaBundleError :=
  if str_is_empty public_key || (MAX_PUBLIC_KEY_LEN <? str_len public_key)%Z
     || has_control public_key then Err InvalidPublicKey
  else
    let? key := ok_or InvalidPublicKey (from_openssh public_key) in
    if algorithm_is_ed25519 key then Ok tt else Err InvalidPublicKey.

(** The field name with its quotes and colon. *)
Definition json_field (name : string) : string := quoted name +:+ ":".

Definition key_json (key : CaBundleKey) : string :=
  "{" +:+ json_field "key_id" +:+ cabundle_json_escape (bk_key_id key) +:+ "," +:+
  json_field "public_key" +:+ cabundle_json_escape (bk_public_key key) +:+ "}".

(** The elements, with a comma before each but the first. *)
Fixpoint join_comma (l : list string) : string :=
  match l with
  | [] => ""
  | [x] => x
  | x :: l => x +:+ "," +:+ join_comma l
  end.

Definition canonical_json (generation : Z) (keys : list CaBundleKey) : string :=
  "{" +:+ json_field "generation" +:+ display_int generation +:+ "," +:+
  json_field "keys" +:+ "[" +:+ join_comma (key_json <$> keys) +:+ "]}".

Definition compute_fingerprint `{Sha256} (generation : Z) (keys : list CaBundleKey) : string :=
  "sha256:" +:+ sha256_hex (canonical_json generation keys).

(** [key_id], then [public_key]. *)
Definition key_leb (a b : CaBundleKey) : bool :=
  if bool_decide (bk_key_id a = bk_key_id b) then str_leb (bk_public_key a) (bk_public_key b)
  else str_leb (bk_key_id a) (bk_key_id b).

(** The first pass over the sorted keys. *)
Fixpoint check_keys `{SshKey} (prev : option string) (keys : list CaBundleKey)
  : result unit CaBundleError :=
  match keys with
  | [] => Ok tt
  | key :: keys =>
      let? _ := validate_key_id (bk_key_id key) in
      let? _ := validate_ca_public_key (bk_public_key key) in
      guard? negb (bool_decide (prev = Some (bk_key_id key))) else DuplicateKeyId in
      check_keys (Some (bk_key_id key)) keys
  end.

(** The [windows(2)] pass. *)
Fixpoint adjacent_equal (l : list string) : bool :=
  match l with
  | a :: ((b :: _) as l') => bool_decide (a = b) || adjacent_equal l'
  | _ => false
  end.

Definition CaBundle_build `{SshKey, Sha256} (generation : Z) (keys : list CaBundleKey)
  : result CaBundle CaBundleError :=
  guard? negb (generation <? 1)%Z else InvalidGeneration in
  guard? negb (Z.of_nat (length keys) <? MIN_CA_KEYS)%Z else Empty in
  guard? negb (MAX_CA_KEYS <? Z.of_nat (length keys))%Z else TooManyKeys in
  let keys := sort_by key_leb keys in
  let? _ := check_keys None keys in
  guard? negb (adjacent_equal (sort_by str_leb (bk_public_key <$> keys)))
    else DuplicatePublicKey in
  Ok {| cb_generation := generation;
        cb_fingerprint := compute_fingerprint generation keys;
        cb_keys := keys |}.

(** ** Persistence ([repository.rs]) *)
Section ca_bundle.
Context `{SshKey, Sha256, Chrono}.

Definition CaKeyRecord_from (row : CaKeyRow) : CaKeyRecord :=
  MkCaKeyRecord (ck_key_id row) (ck_public_key row) (ck_created_at row) (ck_generation row)
    (negb (ck_enabled row =? 0)%Z).

Definition repo_current_generation : M World sqlx_error Z :=
  query (λ d, default 0%Z (ca_bundle_state d)).

Definition list_enabled : M World sqlx_error (list CaKeyRecord) :=
  rows ← query (λ d, sort_by (λ a b, str_leb (ck_key_id a) (ck_key_id b))
                       (List.filter (λ r, (ck_enabled r =? 1)%Z) (ca_keys d)));
  ret (CaKeyRecord_from <$> rows).

Definition ack_row (generation : Z) (fingerprint : string) (now : Z) (r : MachineRow)
  : MachineRow :=
  let now_text := to_text now in
  {| mr_machine_id := mr_machine_id r;
     mr_hostname := mr_hostname r;
     mr_public_key := mr_public_key r;
     mr_os := mr_os r;
     mr_arch := mr_arch r;
     mr_agent_version := mr_agent_version r;
     mr_status := mr_status r;
     mr_ip := mr_ip r;
     mr_current_generation := mr_current_generation r;
     mr_synced_generation := Some generation;
     mr_bundle_fingerprint := Some fingerprint;
     mr_last_sync := Some now_text;
     mr_last_seen := mr_last_seen r;
     mr_enrolled_at := mr_enrolled_at r;
     mr_created_at := mr_created_at r;
     mr_updated_at := now_text |}.

Definition repo_record_ack (i : string) (generation : Z) (fingerprint : string) (now : Z)
  : M World sqlx_error bool :=
  update_machine i (ack_row generation fingerprint now).

Definition insert_ca_key (r : CaKeyRow) (d : Db) : result (unit * Db) sqlx_error :=
  guard? negb (existsb (λ r', bool_decide (ck_key_id r' = ck_key_id r)) (ca_keys d)) else
    SqlDatabase "UNIQUE constraint failed: ca_keys.key_id" in
  guard? negb (existsb (λ r', bool_decide (ck_public_key r' = ck_public_key r)) (ca_keys d)) else
    SqlDatabase "UNIQUE constraint failed: ca_keys.public_key" in
  Ok (tt, set_ca_keys (λ l, l ++ [r]) d).

Definition seed_body (key_id public_key : string) (now : Z) : M World sqlx_error unit :=
  count ← query (λ d, Z.of_nat (length (ca_keys d)));
  if (count =? 0)%Z then
    _ ← execute (insert_ca_key (MkCaKeyRow key_id public_key (to_text now) 1 1));
    execute (λ d, Ok (tt, set_ca_bundle_state 1 d))
  else ret tt.

Definition repo_ensure_seeded (key_id public_key : string) (now : Z) : M World sqlx_error unit :=
  transaction id (seed_body key_id public_key now).

(** ** The service ([service.rs]) *)
Definition ensure_seeded (key_id public_key : string) (now : Z) : M World CaBundleError unit :=
  _ ← with_err CaBundleDatabase db_call;
  with_err CaBundleDatabase (repo_ensure_seeded key_id public_key now).

Definition bundle_current_generation : M World CaBundleError Z :=
  _ ← with_err CaBundleDatabase db_call;
  with_err CaBundleDatabase repo_current_generation.

Definition current_bundle : M World CaBundleError CaBundle :=
  _ ← with_err CaBundleDatabase db_call;
  generation ← with_err CaBundleDatabase repo_current_generation;
  records ← with_err CaBundleDatabase list_enabled;
  lift (CaBundle_build generation
          ((λ r, MkCaBundleKey (kr_key_id r) (kr_public_key r)) <$> records)).

Definition record_ack (i : string) (ack : AckRequest) (now : Z) : M World AckError AckResponse :=
  _ ← ensure (bool_decide (trim (aq_status ack) = "success"))
        (AckInvalid "status must be 'success'");
  let fingerprint := trim (aq_fingerprint ack) in
  _ ← ensure (negb (str_is_empty fingerprint || (MAX_FINGERPRINT_LEN <? str_len fingerprint)%Z))
        (AckInvalid "fingerprint is invalid");
  bundle ← with_err AckBundle current_bundle;
  _ ← ensure (bool_decide (aq_generation ack = cb_generation bundle) &&
              bool_decide (fingerprint = cb_fingerprint bundle)) Mismatch;
  _ ← with_err (AckBundle ∘ CaBundleDatabase) db_call;
  updated ← with_err (AckBundle ∘ CaBundleDatabase)
              (repo_record_ack i (cb_generation bundle) (cb_fingerprint bundle) now);
  _ ← ensure updated AckUnknownMachine;
  ret (MkAckResponse "recorded" (cb_generation bundle)).
End ca_bundle.

(** ** What a valid key set is *)
Record valid_keys `{SshKey} (generation : Z) (keys : list CaBundleKey) : Prop := {
  vk_generation : (1 <= generation)%Z;
  vk_count : (MIN_CA_KEYS <= Z.of_nat (length keys) <= MAX_CA_KEYS)%Z;
  vk_ids : Forall (λ k, validate_key_id (bk_key_id k) = Ok tt) keys;
  vk_public_keys : Forall (λ k, validate_ca_public_key (bk_public_key k) = Ok tt) keys;
  vk_distinct_ids : NoDup (bk_key_id <$> keys);
  vk_distinct_public_keys : NoDup (bk_public_key <$> keys);
}.

(** ** Lemmas *)
Lemma key_leb_total a b : key_leb a b = true ∨ key_leb b a = true.
Proof.
  unfold key_leb. rewrite (bool_decide_ext (bk_key_id b = bk_key_id a) (bk_key_id a = bk_key_id b)) by done.
  case_bool_decide; apply str_leb_total.
Qed.

Lemma key_leb_trans a b c : key_leb a b = true → key_leb b c = true → key_leb a c = true.
Proof.
  unfold key_leb. repeat case_bool_decide; try congruence; intros Hab Hbc;
    try (by eapply str_leb_trans).
  exfalso. match goal with Hn : bk_key_id a ≠ bk_key_id b |- _ => apply Hn end.
  by apply str_leb_antisym; [|congruence].
Qed.

Lemma key_leb_antisym a b : key_leb a b = true → key_leb b a = true → a = b.
Proof.
  unfold key_leb. destruct a as [i p], b as [j q]; simpl.
  destruct (decide (i = j)) as [->|Hne].
  - rewrite !bool_decide_true by done. intros ??. f_equal. by apply str_leb_antisym.
  - rewrite !bool_decide_false by done. intros ??. destruct Hne. by apply str_leb_antisym.
Qed.

Lemma sorted_by_id keys :
  StronglySorted (λ a b, str_leb (bk_key_id a) (bk_key_id b) = true) (sort_by key_leb keys).
Proof.
  assert (∀ a b, key_leb a b = true → str_leb (bk_key_id a) (bk_key_id b) = true) as Hi.
  { intros a b. unfold key_leb. case_bool_decide as Heq; [|done]. rewrite Heq.
    intros _. apply str_leb_refl. }
  pose proof (sort_by_sorted key_leb key_leb_total key_leb_trans keys) as Hs.
  induction Hs as [|x l Hs IH Hx]; constructor; [done|]. eapply Forall_impl; [done|]. auto.
Qed.

Lemma sorted_distinct l :
  StronglySorted (λ a b, str_leb (bk_key_id a) (bk_key_id b) = true) l →
  NoDup (bk_key_id <$> l) →
  StronglySorted (λ a b, str_leb (bk_key_id a) (bk_key_id b) = true ∧
                         bk_key_id a ≠ bk_key_id b) l.
Proof.
  induction 1 as [|x l Hl IH Hx]; csimpl; [constructor|]. intros [Hn Hnd]%NoDup_cons.
  constructor; [by apply IH|]. rewrite Forall_forall in Hx |- *. intros y Hy.
  split; [by apply Hx|]. intros Heq. apply Hn. rewrite Heq. by apply list_elem_of_fmap_2.
Qed.

(** In a sorted list equal elements are next to each other. *)
Lemma adjacent_equal_sorted l :
  StronglySorted (λ a b, str_leb a b = true) l → adjacent_equal l = false ↔ NoDup l.
Proof.
  induction 1 as [|x l Hl IH Hx]; [split; [constructor|done]|].
  destruct l as [|y l]; [split; [intros; apply NoDup_singleton|done]|].
  change (bool_decide (x = y) || adjacent_equal (y :: l) = false ↔ NoDup (x :: y :: l)).
  rewrite orb_false_iff, bool_decide_eq_false, IH, (NoDup_cons x). split; [|set_solver].
  intros [Hne Hnd]. split; [|done]. intros [->|Hin]%elem_of_cons; [done|].
  apply Hne. inversion Hx as [|? ? Hxy _]; subst. inversion Hl as [|? ? _ Hy]; subst.
  rewrite Forall_forall in Hy. by apply str_leb_antisym; [|apply Hy].
Qed.

Section build_lemmas.
Context `{SshKey, Sha256}.

Lemma check_keys_ok prev keys :
  check_keys prev keys = Ok tt ↔
  Forall (λ k, validate_key_id (bk_key_id k) = Ok tt) keys ∧
  Forall (λ k, validate_ca_public_key (bk_public_key k) = Ok tt) keys ∧
  adjacent_equal (option_list prev ++ (bk_key_id <$> keys)) = false.
Proof.
  revert prev. induction keys as [|k keys IH]; intros prev; simpl.
  { rewrite app_nil_r. by destruct prev. }
  rewrite !Forall_cons.
  destruct (validate_key_id (bk_key_id k)) as [[]|]; [|naive_solver].
  destruct (validate_ca_public_key (bk_public_key k)) as [[]|]; [|naive_solver].
  destruct prev as [p|]; simpl.
  - rewrite orb_false_iff, bool_decide_eq_false.
    rewrite (bool_decide_ext (Some p = Some (bk_key_id k)) (p = bk_key_id k)) by naive_solver.
    case_bool_decide; simpl; [naive_solver|]. rewrite IH. simpl. naive_solver.
  - rewrite IH. simpl. naive_solver.
Qed.

(** What the two passes establish on the sorted keys. *)
Lemma passes_sorted keys :
  let sorted := sort_by key_leb keys in
  (check_keys None sorted = Ok tt ∧
   adjacent_equal (sort_by str_leb (bk_public_key <$> sorted)) = false) ↔
  Forall (λ k, validate_key_id (bk_key_id k) = Ok tt) keys ∧
  Forall (λ k, validate_ca_public_key (bk_public_key k) = Ok tt) keys ∧
  NoDup (bk_key_id <$> keys) ∧ NoDup (bk_public_key <$> keys).
Proof.
  simpl. rewrite check_keys_ok. simpl.
  rewrite (adjacent_equal_sorted (bk_key_id <$> _)) by (apply sorted_fmap, sorted_by_id).
  rewrite (adjacent_equal_sorted (sort_by str_leb _))
    by (apply sort_by_sorted; [apply str_leb_total|apply str_leb_trans]).
  pose proof (sort_by_perm key_leb keys) as Hp. set (s := sort_by key_leb keys) in *.
  assert (∀ P : CaBundleKey → Prop, Forall P s ↔ Forall P keys) as HF
    by (intros P; by apply Forall_Permutation).
  assert (∀ f : CaBundleKey → string, NoDup (f <$> s) ↔ NoDup (f <$> keys)) as HN
    by (intros f; by apply NoDup_Permutation_proper, fmap_Permutation).
  assert (NoDup (sort_by str_leb (bk_public_key <$> s)) ↔ NoDup (bk_public_key <$> s)) as HS
    by (apply NoDup_Permutation_proper, sort_by_perm).
  rewrite !HF, HS, !HN. tauto.
Qed.
End build_lemmas.

(** Reading a key back from the text that starts with it. *)
Lemma key_json_inj k1 k2 x y : key_json k1 +:+ x = key_json k2 +:+ y → k1 = k2 ∧ x = y.
Proof.
  destruct k1 as [i1 p1], k2 as [i2 p2]. unfold key_json, cabundle_json_escape. simpl.
  intros Heq. autorewrite with mayfly_rw in Heq.
  injection Heq as Heq.
  apply (escape_inj _ cabundle_prefix_code) in Heq as [-> Heq].
  injection Heq as Heq.
  apply (escape_inj _ cabundle_prefix_code) in Heq as [-> Heq].
  by injection Heq as ->.
Qed.

(** Reading the array back up to its closing bracket. *)
Lemma keys_json_inj ks1 ks2 x y :
  join_comma (key_json <$> ks1) +:+ String "]" x =
  join_comma (key_json <$> ks2) +:+ String "]" y → ks1 = ks2 ∧ x = y.
Proof.
  revert ks2. induction ks1 as [|k1 ks1 IH]; intros [|k2 ks2] Heq; csimpl in *.
  - by injection Heq.
  - by destruct ks2; csimpl in Heq; rewrite ?app_String in Heq.
  - by destruct ks1; csimpl in Heq; rewrite ?app_String in Heq.
  - destruct ks1 as [|k1' ks1], ks2 as [|k2' ks2]; csimpl in *;
      autorewrite with mayfly_rw in Heq; apply key_json_inj in Heq as [-> Heq]; try done.
    + by injection Heq as ->.
    + injection Heq as Heq. destruct (IH (k2' :: ks2)) as [-> ->]; [|done].
      csimpl. by autorewrite with mayfly_rw.
Qed.

Lemma canonical_json_inj g1 ks1 g2 ks2 :
  canonical_json g1 ks1 = canonical_json g2 ks2 → g1 = g2 ∧ ks1 = ks2.
Proof.
  unfold canonical_json. intros Heq. autorewrite with mayfly_rw in Heq.
  injection Heq as Heq. apply app_string_inj_l in Heq.
  apply separator_inj in Heq as [Hg Heq]; [|by apply display_int_not_mem..].
  apply (inj display_int) in Hg as ->. apply app_string_inj_l in Heq.
  injection Heq as Heq. by apply keys_json_inj in Heq as [-> _].
Qed.

Section service_lemmas.
Context `{SshKey, Sha256, Chrono}.

Lemma ack_keeps_keys `{!ChronoLaws} g fp now :
  rfc3339_range now = true → keeps_keys (ack_row g fp now).
Proof.
  intros Hn r. split_and!; try done. intros [m Hm].
  unfold machine_row_ok, machine_try_from in *. simpl. rewrite parse_to_text by done.
  cases; eauto.
Qed.

(** Assembling the bundle reads only. *)
Lemma current_bundle_db w r w' : current_bundle w = (r, w') → db w' = db w.
Proof.
  unfold current_bundle, repo_current_generation, list_enabled, mbind, M_bind, with_err, lift, ret.
  intros Hc. cases;
    repeat match goal with
    | Hq : db_call _ = _ |- _ => apply db_call_db in Hq
    | Hq : query _ _ = _ |- _ => apply query_inv in Hq as [Hq _]
    end; congruence.
Qed.

Lemma repo_ensure_seeded_run key_id public_key now w :
  no_faults w → ca_keys (db w) = [] →
  repo_ensure_seeded key_id public_key now w =
    (Ok tt, with_db w (set_ca_bundle_state 1
       (set_ca_keys (λ _, [MkCaKeyRow key_id public_key (to_text now) 1 1]) (db w)))).
Proof.
  intros Hw Hk. unfold repo_ensure_seeded. apply transaction_no_faults; [done| |done].
  unfold seed_body. erewrite bind_ok by by apply query_ok. rewrite Hk. simpl.
  erewrite bind_ok.
  2:{ rewrite execute_ok by done. unfold insert_ca_key. rewrite Hk. reflexivity. }
  rewrite execute_ok by done. simpl. unfold set_ca_keys. by rewrite Hk.
Qed.
End service_lemmas.

Lemma build_singleton `{SshKey, Sha256} key_id public_key :
  validate_key_id key_id = Ok tt → validate_ca_public_key public_key = Ok tt →
  let keys := [MkCaBundleKey key_id public_key] in
  CaBundle_build 1 keys = Ok (MkCaBundle 1 (compute_fingerprint 1 keys) keys).
Proof.
  intros Hi Hp. unfold CaBundle_build. simpl. rewrite Hi, Hp. simpl.
  reflexivity.
Qed.

(** The order in which keys are stored or listed does not matter: key sets that
    are permutations of each other give the same bundle, or the same error. *)
Lemma build_order_independent `{SshKey, Sha256} generation keys keys' :
  keys ≡ₚ keys' → CaBundle_build generation keys = CaBundle_build generation keys'.
Proof.
  intros Hp. unfold CaBundle_build. rewrite (Permutation_length Hp).
  by rewrite (sort_by_unique key_leb key_leb_total key_leb_trans _ _ key_leb_antisym Hp).
Qed.

Section ca_bundle_theorems.
Context `{SshKey, Sha256, Chrono}.

(** ** Theorems *)

(** A bundle is built exactly from valid key sets.  On success the keys are the
    given ones in strictly ascending [key_id] order, with the fingerprint of that
    order; every key set that breaks a rule (generation, count, identifier, key,
    duplicates) is refused. *)
Theorem build_exact generation keys :
  match CaBundle_build generation keys with
  | Ok b => valid_keys generation keys ∧ cb_generation b = generation ∧ cb_keys b ≡ₚ keys ∧
      StronglySorted (λ a c, str_leb (bk_key_id a) (bk_key_id c) = true ∧
                             bk_key_id a ≠ bk_key_id c) (cb_keys b) ∧
      cb_fingerprint b = compute_fingerprint generation (cb_keys b)
  | Err _ => ¬ valid_keys generation keys
  end.
Proof.
  unfold CaBundle_build. pose proof (passes_sorted keys) as Hp. simpl in Hp.
  destruct (Z.ltb_spec generation 1); simpl; [intros [? _ _ _ _ _]; lia|].
  destruct (Z.ltb_spec (Z.of_nat (length keys)) MIN_CA_KEYS); simpl; [intros [_ ? _ _ _ _]; lia|].
  destruct (Z.ltb_spec MAX_CA_KEYS (Z.of_nat (length keys))); simpl; [intros [_ ? _ _ _ _]; lia|].
  destruct (check_keys None _) as [[]|e].
  2:{ intros [_ _ ? ? ? ?]. by destruct (proj2 Hp) as [[=] _]. }
  destruct (adjacent_equal _); simpl.
  { intros [_ _ ? ? ? ?]. by destruct (proj2 Hp) as [_ [=]]. }
  destruct (proj1 Hp) as (Hi & Hk & Hni & Hnk); [done|].
  split_and!; [by split|done|apply sort_by_perm| |done].
  apply sorted_distinct; [apply sorted_by_id|].
  eapply NoDup_Permutation_proper; [|exact Hni]. apply fmap_Permutation, sort_by_perm.
Qed.

(** The fingerprint identifies the content.  Two generations and key lists with
    the same fingerprint are the same, or exhibit a SHA-256 collision. *)
Theorem fingerprint_identifies g1 ks1 g2 ks2 :
  compute_fingerprint g1 ks1 = compute_fingerprint g2 ks2 →
  (g1, ks1) = (g2, ks2) ∨
  sha256_collision (canonical_json g1 ks1) (canonical_json g2 ks2).
Proof.
  unfold compute_fingerprint. intros Heq. apply app_string_inj_l in Heq.
  destruct (decide (canonical_json g1 ks1 = canonical_json g2 ks2)) as [Hc|Hc]; [|by right].
  left. by destruct (canonical_json_inj _ _ _ _ Hc) as [-> ->].
Qed.

(** Only the bundle being served can be acknowledged.  Whichever database calls
    fail, an accepted acknowledgement stamps the machine's row with the current
    generation and fingerprint and touches no other row or table; a refused one
    changes nothing. *)
Theorem ack_records_current_bundle i ack now w r w' :
  machines_ok (db w) → record_ack i ack now w = (r, w') →
  match r with
  | Ok resp => ∃ b w0 w1, db w0 = db w ∧ current_bundle w0 = (Ok b, w1) ∧
      ap_generation resp = cb_generation b ∧ aq_generation ack = cb_generation b ∧
      trim (aq_fingerprint ack) = cb_fingerprint b ∧
      db w' = set_machines (λ l, (λ r, if bool_decide (mr_machine_id r = i)
        then ack_row (cb_generation b) (cb_fingerprint b) now r else r) <$> l) (db w)
  | Err _ => db w' = db w
  end.
Proof.
  intros Hok. unfold record_ack, ensure.
  case_bool_decide; [|by intros [= <- <-]]. simpl.
  unfold mbind at 1, M_bind at 1. simpl.
  destruct (str_is_empty _ || _); simpl; [by intros [= <- <-]|].
  unfold mbind at 1, M_bind at 1. simpl.
  unfold mbind at 1, M_bind at 1, with_err at 1.
  destruct (current_bundle w) as [[b|e] w1] eqn:Hb;
    pose proof (current_bundle_db _ _ _ Hb) as Hdb1; [|by intros [= <- <-]].
  destruct (bool_decide _ && _) eqn:Hmatch; simpl; [|by intros [= <- <-]]. bool_prop.
  unfold mbind, M_bind, with_err. simpl.
  destruct (db_call w1) as [[?|e] w2] eqn:Hc; apply db_call_db in Hc;
    [|intros [= <- <-]; congruence].
  destruct (repo_record_ack _ _ _ _ w2) as [x w3] eqn:Hu.
  apply update_machine_inv in Hu as [(e & -> & Hdb)|(u & -> & Hu & Hdb)];
    [intros [= <- <-]; congruence|].
  rewrite Hc, Hdb1 in *. destruct u; simpl; intros [= <- <-].
  - exists b, w, w1. split_and!; try done.
  - rewrite Hdb, update_by_id_none; [by destruct (db w)|apply Hok|by symmetry].
Qed.

(** The first start serves the server's own key.  Seeding an empty key set with a
    valid key makes the next bundle that key at generation 1, and seeding again, with
    any key, changes nothing. *)
Theorem seeded_bundle_served key_id public_key now w :
  no_faults w → ca_keys (db w) = [] →
  validate_key_id key_id = Ok tt → validate_ca_public_key public_key = Ok tt →
  ∃ w' b, ensure_seeded key_id public_key now w = (Ok tt, w') ∧
    current_bundle w' = (Ok b, w') ∧
    cb_generation b = 1%Z ∧ cb_keys b = [MkCaBundleKey key_id public_key] ∧
    ∀ key_id' public_key' now', ensure_seeded key_id' public_key' now' w' = (Ok tt, w').
Proof.
  intros Hw Hk Hi Hp. unfold ensure_seeded, mbind, M_bind, with_err.
  rewrite db_call_ok by done. rewrite repo_ensure_seeded_run by done.
  set (w' := with_db w _). pose proof (build_singleton key_id public_key Hi Hp) as Hb.
  exists w', (MkCaBundle 1 (compute_fingerprint 1 [MkCaBundleKey key_id public_key])
    [MkCaBundleKey key_id public_key]). split_and!; [done| |done|done|].
  - unfold current_bundle, mbind, M_bind, with_err. rewrite db_call_ok by done.
    unfold repo_current_generation, list_enabled. rewrite query_ok by done.
    erewrite bind_ok by by apply query_ok. unfold lift, ret. simpl. rewrite Hb. reflexivity.
  - intros k p n. rewrite db_call_ok by done.
    unfold repo_ensure_seeded. rewrite (transaction_no_faults _ _ w' tt w'); try done.
    unfold seed_body. by erewrite bind_ok by by apply query_ok.
Qed.
End ca_bundle_theorems.

(** ** Witnesses *)
#[local] Existing Instances toy_sha256 toy_chrono toy_ssh_key.
#[local] Existing Instances toy_chrono_laws.

Definition ca_key_1 : CaBundleKey := MkCaBundleKey "ca-01" "ssh-ed25519 AAAA".
Definition ca_key_2 : CaBundleKey := MkCaBundleKey "ca-02" "ssh-ed25519 BBBB".

Lemma fingerprint_identifies_witness :
  (3%Z, [ca_key_1]) = (3%Z, [ca_key_1]) ∨
  sha256_collision (canonical_json 3 [ca_key_1]) (canonical_json 3 [ca_key_1]).
Proof. apply (fingerprint_identifies 3 [ca_key_1] 3 [ca_key_1]). reflexivity. Defined.

(** A machine, and the server's key seeded. *)
Definition seeded_world : World :=
  (ensure_seeded "ca-01" "ssh-ed25519 AAAA" (seconds 8) machine_world).2.
Definition demo_ack : AckRequest :=
  MkAckRequest 1 (compute_fingerprint 1 [ca_key_1]) "success".

Lemma seeded_world_machines_ok : machines_ok (db seeded_world).
Proof. exact machine_world_ok. Qed.

Lemma ack_records_current_bundle_witness :
  let '(r, w') := record_ack "srv_1" demo_ack (seconds 9) seeded_world in
  ∃ resp b, r = Ok resp ∧ ap_generation resp = cb_generation b ∧
    db w' = set_machines (λ l, (λ r, if bool_decide (mr_machine_id r = "srv_1")
      then ack_row (cb_generation b) (cb_fingerprint b) (seconds 9) r else r) <$> l)
      (db seeded_world).
Proof.
  destruct (is_ok_run (record_ack "srv_1" demo_ack (seconds 9) seeded_world)) as [resp Hr];
    [vm_compute; reflexivity|].
  destruct (record_ack "srv_1" demo_ack (seconds 9) seeded_world) as [r w'] eqn:Heq.
  destruct (ack_records_current_bundle "srv_1" demo_ack (seconds 9) seeded_world (Ok resp) w'
    seeded_world_machines_ok) as (b & w0 & w1 & _ & _ & Hg & _ & _ & Hdb).
  { rewrite Heq. exact Hr. }
  exists resp, b. split_and!; [by injection Hr|exact Hg|exact Hdb].
Defined.

Lemma seeded_bundle_served_witness :
  ∃ w' b, ensure_seeded "ca-01" "ssh-ed25519 AAAA" (seconds 8) machine_world = (Ok tt, w') ∧
    current_bundle w' = (Ok b, w') ∧ cb_generation b = 1%Z ∧ cb_keys b = [ca_key_1].
Proof.
  destruct (seeded_bundle_served "ca-01" "ssh-ed25519 AAAA" (seconds 8) machine_world)
    as (w' & b & He & Hb & Hg & Hk & _); [reflexivity..|].
  exists w', b. split_and!; done.
Defined.
