(* ===== verification/Repository.v ===== *)
(** * The repository traits
      ([src/src/machines/repository.rs], [src/src/cabundle/repository.rs])

    The services reach the tables through three traits.  Each is a class of
    operations here, with an instance for the SQLite implementation, and what a
    trait promises is stated over an abstract [Store]: machines, tokens and CA keys
    as finite maps, with no rows, no column order and no text.  A law class says
    that every call an implementation answers is one the store allows; the SQLite
    instances discharge it, so a sequence of calls to SQLite is a sequence of steps
    of the store, whichever statements fail. *)
From stdpp Require Import gmap.
From S2P Require Import Prelude External Errors Database AuditRepo Machines Enrollment CaBundle Toy.

(** ** The traits *)

(** [trait MachineRepository]; [World] is the connection. *)
Class MachineRepository : Type := {
  mrepo_find_by_hostname : string → M World sqlx_error (option Machine);
  mrepo_find_by_public_key : string → M World sqlx_error (option Machine);
  mrepo_find_by_id : string → M World sqlx_error (option Machine);
  mrepo_insert : NewMachine → M World sqlx_error Machine;
  mrepo_update_last_seen : HeartbeatUpdate → M World sqlx_error bool;
  mrepo_list_recent : Z → M World sqlx_error (list Machine);
  mrepo_list_all : M World sqlx_error (list Machine);
  mrepo_update_status : string → MachineStatus → Z → M World sqlx_error bool;
  mrepo_delete : string → M World sqlx_error bool;
}.

(** [trait EnrollmentTokenRepository]. *)
Class EnrollmentTokenRepository : Type := {
  trepo_create : NewEnrollmentToken → M World sqlx_error EnrollmentToken;
  trepo_find_by_hash : string → M World sqlx_error (option EnrollmentToken);
  trepo_consume : string → bool → Z → M World sqlx_error bool;
}.

(** [trait CaKeyRepository]. *)
Class CaKeyRepository : Type := {
  krepo_current_generation : M World sqlx_error Z;
  krepo_list_enabled : M World sqlx_error (list CaKeyRecord);
  krepo_record_ack : string → Z → string → Z → M World sqlx_error bool;
  krepo_ensure_seeded : string → string → Z → M World sqlx_error unit;
}.

(** The implementations over SQLite. *)
Section sqlite.
Context `{Chrono}.

#[export] Instance SqliteMachineRepository : MachineRepository := {|
  mrepo_find_by_hostname := find_by_hostname;
  mrepo_find_by_public_key := find_by_public_key;
  mrepo_find_by_id := find_by_id;
  mrepo_insert := machine_insert;
  mrepo_update_last_seen := update_last_seen;
  mrepo_list_recent := list_recent;
  mrepo_list_all := list_all;
  mrepo_update_status := update_status;
  mrepo_delete := machine_delete;
|}.

#[export] Instance SqliteEnrollmentTokenRepository : EnrollmentTokenRepository := {|
  trepo_create := token_create;
  trepo_find_by_hash := find_by_hash;
  trepo_consume := token_consume;
|}.

#[export] Instance SqliteCaKeyRepository : CaKeyRepository := {|
  krepo_current_generation := repo_current_generation;
  krepo_list_enabled := list_enabled;
  krepo_record_ack := repo_record_ack;
  krepo_ensure_seeded := repo_ensure_seeded;
|}.
End sqlite.

(** ** Calls, as data, with the type of their answer *)
Inductive MachineCall : Type → Type :=
| FindByHostname (h : string) : MachineCall (option Machine)
| FindByPublicKey (k : string) : MachineCall (option Machine)
| FindById (i : string) : MachineCall (option Machine)
| Insert (new : NewMachine) : MachineCall Machine
| UpdateLastSeen (u : HeartbeatUpdate) : MachineCall bool
| ListRecent (limit : Z) : MachineCall (list Machine)
| ListAll : MachineCall (list Machine)
| UpdateStatus (i : string) (s : MachineStatus) (now : Z) : MachineCall bool
| Delete (i : string) : MachineCall bool.

Inductive TokenCall : Type → Type :=
| Create (new : NewEnrollmentToken) : TokenCall EnrollmentToken
| FindByHash (h : string) : TokenCall (option EnrollmentToken)
| Consume (i : string) (single_use : bool) (now : Z) : TokenCall bool.

Inductive KeyCall : Type → Type :=
| CurrentGeneration : KeyCall Z
| ListEnabled : KeyCall (list CaKeyRecord)
| RecordAck (i : string) (generation : Z) (fingerprint : string) (now : Z) : KeyCall bool
| EnsureSeeded (key_id public_key : string) (now : Z) : KeyCall unit.

Inductive Call : Type → Type :=
| OnMachines {A} (c : MachineCall A) : Call A
| OnTokens {A} (c : TokenCall A) : Call A
| OnKeys {A} (c : KeyCall A) : Call A.

Section dispatch.
Context `{MR : MachineRepository, TR : EnrollmentTokenRepository, KR : CaKeyRepository}.

Definition machine_call {A} (c : MachineCall A) : M World sqlx_error A :=
  match c in MachineCall A return M World sqlx_error A with
  | FindByHostname h => mrepo_find_by_hostname h
  | FindByPublicKey k => mrepo_find_by_public_key k
  | FindById i => mrepo_find_by_id i
  | Insert new => mrepo_insert new
  | UpdateLastSeen u => mrepo_update_last_seen u
  | ListRecent limit => mrepo_list_recent limit
  | ListAll => mrepo_list_all
  | UpdateStatus i s now => mrepo_update_status i s now
  | Delete i => mrepo_delete i
  end.

Definition token_call {A} (c : TokenCall A) : M World sqlx_error A :=
  match c in TokenCall A return M World sqlx_error A with
  | Create new => trepo_create new
  | FindByHash h => trepo_find_by_hash h
  | Consume i single_use now => trepo_consume i single_use now
  end.

Definition key_call {A} (c : KeyCall A) : M World sqlx_error A :=
  match c in KeyCall A return M World sqlx_error A with
  | CurrentGeneration => krepo_current_generation
  | ListEnabled => krepo_list_enabled
  | RecordAck i generation fingerprint now => krepo_record_ack i generation fingerprint now
  | EnsureSeeded key_id public_key now => krepo_ensure_seeded key_id public_key now
  end.

Definition repo_call {A} (c : Call A) : M World sqlx_error A :=
  match c in Call A return M World sqlx_error A with
  | OnMachines c => machine_call c
  | OnTokens c => token_call c
  | OnKeys c => key_call c
  end.
End dispatch.

(** ** The abstract store *)
Abbreviation Fleet := (gmap string Machine).
Abbreviation TokenStore := (gmap string EnrollmentToken).

Record Store : Type := MkStore {
  st_fleet : Fleet;
  st_tokens : TokenStore;
  st_keys : gmap string CaKeyRecord;
  st_generation : option Z;
}.

Definition empty_store : Store := MkStore ∅ ∅ ∅ None.

Definition set_fleet (f : Fleet → Fleet) (s : Store) : Store :=
  MkStore (f (st_fleet s)) (st_tokens s) (st_keys s) (st_generation s).
Definition set_token_store (f : TokenStore → TokenStore) (s : Store) : Store :=
  MkStore (st_fleet s) (f (st_tokens s)) (st_keys s) (st_generation s).

(** What a heartbeat, a lifecycle write and an acknowledgement make of a machine:
    instants are kept to the millisecond. *)
Definition beaten (u : HeartbeatUpdate) (m : Machine) : Machine :=
  let t := trunc_millis (hu_now u) in
  MkMachine (machine_id m) (hostname m) (public_key m) (os m) (arch m) (hu_agent_version u)
    (status m) (hu_ip u) (hu_current_generation u) (synced_generation m) (bundle_fingerprint m)
    (last_sync m) (Some t) (enrolled_at m) (created_at m) t.

Definition restated (s : MachineStatus) (now : Z) (m : Machine) : Machine :=
  MkMachine (machine_id m) (hostname m) (public_key m) (os m) (arch m) (agent_version m)
    s (ip m) (current_generation m) (synced_generation m) (bundle_fingerprint m)
    (last_sync m) (last_seen m) (enrolled_at m) (created_at m) (trunc_millis now).

Definition acked (g : Z) (fingerprint : string) (now : Z) (m : Machine) : Machine :=
  let t := trunc_millis now in
  MkMachine (machine_id m) (hostname m) (public_key m) (os m) (arch m) (agent_version m)
    (status m) (ip m) (current_generation m) (Some g) (Some fingerprint)
    (Some t) (last_seen m) (enrolled_at m) (created_at m) t.

Definition issued (new : NewEnrollmentToken) : EnrollmentToken :=
  MkEnrollmentToken (nt_id new) (nt_token_hash new) (trunc_millis (nt_created_at new))
    (trunc_millis (nt_expires_at new)) None (nt_created_by new) (nt_single_use new).

(** The record [create] returns, its instants not yet rounded. *)
Definition created (new : NewEnrollmentToken) : EnrollmentToken :=
  MkEnrollmentToken (nt_id new) (nt_token_hash new) (nt_created_at new)
    (nt_expires_at new) None (nt_created_by new) (nt_single_use new).

Definition stamped (now : Z) (t : EnrollmentToken) : EnrollmentToken :=
  MkEnrollmentToken (et_id t) (et_token_hash t) (et_created_at t) (et_expires_at t)
    (Some (trunc_millis now)) (et_created_by t) (et_single_use t).

(** Newest [last_seen] first, machines never seen last, then newest first. *)
Definition newer (a b : Machine) : bool :=
  match last_seen a, last_seen b with
  | None, None => (created_at b <=? created_at a)%Z
  | Some _, None => true
  | None, Some _ => false
  | Some x, Some y =>
      if (x =? y)%Z then (created_at b <=? created_at a)%Z else (y <=? x)%Z
  end.

Section values.
Context {A : Type}.

(** The answer of a lookup by another column than the map's key. *)
Definition found_by (key : A → string) (k : string) (m : gmap string A) (o : option A) : Prop :=
  match o with
  | Some x => key x = k ∧ ∃ i, m !! i = Some x
  | None => ∀ i x, m !! i = Some x → key x ≠ k
  end.

Definition values (m : gmap string A) : list A := (map_to_list m).*2.

(** Some value has this key. *)
Definition taken (key : A → string) (k : string) (m : gmap string A) : Prop :=
  ∃ i x, m !! i = Some x ∧ key x = k.
End values.

(** ** What each trait promises *)
Definition fleet_allows {A} (c : MachineCall A) (f : Fleet) : A → Fleet → Prop :=
  match c in MachineCall A return A → Fleet → Prop with
  | FindByHostname h => λ a f', f' = f ∧ found_by hostname h f a
  | FindByPublicKey k => λ a f', f' = f ∧ found_by public_key k f a
  | FindById i => λ a f', f' = f ∧ a = f !! i
  | Insert new => λ a f',
      f !! nm_machine_id new = None ∧ ¬ taken hostname (nm_hostname new) f ∧
      ¬ taken public_key (nm_public_key new) f ∧ a = inserted new ∧
      f' = <[nm_machine_id new := read_back new]> f
  | UpdateLastSeen u => λ a f',
      a = bool_decide (is_Some (f !! hu_machine_id u)) ∧
      f' = alter (beaten u) (hu_machine_id u) f
  | ListRecent limit => λ a f',
      f' = f ∧ ∃ l, l ≡ₚ values f ∧ StronglySorted (λ x y, newer x y = true) l ∧
                    a = sql_limit limit l
  | ListAll => λ a f',
      f' = f ∧ a ≡ₚ values f ∧
      StronglySorted (λ x y, str_leb (hostname x) (hostname y) = true) a
  | UpdateStatus i s now => λ a f',
      a = bool_decide (is_Some (f !! i)) ∧ f' = alter (restated s now) i f
  | Delete i => λ a f', a = bool_decide (is_Some (f !! i)) ∧ f' = delete i f
  end.

(** The constraint an insert may be refused for. *)
Definition fleet_refuses {A} (c : MachineCall A) (f : Fleet) (e : sqlx_error) : Prop :=
  match c with
  | Insert new =>
      (is_Some (f !! nm_machine_id new) ∧
       e = SqlDatabase "UNIQUE constraint failed: machines.machine_id") ∨
      (taken hostname (nm_hostname new) f ∧
       e = SqlDatabase "UNIQUE constraint failed: machines.hostname") ∨
      (taken public_key (nm_public_key new) f ∧
       e = SqlDatabase "UNIQUE constraint failed: machines.public_key")
  | _ => False
  end.

(** A single-use token is consumed only while unused. *)
Definition consumes (single_use : bool) (t : EnrollmentToken) : bool :=
  negb (single_use && bool_decide (is_Some (et_used_at t))).

Definition tokens_allow {A} (c : TokenCall A) (ts : TokenStore) : A → TokenStore → Prop :=
  match c in TokenCall A return A → TokenStore → Prop with
  | Create new => λ a ts',
      ts !! nt_id new = None ∧ ¬ taken et_token_hash (nt_token_hash new) ts ∧
      a = created new ∧ ts' = <[nt_id new := issued new]> ts
  | FindByHash h => λ a ts', ts' = ts ∧ found_by et_token_hash h ts a
  | Consume i single_use now => λ a ts',
      a = match ts !! i with Some t => consumes single_use t | None => false end ∧
      ts' = if a then alter (stamped now) i ts else ts
  end.

Definition tokens_refuse {A} (c : TokenCall A) (ts : TokenStore) (e : sqlx_error) : Prop :=
  match c with
  | Create new =>
      (is_Some (ts !! nt_id new) ∧
       e = SqlDatabase "UNIQUE constraint failed: machine_enrollment_tokens.id") ∨
      (taken et_token_hash (nt_token_hash new) ts ∧
       e = SqlDatabase "UNIQUE constraint failed: machine_enrollment_tokens.token_hash")
  | _ => False
  end.

(** [created_at] of a key is the text written. *)
Definition keys_allow `{Chrono} {A} (c : KeyCall A) (s : Store) : A → Store → Prop :=
  match c in KeyCall A return A → Store → Prop with
  | CurrentGeneration => λ a s', s' = s ∧ a = default 0%Z (st_generation s)
  | ListEnabled => λ a s',
      s' = s ∧ a ≡ₚ List.filter kr_enabled (values (st_keys s)) ∧
      StronglySorted (λ x y, str_leb (kr_key_id x) (kr_key_id y) = true) a
  | RecordAck i g fingerprint now => λ a s',
      a = bool_decide (is_Some (st_fleet s !! i)) ∧
      s' = set_fleet (alter (acked g fingerprint now) i) s
  | EnsureSeeded key_id public_key now => λ _ s',
      s' = if bool_decide (st_keys s = ∅) then
             MkStore (st_fleet s) (st_tokens s)
               {[key_id := MkCaKeyRecord key_id public_key (to_text now) 1 true]} (Some 1%Z)
           else s
  end.

Definition store_allows `{Chrono} {A} (c : Call A) (s : Store) : A → Store → Prop :=
  match c in Call A return A → Store → Prop with
  | OnMachines c => λ a s', ∃ f', fleet_allows c (st_fleet s) a f' ∧ s' = set_fleet (λ _, f') s
  | OnTokens c => λ a s',
      ∃ ts', tokens_allow c (st_tokens s) a ts' ∧ s' = set_token_store (λ _, ts') s
  | OnKeys c => keys_allow c s
  end.

Definition store_refuses {A} (c : Call A) (s : Store) (e : sqlx_error) : Prop :=
  match c with
  | OnMachines c => fleet_refuses c (st_fleet s) e
  | OnTokens c => tokens_refuse c (st_tokens s) e
  | OnKeys _ => False
  end.

(** One call: an answer the store allows, a refusal it allows, or a database that
    did not answer; the last two change nothing. *)
Definition store_step `{Chrono} {A} (c : Call A) (s : Store) (r : result A sqlx_error)
    (s' : Store) : Prop :=
  match r with
  | Ok a => store_allows c s a s'
  | Err e => s' = s ∧ (e = SqlIo ∨ store_refuses c s e)
  end.

(** Calls whose instants have a text: the years 0000 to 9999. *)
Definition timely {A} (c : Call A) : bool :=
  match c with
  | OnMachines (Insert new) => rfc3339_range (nm_enrolled_at new)
  | OnMachines (UpdateLastSeen u) => rfc3339_range (hu_now u)
  | OnMachines (UpdateStatus _ _ now) => rfc3339_range now
  | OnTokens (Create new) =>
      rfc3339_range (nt_created_at new) && rfc3339_range (nt_expires_at new)
  | OnTokens (Consume _ _ now) => rfc3339_range now
  | OnKeys (RecordAck _ _ _ now) => rfc3339_range now
  | OnKeys (EnsureSeeded _ _ now) => rfc3339_range now
  | _ => true
  end.

(** Each value sits under its own identifier, and the other keys are unique. *)
Record store_wf (s : Store) : Prop := {
  wf_machine_id i m : st_fleet s !! i = Some m → machine_id m = i;
  wf_hostname i j m m' : st_fleet s !! i = Some m → st_fleet s !! j = Some m' →
    hostname m = hostname m' → i = j;
  wf_public_key i j m m' : st_fleet s !! i = Some m → st_fleet s !! j = Some m' →
    public_key m = public_key m' → i = j;
  wf_token_id i t : st_tokens s !! i = Some t → et_id t = i;
  wf_token_hash i j t t' : st_tokens s !! i = Some t → st_tokens s !! j = Some t' →
    et_token_hash t = et_token_hash t' → i = j;
}.

(** The laws: [rep d s] says the tables [d] hold the store [s]. *)
Class RepositoryLaws `{Chrono} (MR : MachineRepository) (TR : EnrollmentTokenRepository)
    (KR : CaKeyRepository) (rep : Db → Store → Prop) : Prop := {
  (** every call is a step of the store *)
  call_refines {A} (c : Call A) w s r w' :
    rep (db w) s → timely c = true → repo_call c w = (r, w') →
    ∃ s', store_step c s r s' ∧ rep (db w') s';
  (** a database that answers is never reported as one that does not *)
  call_answers {A} (c : Call A) w r w' :
    no_faults w → repo_call c w = (r, w') → no_faults w' ∧ r ≠ Err SqlIo;
  (** what is held is well formed *)
  rep_wf d s : rep d s → store_wf s;
  (** the audit log is not part of the store *)
  rep_log d d' s : same_but_audit d d' → rep d s → rep d' s;
}.

(** ** Tables indexed by a key column *)
Section index.
Context {A : Type} (k : A → string).

Definition index (l : list A) : gmap string A := list_to_map ((λ x, (k x, x)) <$> l).

Lemma index_keys l : ((λ x, (k x, x)) <$> l).*1 = k <$> l.
Proof. by rewrite <-list_fmap_compose. Qed.

Lemma lookup_index l i x :
  NoDup (k <$> l) → index l !! i = Some x ↔ x ∈ l ∧ k x = i.
Proof.
  intros Hnd. unfold index. rewrite <-elem_of_list_to_map by by rewrite index_keys.
  rewrite list_elem_of_fmap. naive_solver.
Qed.

Lemma lookup_index_None l i : index l !! i = None ↔ i ∉ k <$> l.
Proof. unfold index. by rewrite <-not_elem_of_list_to_map, index_keys. Qed.

Lemma lookup_index_is_Some l i : is_Some (index l !! i) ↔ i ∈ k <$> l.
Proof.
  rewrite <-not_eq_None_Some, lookup_index_None. split; [|tauto].
  intros Hn. by destruct (decide (i ∈ k <$> l)).
Qed.

Lemma index_snoc l x : k x ∉ k <$> l → index (l ++ [x]) = <[k x := x]> (index l).
Proof.
  intros Hx. unfold index. rewrite fmap_app, list_to_map_app.
  simpl. rewrite insert_empty, <-insert_union_singleton_r; [done|]. by apply lookup_index_None.
Qed.

Lemma index_alter g l i :
  (∀ x, k (g x) = k x) →
  index ((λ x, if bool_decide (k x = i) then g x else x) <$> l) = alter g i (index l).
Proof.
  intros Hg. induction l as [|x l IH]; [symmetry; apply alter_empty|].
  change (index (x :: l)) with (<[k x := x]> (index l)).
  rewrite fmap_cons. case_bool_decide as Hx.
  - change (<[k (g x) := g x]> (index ((λ x, if bool_decide (k x = i) then g x else x) <$> l))
      = alter g i (<[k x := x]> (index l))).
    rewrite IH, Hg, Hx, alter_insert_eq. apply map_eq. intros j.
    destruct (decide (i = j)) as [->|]; by simplify_map_eq.
  - change (<[k x := x]> (index ((λ x, if bool_decide (k x = i) then g x else x) <$> l))
      = alter g i (<[k x := x]> (index l))).
    by rewrite IH, alter_insert_ne.
Qed.

Lemma index_delete l i :
  index (List.filter (λ x, negb (bool_decide (k x = i))) l) = delete i (index l).
Proof.
  induction l as [|x l IH]; [symmetry; apply delete_empty|]. simpl.
  change (index (x :: l)) with (<[k x := x]> (index l)).
  case_bool_decide as Hx; simpl.
  - by rewrite IH, Hx, delete_insert_eq.
  - change (<[k x := x]> (index (List.filter (λ x, negb (bool_decide (k x = i))) l))
      = delete i (<[k x := x]> (index l))). by rewrite IH, delete_insert_ne.
Qed.

Lemma values_index l : NoDup (k <$> l) → values (index l) ≡ₚ l.
Proof.
  intros Hnd. unfold values, index. rewrite map_to_list_to_map by by rewrite index_keys.
  by rewrite <-list_fmap_compose, list_fmap_id.
Qed.

Lemma taken_index (key : A → string) l h :
  NoDup (k <$> l) → taken key h (index l) ↔ h ∈ key <$> l.
Proof.
  intros Hnd. unfold taken. setoid_rewrite lookup_index; [|done..].
  rewrite list_elem_of_fmap. naive_solver.
Qed.

(** A lookup by a column finds what the map holds under that column. *)
Lemma found_index (key : A → string) l h :
  NoDup (k <$> l) →
  found_by key h (index l) (find (λ x, bool_decide (key x = h)) l).
Proof.
  intros Hnd. destruct (find _ l) as [x|] eqn:Hf; simpl.
  - apply find_some in Hf as [Hin%list_elem_of_In Hk]. apply bool_decide_eq_true in Hk.
    split; [done|]. exists (k x). by apply lookup_index.
  - intros i x [Hin _]%lookup_index Hk; [|done]. apply find_key_none in Hf. apply Hf.
    apply list_elem_of_fmap. by exists x.
Qed.

Lemma lookup_index_find l i :
  NoDup (k <$> l) → find (λ x, bool_decide (k x = i)) l = index l !! i.
Proof.
  intros Hnd. destruct (index l !! i) as [x|] eqn:Hi.
  - apply lookup_index in Hi as [Hin Hk]; [|done]. by apply find_key.
  - apply lookup_index_None in Hi. by apply find_key_none.
Qed.

(** How many rows a statement by key touches. *)
Lemma count_index l i :
  NoDup (k <$> l) →
  (Z.of_nat (length (List.filter (λ x, bool_decide (k x = i)) l)) =? 1)%Z
    = bool_decide (is_Some (index l !! i)).
Proof.
  intros Hnd. case_bool_decide as Hi; rewrite lookup_index_is_Some in Hi.
  - apply list_elem_of_fmap in Hi as (x & -> & Hx).
    pose proof (update_where_key k (k x) id l x Hnd Hx eq_refl) as Hc. simpl in Hc. by rewrite Hc.
  - pose proof (update_where_no_key k i id l Hi) as Hc. unfold update_where in Hc.
    by injection Hc as -> _.
Qed.
End index.

(** Statements on encoded rows are statements on what they encode. *)
Lemma find_fmap {A B} (f : A → B) (p : B → bool) l :
  find p (f <$> l) = f <$> find (λ x, p (f x)) l.
Proof. induction l as [|x l IH]; csimpl; [done|]. by case_match. Qed.

Lemma filter_fmap {A B} (f : A → B) (p : B → bool) l :
  List.filter p (f <$> l) = f <$> List.filter (λ x, p (f x)) l.
Proof. induction l as [|x l IH]; csimpl; [done|]. rewrite IH. by case_match. Qed.

#[export] Instance filter_perm {A} (p : A → bool) : Proper ((≡ₚ) ==> (≡ₚ)) (List.filter p).
Proof.
  intros l l' Hl. induction Hl as [|x l l' Hl IH|x y l|l1 l2 l3 H1 IH1 H2 IH2]; simpl.
  - done.
  - case_match; by rewrite IH.
  - repeat case_match; try done. constructor.
  - by etrans.
Qed.

Lemma sort_by_fmap {A B} (f : A → B) (leb : B → B → bool) (leb' : A → A → bool) l :
  (∀ x y, x ∈ l → y ∈ l → leb (f x) (f y) = leb' x y) →
  sort_by leb (f <$> l) = f <$> sort_by leb' l.
Proof.
  induction l as [|x l IH]; intros Hl; [done|]. csimpl.
  change (insert_by leb (f x) (sort_by leb (f <$> l)) = f <$> insert_by leb' x (sort_by leb' l)).
  rewrite IH by set_solver.
  assert (∀ y, y ∈ sort_by leb' l → leb (f x) (f y) = leb' x y) as Hx.
  { intros y Hy. rewrite sort_by_perm in Hy. set_solver. }
  clear IH Hl. induction (sort_by leb' l) as [|y l' IH]; [done|]. csimpl.
  rewrite (Hx y) by set_solver. destruct (leb' x y); [done|]. csimpl. f_equal.
  apply IH. set_solver.
Qed.

(** ** What SQLite's tables hold *)
Section representation.
Context `{Chrono}.

(** An instant that survives the column: in range, in whole milliseconds. *)
Definition storable (t : Z) : Prop := rfc3339_range t = true ∧ trunc_millis t = t.

Definition machine_storable (m : Machine) : Prop :=
  storable (enrolled_at m) ∧ storable (created_at m) ∧ storable (updated_at m) ∧
  from_option storable True (last_seen m) ∧ from_option storable True (last_sync m).

Definition token_storable (t : EnrollmentToken) : Prop :=
  storable (et_created_at t) ∧ storable (et_expires_at t) ∧
  from_option storable True (et_used_at t).

(** The row that holds a machine, a token, a key. *)
Definition machine_row (m : Machine) : MachineRow :=
  MkMachineRow (machine_id m) (hostname m) (public_key m) (os m) (arch m) (agent_version m)
    (MachineStatus_as_str (status m)) (ip m) (current_generation m) (synced_generation m)
    (bundle_fingerprint m) (to_text <$> last_sync m) (to_text <$> last_seen m)
    (to_text (enrolled_at m)) (to_text (created_at m)) (to_text (updated_at m)).

Definition token_row (t : EnrollmentToken) : TokenRow :=
  MkTokenRow (et_id t) (et_token_hash t) (to_text (et_created_at t)) (to_text (et_expires_at t))
    (to_text <$> et_used_at t) (et_created_by t) (if et_single_use t then 1 else 0)%Z.

Definition key_row (r : CaKeyRecord) : CaKeyRow :=
  MkCaKeyRow (kr_key_id r) (kr_public_key r) (kr_created_at r) (kr_generation r)
    (if kr_enabled r then 1 else 0)%Z.

Record holds_machines (ms : list Machine) (rows : list MachineRow) (f : Fleet) : Prop := {
  hm_rows : rows = machine_row <$> ms;
  hm_map : f = index machine_id ms;
  hm_ids : NoDup (machine_id <$> ms);
  hm_hosts : NoDup (hostname <$> ms);
  hm_public_keys : NoDup (public_key <$> ms);
  hm_times : Forall machine_storable ms;
}.

Record holds_tokens (ts : list EnrollmentToken) (rows : list TokenRow) (m : TokenStore)
  : Prop := {
  ht_rows : rows = token_row <$> ts;
  ht_map : m = index et_id ts;
  ht_ids : NoDup (et_id <$> ts);
  ht_hashes : NoDup (et_token_hash <$> ts);
  ht_times : Forall token_storable ts;
}.

Record holds_keys (ks : list CaKeyRecord) (rows : list CaKeyRow) (m : gmap string CaKeyRecord)
  : Prop := {
  hk_rows : rows = key_row <$> ks;
  hk_map : m = index kr_key_id ks;
  hk_ids : NoDup (kr_key_id <$> ks);
}.

(** The representation: some order of the rows holds the maps. *)
Record holds (d : Db) (s : Store) : Prop := {
  h_machines : ∃ ms, holds_machines ms (machines d) (st_fleet s);
  h_tokens : ∃ ts, holds_tokens ts (enrollment_tokens d) (st_tokens s);
  h_keys : ∃ ks, holds_keys ks (ca_keys d) (st_keys s);
  h_generation : ca_bundle_state d = st_generation s;
}.

Lemma empty_holds : holds empty_db empty_store.
Proof.
  split; simpl; [exists []..|done]; split; try done; try apply NoDup_nil_2; try constructor.
Qed.

(** ** Statements, by their outcome *)
Lemma execute_cases {A} (f : Db → result (A * Db) sqlx_error) w r w' :
  execute f w = (r, w') →
  (r = Err SqlIo ∧ db w' = db w) ∨
  match f (db w) with
  | Ok (a, d) => r = Ok a ∧ db w' = d
  | Err e => r = Err e ∧ db w' = db w
  end.
Proof. unfold execute, apply_statement, mbind, M_bind, db_call. intros. cases; eauto. Qed.

Context `{!ChronoLaws, !ChronoOrder}.

Lemma range_trunc t : rfc3339_range t = true → rfc3339_range (trunc_millis t) = true.
Proof.
  unfold rfc3339_range, in_range. rewrite !andb_true_iff, !Z.leb_le.
  pose proof (trunc_millis_bound t) as Hb. intros [Hlo Hhi]. split; [|lia].
  unfold trunc_millis, seconds, nanos_per_sec, nanos_per_milli in *.
  apply (Z.div_le_mono _ _ 1000000) in Hlo; [|lia].
  change (-62167219200 * 1000000000)%Z with (-62167219200000 * 1000000)%Z in *.
  rewrite Z.div_mul in Hlo by lia. lia.
Qed.

Lemma storable_trunc t : rfc3339_range t = true → storable (trunc_millis t).
Proof. split; [by apply range_trunc|apply trunc_millis_idemp]. Qed.

Lemma to_text_trunc t : rfc3339_range t = true → to_text (trunc_millis t) = to_text t.
Proof.
  intros Ht. pose proof (range_trunc t Ht) as Ht'. unfold to_text.
  apply str_leb_antisym; rewrite millis_order by done; rewrite trunc_millis_idemp;
    apply Z.leb_refl.
Qed.

Lemma parse_storable t : storable t → parse_dt (to_text t) = Ok t.
Proof. intros [Hr Ht]. by rewrite parse_to_text, Ht. Qed.

Lemma parse_storable_opt o :
  from_option storable True o → transpose (parse_dt <$> (to_text <$> o)) = Ok o.
Proof. destruct o as [t|]; simpl; [|done]. intros Ht. by rewrite parse_storable. Qed.

Lemma machine_row_reads m : machine_storable m → machine_try_from (machine_row m) = Ok m.
Proof.
  intros (He & Hc & Hu & Hs & Hy). unfold machine_try_from. simpl. rewrite from_db_str_as_str.
  simpl. rewrite !parse_storable_opt by done. simpl. rewrite !parse_storable by done.
  by destruct m.
Qed.

Lemma token_row_reads t : token_storable t → token_try_from (token_row t) = Ok t.
Proof.
  intros (Hc & He & Hu). unfold token_try_from. simpl. rewrite parse_storable_opt by done.
  simpl. rewrite !parse_storable by done. simpl. by destruct t as [??????[]].
Qed.

Lemma storable_order t u :
  storable t → storable u → str_leb (to_text t) (to_text u) = (t <=? u)%Z.
Proof. intros [Ht Et] [Hu Eu]. unfold to_text. by rewrite millis_order, Et, Eu. Qed.

Lemma storable_text_eq t u :
  storable t → storable u → bool_decide (to_text t = to_text u) = (t =? u)%Z.
Proof.
  intros Ht Hu. destruct (Z.eqb_spec t u) as [->|Hne]; [by rewrite bool_decide_true|].
  apply bool_decide_eq_false. intros Heq. pose proof (parse_storable t Ht) as Hp.
  rewrite Heq, parse_storable in Hp by done. congruence.
Qed.

Lemma by_recency_newer m m' :
  machine_storable m → machine_storable m' →
  by_recency (machine_row m) (machine_row m') = newer m m'.
Proof.
  intros (_ & Hc & _ & Hs & _) (_ & Hc' & _ & Hs' & _). unfold by_recency, newer. simpl.
  destruct (last_seen m), (last_seen m'); simpl in *; try done;
    rewrite ?storable_text_eq, ?storable_order by done; done.
Qed.
End representation.

(** ** The machine repository *)
Section machine_repository.
Context `{Chrono, !ChronoLaws, !ChronoOrder}.

(** Either the database did not answer, or the answer is [a] and leaves [d]. *)
Definition outcome {A} (w : World) (r : result A sqlx_error) (w' : World)
    (a : A) (d : Db) : Prop :=
  (r = Err SqlIo ∧ db w' = db w) ∨ (r = Ok a ∧ db w' = d).

Lemma query_outcome {A B} (f : Db → A) (g : A → result B sqlx_error) b w r w' :
  (x ← query f; lift (g x)) w = (r, w') → g (f (db w)) = Ok b → outcome w r w' b (db w).
Proof.
  unfold query, gets, lift, mbind, M_bind, db_call, outcome. intros Hq Hg. cases; auto.
  all: rewrite ?Hg; auto.
Qed.

Lemma fetch_holds ms f p q w r w' :
  holds_machines ms (machines (db w)) f → (∀ m, p (machine_row m) = q m) →
  fetch_machine p w = (r, w') → outcome w r w' (find q ms) (db w).
Proof.
  intros Hm Hpq Hf. unfold fetch_machine in Hf. eapply query_outcome; [exact Hf|]. cbn beta. rewrite (hm_rows _ _ _ Hm), find_fmap.
  replace (find (λ x, p (machine_row x)) ms) with (find q ms)
    by (clear -Hpq; induction ms; simpl; [done|]; rewrite Hpq; by case_match).
  destruct (find q ms) as [m|] eqn:Hq; [|done]. simpl. rewrite machine_row_reads; [done|].
  apply find_some in Hq as [Hin%list_elem_of_In _]. pose proof (hm_times _ _ _ Hm) as Ht.
  rewrite Forall_forall in Ht. by apply Ht.
Qed.

Lemma rows_read ms l :
  Forall machine_storable ms → (∀ m, m ∈ l → m ∈ ms) →
  collect (machine_try_from <$> (machine_row <$> l)) = Ok l.
Proof.
  intros Hs Hl. rewrite Forall_forall in Hs. rewrite <-list_fmap_compose.
  rewrite (collect_map_ok _ id), list_fmap_id; [done|]. intros m Hm. simpl.
  apply machine_row_reads; auto.
Qed.

(** A change of a machine that a single [UPDATE] by identifier makes. *)
Record row_change (g : MachineRow → MachineRow) (g' : Machine → Machine) : Prop := {
  rc_row m : g (machine_row m) = machine_row (g' m);
  rc_id m : machine_id (g' m) = machine_id m;
  rc_host m : hostname (g' m) = hostname m;
  rc_key m : public_key (g' m) = public_key m;
  rc_storable m : machine_storable m → machine_storable (g' m);
}.

Lemma beaten_change u : rfc3339_range (hu_now u) = true → row_change (heartbeat_row u) (beaten u).
Proof.
  intros Hu. pose proof (storable_trunc _ Hu). split; try done.
  - intros m. unfold heartbeat_row, machine_row. simpl. by rewrite to_text_trunc.
  - intros m (? & ? & ? & ? & ?). by split_and!.
Qed.

Lemma restated_change s now : rfc3339_range now = true → row_change (status_row s now) (restated s now).
Proof.
  intros Hu. pose proof (storable_trunc _ Hu). split; try done.
  - intros m. unfold status_row, machine_row. simpl. by rewrite to_text_trunc.
  - intros m (? & ? & ? & ? & ?). by split_and!.
Qed.

Lemma acked_change g fp now : rfc3339_range now = true → row_change (ack_row g fp now) (acked g fp now).
Proof.
  intros Hu. pose proof (storable_trunc _ Hu). split; try done.
  - intros m. unfold ack_row, machine_row. simpl. by rewrite to_text_trunc.
  - intros m (? & ? & ? & ? & ?). by split_and!.
Qed.

Lemma holds_change g g' i ms rows f :
  row_change g g' → holds_machines ms rows f →
  holds_machines ((λ m, if bool_decide (machine_id m = i) then g' m else m) <$> ms)
    (update_where (λ r, bool_decide (mr_machine_id r = i)) g rows).2 (alter g' i f).
Proof.
  intros Hg [-> -> Hi Hh Hk Ht].
  assert (∀ key : Machine → string, (∀ m, key (g' m) = key m) →
    key <$> ((λ m, if bool_decide (machine_id m = i) then g' m else m) <$> ms) = key <$> ms) as Hkey.
  { intros key Hkey. rewrite <-list_fmap_compose. apply list_fmap_ext. intros ? m _. simpl.
    by case_bool_decide. }
  split.
  - unfold update_where. simpl. rewrite <-!list_fmap_compose. apply list_fmap_ext.
    intros ? m _. simpl. case_bool_decide; [by apply Hg|done].
  - symmetry. apply index_alter, Hg.
  - rewrite Hkey; [done|apply Hg].
  - rewrite Hkey; [done|apply Hg].
  - rewrite Hkey; [done|apply Hg].
  - apply Forall_fmap. eapply Forall_impl; [done|]. intros m Hm. simpl.
    case_bool_decide; [by apply Hg|done].
Qed.

Lemma update_holds g g' i ms f w r w' :
  row_change g g' → holds_machines ms (machines (db w)) f → update_machine i g w = (r, w') →
  (r = Err SqlIo ∧ db w' = db w) ∨
  (r = Ok (bool_decide (is_Some (f !! i))) ∧
   ∃ rows ms', db w' = set_machines (λ _, rows) (db w) ∧ holds_machines ms' rows (alter g' i f)).
Proof.
  intros Hg Hm. pose proof (holds_change g g' i _ _ _ Hg Hm) as Hm'. destruct Hm as [Hr Hf Hi _ _ _].
  unfold update_machine, mbind, M_bind. destruct (execute _ w) as [x w1] eqn:He.
  apply execute_cases in He as [[-> Hd]|[-> Hd]]; intros [= <- <-]; [by left|]. right.
  split; [|by eauto]. f_equal. simpl. rewrite Hr, filter_fmap, length_fmap.
  rewrite Hf. by apply count_index.
Qed.

Lemma insert_holds new ms f w r w' :
  rfc3339_range (nm_enrolled_at new) = true →
  holds_machines ms (machines (db w)) f → machine_insert new w = (r, w') →
  (∃ e, r = Err e ∧ db w' = db w ∧ (e = SqlIo ∨ fleet_refuses (Insert new) f e)) ∨
  (∃ a f' rows ms', r = Ok a ∧ fleet_allows (Insert new) f a f' ∧
     db w' = set_machines (λ _, rows) (db w) ∧ holds_machines ms' rows f').
Proof.
  intros Ht [Hr -> Hi Hh Hk Hs]. unfold machine_insert, mbind, M_bind.
  assert (∀ (key : MachineRow → string) (key' : Machine → string) x,
    (∀ m, key (machine_row m) = key' m) →
    existsb (λ r', bool_decide (key r' = x)) (machines (db w)) = true ↔ x ∈ key' <$> ms) as Hex.
  { intros key key' x Hkey. rewrite <-not_false_iff_true, existsb_key, Hr, <-list_fmap_compose.
    rewrite (list_fmap_ext _ key') by (intros; apply Hkey).
    destruct (decide (x ∈ key' <$> ms)); tauto. }
  destruct (execute _ w) as [x w1] eqn:He. apply execute_cases in He as [[-> Hd]|He].
  { intros [= <- <-]. left. eauto. }
  unfold insert_machine_row in He. simpl in He.
  destruct (existsb (λ r', bool_decide (mr_machine_id r' = _)) _) eqn:E1.
  { destruct He as [-> Hd]. intros [= <- <-]. left. eexists. split_and!; [done|done|]. right. left.
    split; [|done]. apply lookup_index_is_Some. by apply (Hex mr_machine_id machine_id). }
  destruct (existsb (λ r', bool_decide (mr_hostname r' = _)) _) eqn:E2.
  { destruct He as [-> Hd]. intros [= <- <-]. left. eexists. split_and!; [done|done|]. right. right.
    left. split; [|done]. apply taken_index; [done|]. by apply (Hex mr_hostname hostname). }
  destruct (existsb (λ r', bool_decide (mr_public_key r' = _)) _) eqn:E3.
  { destruct He as [-> Hd]. intros [= <- <-]. left. eexists. split_and!; [done|done|]. right. right.
    right. split; [|done]. apply taken_index; [done|]. by apply (Hex mr_public_key public_key). }
  destruct He as [-> Hd]. intros [= <- <-]. right.
  apply not_true_iff_false in E1, E2, E3.
  rewrite (Hex mr_machine_id machine_id) in E1 by done.
  rewrite (Hex mr_hostname hostname) in E2 by done.
  rewrite (Hex mr_public_key public_key) in E3 by done.
  pose proof (storable_trunc _ Ht) as Hst.
  eexists _, _, _, (ms ++ [read_back new]). split_and!; [done| | exact Hd |].
  - split_and!; [by apply lookup_index_None|by rewrite taken_index..|done|done].
  - split; rewrite ?fmap_app.
    + rewrite Hr. f_equal. unfold new_machine_row, machine_row. simpl. by rewrite to_text_trunc.
    + symmetry. by apply (index_snoc machine_id _ (read_back new)).
    + by apply NoDup_app_snoc.
    + by apply NoDup_app_snoc.
    + by apply NoDup_app_snoc.
    + apply Forall_app. split; [done|]. apply Forall_singleton. by split_and!.
Qed.

Lemma delete_holds i ms f w r w' :
  holds_machines ms (machines (db w)) f → machine_delete i w = (r, w') →
  (r = Err SqlIo ∧ db w' = db w) ∨
  (r = Ok (bool_decide (is_Some (f !! i))) ∧
   ∃ rows ms', db w' = set_machines (λ _, rows) (db w) ∧ holds_machines ms' rows (delete i f)).
Proof.
  intros [Hr -> Hi Hh Hk Hs]. unfold machine_delete, mbind, M_bind.
  destruct (execute _ w) as [x w1] eqn:He. apply execute_cases in He as [[-> Hd]|[-> Hd]];
    intros [= <- <-]; [by left|]. right. split.
  - f_equal. rewrite Hr, filter_fmap, length_fmap. by apply count_index.
  - exists (List.filter (λ r, negb (bool_decide (mr_machine_id r = i))) (machines (db w))),
      (List.filter (λ m, negb (bool_decide (machine_id m = i))) ms). split; [done|].
    pose proof (filter_sublist (λ m, negb (bool_decide (machine_id m = i))) ms) as Hsub.
    split.
    + by rewrite Hr, filter_fmap.
    + symmetry. apply index_delete.
    + eapply sublist_NoDup; [exact Hi|]. by apply fmap_sublist.
    + eapply sublist_NoDup; [exact Hh|]. by apply fmap_sublist.
    + eapply sublist_NoDup; [exact Hk|]. by apply fmap_sublist.
    + rewrite Forall_forall in Hs |- *. intros m Hm. apply Hs. by eapply elem_of_sublist.
Qed.
End machine_repository.

(** ** The token and key repositories *)
Section other_repositories.
Context `{Chrono, !ChronoLaws, !ChronoOrder}.

Lemma create_holds new ts m w r w' :
  rfc3339_range (nt_created_at new) = true → rfc3339_range (nt_expires_at new) = true →
  holds_tokens ts (enrollment_tokens (db w)) m → token_create new w = (r, w') →
  (∃ e, r = Err e ∧ db w' = db w ∧ (e = SqlIo ∨ tokens_refuse (Create new) m e)) ∨
  (∃ a m' rows ts', r = Ok a ∧ tokens_allow (Create new) m a m' ∧
     db w' = set_tokens (λ _, rows) (db w) ∧ holds_tokens ts' rows m').
Proof.
  intros Hc He [Hr -> Hi Hh Ht]. unfold token_create, mbind, M_bind.
  assert (∀ (key : TokenRow → string) (key' : EnrollmentToken → string) x,
    (∀ t, key (token_row t) = key' t) →
    existsb (λ r', bool_decide (key r' = x)) (enrollment_tokens (db w)) = true ↔ x ∈ key' <$> ts)
    as Hex.
  { intros key key' x Hkey. rewrite <-not_false_iff_true, existsb_key, Hr, <-list_fmap_compose.
    rewrite (list_fmap_ext _ key') by (intros; apply Hkey).
    destruct (decide (x ∈ key' <$> ts)); tauto. }
  destruct (execute _ w) as [x w1] eqn:Hx. apply execute_cases in Hx as [[-> Hd]|Hx].
  { intros [= <- <-]. left. eauto. }
  unfold insert_token_row in Hx. simpl in Hx.
  destruct (existsb (λ r', bool_decide (tr_id r' = _)) _) eqn:E1.
  { destruct Hx as [-> Hd]. intros [= <- <-]. left. eexists. split_and!; [done|done|]. right. left.
    split; [|done]. apply lookup_index_is_Some. by apply (Hex tr_id et_id). }
  destruct (existsb (λ r', bool_decide (tr_token_hash r' = _)) _) eqn:E2.
  { destruct Hx as [-> Hd]. intros [= <- <-]. left. eexists. split_and!; [done|done|]. right. right.
    split; [|done]. apply taken_index; [done|]. by apply (Hex tr_token_hash et_token_hash). }
  destruct Hx as [-> Hd]. intros [= <- <-]. right. apply not_true_iff_false in E1, E2.
  rewrite (Hex tr_id et_id) in E1 by done. rewrite (Hex tr_token_hash et_token_hash) in E2 by done.
  eexists _, _, _, (ts ++ [issued new]). split_and!; [done| | exact Hd |].
  - split_and!; [by apply lookup_index_None|by rewrite taken_index|done|done].
  - split; rewrite ?fmap_app.
    + rewrite Hr. f_equal. unfold new_token_row, token_row. simpl. by rewrite !to_text_trunc.
    + symmetry. by apply (index_snoc et_id _ (issued new)).
    + by apply NoDup_app_snoc.
    + by apply NoDup_app_snoc.
    + apply Forall_app. split; [done|]. apply Forall_singleton.
      by split_and!; [apply storable_trunc..|].
Qed.

Lemma find_by_hash_holds h ts m w r w' :
  holds_tokens ts (enrollment_tokens (db w)) m → find_by_hash h w = (r, w') →
  outcome w r w' (find (λ t, bool_decide (et_token_hash t = h)) ts) (db w).
Proof.
  intros Hm Hf. unfold find_by_hash in Hf. eapply query_outcome; [exact Hf|]. cbn beta.
  rewrite (ht_rows _ _ _ Hm), find_fmap. simpl.
  destruct (find _ ts) as [t|] eqn:Hq; [|done]. simpl. rewrite token_row_reads; [done|].
  apply find_some in Hq as [Hin%list_elem_of_In _]. pose proof (ht_times _ _ _ Hm) as Ht.
  rewrite Forall_forall in Ht. by apply Ht.
Qed.

Lemma consumable_row i su t :
  consumable i su (token_row t) = bool_decide (et_id t = i) && consumes su t.
Proof.
  unfold consumable, consumes. simpl. f_equal. destruct su; [|done]. simpl.
  destruct (et_used_at t); simpl; repeat case_bool_decide; naive_solver.
Qed.

(** A conditional change of one entry. *)
Lemma alter_if {A} (p : A → bool) (h : A → A) i (m : gmap string A) :
  alter (λ x, if p x then h x else x) i m =
    if match m !! i with Some x => p x | None => false end then alter h i m else m.
Proof.
  destruct (m !! i) as [x|] eqn:Hi.
  - destruct (p x) eqn:Hp; [apply alter_ext|apply alter_id]; intros y Hy; simplify_eq; by rewrite Hp.
  - by apply alter_id; intros y Hy; simplify_eq.
Qed.

Lemma consume_count i su ts :
  NoDup (et_id <$> ts) →
  (Z.of_nat (length (List.filter (λ t, bool_decide (et_id t = i) && consumes su t) ts)) =? 1)%Z
    = match index et_id ts !! i with Some t => consumes su t | None => false end.
Proof.
  intros Hi. destruct (index et_id ts !! i) as [t|] eqn:Hl.
  - apply lookup_index in Hl as [Hin Hid]; [|done].
    assert (∀ l, List.filter (λ t, bool_decide (et_id t = i) && consumes su t) l =
      List.filter (consumes su) (List.filter (λ t, bool_decide (et_id t = i) && true) l)) as ->.
    { intros l. induction l as [|x l IH]; [done|]. simpl. rewrite IH, andb_true_r.
      by case_bool_decide. }
    rewrite (filter_key et_id i _ ts t) by done. simpl. by destruct (consumes su t).
  - apply lookup_index_None in Hl. clear Hi. induction ts as [|t ts IH]; [done|].
    csimpl in *. rewrite bool_decide_false by set_solver. simpl. apply IH. set_solver.
Qed.

Lemma holds_stamp i su now ts rows m :
  rfc3339_range now = true → holds_tokens ts rows m →
  let h t := if consumes su t then stamped now t else t in
  holds_tokens ((λ t, if bool_decide (et_id t = i) then h t else t) <$> ts)
    (update_where (consumable i su) (used_row now) rows).2 (alter h i m).
Proof.
  intros Hnow [-> -> Hi Hh Ht] h. pose proof (storable_trunc now Hnow) as Hst.
  assert (Hkey : ∀ key : EnrollmentToken → string, (∀ t, key (stamped now t) = key t) →
    key <$> ((λ t, if bool_decide (et_id t = i) then h t else t) <$> ts) = key <$> ts).
  { intros key Hkey. rewrite <-list_fmap_compose. apply list_fmap_ext. intros ? t _. simpl.
    unfold h. by repeat case_match. }
  split; rewrite ?Hkey; try done.
  - unfold update_where. simpl. rewrite <-!list_fmap_compose. apply list_fmap_ext.
    intros ? t _. simpl. rewrite consumable_row. unfold h.
    case_bool_decide; simpl; [|done]. case_match; [|done].
    unfold used_row, token_row. simpl. by rewrite to_text_trunc.
  - symmetry. apply index_alter. intros t. unfold h. by case_match.
  - apply Forall_fmap. eapply Forall_impl; [done|]. intros t (Hc & He & Hu). simpl.
    unfold h. repeat case_match; by split_and!.
Qed.

Lemma consume_holds i su now ts m w r w' :
  rfc3339_range now = true →
  holds_tokens ts (enrollment_tokens (db w)) m → token_consume i su now w = (r, w') →
  (r = Err SqlIo ∧ db w' = db w) ∨
  (∃ a m' rows ts', r = Ok a ∧ tokens_allow (Consume i su now) m a m' ∧
     db w' = set_tokens (λ _, rows) (db w) ∧ holds_tokens ts' rows m').
Proof.
  intros Hnow Hm. pose proof (holds_stamp i su now _ _ _ Hnow Hm) as Hm'.
  destruct Hm as [Hr -> Hi Hh Ht]. unfold token_consume, mbind, M_bind.
  destruct (execute _ w) as [x w1] eqn:He. apply execute_cases in He as [[-> Hd]|[-> Hd]];
    intros [= <- <-]; [by left|]. right.
  rewrite Hr, filter_fmap, length_fmap, (filter_ext _ _ (consumable_row i su)), consume_count by done.
  eexists _, _, _, _. split_and!; [done| |exact Hd|exact Hm'].
  split; [done|]. apply alter_if.
Qed.

(** A key whose [enabled] column is [1] is an enabled one. *)
Lemma key_row_reads k : CaKeyRecord_from (key_row k) = k.
Proof. by destruct k as [????[]]. Qed.

Lemma list_enabled_holds ks m w r w' :
  holds_keys ks (ca_keys (db w)) m → list_enabled w = (r, w') →
  outcome w r w' (sort_by (λ a b, str_leb (kr_key_id a) (kr_key_id b)) (List.filter kr_enabled ks))
    (db w).
Proof.
  intros Hk Hf. unfold list_enabled in Hf.
  eapply (query_outcome _ (λ rows, Ok (CaKeyRecord_from <$> rows))); [exact Hf|]. cbn beta.
  rewrite (hk_rows _ _ _ Hk), filter_fmap.
  rewrite (filter_ext _ kr_enabled) by by intros [????[]].
  rewrite (sort_by_fmap key_row _ (λ a b, str_leb (kr_key_id a) (kr_key_id b))) by done.
  rewrite <-list_fmap_compose. f_equal. rewrite <-(list_fmap_id (sort_by _ _)) at 2.
  apply list_fmap_ext. intros ? k _. apply key_row_reads.
Qed.

Lemma seed_holds key_id public_key now ks w r w' s :
  holds_keys ks (ca_keys (db w)) (st_keys s) → ca_bundle_state (db w) = st_generation s →
  repo_ensure_seeded key_id public_key now w = (r, w') →
  (r = Err SqlIo ∧ db w' = db w) ∨
  (r = Ok tt ∧
   if bool_decide (st_keys s = ∅) then
     db w' = set_ca_bundle_state 1
               (set_ca_keys (λ _, [MkCaKeyRow key_id public_key (to_text now) 1 1]) (db w))
   else db w' = db w).
Proof.
  intros [Hr Hm Hi] Hg. unfold repo_ensure_seeded, transaction, seed_body.
  assert (bool_decide (st_keys s = ∅) = (Z.of_nat (length (ca_keys (db w))) =? 0)%Z) as ->.
  { rewrite Hm, Hr, length_fmap. destruct ks as [|k ks]; [done|].
    apply bool_decide_eq_false. apply insert_non_empty. }
  unfold query, execute, apply_statement, gets, insert_ca_key, ret, mbind, M_bind, db_call, with_db.
  intros Hrun. destruct (ca_keys (db w)) eqn:Hk; cases; simpl in *;
    rewrite ?Hk in *; simpl in *; simplify_eq; auto.
  all: right; split; [done|]; unfold set_ca_keys; by rewrite Hk.
Qed.
End other_repositories.

(** ** A database that answers *)

(** [answers m]: without failing statements [m] consumes none and does not report one. *)
Definition answers {A} (m : M World sqlx_error A) : Prop :=
  ∀ w r w', no_faults w → m w = (r, w') → no_faults w' ∧ r ≠ Err SqlIo.

Lemma answers_query {A B} (f : Db → A) (g : A → result B sqlx_error) :
  (∀ a, g a ≠ Err SqlIo) → answers (x ← query f; lift (g x)).
Proof.
  intros Hg w r w' Hw. erewrite bind_ok by by apply query_ok. by intros [= <- <-].
Qed.

Lemma answers_execute {A B} (f : Db → result (A * Db) sqlx_error) (g : A → B) :
  (∀ d, f d ≠ Err SqlIo) → answers (x ← execute f; ret (g x)).
Proof.
  intros Hf w r w' Hw. unfold mbind, M_bind. rewrite execute_ok by done. specialize (Hf (db w)).
  destruct (f (db w)) as [[a d]|e]; intros [= <- <-]; [done|]. split; [done|]. congruence.
Qed.

Section decoding_answers.
Context `{Chrono}.

Lemma let_answers {A B} (r : result A sqlx_error) (k : A → result B sqlx_error) :
  r ≠ Err SqlIo → (∀ a, k a ≠ Err SqlIo) → (let? x := r in k x)%res ≠ Err SqlIo.
Proof. destruct r; simpl; [auto|congruence]. Qed.

Lemma transpose_answers {A B} (f : A → result B sqlx_error) o :
  (∀ a, f a ≠ Err SqlIo) → transpose (f <$> o) ≠ Err SqlIo.
Proof.
  intros Hf. destruct o as [a|]; [|done]. specialize (Hf a). simpl. destruct (f a); congruence.
Qed.

Lemma collect_answers {A B} (f : A → result B sqlx_error) l :
  (∀ a, f a ≠ Err SqlIo) → collect (f <$> l) ≠ Err SqlIo.
Proof.
  intros Hf. induction l as [|a l IH]; csimpl; [done|]. specialize (Hf a).
  destruct (f a); [|congruence]. destruct (collect (f <$> l)); congruence.
Qed.

Lemma parse_dt_answers v : parse_dt v ≠ Err SqlIo.
Proof. unfold parse_dt. by destruct (parse_from_rfc3339 v). Qed.

Lemma machine_try_from_answers r : machine_try_from r ≠ Err SqlIo.
Proof.
  unfold machine_try_from. apply let_answers; [by destruct (MachineStatus_from_db_str _)|].
  intros st. repeat (apply let_answers; [|intros ?]); try done;
    auto using parse_dt_answers, transpose_answers.
Qed.

Lemma token_try_from_answers r : token_try_from r ≠ Err SqlIo.
Proof.
  unfold token_try_from. repeat (apply let_answers; [|intros ?]); try done;
    auto using parse_dt_answers, transpose_answers.
Qed.

Lemma insert_machine_row_answers r d : insert_machine_row r d ≠ Err SqlIo.
Proof. unfold insert_machine_row. by repeat case_match. Qed.

Lemma insert_token_row_answers r d : insert_token_row r d ≠ Err SqlIo.
Proof. unfold insert_token_row. by repeat case_match. Qed.

Lemma seed_answers key_id public_key now : answers (repo_ensure_seeded key_id public_key now).
Proof.
  intros w r w' Hw. unfold repo_ensure_seeded, transaction, seed_body.
  unfold query, execute, apply_statement, gets, insert_ca_key, ret, mbind, M_bind, with_db.
  rewrite !(db_call_ok w) by done. unfold no_faults in *. intros Hrun.
  unfold db_call in Hrun. cases; simpl in *; rewrite ?Hw in *; simplify_eq; done.
Qed.

Lemma sqlite_answers {A} (c : Call A) : answers (repo_call c).
Proof.
  destruct c as [A c|A c|A c]; destruct c; simpl.
  - apply answers_query. intros o. apply transpose_answers, machine_try_from_answers.
  - apply answers_query. intros o. apply transpose_answers, machine_try_from_answers.
  - apply answers_query. intros o. apply transpose_answers, machine_try_from_answers.
  - apply (answers_execute _ (λ _, inserted new)). intros d. apply insert_machine_row_answers.
  - by apply answers_execute.
  - apply answers_query. intros o. apply collect_answers, machine_try_from_answers.
  - apply answers_query. intros o. apply collect_answers, machine_try_from_answers.
  - by apply answers_execute.
  - by apply answers_execute.
  - apply (answers_execute _ (λ _, created new)). intros d. apply insert_token_row_answers.
  - apply answers_query. intros o. apply transpose_answers, token_try_from_answers.
  - by apply answers_execute.
  - intros w r w' Hw Hq. unfold repo_current_generation in Hq. rewrite query_ok in Hq by done. by simplify_eq.
  - by apply (answers_query _ (λ rows, Ok (CaKeyRecord_from <$> rows))).
  - by apply answers_execute.
  - apply seed_answers.
Qed.
End decoding_answers.

(** ** SQLite implements the traits *)
Section sqlite_laws.
Context `{Chrono, !ChronoLaws, !ChronoOrder}.

Lemma newer_total a b : newer a b = true ∨ newer b a = true.
Proof.
  unfold newer. destruct (last_seen a) as [x|], (last_seen b) as [y|]; rewrite ?Z.leb_le; auto;
    [|lia]. rewrite (Z.eqb_sym y x). destruct (Z.eqb_spec x y); rewrite !Z.leb_le; lia.
Qed.

Lemma newer_trans a b c : newer a b = true → newer b c = true → newer a c = true.
Proof.
  unfold newer. destruct (last_seen a) as [x|], (last_seen b) as [y|], (last_seen c) as [z|];
    rewrite ?Z.leb_le; try done; try lia.
  destruct (Z.eqb_spec x y), (Z.eqb_spec y z), (Z.eqb_spec x z); rewrite ?Z.leb_le; lia.
Qed.

(** A fleet that changes alone keeps the rest of the representation. *)
Lemma holds_set_machines d s rows ms f :
  holds d s → holds_machines ms rows f →
  holds (set_machines (λ _, rows) d) (set_fleet (λ _, f) s).
Proof. intros [Hm Ht Hk Hg] Hms. split; simpl; eauto. Qed.

Lemma holds_set_tokens d s rows ts m :
  holds d s → holds_tokens ts rows m →
  holds (set_tokens (λ _, rows) d) (set_token_store (λ _, m) s).
Proof. intros [Hm Ht Hk Hg] Hts. split; simpl; eauto. Qed.

(** A reader: it reports what the store allows, and changes nothing. *)
Lemma reader_refines {A} (c : Call A) a w s r w' :
  holds (db w) s → outcome w r w' a (db w) → store_allows c s a s →
  ∃ s', store_step c s r s' ∧ holds (db w') s'.
Proof. intros Hs [[-> Hd]|[-> Hd]] Ha; exists s; rewrite Hd; simpl; auto. Qed.

Lemma list_all_holds ms f w r w' :
  holds_machines ms (machines (db w)) f → list_all w = (r, w') →
  outcome w r w' (sort_by (λ x y, str_leb (hostname x) (hostname y)) ms) (db w).
Proof.
  intros Hm Hf. unfold list_all in Hf. eapply query_outcome; [exact Hf|]. cbn beta.
  rewrite (hm_rows _ _ _ Hm).
  rewrite (sort_by_fmap machine_row _ (λ x y, str_leb (hostname x) (hostname y))) by done.
  apply (rows_read ms); [apply Hm|]. intros m. by rewrite sort_by_perm.
Qed.

Lemma list_recent_holds limit ms f w r w' :
  holds_machines ms (machines (db w)) f → list_recent limit w = (r, w') →
  outcome w r w' (sql_limit limit (sort_by newer ms)) (db w).
Proof.
  intros Hm Hf. unfold list_recent in Hf. eapply query_outcome; [exact Hf|]. cbn beta.
  rewrite (hm_rows _ _ _ Hm). pose proof (hm_times _ _ _ Hm) as Ht. rewrite Forall_forall in Ht.
  rewrite (sort_by_fmap machine_row _ newer) by (intros; apply by_recency_newer; auto).
  replace (sql_limit limit (machine_row <$> sort_by newer ms))
    with (machine_row <$> sql_limit limit (sort_by newer ms))
    by (unfold sql_limit; case_match; [done|apply fmap_take]).
  apply (rows_read ms); [apply Hm|]. intros m Hin.
  rewrite <-(sort_by_perm newer ms). unfold sql_limit in Hin. case_match; [done|].
  by apply elem_of_take in Hin as (? & ?%list_elem_of_lookup_2 & _).
Qed.

Lemma fleet_reader {A} (c : MachineCall A) a w s r w' :
  holds (db w) s → outcome w r w' a (db w) → fleet_allows c (st_fleet s) a (st_fleet s) →
  ∃ s', store_step (OnMachines c) s r s' ∧ holds (db w') s'.
Proof.
  intros Hs Ho Ha. eapply reader_refines; [done..|]. exists (st_fleet s). split; [done|].
  by destruct s.
Qed.

Lemma fleet_writer {A} (c : MachineCall A) a f' w s r w' :
  holds (db w) s → fleet_allows c (st_fleet s) a f' →
  (r = Err SqlIo ∧ db w' = db w) ∨
  (r = Ok a ∧ ∃ rows ms', db w' = set_machines (λ _, rows) (db w) ∧ holds_machines ms' rows f') →
  ∃ s', store_step (OnMachines c) s r s' ∧ holds (db w') s'.
Proof.
  intros Hs Ha [[-> Hd]|(-> & rows & ms' & Hd & Hm')]; rewrite Hd.
  - exists s. simpl. auto.
  - exists (set_fleet (λ _, f') s). split; [by exists f'|]. by eapply holds_set_machines.
Qed.

Lemma token_writer {A} (c : TokenCall A) a m' w s w' rows ts' :
  holds (db w) s → tokens_allow c (st_tokens s) a m' →
  db w' = set_tokens (λ _, rows) (db w) → holds_tokens ts' rows m' →
  ∃ s', store_step (OnTokens c) s (Ok a) s' ∧ holds (db w') s'.
Proof.
  intros Hs Ha Hd Hm'. rewrite Hd. exists (set_token_store (λ _, m') s).
  split; [by exists m'|]. by eapply holds_set_tokens.
Qed.

Lemma sqlite_machines_refine {A} (c : MachineCall A) w s r w' :
  holds (db w) s → timely (OnMachines c) = true → machine_call c w = (r, w') →
  ∃ s', store_step (OnMachines c) s r s' ∧ holds (db w') s'.
Proof.
  intros Hs Htc Hc. destruct (h_machines _ _ Hs) as [ms Hm].
  pose proof (hm_map _ _ _ Hm) as Hf. pose proof (hm_ids _ _ _ Hm) as Hi.
  destruct c; simpl in Hc.
  - eapply (fleet_reader (FindByHostname h)); [done| |].
    + by eapply (fetch_holds _ _ _ (λ m, bool_decide (hostname m = h))); [exact Hm| |exact Hc].
    + split; [done|]. rewrite Hf. by apply found_index.
  - eapply (fleet_reader (FindByPublicKey k)); [done| |].
    + by eapply (fetch_holds _ _ _ (λ m, bool_decide (public_key m = k))); [exact Hm| |exact Hc].
    + split; [done|]. rewrite Hf. by apply found_index.
  - eapply (fleet_reader (FindById i)); [done| |].
    + by eapply (fetch_holds _ _ _ (λ m, bool_decide (machine_id m = i))); [exact Hm| |exact Hc].
    + split; [done|]. rewrite Hf. by apply lookup_index_find.
  - eapply insert_holds in Hc as [(e & -> & Hd & He)|(a & f' & rows & ms' & -> & Ha & Hd & Hm')]; [..|done|done].
    + exists s. rewrite Hd. simpl. naive_solver.
    + eapply fleet_writer; [done..|]. right. eauto.
  - eapply fleet_writer; [done|by split|]. eapply update_holds; [by apply beaten_change|done|done].
  - eapply (fleet_reader (ListRecent limit)); [done|by eapply list_recent_holds|].
    split; [done|]. exists (sort_by newer ms). split_and!; [|by apply sort_by_sorted;
      [apply newer_total|apply newer_trans]|done].
    by rewrite sort_by_perm, Hf, values_index.
  - eapply (fleet_reader ListAll); [done|by eapply list_all_holds|].
    split_and!; [done|by rewrite sort_by_perm, Hf, values_index|].
    apply sort_by_sorted; [intros; apply str_leb_total|intros ???; apply str_leb_trans].
  - eapply fleet_writer; [done|by split|]. eapply update_holds; [by apply restated_change|done|done].
  - eapply fleet_writer; [done|by split|]. by eapply delete_holds.
Qed.

Lemma sqlite_tokens_refine {A} (c : TokenCall A) w s r w' :
  holds (db w) s → timely (OnTokens c) = true → token_call c w = (r, w') →
  ∃ s', store_step (OnTokens c) s r s' ∧ holds (db w') s'.
Proof.
  intros Hs Htc Hc. destruct (h_tokens _ _ Hs) as [ts Ht]. destruct c; simpl in *.
  - apply andb_true_iff in Htc as [Ht1 Ht2].
    eapply create_holds in Hc as [(e & -> & Hd & He)|(a & m' & rows & ts' & -> & Ha & Hd & Hm')];
      [| |done..].
    + exists s. rewrite Hd. simpl. naive_solver.
    + by eapply token_writer.
  - eapply (reader_refines (OnTokens (FindByHash h))); [done|by eapply find_by_hash_holds|].
    exists (st_tokens s). split; [|by destruct s]. split; [done|].
    rewrite (ht_map _ _ _ Ht). apply found_index, Ht.
  - eapply consume_holds in Hc as [[-> Hd]|(a & m' & rows & ts' & -> & Ha & Hd & Hm')]; [| |done..].
    + exists s. rewrite Hd. simpl. auto.
    + by eapply token_writer.
Qed.

Lemma sqlite_keys_refine {A} (c : KeyCall A) w s r w' :
  holds (db w) s → timely (OnKeys c) = true → key_call c w = (r, w') →
  ∃ s', store_step (OnKeys c) s r s' ∧ holds (db w') s'.
Proof.
  intros Hs Htc Hc. destruct (h_keys _ _ Hs) as [ks Hk]. destruct c; simpl in *.
  - apply query_inv in Hc as [Hd [->| ->]]; exists s; rewrite Hd; split; simpl; auto.
    split; [done|]. by rewrite (h_generation _ _ Hs).
  - eapply (reader_refines (OnKeys ListEnabled)); [done|by eapply list_enabled_holds|].
    split_and!; [done| |apply sort_by_sorted; [intros; apply str_leb_total|intros ???; apply str_leb_trans]].
    by rewrite sort_by_perm, (hk_map _ _ _ Hk), values_index by apply Hk.
  - destruct (h_machines _ _ Hs) as [ms Hm].
    eapply update_holds in Hc as [[-> Hd]|(-> & rows & ms' & Hd & Hm')];
      [| |by apply acked_change|done]; rewrite Hd.
    + exists s. simpl. auto.
    + eexists. split; [by split|]. by eapply (holds_set_machines _ s).
  - eapply seed_holds in Hc as [[-> Hd]|[-> Hd]]; [| |done|apply Hs].
    + exists s. rewrite Hd. simpl. auto.
    + eexists. split; [done|]. case_bool_decide; rewrite Hd; [|done].
      destruct Hs as [Hm Ht _ Hg]. split; simpl; [done..| |done].
      exists [MkCaKeyRecord key_id public_key (to_text now) 1 true].
      split; [done|done|apply NoDup_singleton].
Qed.

Lemma index_inj {A} (k key : A → string) l i j x y :
  NoDup (k <$> l) → NoDup (key <$> l) → index k l !! i = Some x → index k l !! j = Some y →
  key x = key y → i = j.
Proof.
  intros Hk Hkey [Hx <-]%lookup_index [Hy <-]%lookup_index Hxy; [|done..].
  assert (find (λ z, bool_decide (key z = key x)) l = Some x) as Hfx by by apply find_key.
  assert (find (λ z, bool_decide (key z = key x)) l = Some y) as Hfy by (apply find_key; [done|auto]).
  by simplify_eq.
Qed.

Lemma holds_wf d s : holds d s → store_wf s.
Proof.
  intros [[ms [_ Hf Hi Hh Hp _]] [ts [_ Ht Hti Hth _]] _ _]. split.
  - intros i m. rewrite Hf. by intros [_ ?]%lookup_index.
  - intros i j m m'. rewrite Hf. by apply index_inj.
  - intros i j m m'. rewrite Hf. by apply index_inj.
  - intros i t. rewrite Ht. by intros [_ ?]%lookup_index.
  - intros i j t t'. rewrite Ht. by apply index_inj.
Qed.

#[export] Instance sqlite_laws :
  RepositoryLaws SqliteMachineRepository SqliteEnrollmentTokenRepository SqliteCaKeyRepository holds.
Proof.
  split.
  - intros A c w s r w' Hs Ht Hc. destruct c; simpl in Hc.
    + by eapply sqlite_machines_refine.
    + by eapply sqlite_tokens_refine.
    + by eapply sqlite_keys_refine.
  - intros A c w r w' Hw Hc. by eapply sqlite_answers.
  - apply holds_wf.
  - intros d d' s (Em & Et & Ek & Eg) [Hm Ht Hk Hg]. split; by rewrite ?Em, ?Et, ?Ek, ?Eg.
Qed.
End sqlite_laws.

(** ** Sequences of calls *)
Record Event : Type := MkEvent {
  ev_answer : Type;
  ev_call : Call ev_answer;
  ev_result : result ev_answer sqlx_error;
}.
Arguments MkEvent {_} _ _.

Definition timely_event (e : Event) : bool := timely (ev_call e).
Definition answered (e : Event) : Prop := ev_result e ≠ Err SqlIo.

(** This event is a single-use consumption of token [i] that won. *)
Definition spends (i : string) (e : Event) : bool :=
  match ev_call e in Call A return result A sqlx_error → bool with
  | OnTokens c =>
      match c in TokenCall A return result A sqlx_error → bool with
      | Consume j single_use _ => λ r,
          bool_decide (j = i) && single_use && match r with Ok b => b | Err _ => false end
      | _ => λ _, false
      end
  | _ => λ _, false
  end (ev_result e).

(** Calls in sequence, with appends to the audit log between them. *)
Inductive history `{MachineRepository, EnrollmentTokenRepository, CaKeyRepository}
  : World → list Event → World → Prop :=
| history_nil w : history w [] w
| history_call {A} (c : Call A) r w w1 es w' :
    repo_call c w = (r, w1) → history w1 es w' → history w (MkEvent c r :: es) w'
| history_log d w es w' :
    same_but_audit (db w) d → history (with_db w d) es w' → history w es w'.

Inductive store_history `{Chrono} : Store → list Event → Store → Prop :=
| store_nil s : store_history s [] s
| store_call {A} (c : Call A) r s s1 es s' :
    store_step c s r s1 → store_history s1 es s' → store_history s (MkEvent c r :: es) s'.

Definition token_used (i : string) (s : Store) : Prop :=
  ∃ t, st_tokens s !! i = Some t ∧ is_Some (et_used_at t).

Section histories.
Context `{Chrono}.

(** A used token stays used. *)
Lemma store_step_used {A} (c : Call A) s r s' i :
  store_step c s r s' → token_used i s → token_used i s'.
Proof.
  intros Hst (t & Hl & Hu). destruct r as [a|e]; simpl in Hst; [|by destruct Hst as [-> _]; exists t].
  destruct c as [A c|A c|A c]; simpl in *.
  - destruct Hst as (f' & _ & ->). by exists t.
  - destruct Hst as (ts' & Ha & ->). unfold token_used. simpl. destruct c; simpl in *.
    + destruct Ha as (Hn & _ & _ & ->). exists t. rewrite lookup_insert_ne; [done|congruence].
    + destruct Ha as [-> _]. by exists t.
    + destruct Ha as [_ ->]. case_match; [|by exists t]. rewrite lookup_alter.
      case_decide; subst; rewrite Hl; simpl; eauto.
  - destruct c; simpl in *; subst; try case_bool_decide; by destruct_and?; subst; exists t.
Qed.

(** A consumption that won found the token unused and leaves it used. *)
Lemma store_step_spends {A} (c : Call A) s r s' i :
  store_step c s r s' → spends i (MkEvent c r) = true → ¬ token_used i s ∧ token_used i s'.
Proof.
  destruct c as [A c|A c|A c]; try done. destruct c as [|h|j su now]; try done.
  unfold spends. simpl. intros Hst Hw. bool_prop. destruct r as [b|e]; [|done]. subst.
  simpl in Hst. destruct Hst as (ts' & [Hb Hts] & ->). unfold token_used. simpl.
  destruct (st_tokens s !! i) as [t|] eqn:Hl; [|done].
  unfold consumes in Hb. simpl in Hb. symmetry in Hb. apply negb_true_iff, bool_decide_eq_false in Hb.
  split; [naive_solver|]. subst. rewrite lookup_alter_eq, Hl. simpl. eauto.
Qed.

Lemma store_history_spends s es s' i :
  store_history s es s' →
  length (List.filter (spends i) es) ≤ 1 ∧
  (token_used i s → List.filter (spends i) es = []).
Proof.
  induction 1 as [s|A c r s s1 es s' Hst Hh [IH1 IH2]]; [split; [simpl; lia|done]|]. simpl.
  destruct (spends i (MkEvent c r)) eqn:Hsp.
  - destruct (store_step_spends _ _ _ _ _ Hst Hsp) as [Hn Hu]. rewrite IH2 by done. simpl.
    split; [lia|naive_solver].
  - split; [done|]. intros Hu. eapply IH2, store_step_used; eauto.
Qed.

Context `{MR : MachineRepository, TR : EnrollmentTokenRepository, KR : CaKeyRepository}.

Lemma history_refines rep `{!RepositoryLaws MR TR KR rep} w s es w' :
  rep (db w) s → forallb timely_event es = true → history w es w' →
  ∃ s', store_history s es s' ∧ rep (db w') s'.
Proof.
  intros Hs Ht Hh. revert s Hs Ht. induction Hh as [w|A c r w w1 es w' Hc Hh IH|d w es w' Hd Hh IH];
    intros s Hs Ht.
  - exists s. split; [constructor|done].
  - simpl in Ht. apply andb_true_iff in Ht as [Htc Ht].
    destruct (call_refines c w s r w1 Hs Htc Hc) as (s1 & Hst & Hs1).
    destruct (IH s1 Hs1 Ht) as (s' & Hsh & Hs'). exists s'. split; [by econstructor|done].
  - apply (IH s); [|done]. by apply (rep_log (db w)).
Qed.

Lemma history_answered rep `{!RepositoryLaws MR TR KR rep} w es w' :
  no_faults w → history w es w' → Forall answered es.
Proof.
  intros Hw Hh. induction Hh as [w|A c r w w1 es w' Hc Hh IH|d w es w' Hd Hh IH].
  - constructor.
  - destruct (call_answers c w r w1 Hw Hc) as [Hw1 Hr]. constructor; [done|]. auto.
  - by apply IH, no_faults_with_db.
Qed.

(** Over any repositories that keep the traits' promises, in any sequence of
    calls with any failures, at most one single-use consumption of a given token
    answers that it won; a token recorded as used is never won again. *)
Theorem single_use_won_once rep `{!RepositoryLaws MR TR KR rep} w s es w' i :
  rep (db w) s → forallb timely_event es = true → history w es w' →
  length (List.filter (spends i) es) ≤ 1 ∧
  (token_used i s → List.filter (spends i) es = []).
Proof.
  intros Hs Ht Hh. destruct (history_refines rep w s es w' Hs Ht Hh) as (s' & Hsh & _).
  by eapply store_history_spends.
Qed.
End histories.

(** C19: any sequence of calls to the three repositories over SQLite, audit entries
    being appended in between and any statements failing, is a sequence of steps of
    the abstract store: every answer is one the store allows, a failed call changes
    nothing, and the tables hold the resulting store.  Without failing statements
    every call is answered. *)
Theorem sqlite_refines_store `{Chrono, !ChronoLaws, !ChronoOrder} w s es w' :
  holds (db w) s → forallb timely_event es = true →
  @history SqliteMachineRepository SqliteEnrollmentTokenRepository SqliteCaKeyRepository w es w' →
  (∃ s', store_history s es s' ∧ holds (db w') s') ∧ (no_faults w → Forall answered es).
Proof.
  intros Hs Ht Hh. split.
  - by eapply history_refines; [apply sqlite_laws|..].
  - intros Hw. by eapply history_answered; [apply sqlite_laws|..].
Qed.

(** ** Witnesses *)

(** A rendering of fixed width, most significant digit first. *)
Fixpoint fixed (n : nat) (z : Z) : string :=
  match n with
  | O => ""
  | S n => if (z <? 2 ^ Z.of_nat n)%Z then String "0" (fixed n z)
           else String "1" (fixed n (z - 2 ^ Z.of_nat n))
  end.

Fixpoint unfixed (n : nat) (s : string) : option Z :=
  match n, s with
  | O, EmptyString => Some 0%Z
  | S n, String c s =>
      (λ z, if bool_decide (c = "1"%char) then (z + 2 ^ Z.of_nat n)%Z else z) <$> unfixed n s
  | _, _ => None
  end.

Lemma unfixed_fixed n z : (0 <= z < 2 ^ Z.of_nat n)%Z → unfixed n (fixed n z) = Some z.
Proof.
  revert z. induction n as [|n IH]; intros z Hz; [simpl in *; f_equal; lia|].
  rewrite Nat2Z.inj_succ, Z.pow_succ_r in Hz by lia. simpl. destruct (Z.ltb_spec z (2 ^ Z.of_nat n)).
  - rewrite IH by lia. done.
  - rewrite IH by lia. simpl. f_equal. lia.
Qed.

Lemma str_leb_cons c d s t :
  str_leb (String c s) (String d t) =
    match Ascii.compare c d with Lt => true | Eq => str_leb s t | Gt => false end.
Proof. unfold str_leb. simpl. by destruct (Ascii.compare c d). Qed.

Lemma fixed_order n a b :
  (0 <= a < 2 ^ Z.of_nat n)%Z → (0 <= b < 2 ^ Z.of_nat n)%Z →
  str_leb (fixed n a) (fixed n b) = (a <=? b)%Z.
Proof.
  revert a b. induction n as [|n IH]; intros a b Ha Hb.
  { simpl in *. by replace a with b by lia; rewrite Z.leb_refl. }
  rewrite Nat2Z.inj_succ, Z.pow_succ_r in Ha, Hb by lia. simpl.
  destruct (Z.ltb_spec a (2 ^ Z.of_nat n)), (Z.ltb_spec b (2 ^ Z.of_nat n));
    rewrite str_leb_cons; simpl.
  - apply IH; lia.
  - symmetry. apply Z.leb_le. lia.
  - symmetry. apply Z.leb_gt. lia.
  - rewrite IH by lia. destruct (Z.leb_spec a b); [apply Z.leb_le|apply Z.leb_gt]; lia.
Qed.

(** Milliseconds since an epoch before the year 0000. *)
Definition era : Z := (2 ^ 47)%Z.
Definition fixed_print (t : Z) : string := fixed 49 (t `div` nanos_per_milli + era).
#[local] Instance fixed_chrono : Chrono := {
  to_rfc3339_millis := fixed_print;
  to_rfc3339_secs t := fixed_print (trunc_secs t);
  to_rfc3339 := fixed_print;
  parse_from_rfc3339 s := (λ z, (z - era) * nanos_per_milli)%Z <$> unfixed 49 s;
}.

Lemma era_range t :
  rfc3339_range t = true → (0 <= t `div` nanos_per_milli + era < 2 ^ Z.of_nat 49)%Z.
Proof.
  unfold rfc3339_range, in_range. rewrite andb_true_iff, !Z.leb_le.
  unfold era, seconds, nanos_per_sec, nanos_per_milli. intros [Hlo Hhi].
  pose proof (Z.div_mod t 1000000 ltac:(lia)). pose proof (Z.mod_pos_bound t 1000000 ltac:(lia)).
  change (2 ^ 47)%Z with 140737488355328%Z. change (2 ^ Z.of_nat 49)%Z with 562949953421312%Z. lia.
Qed.

#[local] Instance fixed_chrono_laws : ChronoLaws.
Proof.
  split; intros t Ht; cbn [parse_from_rfc3339 to_rfc3339_millis to_rfc3339_secs fixed_chrono];
    unfold fixed_print.
  - rewrite unfixed_fixed by by apply era_range. simpl. by rewrite Z.add_simpl_r.
  - assert (rfc3339_range (trunc_secs t) = true) as Hs.
    { revert Ht. unfold rfc3339_range, in_range, trunc_secs, seconds, nanos_per_sec.
      rewrite !andb_true_iff, !Z.leb_le. pose proof (Z.div_mod t 1000000000 ltac:(lia)).
      pose proof (Z.mod_pos_bound t 1000000000 ltac:(lia)). lia. }
    rewrite unfixed_fixed by by apply era_range. simpl. f_equal.
    unfold trunc_secs, nanos_per_sec, nanos_per_milli.
    replace (t `div` 1000000000 * 1000000000)%Z with (t `div` 1000000000 * 1000 * 1000000)%Z by lia.
    rewrite Z.div_mul by lia. by rewrite Z.add_simpl_r.
Qed.

#[local] Instance fixed_chrono_order : ChronoOrder.
Proof.
  intros t u Ht Hu. cbn [to_rfc3339_millis fixed_chrono]. unfold fixed_print. rewrite fixed_order by by apply era_range.
  unfold trunc_millis, nanos_per_milli.
  destruct (Z.leb_spec (t `div` 1000000 + era) (u `div` 1000000 + era));
    symmetry; [apply Z.leb_le|apply Z.leb_gt]; lia.
Qed.

(** A token is minted and offered to two consumers; a machine is added, seen and
    listed; the second statement of all does not answer. *)
Definition demo_new_token : NewEnrollmentToken :=
  MkNewEnrollmentToken "t1" "hash-1" (seconds 5) (seconds 500) "alice" true.

Definition demo_calls : list { A & Call A } :=
  [existT _ (OnTokens (Create demo_new_token));
   existT _ (OnMachines (FindByHostname "web-01"));
   existT _ (OnTokens (Consume "t1" true (seconds 10)));
   existT _ (OnMachines (Insert demo_machine));
   existT _ (OnMachines (UpdateStatus "srv_1" Disabled (seconds 20)));
   existT _ (OnTokens (Consume "t1" true (seconds 30)));
   existT _ (OnKeys (EnsureSeeded "ca-01" "ssh-ed25519 AAAA" (seconds 30)));
   existT _ (OnKeys (RecordAck "srv_1" 1 "sha256:00" (seconds 40)));
   existT _ (OnMachines (ListRecent 10))].

(** The events and the final state of a list of calls. *)
Fixpoint run_calls `{MachineRepository, EnrollmentTokenRepository, CaKeyRepository}
    (cs : list { A & Call A }) (w : World) : list Event * World :=
  match cs with
  | [] => ([], w)
  | existT _ c :: cs =>
      let '(r, w1) := repo_call c w in
      let '(es, w') := run_calls cs w1 in
      (MkEvent c r :: es, w')
  end.

Lemma run_calls_history `{MachineRepository, EnrollmentTokenRepository, CaKeyRepository} cs w :
  history w (run_calls cs w).1 (run_calls cs w).2.
Proof.
  revert w. induction cs as [|[A c] cs IH]; intros w; [constructor|]. simpl.
  destruct (repo_call c w) as [r w1] eqn:Hc. specialize (IH w1).
  destruct (run_calls cs w1) as [es w']. by eapply history_call.
Qed.

Definition faulty_world : World := MkWorld empty_db [false; true].

Lemma sqlite_refines_store_witness :
  let run := run_calls demo_calls faulty_world in
  (∃ s', store_history empty_store run.1 s' ∧ holds (db run.2) s') ∧
  length (List.filter (spends "t1") run.1) = 1 ∧
  (λ e, is_ok (ev_result e)) <$> run.1 = [true; false; true; true; true; true; true; true; true].
Proof.
  split_and!; [|vm_compute; reflexivity..].
  refine (proj1 (sqlite_refines_store faulty_world empty_store _ _ empty_holds _ _));
    [vm_compute; reflexivity|apply run_calls_history].
Defined.

Lemma single_use_won_once_witness :
  length (List.filter (spends "t1") (run_calls demo_calls faulty_world).1) ≤ 1.
Proof.
  refine (proj1 (single_use_won_once holds faulty_world empty_store _ _ "t1" empty_holds _
    (run_calls_history demo_calls faulty_world))).
  vm_compute. reflexivity.
Defined.
