(* ===== verification/Generic.v ===== *)
(** * The services over their repositories
      ([src/src/machines/admin.rs], [src/src/machines/protocol.rs],
      [src/src/machines/service.rs], [src/src/cabundle/service.rs])

    The services are generic in their repositories; over the SQLite ones they are
    the operations the rest of the development is about ([sqlite_services]).  Here
    they are verified against the traits alone: a weakest precondition over the
    abstract store, with one rule per way of combining calls, gives each service's
    contract for every implementation that keeps the traits' laws. *)
From stdpp Require Import gmap.
From S2P Require Import Prelude External Errors Database AuditChain AuditRepo Machines Enrollment Registry AgentAuth MachineAdmin CaBundle Repository Toy.

Section services.
Context `{Sha256, HexEncode, Chrono, SerdeJson, SshKey, ToLowercase}.
Context `{MR : MachineRepository, TR : EnrollmentTokenRepository, KR : CaKeyRepository}.

(** ** [MachineAdminService<M>] *)
Definition MachineAdminService_list (now : Z) (latest_generation : option Z) (f : MachineFilter)
  : M World sqlx_error (list MachineView) :=
  _ ← db_call;
  machines ← mrepo_list_all;
  ret (List.filter (filter_matches f)
         ((λ m, from_machine m now latest_generation) <$> machines)).

Definition MachineAdminService_find (i : string) : M World sqlx_error (option Machine) :=
  _ ← db_call;
  mrepo_find_by_id i.

Definition MachineAdminService_get (now : Z) (latest_generation : option Z) (i : string)
  : M World sqlx_error (option MachineView) :=
  found ← MachineAdminService_find i;
  ret ((λ m, from_machine m now latest_generation) <$> found).

Definition MachineAdminService_set_status (i : string) (s : MachineStatus) (now : Z)
  : M World MachineAdminError Machine :=
  _ ← with_err AdminDatabase db_call;
  updated ← with_err AdminDatabase (mrepo_update_status i s now);
  _ ← ensure updated (AdminNotFound i);
  found ← with_err AdminDatabase (mrepo_find_by_id i);
  lift (ok_or (AdminNotFound i) found).

Definition MachineAdminService_delete (i : string) : M World MachineAdminError Machine :=
  _ ← with_err AdminDatabase db_call;
  found ← with_err AdminDatabase (mrepo_find_by_id i);
  existing ← lift (ok_or (AdminNotFound i) found);
  deleted ← with_err AdminDatabase (mrepo_delete i);
  _ ← ensure deleted (AdminNotFound i);
  ret existing.

(** ** [RegistryService<M>] *)
Definition RegistryService_record_heartbeat (machine_id : string) (request : HeartbeatRequest)
    (now : Z) : M World RegistryError HeartbeatResponse :=
  ip ← lift (validate_heartbeat request);
  let update := {| hu_machine_id := machine_id;
                   hu_now := now;
                   hu_agent_version := trim (hb_agent_version request);
                   hu_ip := ip;
                   hu_current_generation := hb_current_generation request |} in
  _ ← with_err RegistryDatabase db_call;
  updated ← with_err RegistryDatabase (mrepo_update_last_seen update);
  _ ← ensure updated UnknownMachine;
  ret {| hr_status := "ok";
         hr_server_time := to_rfc3339_millis now;
         hr_next_heartbeat_seconds := DEFAULT_HEARTBEAT_INTERVAL |}.

Definition RegistryService_list_servers (now limit : Z)
  : M World RegistryError (list ServerSummary) :=
  _ ← with_err RegistryDatabase db_call;
  machines ← with_err RegistryDatabase (mrepo_list_recent limit);
  ret (server_summary now <$> machines).

(** ** [EnrollmentService<T, M>] *)
Definition EnrollmentService_create_enrollment_token (random uuid : string) (now : Z)
    (created_by : string) (ttl : Z) (single_use : bool)
  : M World EnrollmentError IssuedEnrollmentToken :=
  let plaintext := generate_token random in
  let new := {| nt_id := uuid;
                nt_token_hash := hash_token plaintext;
                nt_created_at := now;
                nt_expires_at := (now + ttl)%Z;
                nt_created_by := created_by;
                nt_single_use := single_use |} in
  _ ← with_err EnrollmentError_of_sqlx db_call;
  record ← with_err EnrollmentError_of_sqlx (trepo_create new);
  ret {| it_plaintext := plaintext; it_record := record |}.

(** Between [pool.begin()] and [tx.commit()]. *)
Definition EnrollmentService_enroll_body (request : EnrollRequest) (pk token_hash uuid : string)
    (now : Z) : M World EnrollmentError Machine :=
  found ← with_err EnrollmentError_of_sqlx (trepo_find_by_hash token_hash);
  token_record ← lift (ok_or TokenInvalid found);
  _ ← ensure (constant_time_eq (as_bytes (et_token_hash token_record)) (as_bytes token_hash))
        TokenInvalid;
  _ ← lift (validate_token_state token_record now);
  host ← with_err EnrollmentError_of_sqlx (mrepo_find_by_hostname (eq_hostname request));
  _ ← ensure (bool_decide (host = None)) HostAlreadyEnrolled;
  key ← with_err EnrollmentError_of_sqlx (mrepo_find_by_public_key pk);
  _ ← ensure (bool_decide (key = None)) PublicKeyAlreadyExists;
  consumed ← with_err EnrollmentError_of_sqlx
               (trepo_consume (et_id token_record) (et_single_use token_record) now);
  _ ← ensure consumed TokenAlreadyUsed;
  with_err map_insert_error (mrepo_insert (enrolled_machine request pk uuid now)).

Definition EnrollmentService_enroll (sv : EnrollmentService) (uuid : string) (now audit_now : Z)
    (request : EnrollRequest) : M World EnrollmentError EnrollResponse :=
  _ ← ensure (is_well_formed (eq_enrollment_token request)) TokenInvalid;
  _ ← ensure (is_valid_hostname (eq_hostname request)) (InvalidRequest "invalid hostname");
  pk ← lift (map_err (λ _, PublicKeyInvalid)
                     (validate_ed25519_public_key (eq_public_key request)));
  let token_hash := hash_token (eq_enrollment_token request) in
  machine ← transaction EnrollmentError_of_sqlx
              (EnrollmentService_enroll_body request pk token_hash uuid now);
  _ ← with_err EnrollmentError_from_audit
        (append_audit_event audit_now (enrolled_event machine pk));
  ret {| es_machine_id := machine_id machine;
         es_heartbeat_interval := sv_heartbeat_interval sv;
         es_sync_interval := sv_sync_interval sv;
         es_server_identity := sv_server_identity sv;
         es_bundle_signing_key := sv_bundle_signing_key sv |}.

(** ** [CaBundleService<R>] *)
Definition CaBundleService_ensure_seeded (key_id public_key : string) (now : Z)
  : M World CaBundleError unit :=
  _ ← with_err CaBundleDatabase db_call;
  with_err CaBundleDatabase (krepo_ensure_seeded key_id public_key now).

Definition CaBundleService_current_generation : M World CaBundleError Z :=
  _ ← with_err CaBundleDatabase db_call;
  with_err CaBundleDatabase krepo_current_generation.

Definition CaBundleService_current_bundle : M World CaBundleError CaBundle :=
  _ ← with_err CaBundleDatabase db_call;
  generation ← with_err CaBundleDatabase krepo_current_generation;
  records ← with_err CaBundleDatabase krepo_list_enabled;
  lift (CaBundle_build generation
          ((λ r, MkCaBundleKey (kr_key_id r) (kr_public_key r)) <$> records)).

Definition CaBundleService_record_ack (i : string) (ack : AckRequest) (now : Z)
  : M World AckError AckResponse :=
  _ ← ensure (bool_decide (trim (aq_status ack) = "success"))
        (AckInvalid "status must be 'success'");
  let fingerprint := trim (aq_fingerprint ack) in
  _ ← ensure (negb (str_is_empty fingerprint || (MAX_FINGERPRINT_LEN <? str_len fingerprint)%Z))
        (AckInvalid "fingerprint is invalid");
  bundle ← with_err AckBundle CaBundleService_current_bundle;
  _ ← ensure (bool_decide (aq_generation ack = cb_generation bundle) &&
              bool_decide (fingerprint = cb_fingerprint bundle)) Mismatch;
  _ ← with_err (AckBundle ∘ CaBundleDatabase) db_call;
  updated ← with_err (AckBundle ∘ CaBundleDatabase)
              (krepo_record_ack i (cb_generation bundle) (cb_fingerprint bundle) now);
  _ ← ensure updated AckUnknownMachine;
  ret (MkAckResponse "recorded" (cb_generation bundle)).
End services.

(** Over SQLite the services are the operations of the other files. *)
Lemma sqlite_services `{Sha256, HexEncode, Chrono, SerdeJson, SshKey, ToLowercase} :
  MachineAdminService_list = admin_list ∧
  MachineAdminService_get = admin_get ∧
  MachineAdminService_set_status = set_status ∧
  MachineAdminService_delete = admin_delete ∧
  RegistryService_record_heartbeat = record_heartbeat ∧
  RegistryService_list_servers = list_servers ∧
  EnrollmentService_create_enrollment_token = create_enrollment_token ∧
  EnrollmentService_enroll = enroll ∧
  CaBundleService_ensure_seeded = ensure_seeded ∧
  CaBundleService_current_bundle = current_bundle ∧
  CaBundleService_record_ack = record_ack.
Proof. by split_and!. Qed.

(** ** Weakest preconditions over the store *)
Section wp.
Context `{Chrono, MR : MachineRepository, TR : EnrollmentTokenRepository, KR : CaKeyRepository}.
Context (rep : Db → Store → Prop) `{!RepositoryLaws MR TR KR rep}.

Context (calm : bool).

(** The database of a calm run answers every call; otherwise any statement may fail. *)
Definition weather (w : World) : Prop := calm = true → no_faults w.

(** From tables that hold [s], whatever [m] returns and whichever statements fail,
    the tables then hold a store that satisfies [Q]. *)
Definition wp {E A} (m : M World E A) (s : Store) (Q : result A E → Store → Prop) : Prop :=
  ∀ w r w', rep (db w) s → weather w → m w = (r, w') →
    ∃ s', Q r s' ∧ rep (db w') s' ∧ weather w'.

(** A step of the store whose database failures need a database that may fail. *)
Definition answer_step {A} (c : Call A) (s : Store) (r : result A sqlx_error) (s' : Store) : Prop :=
  match r with
  | Ok a => store_allows c s a s'
  | Err e => s' = s ∧ (e = SqlIo ∧ calm = false ∨ store_refuses c s e)
  end.

Lemma weather_call w r w' :
  weather w → db_call w = (r, w') → weather w' ∧ (r = Ok tt ∨ r = Err SqlIo ∧ calm = false).
Proof.
  unfold weather. intros Hw Hc. destruct calm eqn:Hcalm.
  - rewrite (db_call_ok w) in Hc by auto. simplify_eq. auto.
  - split; [done|]. unfold db_call in Hc. cases; auto.
Qed.

Lemma wp_conseq {E A} (m : M World E A) s (Q Q' : result A E → Store → Prop) :
  wp m s Q → (∀ r s', Q r s' → Q' r s') → wp m s Q'.
Proof. intros Hm HQ w r w' Hs Hw Hr. destruct (Hm w r w' Hs Hw Hr) as (s' & ? & ?). eauto. Qed.

(** What is held may be taken to be well formed. *)
Lemma wp_wf {E A} (m : M World E A) s Q : (store_wf s → wp m s Q) → wp m s Q.
Proof. intros Hm w r w' Hs Hw Hr. eapply Hm; [by eapply rep_wf|done..]. Qed.

Lemma wp_lift {E A} (x : result A E) s (Q : result A E → Store → Prop) : Q x s → wp (lift x) s Q.
Proof. intros HQ w r w' Hs Hw [= <- <-]. eauto. Qed.

Lemma wp_ret {E A} (a : A) s (Q : result A E → Store → Prop) : Q (Ok a) s → wp (ret a) s Q.
Proof. apply wp_lift. Qed.

Lemma wp_guard {E} (b : bool) (e : E) s (Q : result unit E → Store → Prop) :
  Q (if b then Ok tt else Err e) s → wp (ensure b e) s Q.
Proof. intros HQ. destruct b; by apply wp_lift. Qed.

Lemma wp_bind {E A B} (m : M World E A) (f : A → M World E B) s Q :
  wp m s (λ r s1, match r with Ok a => wp (f a) s1 Q | Err e => Q (Err e) s1 end) →
  wp (m ≫= f) s Q.
Proof.
  intros Hm w r w' Hs Hw. unfold mbind, M_bind. destruct (m w) as [x w1] eqn:Hx.
  destruct (Hm w x w1 Hs Hw Hx) as (s1 & HQ & Hs1 & Hw1). destruct x as [a|e].
  - intros Hf. by eapply HQ.
  - intros [= <- <-]. eauto.
Qed.

Lemma wp_with_err {E F A} (f : E → F) (m : M World E A) s Q :
  wp m s (λ r, Q (map_err f r)) → wp (with_err f m) s Q.
Proof.
  intros Hm w r w' Hs Hw. unfold with_err. destruct (m w) as [x w1] eqn:Hx.
  destruct (Hm w x w1 Hs Hw Hx) as (s1 & HQ & Hs1 & Hw1). destruct x; intros [= <- <-]; eauto.
Qed.

(** [pool.acquire()], or any call that leaves the tables alone. *)
Lemma wp_db_call s (Q : result unit sqlx_error → Store → Prop) :
  Q (Ok tt) s → (calm = false → Q (Err SqlIo) s) → wp db_call s Q.
Proof.
  intros HO HE w r w' Hs Hw Hc. exists s. rewrite (db_call_db _ _ _ Hc).
  destruct (weather_call _ _ _ Hw Hc) as [Hw' [->|[-> ?]]]; auto.
Qed.

Lemma wp_call {A} (c : Call A) s (Q : result A sqlx_error → Store → Prop) :
  timely c = true → (∀ r s', answer_step c s r s' → Q r s') → wp (repo_call c) s Q.
Proof.
  intros Ht HQ w r w' Hs Hw Hc. destruct (call_refines c w s r w' Hs Ht Hc) as (s' & Hstep & Hs').
  pose proof (λ Hn, call_answers c w r w' Hn Hc) as Ha. exists s'. split; [|split; [done|]].
  - apply HQ. destruct r as [a|e]; [done|]. destruct Hstep as [? [->|?]]; simpl; auto.
    split; [done|]. left. split; [done|]. destruct calm eqn:Hcalm; [|done].
    by destruct (Ha (Hw Hcalm)).
  - intros Hcalm. by apply Ha, Hw.
Qed.

(** A transaction whose body fails, or that cannot begin or commit, leaves the store. *)
Lemma wp_transaction {E A} (conv : sqlx_error → E) (m : M World E A) s Q :
  (calm = false → Q (Err (conv SqlIo)) s) →
  wp m s (λ r s', match r with Ok a => Q (Ok a) s' | Err e => Q (Err e) s end) →
  wp (transaction conv m) s Q.
Proof.
  intros Hio Hm w r w' Hs Hw. unfold transaction. destruct (db_call w) as [x0 w1] eqn:Hb.
  pose proof (db_call_db _ _ _ Hb) as Hd1.
  destruct (weather_call _ _ _ Hw Hb) as [Hw1 [->|[-> Hf]]]; last first.
  { intros [= <- <-]. exists s. rewrite Hd1. auto. }
  rewrite <-Hd1 in Hs. destruct (m w1) as [x w2] eqn:Hx.
  destruct (Hm w1 x w2 Hs Hw1 Hx) as (s2 & HQ & Hs2 & Hw2). destruct x as [a|e].
  - destruct (db_call w2) as [x2 w3] eqn:Hc. pose proof (db_call_db _ _ _ Hc) as Hd3.
    destruct (weather_call _ _ _ Hw2 Hc) as [Hw3 [->|[-> Hf]]]; intros [= <- <-].
    + exists s2. by rewrite Hd3.
    + exists s. auto.
  - intros [= <- <-]. exists s. auto.
Qed.

(** Computations that leave an answering database answering. *)
Definition stays_calm {E A} (m : M World E A) : Prop :=
  ∀ w r w', no_faults w → m w = (r, w') → no_faults w'.

Lemma calm_lift {E A} (x : result A E) : stays_calm (lift x).
Proof. by intros w r w' Hw [= <- <-]. Qed.

Lemma calm_bind {E A B} (m : M World E A) (f : A → M World E B) :
  stays_calm m → (∀ a, stays_calm (f a)) → stays_calm (m ≫= f).
Proof.
  intros Hm Hf w r w' Hw. unfold mbind, M_bind. destruct (m w) as [[a|e] w1] eqn:Hx.
  - apply Hf. by eapply Hm.
  - intros [= <- <-]. by eapply Hm.
Qed.

Lemma calm_with_err {E F A} (f : E → F) (m : M World E A) : stays_calm m → stays_calm (with_err f m).
Proof.
  intros Hm w r w' Hw. unfold with_err. destruct (m w) as [[] w1] eqn:Hx; intros [= <- <-]; eauto.
Qed.

Lemma calm_query {A} (f : Db → A) : stays_calm (query f).
Proof. intros w r w' Hw. rewrite query_ok by done. by intros [= <- <-]. Qed.

Lemma calm_execute {A} (f : Db → result (A * Db) sqlx_error) : stays_calm (execute f).
Proof.
  intros w r w' Hw. rewrite execute_ok by done.
  destruct (f (db w)) as [[]|]; by intros [= <- <-].
Qed.

Lemma calm_transaction {E A} (conv : sqlx_error → E) (m : M World E A) :
  stays_calm m → stays_calm (transaction conv m).
Proof.
  intros Hm w r w' Hw. unfold transaction. rewrite db_call_ok by done.
  destruct (m w) as [[a|e] w1] eqn:Hx; pose proof (Hm _ _ _ Hw Hx) as Hw1.
  - rewrite db_call_ok by done. by intros [= <- <-].
  - by intros [= <- <-].
Qed.

(** An append that fails for another reason than the database leaves it answering. *)
Lemma calm_append `{SerdeJson, Sha256} now event : stays_calm (append_audit_event now event).
Proof.
  apply calm_bind; [apply calm_lift|intros t]. apply calm_bind; [apply calm_lift|intros text].
  apply calm_transaction, calm_bind; [apply calm_with_err, calm_query|intros latest].
  destruct (next_link latest) as [n previous]. apply calm_bind; [apply calm_lift|intros canonical].
  apply calm_bind; [apply calm_with_err, calm_execute|intros i]. apply calm_lift.
Qed.

(** An audit append is invisible to the store. *)
Lemma wp_append `{SerdeJson, Sha256} {E} (conv : AuditError → E) now event s Q :
  (∀ e, Q (Ok e) s) → (∀ e, Q (Err (conv e)) s) →
  wp (with_err conv (append_audit_event now event)) s Q.
Proof.
  intros HO HE w r w' Hs Hw Ha. exists s. split; [|split].
  - unfold with_err in Ha. destruct (append_audit_event now event w) as [[] ?]; by simplify_eq.
  - eapply rep_log; [|done]. by eapply append_tables.
  - intros Hcalm. unfold with_err in Ha.
    destruct (append_audit_event now event w) as [x w1] eqn:Happ.
    apply calm_append in Happ; [|by apply Hw]. by destruct x; simplify_eq.
Qed.
End wp.

(** One step of a service, calls excepted. *)
Ltac wp_step :=
  lazymatch goal with
  | |- wp _ _ (_ ≫= _) _ _ => apply wp_bind
  | |- wp _ _ (with_err _ (append_audit_event _ _)) _ _ => apply wp_append; [eassumption|..]
  | |- wp _ _ (with_err _ _) _ _ => apply wp_with_err
  | |- wp _ _ (ret _) _ _ => apply wp_ret
  | |- wp _ _ (lift _) _ _ => apply wp_lift
  | |- wp _ _ (ensure _ _) _ _ => apply wp_guard
  | |- wp _ _ db_call _ _ => apply wp_db_call
  end; cbn beta iota delta [map_err].
Ltac wp_steps := repeat wp_step.

(** ** Contracts *)

(** A lifecycle write: the machine restated and returned, or nobody of that name,
    or a database failure, before the write or after it. *)
Definition set_status_contract (calm : bool) (i : string) (st : MachineStatus) (now : Z) (s : Store)
    (r : result Machine MachineAdminError) (s' : Store) : Prop :=
  match r with
  | Ok m => ∃ m0, st_fleet s !! i = Some m0 ∧ m = restated st now m0 ∧ s' = set_fleet <[i := m]> s
  | Err (AdminNotFound i') => i' = i ∧ st_fleet s !! i = None ∧ s' = s
  | Err (AdminDatabase e) => calm = false ∧ e = SqlIo ∧
      (s' = s ∨ ∃ m0, st_fleet s !! i = Some m0 ∧ s' = set_fleet <[i := restated st now m0]> s)
  end.

(** A deletion is the last thing its operation does: an error means no change. *)
Definition delete_contract (calm : bool) (i : string) (s : Store)
    (r : result Machine MachineAdminError) (s' : Store) : Prop :=
  match r with
  | Ok m => st_fleet s !! i = Some m ∧ s' = set_fleet (delete i) s
  | Err (AdminNotFound i') => i' = i ∧ st_fleet s !! i = None ∧ s' = s
  | Err (AdminDatabase e) => calm = false ∧ e = SqlIo ∧ s' = s
  end.

Definition list_contract `{Chrono, SshKey, ToLowercase} (calm : bool) (now : Z)
    (latest : option Z) (f : MachineFilter) (s : Store) (r : result (list MachineView) sqlx_error) (s' : Store) : Prop :=
  s' = s ∧
  match r with
  | Ok views => ∃ ms, ms ≡ₚ values (st_fleet s) ∧
      StronglySorted (λ x y, str_leb (hostname x) (hostname y) = true) ms ∧
      views = List.filter (filter_matches f) ((λ m, from_machine m now latest) <$> ms)
  | Err e => calm = false ∧ e = SqlIo
  end.

Definition heartbeat_contract (calm : bool) (i : string) (request : HeartbeatRequest) (now : Z) (s : Store)
    (r : result HeartbeatResponse RegistryError) (s' : Store) : Prop :=
  match r with
  | Ok _ => ∃ ip m0, validate_heartbeat request = Ok ip ∧ st_fleet s !! i = Some m0 ∧
      s' = set_fleet <[i := beaten (MkHeartbeatUpdate i now (trim (hb_agent_version request)) ip
                                     (hb_current_generation request)) m0]> s
  | Err UnknownMachine => st_fleet s !! i = None ∧ s' = s
  | Err (RegistryDatabase e) => calm = false ∧ e = SqlIo ∧ s' = s
  | Err e => validate_heartbeat request = Err e ∧ s' = s
  end.

Definition servers_contract `{Chrono} (calm : bool) (now limit : Z) (s : Store)
    (r : result (list ServerSummary) RegistryError) (s' : Store) : Prop :=
  s' = s ∧
  match r with
  | Ok servers => ∃ ms, ms ≡ₚ values (st_fleet s) ∧
      StronglySorted (λ x y, newer x y = true) ms ∧
      servers = server_summary now <$> sql_limit limit ms
  | Err e => calm = false ∧ e = RegistryDatabase SqlIo
  end.

(** The bundle a store serves: its generation and enabled keys, in some order. *)
Definition serves `{SshKey, Sha256} (s : Store) (x : result CaBundle CaBundleError) : Prop :=
  ∃ records, records ≡ₚ List.filter kr_enabled (values (st_keys s)) ∧
    x = CaBundle_build (default 0%Z (st_generation s))
          ((λ r, MkCaBundleKey (kr_key_id r) (kr_public_key r)) <$> records).

(** An acknowledgement is recorded exactly when it names the bundle served. *)
Definition ack_contract `{SshKey, Sha256} (calm : bool) (i : string) (ack : AckRequest) (now : Z)
    (s : Store) (r : result AckResponse AckError) (s' : Store) : Prop :=
  match r with
  | Ok _ => ∃ bundle m0, serves s (Ok bundle) ∧ st_fleet s !! i = Some m0 ∧
      aq_generation ack = cb_generation bundle ∧ trim (aq_fingerprint ack) = cb_fingerprint bundle ∧
      s' = set_fleet <[i := acked (cb_generation bundle) (cb_fingerprint bundle) now m0]> s
  | Err e => s' = s ∧
      match e with
      | AckUnknownMachine => st_fleet s !! i = None
      | Mismatch => ∃ bundle, serves s (Ok bundle) ∧
          ¬ (aq_generation ack = cb_generation bundle ∧
             trim (aq_fingerprint ack) = cb_fingerprint bundle)
      | AckBundle e => calm = false ∧ e = CaBundleDatabase SqlIo ∨ serves s (Err e)
      | AckInvalid _ => trim (aq_status ack) ≠ "success" ∨ trim (aq_fingerprint ack) = "" ∨
          (MAX_FINGERPRINT_LEN < str_len (trim (aq_fingerprint ack)))%Z
      end
  end.

(** Who may enroll: an unexpired token that can still be consumed, and a hostname
    and a key nobody has. *)
Record store_admits (request : EnrollRequest) (pk h : string) (now : Z) (s : Store)
    (t : EnrollmentToken) : Prop := {
  sa_token : st_tokens s !! et_id t = Some t;
  sa_hash : et_token_hash t = h;
  sa_expiry : (now < et_expires_at t)%Z;
  sa_unused : et_single_use t = true → et_used_at t = None;
  sa_host : ¬ taken hostname (eq_hostname request) (st_fleet s);
  sa_key : ¬ taken public_key pk (st_fleet s);
}.

(** The token stamped and the machine added, together. *)
Definition store_admitted (request : EnrollRequest) (t : EnrollmentToken) (pk uuid : string)
    (now : Z) (s : Store) : Store :=
  set_fleet <[generate_machine_id uuid := read_back (enrolled_machine request pk uuid now)]>
    (set_token_store (alter (stamped now) (et_id t)) s).

(** Why an enrollment may be refused. *)
Definition refused_for `{SshKey, Sha256} (calm : bool) (request : EnrollRequest) (uuid : string)
    (now : Z) (s : Store) (e : EnrollmentError) : Prop :=
  let h := hash_token (eq_enrollment_token request) in
  match e with
  | TokenInvalid => is_well_formed (eq_enrollment_token request) = false ∨
      ¬ taken et_token_hash h (st_tokens s)
  | InvalidRequest _ => is_valid_hostname (eq_hostname request) = false
  | PublicKeyInvalid => ∃ x, validate_ed25519_public_key (eq_public_key request) = Err x
  | TokenExpired => ∃ i t, st_tokens s !! i = Some t ∧ et_token_hash t = h ∧
      (et_expires_at t <= now)%Z
  | TokenAlreadyUsed => ∃ i t, st_tokens s !! i = Some t ∧ et_token_hash t = h ∧
      et_single_use t = true ∧ is_Some (et_used_at t)
  | HostAlreadyEnrolled => taken hostname (eq_hostname request) (st_fleet s)
  | PublicKeyAlreadyExists => ∃ pk, validate_ed25519_public_key (eq_public_key request) = Ok pk ∧
      taken public_key pk (st_fleet s)
  | EnrollmentInternal _ => calm = false ∨ is_Some (st_fleet s !! generate_machine_id uuid)
  end.

Definition enroll_contract `{SshKey, Sha256} (calm : bool) (sv : EnrollmentService) (uuid : string)
    (now : Z) (request : EnrollRequest) (s : Store) (r : result EnrollResponse EnrollmentError)
    (s' : Store) : Prop :=
  let h := hash_token (eq_enrollment_token request) in
  let enrolled := ∃ pk t, validate_ed25519_public_key (eq_public_key request) = Ok pk ∧
    is_well_formed (eq_enrollment_token request) = true ∧
    is_valid_hostname (eq_hostname request) = true ∧
    store_admits request pk h now s t ∧ s' = store_admitted request t pk uuid now s in
  match r with
  | Ok response => enrolled ∧ es_machine_id response = generate_machine_id uuid
  | Err e => (s' = s ∧ refused_for calm request uuid now s e) ∨
             (enrolled ∧ ∃ a, e = EnrollmentInternal (CauseAudit a))
  end.

(** Validation fails with a validation error. *)
Lemma validate_heartbeat_err request e :
  validate_heartbeat request = Err e → ∃ msg, e = Validation msg.
Proof.
  unfold validate_heartbeat. intros Hv.
  assert (∀ f v n e', check_field f v n = Err e' → ∃ msg, e' = Validation msg) as Hc.
  { intros f v n e'. unfold check_field. repeat case_match; naive_solver. }
  cases; eauto.
Qed.

Section contracts.
Context `{Sha256, HexEncode, Chrono, SerdeJson, SshKey, ToLowercase}.
Context `{MR : MachineRepository, TR : EnrollmentTokenRepository, KR : CaKeyRepository}.
Context (rep : Db → Store → Prop) `{!RepositoryLaws MR TR KR rep} (calm : bool).

Lemma set_fleet_id s : set_fleet (λ _, st_fleet s) s = s.
Proof. by destruct s. Qed.

(** Reads that the clients make, by the answer. *)
Lemma wp_find_by_id i s (Q : result (option Machine) sqlx_error → Store → Prop) :
  Q (Ok (st_fleet s !! i)) s → (calm = false → Q (Err SqlIo) s) → wp rep calm (mrepo_find_by_id i) s Q.
Proof.
  intros HO HE. apply (wp_call rep calm (OnMachines (FindById i))); [done|]. intros [a|e] s'; simpl.
  - intros (f' & [-> ->] & ->). by rewrite set_fleet_id.
  - intros [-> [[-> ?]|[]]]. auto.
Qed.

Lemma wp_find_by (key : Machine → string) k (m : M World sqlx_error (option Machine))
    (c : MachineCall (option Machine)) s (Q : result (option Machine) sqlx_error → Store → Prop) :
  m = machine_call c → timely (OnMachines c) = true →
  (∀ f a f', fleet_allows c f a f' → f' = f ∧ found_by key k f a) →
  (∀ f e, ¬ fleet_refuses c f e) →
  (∀ a, found_by key k (st_fleet s) a → Q (Ok a) s) → (calm = false → Q (Err SqlIo) s) → wp rep calm m s Q.
Proof.
  intros -> Ht Hc Hr HO HE. apply (wp_call rep calm (OnMachines c)); [done|]. intros [a|e] s'; simpl.
  - intros (f' & [-> Ha]%Hc & ->). rewrite set_fleet_id. by apply HO.
  - intros [-> [[-> ?]|Hn]]; [auto|]. by apply Hr in Hn.
Qed.

(** A write to one machine. *)
Lemma alter_insert_lookup {A} (g : A → A) i x (m : gmap string A) :
  m !! i = Some x → alter g i m = <[i := g x]> m.
Proof.
  intros Hi. apply map_eq. intros j. rewrite lookup_alter, lookup_insert.
  by repeat case_decide; simplify_map_eq.
Qed.

Lemma alter_absent {A} (g : A → A) i (m : gmap string A) : m !! i = None → alter g i m = m.
Proof. intros Hi. apply alter_id. intros x Hx. congruence. Qed.

(** C21: the lifecycle operations of the administration service over any repository
    that keeps its trait's promises, whichever calls fail: setting a status restates
    that machine and no other and returns it as it now stands, deleting removes and
    returns it; an unknown identifier is reported exactly when there is no such
    machine and changes nothing; a database failure, which a calm run does not
    report, never leaves anything but the old fleet or the one write asked for. *)
Theorem lifecycle_any_repository i st now s :
  rfc3339_range now = true →
  wp rep calm (MachineAdminService_set_status i st now) s (set_status_contract calm i st now s) ∧
  wp rep calm (MachineAdminService_delete i) s (delete_contract calm i s).
Proof.
  intros Hn. split; unfold MachineAdminService_set_status, MachineAdminService_delete.
  - wp_steps; [|by simpl; auto].
    apply (wp_call rep calm (OnMachines (UpdateStatus i st now))); [done|].
    intros [b|e] s'; simpl; [|by intros [-> [[-> ?]|[]]]; simpl; auto].
    intros (f' & [-> ->] & ->). wp_steps.
    destruct (st_fleet s !! i) as [m0|] eqn:Hi.
    + rewrite bool_decide_true by done. rewrite (alter_insert_lookup _ _ _ _ Hi). wp_steps.
      apply wp_find_by_id; simpl.
      * rewrite lookup_insert_eq. wp_steps. simpl. eauto.
      * eauto 8.
    + rewrite bool_decide_false by by intros [? ?]. rewrite (alter_absent _ _ _ Hi), set_fleet_id.
      by simpl.
  - wp_steps; [|by simpl; auto]. apply wp_find_by_id; simpl; [|auto]. wp_steps.
    destruct (st_fleet s !! i) as [m|] eqn:Hi; simpl; [|done]. wp_steps.
    apply (wp_call rep calm (OnMachines (Delete i))); [done|].
    intros [b|e] s'; simpl; [|by intros [-> [[-> ?]|[]]]; simpl; auto].
    intros (f' & [-> ->] & ->). wp_steps. rewrite Hi, bool_decide_true by done. wp_steps. by simpl.
Qed.

(** The listings: what the fleet holds, in the order promised, and nothing written. *)
Theorem listings_any_repository now latest f limit s :
  wp rep calm (MachineAdminService_list now latest f) s (list_contract calm now latest f s) ∧
  wp rep calm (RegistryService_list_servers now limit) s (servers_contract calm now limit s).
Proof.
  split; unfold MachineAdminService_list, RegistryService_list_servers.
  - wp_steps; [|done]. apply (wp_call rep calm (OnMachines ListAll)); [done|].
    intros [ms|e] s'; simpl; [|by intros [-> [[-> ?]|[]]]].
    intros (f' & (-> & Hp & Hs) & ->). wp_steps. rewrite set_fleet_id. split; eauto.
  - wp_steps; [|done]. apply (wp_call rep calm (OnMachines (ListRecent limit))); [done|].
    intros [ms|e] s'; simpl; [|by intros [-> [[-> ?]|[]]]].
    intros (f' & (-> & l & Hp & Hs & ->) & ->). wp_steps. rewrite set_fleet_id. split; eauto.
Qed.

(** A heartbeat refreshes the machine it names, if what it reports is valid. *)
Theorem heartbeat_any_repository i request now s :
  rfc3339_range now = true →
  wp rep calm (RegistryService_record_heartbeat i request now) s (heartbeat_contract calm i request now s).
Proof.
  intros Hn. unfold RegistryService_record_heartbeat. wp_steps.
  destruct (validate_heartbeat request) as [ip|e] eqn:Hv; last first.
  { simpl. pose proof (validate_heartbeat_err _ _ Hv) as [msg ->]. by simpl. }
  wp_steps; [|by simpl].
  match goal with |- wp _ _ (mrepo_update_last_seen ?u) _ _ =>
    apply (wp_call rep calm (OnMachines (UpdateLastSeen u))); [done|] end.
  intros [b|e] s'; simpl; [|by intros [-> [[-> ?]|[]]]].
  intros (f' & [-> ->] & ->). wp_steps. destruct (st_fleet s !! i) as [m0|] eqn:Hi.
  - rewrite bool_decide_true by done. rewrite (alter_insert_lookup _ _ _ _ Hi). wp_steps.
    simpl. eauto.
  - rewrite bool_decide_false by by intros [? ?]. by rewrite (alter_absent _ _ _ Hi), set_fleet_id.
Qed.

Lemma bundle_any_repository s :
  wp rep calm CaBundleService_current_bundle s
    (λ r s', s' = s ∧ (calm = false ∧ r = Err (CaBundleDatabase SqlIo) ∨ serves s r)).
Proof.
  unfold CaBundleService_current_bundle. wp_steps; [|by auto].
  apply (wp_call rep calm (OnKeys CurrentGeneration)); [done|].
  intros [g|e] s'; simpl; [|intros [-> [[-> ?]|[]]]; by auto]. intros [-> ->]. wp_steps.
  apply (wp_call rep calm (OnKeys ListEnabled)); [done|].
  intros [records|e] s'; simpl; [|intros [-> [[-> ?]|[]]]; by auto]. intros (-> & Hp & _). wp_steps.
  split; [done|]. right. by exists records.
Qed.

(** Over any repository that keeps its trait's promises an acknowledgement is
    recorded exactly for a known machine that names the generation and fingerprint
    of the bundle the store then serves, and the record is that generation and
    fingerprint; every other outcome changes nothing and says why. *)
Theorem ack_any_repository i ack now s :
  rfc3339_range now = true →
  wp rep calm (CaBundleService_record_ack i ack now) s (ack_contract calm i ack now s).
Proof.
  intros Hn. unfold CaBundleService_record_ack. wp_steps.
  destruct (bool_decide_reflect (trim (aq_status ack) = "success")) as [Hst|Hst]; [|by simpl; auto]. wp_steps.
  destruct (negb _) eqn:Hfp; [|simpl; split; [done|]]; last first.
  { apply negb_false_iff, orb_true_iff in Hfp as [Hfp|Hfp%Z.ltb_lt]; [|by auto].
    right. left. by destruct (trim (aq_fingerprint ack)). }
  wp_steps.
  eapply wp_conseq; [apply bundle_any_repository|]. intros [bundle|e] s' [-> Hb]; simpl; last first.
  { split; [done|]. destruct Hb as [[? [= ->]]|Hb]; auto. }
  destruct Hb as [[_ ?]|Hb]; [done|]. wp_steps.
  destruct (bool_decide (aq_generation ack = _) && bool_decide _) eqn:Hm; last first.
  { simpl. split; [done|]. exists bundle. split; [done|]. intros [E1 E2].
    by rewrite !bool_decide_true in Hm. }
  bool_prop. wp_steps; [|by simpl; auto].
  apply (wp_call rep calm (OnKeys (RecordAck i (cb_generation bundle) (cb_fingerprint bundle) now)));
    [done|]. intros [b|e] s'; simpl; [|by intros [-> [[-> ?]|[]]]; simpl; auto].
  intros [-> ->]. wp_steps. destruct (st_fleet s !! i) as [m0|] eqn:Hi.
  - rewrite bool_decide_true by done. wp_steps. simpl. exists bundle, m0. split_and!; try done.
    unfold set_fleet. by rewrite (alter_insert_lookup _ _ _ _ Hi).
  - rewrite bool_decide_false by by intros [? ?]. simpl. split; [|done].
    unfold set_fleet. rewrite (alter_absent _ _ _ Hi). by destruct s.
Qed.

(** What the body of the transaction may answer, before it commits. *)
Definition body_contract (calm : bool) (request : EnrollRequest) (pk h uuid : string) (now : Z) (s : Store)
    (r : result Machine EnrollmentError) (s' : Store) : Prop :=
  match r with
  | Ok m => machine_id m = generate_machine_id uuid ∧
      ∃ t, store_admits request pk h now s t ∧ s' = store_admitted request t pk uuid now s
  | Err e =>
      match e with
      | TokenInvalid => ¬ taken et_token_hash h (st_tokens s)
      | TokenExpired => ∃ i t, st_tokens s !! i = Some t ∧ et_token_hash t = h ∧
          (et_expires_at t <= now)%Z
      | TokenAlreadyUsed => ∃ i t, st_tokens s !! i = Some t ∧ et_token_hash t = h ∧
          et_single_use t = true ∧ is_Some (et_used_at t)
      | HostAlreadyEnrolled => taken hostname (eq_hostname request) (st_fleet s)
      | PublicKeyAlreadyExists => taken public_key pk (st_fleet s)
      | EnrollmentInternal _ => calm = false ∨ is_Some (st_fleet s !! generate_machine_id uuid)
      | _ => False
      end
  end.

(** The tail: an admissible token is consumed and the machine inserted. *)
Lemma wp_consume_insert request pk h uuid now s t :
  rfc3339_range now = true → store_admits request pk h now s t →
  wp rep calm (consumed ← with_err EnrollmentError_of_sqlx
                       (trepo_consume (et_id t) (et_single_use t) now);
          _ ← ensure consumed TokenAlreadyUsed;
          with_err map_insert_error (mrepo_insert (enrolled_machine request pk uuid now)))
    s (body_contract calm request pk h uuid now s).
Proof.
  intros Hn Ha. pose proof Ha as [Ht Hh He Hu Hhost Hkey]. wp_steps.
  apply (wp_call rep calm (OnTokens (Consume (et_id t) (et_single_use t) now))); [done|].
  intros [b|e] s'; simpl; [|by intros [-> [[-> ?]|[]]]; left]. intros (ts' & [Hb ->] & ->).
  rewrite Ht in Hb. assert (b = true) as ->.
  { subst b. unfold consumes. destruct (et_single_use t); [|done]. by rewrite Hu. }
  wp_steps. apply (wp_call rep calm (OnMachines (Insert (enrolled_machine request pk uuid now)))); [done|].
  intros [m|e] s'; simpl.
  - intros (f' & (_ & _ & _ & -> & ->) & ->). split; [done|]. by exists t.
  - intros [-> [[-> ?]|[[? ->]|[[Hc ->]|[Hc ->]]]]]; simpl; auto.
Qed.

Lemma found_none (key : Machine → string) k f : found_by key k f None → ¬ taken key k f.
Proof. intros Hf (i & m & Hi & Hk). by eapply Hf. Qed.

Lemma enroll_body_any_repository request pk h uuid now s :
  rfc3339_range now = true →
  wp rep calm (EnrollmentService_enroll_body request pk h uuid now) s
    (body_contract calm request pk h uuid now s).
Proof.
  intros Hn. apply wp_wf; [done|]. intros Hwf. unfold EnrollmentService_enroll_body. wp_steps.
  apply (wp_call rep calm (OnTokens (FindByHash h))); [done|].
  intros [o|e] s'; simpl; [|by intros [-> [[-> ?]|[]]]; left]. intros (ts' & [-> Hf] & ->).
  replace (set_token_store (λ _, st_tokens s) s) with s by by destruct s. wp_steps.
  destruct o as [t|]; simpl in Hf |- *; last first.
  { intros (i & t & Hi & Hk). by eapply Hf. }
  destruct Hf as [Hhash [i Hi]]. pose proof (wf_token_id _ Hwf _ _ Hi) as Hid. subst i h.
  wp_steps. rewrite constant_time_eq_spec, bool_decide_true by done. wp_steps.
  unfold validate_token_state. destruct (Z.leb_spec (et_expires_at t) now) as [He|He].
  { exists (et_id t), t. by split_and!. }
  destruct (et_single_use t && bool_decide (is_Some (et_used_at t))) eqn:Hused.
  { bool_prop. exists (et_id t), t. by split_and!. }
  wp_steps. eapply (wp_find_by hostname (eq_hostname request) _ (FindByHostname (eq_hostname request)));
    [done..|auto| |by simpl; auto].
  intros host Hhost. simpl. wp_steps. destruct host as [m|]; simpl.
  { destruct Hhost as [Hk [i Hm]]. by exists i, m. }
  wp_steps. eapply (wp_find_by public_key pk _ (FindByPublicKey pk)); [done..|auto| |by simpl; auto].
  intros key Hkey. simpl. wp_steps. destruct key as [m|]; simpl.
  { destruct Hkey as [Hk [i Hm]]. by exists i, m. }
  apply wp_consume_insert; [done|]. split; try done; try by apply found_none.
  intros Hs. rewrite Hs in Hused. simpl in Hused. apply bool_decide_eq_false in Hused.
  by apply eq_None_not_Some.
Qed.

(** C20: enrollment over any token and machine repositories that keep their traits'
    promises, whichever database calls fail: success means the token was known,
    unexpired and consumable and the hostname and key free, and the store has the
    token stamped and the machine added, together and nothing else; an error leaves
    the store as it was and its reason holds of the store, unless only the audit
    entry failed, which is reported as an internal error.  In a calm run no other
    internal error is reported than for a machine identifier already in use. *)
Theorem enroll_any_repository sv uuid now audit_now request s :
  rfc3339_range now = true →
  wp rep calm (EnrollmentService_enroll sv uuid now audit_now request) s
    (enroll_contract calm sv uuid now request s).
Proof.
  intros Hn. unfold EnrollmentService_enroll. wp_steps.
  destruct (is_well_formed (eq_enrollment_token request)) eqn:Hwf; simpl; [|auto]. wp_steps.
  destruct (is_valid_hostname (eq_hostname request)) eqn:Hhost; simpl; [|auto]. wp_steps.
  destruct (validate_ed25519_public_key (eq_public_key request)) as [pk|x] eqn:Hpk; simpl; [|eauto].
  wp_steps. apply wp_transaction; [by simpl; auto|].
  eapply wp_conseq; [by apply enroll_body_any_repository|]. intros [m|e] s'; simpl.
  - intros [Hm (t & Ha & ->)]. wp_steps; intros e; wp_steps; unfold enroll_contract; simpl.
    + split; [|done]. by exists pk, t.
    + right. split; [by exists pk, t|eauto].
  - intros He. left. split; [done|]. unfold refused_for. destruct e; eauto; done.
Qed.
End contracts.

(** ** Witnesses: the contracts over SQLite *)
#[local] Existing Instances toy_sha256 toy_hex toy_serde_json toy_ssh_key toy_lowercase.
#[local] Existing Instances fixed_chrono fixed_chrono_laws fixed_chrono_order.

Lemma run_holds cs :
  forallb timely_event (run_calls cs empty_world).1 = true →
  ∃ s, holds (db (run_calls cs empty_world).2) s.
Proof.
  intros Ht.
  destruct (history_refines holds empty_world empty_store _ _ empty_holds Ht
    (run_calls_history cs empty_world)) as (s & _ & Hs). by exists s.
Qed.

(** A key, a machine and a token. *)
Definition trait_world : World :=
  (run_calls
     [existT _ (OnKeys (EnsureSeeded "ca-01" "ssh-ed25519 AAAA" (seconds 1)));
      existT _ (OnMachines (Insert demo_machine));
      existT _ (OnTokens (Create (MkNewEnrollmentToken "t1" (hash_token (generate_token demo_random))
        (seconds 5) (seconds 600) "admin" true)))] empty_world).2.

Definition trait_request : EnrollRequest :=
  MkEnrollRequest (generate_token demo_random) "web-02" "linux" "x86_64" "0.1.0"
    "ssh-ed25519 BBBB".

Lemma trait_world_holds : ∃ s, holds (db trait_world) s.
Proof. apply run_holds. vm_compute. reflexivity. Qed.

Lemma trait_world_calm : no_faults trait_world.
Proof. vm_compute. reflexivity. Qed.

Lemma lifecycle_any_repository_witness :
  ∃ s s' m, (MachineAdminService_set_status "srv_1" Disabled (seconds 60) trait_world).1 = Ok m ∧
    holds (db trait_world) s ∧ s' = set_fleet <["srv_1" := m]> s ∧ status m = Disabled ∧
    holds (db (MachineAdminService_set_status "srv_1" Disabled (seconds 60) trait_world).2) s'.
Proof.
  destruct trait_world_holds as [s Hs].
  destruct (MachineAdminService_set_status "srv_1" Disabled (seconds 60) trait_world) as [r w'] eqn:Hrun.
  destruct (proj1 (lifecycle_any_repository holds true "srv_1" Disabled (seconds 60) s eq_refl)
    trait_world r w' Hs (λ _, trait_world_calm) Hrun) as (s' & Hc & Hs' & _).
  destruct r as [m|e]; [|vm_compute in Hrun; discriminate Hrun].
  destruct Hc as (m0 & _ & Hm & Hs1). exists s, s', m. split_and!; try done. by rewrite Hm.
Defined.

Lemma ack_any_repository_witness :
  let ack := MkAckRequest 1 (compute_fingerprint 1 [ca_key_1]) "success" in
  ∃ s s' bundle m0, holds (db trait_world) s ∧ serves s (Ok bundle) ∧
    holds (db (CaBundleService_record_ack "srv_1" ack (seconds 9) trait_world).2) s' ∧
    s' = set_fleet <["srv_1" := acked (cb_generation bundle) (cb_fingerprint bundle) (seconds 9) m0]> s.
Proof.
  intros ack. destruct trait_world_holds as [s Hs].
  destruct (CaBundleService_record_ack "srv_1" ack (seconds 9) trait_world) as [r w'] eqn:Hrun.
  destruct (ack_any_repository holds true "srv_1" ack (seconds 9) s eq_refl trait_world r w' Hs (λ _, trait_world_calm) Hrun)
    as (s' & Hc & Hs' & _).
  destruct r as [m|e]; [|vm_compute in Hrun; discriminate Hrun].
  destruct Hc as (bundle & m0 & Hb & _ & _ & _ & Hs1). exists s, s', bundle, m0. by split_and!.
Defined.

Lemma enroll_any_repository_witness :
  ∃ s s' response t, holds (db trait_world) s ∧
    (EnrollmentService_enroll demo_service "u2" (seconds 9) (seconds 9) trait_request trait_world).1 = Ok response ∧
    es_machine_id response = "srv_u2" ∧
    store_admits trait_request "ssh-ed25519 BBBB" (hash_token (generate_token demo_random))
      (seconds 9) s t ∧
    s' = store_admitted trait_request t "ssh-ed25519 BBBB" "u2" (seconds 9) s ∧
    holds (db (EnrollmentService_enroll demo_service "u2" (seconds 9) (seconds 9) trait_request trait_world).2) s'.
Proof.
  destruct trait_world_holds as [s Hs].
  destruct (EnrollmentService_enroll demo_service "u2" (seconds 9) (seconds 9) trait_request trait_world)
    as [r w'] eqn:Hrun.
  destruct (enroll_any_repository holds true demo_service "u2" (seconds 9) (seconds 9) trait_request s
    eq_refl trait_world r w' Hs (λ _, trait_world_calm) Hrun) as (s' & Hc & Hs' & _).
  destruct r as [response|e]; [|vm_compute in Hrun; discriminate Hrun].
  destruct Hc as [(pk & t & Hpk & _ & _ & Ha & Hs1) Hid].
  vm_compute in Hpk. injection Hpk as <-.
  exists s, s', response, t. split_and!; done.
Defined.
