(* ===== verification/Bundle.v ===== *)
(** * Signed bundles
      ([src/src/bundle/models.rs], [canonical.rs], [signer.rs], [jitter.rs], the
      public bundle of [src/src/ca/models.rs])

    The canonical bytes of a bundle, their signature, and its verification against
    a pinned key; the jitter of polling intervals. *)
From S2P Require Import Prelude External Errors JsonText CaBundle AgentAuth Toy.

(** ** Types *)
Definition BUNDLE_VERSION : Z := 1.
Definition SIGNATURE_ALGORITHM : string := "ssh-ed25519".
Definition KEY_LEN : Z := 32.

Record BundleKey : Type := MkBundleKey {
  bu_key_id : string;
  bu_public_key : string;
  bu_fingerprint : string;
}.

Record SignedBundle : Type := MkSignedBundle {
  sb_bundle_version : Z;
  sb_generation : Z;
  sb_created_at : string;
  sb_expires_at : string;
  sb_fingerprint : string;
  sb_keys : list BundleKey;
  sb_signature_algorithm : string;
  sb_signature : string;
  sb_bundle_signing_public_key : string;
}.

Inductive BundleError : Type :=
| UnsupportedVersion (v : string)
| UnsupportedAlgorithm (a : string)
| Malformed (what : string)
| SignatureInvalid
| UntrustedSigner
| Expired
| NoEnabledKeys
| Crypto (what : string).

Inductive AckOutcome : Type := Applied | RolledBack | SignatureFailed.

Definition AckOutcome_parse (status : string) : option AckOutcome :=
  let s := to_ascii_lowercase (trim status) in
  if bool_decide (s = "applied") || bool_decide (s = "success") then Some Applied
  else if bool_decide (s = "rollback") || bool_decide (s = "rolled_back") then Some RolledBack
  else if bool_decide (s = "signature_failed") then Some SignatureFailed
  else None.

Definition AckOutcome_audit_event (o : AckOutcome) : string :=
  match o with
  | Applied => "bundle.applied"
  | RolledBack => "bundle.rollback"
  | SignatureFailed => "bundle.signature_failed"
  end.

Definition AckOutcome_is_success (o : AckOutcome) : bool :=
  match o with Applied => true | _ => false end.

(** ** Jitter ([jitter.rs]) *)

(** [next_index span] is the index the random source drew. *)
Definition with_jitter (base_seconds percent : Z) (next_index : Z → Z) : Z :=
  let percent := Z.min percent 100 in
  if (base_seconds =? 0)%Z then 1
  else
    let delta := (saturating_mul_u32 base_seconds percent `div` 100)%Z in
    if (delta =? 0)%Z then Z.max base_seconds 1
    else
      let span := (delta * 2 + 1)%Z in
      let offset := (next_index span - delta)%Z in
      as_u32 (Z.max (base_seconds + offset) 1).

(** ** Canonical bytes ([canonical.rs]) *)
Record CanonicalInput : Type := MkCanonicalInput {
  ci_bundle_version : Z;
  ci_generation : Z;
  ci_created_at : string;
  ci_expires_at : string;
  ci_fingerprint : string;
  ci_keys : list BundleKey;
}.

Definition by_key_id (a b : BundleKey) : bool := str_leb (bu_key_id a) (bu_key_id b).

(** A quoted member value, and one array element. *)
Definition string_json (s : string) : string :=
  String dquote (canonical_json_escape s +:+ String dquote "").
Definition bundle_key_json (key : BundleKey) : string :=
  "{" +:+ json_field "key_id" +:+ string_json (bu_key_id key) +:+ "," +:+
  json_field "public_key" +:+ string_json (bu_public_key key) +:+ "}".

Definition append_keys_array (sorted : list BundleKey) : string :=
  "[" +:+ join_comma (bundle_key_json <$> sorted) +:+ "]".

Definition canonical_v1 (input : CanonicalInput) : string :=
  "{" +:+ json_field "bundle_version" +:+ display_int (ci_bundle_version input) +:+
  "," +:+ json_field "created_at" +:+ string_json (ci_created_at input) +:+
  "," +:+ json_field "expires_at" +:+ string_json (ci_expires_at input) +:+
  "," +:+ json_field "fingerprint" +:+ string_json (ci_fingerprint input) +:+
  "," +:+ json_field "generation" +:+ display_int (ci_generation input) +:+
  "," +:+ json_field "keys" +:+ append_keys_array (sort_by by_key_id (ci_keys input)) +:+ "}".

Definition canonical_message (input : CanonicalInput) : result string BundleError :=
  if negb (ci_bundle_version input =? BUNDLE_VERSION)%Z then
    Err (UnsupportedVersion (display_int (ci_bundle_version input)))
  else Ok (canonical_v1 input).

(** ** Signing and verification ([signer.rs]) *)

(** The trait: its two required methods. *)
Record BundleSigner : Type := MkBundleSigner {
  signer_sign : string → string;
  signer_public_key_bytes : string;
}.
Definition signer_algorithm (s : BundleSigner) : string := SIGNATURE_ALGORITHM.

(** The part of a bundle the signature covers. *)
Definition canonical_input (b : SignedBundle) : CanonicalInput :=
  {| ci_bundle_version := sb_bundle_version b;
     ci_generation := sb_generation b;
     ci_created_at := sb_created_at b;
     ci_expires_at := sb_expires_at b;
     ci_fingerprint := sb_fingerprint b;
     ci_keys := sb_keys b |}.

Section signer.
Context `{SshKey, Base64, Ed25519, Chrono}.

Definition public_key_b64 (s : BundleSigner) : string := b64_encode (signer_public_key_bytes s).
Definition public_key_openssh (s : BundleSigner) : string :=
  default "" (to_openssh (from_ed25519 (signer_public_key_bytes s))).
Definition sign_b64 (s : BundleSigner) (message : string) : string :=
  b64_encode (signer_sign s message).

Definition Ed25519BundleSigner_from_seed (seed : string) : BundleSigner :=
  {| signer_sign := dalek_sign seed; signer_public_key_bytes := dalek_public seed |}.

(** [generate]: [random] is what the operating system gave; [seed_b64] of it. *)
Definition Ed25519BundleSigner_generate (random : string) : BundleSigner :=
  Ed25519BundleSigner_from_seed random.
Definition seed_b64 (seed : string) : string := b64_encode seed.

Definition from_seed_b64 (value : string) : result BundleSigner BundleError :=
  let? raw := ok_or (Malformed "bundle signing seed is not base64") (b64_decode value) in
  guard? (str_len raw =? KEY_LEN)%Z else Malformed "bundle signing seed must be 32 bytes" in
  Ok (Ed25519BundleSigner_from_seed raw).

Definition verify_signed_bundle (bundle : SignedBundle) (pinned : string) (now : Z)
  : result unit BundleError :=
  guard? (sb_bundle_version bundle =? BUNDLE_VERSION)%Z else
    UnsupportedVersion (display_int (sb_bundle_version bundle)) in
  guard? bool_decide (sb_signature_algorithm bundle = SIGNATURE_ALGORITHM) else
    UnsupportedAlgorithm (sb_signature_algorithm bundle) in
  let? embedded := ok_or (Malformed "bundle_signing_public_key is not an OpenSSH key")
                     (from_openssh (sb_bundle_signing_public_key bundle)) in
  let? embedded_ed := ok_or (Malformed "bundle_signing_public_key is not ed25519")
                        (ed25519_bytes embedded) in
  guard? bool_decide (embedded_ed = pinned) else UntrustedSigner in
  guard? verifying_key_ok pinned else Malformed "pinned signing key is invalid" in
  let? sig_raw := ok_or (Malformed "signature is not base64")
                    (b64_decode (sb_signature bundle)) in
  guard? (str_len sig_raw =? SIGNATURE_LENGTH)%Z else Malformed "signature must be 64 bytes" in
  let? message := canonical_message (canonical_input bundle) in
  guard? verify_strict pinned message sig_raw else SignatureInvalid in
  let? expires := ok_or (Malformed "expires_at is not RFC 3339")
                    (parse_from_rfc3339 (sb_expires_at bundle)) in
  guard? negb (expires <? now)%Z else Expired in
  Ok tt.
End signer.

(** ** What the signature covers *)

(** Version, generation, times, fingerprint, and the identifiers and keys in
    [key_id] order; not the display fingerprint of each key. *)
Definition covered (i : CanonicalInput) :=
  (ci_bundle_version i, ci_generation i, ci_created_at i, ci_expires_at i, ci_fingerprint i,
   (λ k, (bu_key_id k, bu_public_key k)) <$> sort_by by_key_id (ci_keys i)).

(** ** Lemmas *)
Lemma string_json_inj s1 s2 x y : string_json s1 +:+ x = string_json s2 +:+ y → s1 = s2 ∧ x = y.
Proof.
  unfold string_json, canonical_json_escape. intros Heq. autorewrite with mayfly_rw in Heq.
  injection Heq as Heq. by apply (escape_inj _ canonical_prefix_code) in Heq.
Qed.

Lemma bundle_key_json_inj k1 k2 x y :
  bundle_key_json k1 +:+ x = bundle_key_json k2 +:+ y →
  (bu_key_id k1, bu_public_key k1) = (bu_key_id k2, bu_public_key k2) ∧ x = y.
Proof.
  unfold bundle_key_json. rewrite !app_string_assoc. intros Heq.
  apply app_string_inj_l, app_string_inj_l, string_json_inj in Heq as [-> Heq].
  apply app_string_inj_l, app_string_inj_l, string_json_inj in Heq as [-> Heq].
  by apply app_string_inj_l in Heq as ->.
Qed.

(** Reading an array of such elements back up to its closing bracket. *)
Lemma bundle_keys_json_inj ks1 ks2 x y :
  join_comma (bundle_key_json <$> ks1) +:+ String "]" x =
  join_comma (bundle_key_json <$> ks2) +:+ String "]" y →
  (λ k, (bu_key_id k, bu_public_key k)) <$> ks1 =
  (λ k, (bu_key_id k, bu_public_key k)) <$> ks2 ∧ x = y.
Proof.
  revert ks2. induction ks1 as [|k1 ks1 IH]; intros [|k2 ks2] Heq; csimpl in *.
  - by injection Heq.
  - by destruct ks2; csimpl in Heq; rewrite ?app_String in Heq.
  - by destruct ks1; csimpl in Heq; rewrite ?app_String in Heq.
  - destruct ks1 as [|k1' ks1], ks2 as [|k2' ks2]; csimpl in *;
      rewrite ?app_string_assoc in Heq; apply bundle_key_json_inj in Heq as [-> Heq]; try done.
    + by injection Heq as ->.
    + injection Heq as Heq. destruct (IH (k2' :: ks2)) as [IH1 IH2]; csimpl in *; [done|].
      split; [congruence|done].
Qed.

Lemma canonical_v1_inj i1 i2 : canonical_v1 i1 = canonical_v1 i2 → covered i1 = covered i2.
Proof.
  unfold canonical_v1, covered, append_keys_array. intros Heq.
  rewrite !app_string_assoc in Heq.
  apply app_string_inj_l, app_string_inj_l in Heq.
  apply separator_inj in Heq as [Hv Heq]; [|by apply display_int_not_mem..].
  apply app_string_inj_l, string_json_inj in Heq as [-> Heq].
  apply app_string_inj_l, app_string_inj_l, string_json_inj in Heq as [-> Heq].
  apply app_string_inj_l, app_string_inj_l, string_json_inj in Heq as [-> Heq].
  apply app_string_inj_l, app_string_inj_l in Heq.
  apply separator_inj in Heq as [Hg Heq]; [|by apply display_int_not_mem..].
  apply app_string_inj_l, app_string_inj_l, bundle_keys_json_inj in Heq as [-> _].
  apply (inj display_int) in Hv as ->. by apply (inj display_int) in Hg as ->.
Qed.

Lemma canonical_message_inv i message :
  canonical_message i = Ok message →
  ci_bundle_version i = BUNDLE_VERSION ∧ canonical_v1 i = message.
Proof.
  unfold canonical_message. destruct (Z.eqb_spec (ci_bundle_version i) BUNDLE_VERSION); [|done].
  by intros ?%Ok_inj.
Qed.

Section bundle_theorems.
Context `{SshKey, Base64, Ed25519, Chrono}.

(** ** Theorems *)


(** Jitter stays within its percentage.  For an interval of up to 42949672 s and
    an index in range, the result differs from the interval by at most that
    percentage of it and is at least one second; the [u32] arithmetic does not
    wrap. *)
Theorem jitter_within_percent base percent next_index :
  (0 < base <= 42949672)%Z → (0 <= percent <= 255)%Z →
  (∀ span, (0 < span)%Z → (0 <= next_index span < span)%Z) →
  let delta := ((base * Z.min percent 100) `div` 100)%Z in
  (1 <= with_jitter base percent next_index)%Z ∧
  (base - delta <= with_jitter base percent next_index <= base + delta)%Z.
Proof.
  intros Hb Hp Hidx delta. unfold with_jitter, saturating_mul_u32, as_u32, u32_max.
  destruct (Z.eqb_spec base 0); [lia|].
  assert (0 <= base * Z.min percent 100 <= 4294967200)%Z as Hm by nia.
  rewrite Z.min_r by lia. fold delta.
  assert (0 <= delta)%Z by (apply Z.div_pos; lia).
  assert (delta <= base)%Z by (apply Z.div_le_upper_bound; nia).
  destruct (Z.eqb_spec delta 0); [lia|].
  pose proof (Hidx (delta * 2 + 1)%Z ltac:(lia)). rewrite Z.mod_small by lia. lia.
Qed.
End bundle_theorems.

(** ** Witnesses *)
#[local] Existing Instances toy_chrono toy_base64 toy_ssh_key.

Definition demo_bundle_key : BundleKey := MkBundleKey "ca-01" "ssh-ed25519 AAAA" "SHA256:x".
(** A signature scheme in which one message only has been signed. *)
Definition demo_signed_bundle : SignedBundle :=
  MkSignedBundle 1 4 (to_rfc3339_secs (seconds 100)) (to_rfc3339_secs (seconds 200)) "sha256:ab"
    [demo_bundle_key] "ssh-ed25519" (pad64 "sig") "ssh-ed25519 PINNED".
Definition one_message : Ed25519 := {|
  verifying_key_ok _ := true;
  verify_strict _ message _ :=
    bool_decide (message = canonical_v1 (canonical_input demo_signed_bundle));
  dalek_sign _ _ := pad64 "sig";
  dalek_public seed := seed;
|}.


Lemma jitter_within_percent_witness :
  (1 <= with_jitter 60 10 (λ span, span - 1))%Z ∧
  (60 - 6 <= with_jitter 60 10 (λ span, span - 1) <= 60 + 6)%Z.
Proof. apply (jitter_within_percent 60 10 (λ span, span - 1)%Z); lia. Defined.
