(* ===== verification/BundleService.v ===== *)
(** * Serving bundles
      ([src/src/bundle/service.rs], [src/src/routes/ca_bundle.rs])

    Building and signing the current bundle, conditional requests, the
    acknowledgement route, fleet metrics and the retirement assessment.  The CA
    manager lives in a file that is not part of the sources: it is a parameter,
    what the service reads of it. *)
From Stdlib Require Import SpecFloat.
From S2P Require Import Prelude External Errors Database AuditChain AuditRepo Machines Registry.
From S2P Require Import AgentAuth JsonText CaBundle Bundle Toy.

(** ** What the CA manager publishes ([src/src/ca/models.rs]) *)
Record CaRecord : Type := MkCaRecord {
  ca_id : string;
  ca_key_id : string;
  ca_public_key : string;
  ca_fingerprint : string;
  ca_enabled : bool;
  ca_created_at : Z;
  ca_enabled_at : option Z;
  ca_disabled_at : option Z;
  ca_last_used_at : option Z;
  ca_issued_certificates : Z;
  ca_disabled_generation : option Z;
}.

Record CaPublicKeyEntry : Type := MkCaPublicKeyEntry {
  pe_key_id : string;
  pe_public_key : string;
  pe_fingerprint : string;
}.

Record PublicBundle : Type := MkPublicBundle {
  pb_generation : Z;
  pb_fingerprint : string;
  pb_keys : list CaPublicKeyEntry;
}.

(** [CaManager]: [generation], [bundle_fingerprint], [get_public_bundle], [get]. *)
Record CaManager : Type := MkCaManager {
  cm_generation : Z;
  cm_bundle_fingerprint : string;
  cm_public_bundle : PublicBundle;
  cm_get : string → option CaRecord;
}.

(** The errors of [CaError] this service returns. *)
Inductive CaError : Type :=
| CaNotFound (id : string)
| CaRepository (err : sqlx_error).

(** ** Types of [bundle/models.rs] *)
Record BundleAckRequest : Type := MkBundleAckRequest {
  ba_generation : Z;
  ba_fingerprint : string;
  ba_status : string;
  ba_reason : option string;
}.

Record BundleAckResponse : Type := MkBundleAckResponse {
  br_status : string;
  br_generation : Z;
}.

Record GenerationCount : Type := MkGenerationCount { gc_generation : Z; gc_count : Z }.

(** The percentage is an IEEE 754 double. *)
Record FleetStatus : Type := MkFleetStatus {
  fs_latest_generation : Z;
  fs_total_machines : Z;
  fs_online : Z;
  fs_stale : Z;
  fs_offline : Z;
  fs_rollout_percentage : spec_float;
  fs_oldest_generation : option Z;
  fs_newest_generation : option Z;
  fs_generations : list GenerationCount;
}.

Record RetirementAssessment : Type := MkRetirementAssessment {
  ra_id : string;
  ra_key_id : string;
  ra_safety : string;
  ra_safe : bool;
  ra_affected_machines : Z;
  ra_oldest_generation : option Z;
  ra_latest_generation : option Z;
  ra_reason : string;
}.

(** ** [f64], binary64 arithmetic *)
Definition f64_of_Z (z : Z) : spec_float := binary_normalize 53 1024 z 0 false.
Definition f64_mul : spec_float → spec_float → spec_float := SFmul 53 1024.
Definition f64_div : spec_float → spec_float → spec_float := SFdiv 53 1024.

(** [f64::round]: half away from zero. *)
Definition f64_round (x : spec_float) : spec_float :=
  match x with
  | S754_finite s m e =>
      if (0 <=? e)%Z then x else
        let d := (2 ^ (- e))%Z in
        let q := (Z.pos m `div` d)%Z in
        let n := if (d <=? 2 * (Z.pos m `mod` d))%Z then (q + 1)%Z else q in
        binary_normalize 53 1024 (if s then - n else n)%Z 0 s
  | _ => x
  end.

(** ** The service *)
Record BundleService : Type := MkBundleService {
  bs_ca : CaManager;
  bs_signer : BundleSigner;
  bs_ttl_seconds : Z;
}.

Definition BundleService_new (ca : CaManager) (signer : BundleSigner) (ttl_seconds : Z)
  : BundleService := MkBundleService ca signer (Z.max ttl_seconds 1).

Definition current_fingerprint (s : BundleService) : string := cm_bundle_fingerprint (bs_ca s).
Definition service_current_generation (s : BundleService) : Z := cm_generation (bs_ca s).

(** One machine in the loop of [fleet_status]: the [BTreeMap] of counts. *)
Fixpoint bump (g : Z) (l : list (Z * Z)) : list (Z * Z) :=
  match l with
  | [] => [(g, 1%Z)]
  | (k, c) :: l' =>
      if (g <? k)%Z then (g, 1%Z) :: l
      else if (g =? k)%Z then (k, (c + 1)%Z) :: l'
      else (k, c) :: bump g l'
  end.

Record FleetCounts : Type := MkFleetCounts {
  fc_online : Z;
  fc_stale : Z;
  fc_offline : Z;
  fc_on_latest : Z;
  fc_counts : list (Z * Z);
}.

(** The loop of [assess_retirement]. *)
Record Affected : Type := MkAffected {
  af_count : Z;
  af_oldest : option Z;
  af_newest : option Z;
}.

Definition depends (cutoff : Z) (gen : option Z) : bool :=
  match gen with None => true | Some g => (g <? cutoff)%Z end.

Definition affected_step (cutoff : Z) (a : Affected) (gen : option Z) : Affected :=
  if depends cutoff gen then
    {| af_count := (af_count a + 1)%Z;
       af_oldest := match gen with
                    | Some g => Some (match af_oldest a with Some o => Z.min o g | None => g end)
                    | None => af_oldest a
                    end;
       af_newest := match gen with
                    | Some g => Some (match af_newest a with Some n => Z.max n g | None => g end)
                    | None => af_newest a
                    end |}
  else a.

Section bundle_service.
Context `{Sha256, Chrono, SerdeJson, SshKey, Base64, Ed25519}.

Definition build_signed_bundle (s : BundleService) (now : Z) : result SignedBundle BundleError :=
  let public := cm_public_bundle (bs_ca s) in
  guard? negb (bool_decide (length (pb_keys public) = 0)) else NoEnabledKeys in
  let keys := (λ k, MkBundleKey (pe_key_id k) (pe_public_key k) (pe_fingerprint k)) <$>
                pb_keys public in
  let created_at := to_rfc3339_secs now in
  let expires_at := to_rfc3339_secs (now + seconds (bs_ttl_seconds s))%Z in
  let algorithm := signer_algorithm (bs_signer s) in
  let? message := canonical_message
    {| ci_bundle_version := BUNDLE_VERSION;
       ci_generation := pb_generation public;
       ci_created_at := created_at;
       ci_expires_at := expires_at;
       ci_fingerprint := pb_fingerprint public;
       ci_keys := keys |} in
  Ok {| sb_bundle_version := BUNDLE_VERSION;
        sb_generation := pb_generation public;
        sb_created_at := created_at;
        sb_expires_at := expires_at;
        sb_fingerprint := pb_fingerprint public;
        sb_keys := keys;
        sb_signature_algorithm := algorithm;
        sb_signature := sign_b64 (bs_signer s) message;
        sb_bundle_signing_public_key := public_key_openssh (bs_signer s) |}.

Definition applied_row (generation : Z) (fingerprint : string) (now : Z) (r : MachineRow)
  : MachineRow :=
  {| mr_machine_id := mr_machine_id r;
     mr_hostname := mr_hostname r;
     mr_public_key := mr_public_key r;
     mr_os := mr_os r;
     mr_arch := mr_arch r;
     mr_agent_version := mr_agent_version r;
     mr_status := mr_status r;
     mr_ip := mr_ip r;
     mr_current_generation := mr_current_generation r;
     mr_synced_generation := Some generation;
     mr_bundle_fingerprint := Some fingerprint;
     mr_last_sync := Some (to_rfc3339_millis now);
     mr_last_seen := mr_last_seen r;
     mr_enrolled_at := mr_enrolled_at r;
     mr_created_at := mr_created_at r;
     mr_updated_at := mr_updated_at r |}.

Definition record_applied (i : string) (generation : Z) (fingerprint : string) (now : Z)
  : M World sqlx_error bool :=
  update_machine i (applied_row generation fingerprint now).

Definition machine_exists (i : string) : M World sqlx_error bool :=
  query (λ d, existsb (λ r, bool_decide (mr_machine_id r = i)) (machines d)).

Definition fleet_step (latest now : Z) (f : FleetCounts) (row : option string * option Z)
  : FleetCounts :=
  let '(last_seen, synced) := row in
  let parsed : option Z := last_seen ≫= parse_from_rfc3339 in
  let live := LivenessStatus_derive parsed now in
  let on (l : LivenessStatus) : Z := if bool_decide (live = l) then 1%Z else 0%Z in
  {| fc_online := (fc_online f + on Online)%Z;
     fc_stale := (fc_stale f + on Stale)%Z;
     fc_offline := (fc_offline f + on Offline)%Z;
     fc_on_latest := (fc_on_latest f +
       match synced with Some g => if g =? latest then 1 else 0 | None => 0 end)%Z;
     fc_counts := match synced with Some g => bump g (fc_counts f) | None => fc_counts f end |}.

Definition rollout_percentage (on_latest total : Z) : spec_float :=
  if (total =? 0)%Z then f64_of_Z 0
  else
    let pct := f64_div (f64_mul (f64_of_Z on_latest) (f64_of_Z 100)) (f64_of_Z total) in
    f64_div (f64_round (f64_mul pct (f64_of_Z 10))) (f64_of_Z 10).

Definition fleet_status (s : BundleService) (now : Z) : M World sqlx_error FleetStatus :=
  let latest_generation := cm_generation (bs_ca s) in
  rows ← query (λ d, (λ r, (mr_last_seen r, mr_synced_generation r)) <$> machines d);
  let total_machines := Z.of_nat (length rows) in
  let f := foldl (fleet_step latest_generation now) (MkFleetCounts 0 0 0 0 []) rows in
  ret {| fs_latest_generation := latest_generation;
         fs_total_machines := total_machines;
         fs_online := fc_online f;
         fs_stale := fc_stale f;
         fs_offline := fc_offline f;
         fs_rollout_percentage := rollout_percentage (fc_on_latest f) total_machines;
         fs_oldest_generation := fst <$> head (fc_counts f);
         fs_newest_generation := fst <$> last (fc_counts f);
         fs_generations := (λ gc, MkGenerationCount gc.1 gc.2) <$> fc_counts f |}.

Definition assess_retirement (s : BundleService) (id : string)
  : M World CaError RetirementAssessment :=
  record ← lift (ok_or (CaNotFound id) (cm_get (bs_ca s) id));
  if ca_enabled record then
    ret {| ra_id := ca_id record;
           ra_key_id := ca_key_id record;
           ra_safety := "unsafe";
           ra_safe := false;
           ra_affected_machines := 0;
           ra_oldest_generation := None;
           ra_latest_generation := None;
           ra_reason := "CA is still enabled; disable it before retiring" |}
  else
    let cutoff := default (cm_generation (bs_ca s)) (ca_disabled_generation record) in
    synced ← with_err CaRepository (query (λ d, mr_synced_generation <$> machines d));
    let a := foldl (affected_step cutoff) (MkAffected 0 None None) synced in
    let safe := (af_count a =? 0)%Z in
    ret {| ra_id := ca_id record;
           ra_key_id := ca_key_id record;
           ra_safety := if safe then "safe" else "unsafe";
           ra_safe := safe;
           ra_affected_machines := af_count a;
           ra_oldest_generation := af_oldest a;
           ra_latest_generation := af_newest a;
           ra_reason :=
             if safe then "no enrolled machine depends on this key"
             else display_int (af_count a) +:+ " machine(s) synced a generation older than " +:+
                  display_int cutoff +:+ " and may still trust this key" |}.

(** ** Routes ([routes/ca_bundle.rs]) *)
Definition etag_value (fingerprint : string) : string := quoted fingerprint.

(** [trim_matches(c)]. *)
Definition trim_matches (c : ascii) (s : string) : string :=
  let p ch := bool_decide (ch = String c "") in
  str_concat (reverse (drop_while p (reverse (drop_while p (chars s))))).

Definition tag_matches (fingerprint entry : string) : bool :=
  let tag := trim entry in
  if bool_decide (tag = "*") then true
  else
    let tag := default tag (strip_prefix "W/" tag) in
    bool_decide (trim_matches dquote (trim tag) = fingerprint).

Definition if_none_match_matches (headers : list (string * string)) (fingerprint : string)
  : bool :=
  match header_get "if-none-match" headers ≫= header_to_str with
  | None => false
  | Some raw => existsb (tag_matches fingerprint) (split_on "," raw)
  end.

Definition sanitize_reason (reason : string) : string :=
  str_concat (take 256 (List.filter (λ c, negb (char_is_control c)) (chars reason))).

(** [200] with the bundle, or [304]; both carry the [ETag]. *)
Inductive BundleResponse : Type :=
| NotModified (etag : string)
| Served (etag : string) (bundle : SignedBundle).

Definition require_bundle (s : option BundleService) : result BundleService ApiError :=
  ok_or (Internal (CauseMessage
    "bundle distribution is not configured (missing CA manager or signing key)")) s.

Definition get_ca_bundle (s : option BundleService) (now audit_now : Z) (authenticated : Machine)
    (headers : list (string * string)) : M World ApiError BundleResponse :=
  service ← lift (require_bundle s);
  let fingerprint := current_fingerprint service in
  if if_none_match_matches headers fingerprint then ret (NotModified (etag_value fingerprint))
  else
    bundle ← lift (map_err (λ _, Internal (CauseMessage "bundle error"))
                     (build_signed_bundle service now));
    _ ← with_err ApiError_of_audit (append_audit_event audit_now
          (with_metadata (json_object
              [("machine_id", VString (machine_id authenticated));
               ("generation", VNumber (sb_generation bundle));
               ("fingerprint", VString (sb_fingerprint bundle));
               ("bundle_version", VNumber (sb_bundle_version bundle))])
            (with_subject (machine_id authenticated)
              (NewAuditEntry_new "bundle.downloaded" "agent"))));
    ret (Served (etag_value fingerprint) bundle).

Definition ack_event (outcome : AckOutcome) (i : string) (ack : BundleAckRequest)
  : NewAuditEntry :=
  with_metadata (json_object
      [("machine_id", VString i);
       ("generation", VNumber (ba_generation ack));
       ("fingerprint", VString (trim (ba_fingerprint ack)));
       ("reason", json_opt_string (sanitize_reason <$> ba_reason ack))])
    (with_subject i (NewAuditEntry_new (AckOutcome_audit_event outcome) "agent")).

Definition ack_ca_bundle (s : option BundleService) (now audit_now : Z) (authenticated : Machine)
    (ack : BundleAckRequest) : M World ApiError BundleAckResponse :=
  _ ← lift (require_bundle s);
  let i := machine_id authenticated in
  outcome ← lift (ok_or (BadRequest ("unknown ack status '" +:+ ba_status ack +:+ "'"))
                    (AckOutcome_parse (ba_status ack)));
  _ ← ensure (negb (ba_generation ack <? 0)%Z) (BadRequest "generation must not be negative");
  let fingerprint := trim (ba_fingerprint ack) in
  _ ← ensure (negb (str_is_empty fingerprint || (MAX_FINGERPRINT_LEN <? str_len fingerprint)%Z))
        (BadRequest "invalid fingerprint");
  known ← (if AckOutcome_is_success outcome then
             with_err ApiError_of_sqlx (record_applied i (ba_generation ack) fingerprint now)
           else with_err ApiError_of_sqlx (machine_exists i));
  _ ← ensure known (Unauthorized "request authentication failed");
  _ ← with_err ApiError_of_audit (append_audit_event audit_now (ack_event outcome i ack));
  ret (MkBundleAckResponse "recorded" (ba_generation ack)).

(** ** Lemmas *)

(** The retirement loop counts the dependent machines and bounds their generations. *)
Lemma affected_fold cutoff synced a :
  let r := foldl (affected_step cutoff) a synced in
  af_count r = (af_count a + Z.of_nat (length (List.filter (depends cutoff) synced)))%Z ∧
  (∀ g, (af_oldest a = Some g → ∃ o, af_oldest r = Some o ∧ (o <= g)%Z) ∧
        (af_newest a = Some g → ∃ n, af_newest r = Some n ∧ (g <= n)%Z)) ∧
  (∀ g, Some g ∈ synced → (g < cutoff)%Z →
    ∃ o n, af_oldest r = Some o ∧ af_newest r = Some n ∧ (o <= g <= n)%Z).
Proof.
  revert a. induction synced as [|x synced IH]; intros a; simpl.
  { split_and!; [lia|intros g; split; eauto with lia|set_solver]. }
  destruct (IH (affected_step cutoff a x)) as (Hc & Hb & Hm). split_and!.
  - rewrite Hc. unfold affected_step. destruct (depends cutoff x); simpl; lia.
  - intros g. destruct (Hb (match af_oldest (affected_step cutoff a x) with Some o => o | None => 0 end)%Z) as [Ho _].
    destruct (Hb (match af_newest (affected_step cutoff a x) with Some o => o | None => 0 end)%Z) as [_ Hn].
    unfold affected_step in *. split; intros Hg.
    + destruct (depends cutoff x); [|by apply Hb]. simpl in *. rewrite Hg in *.
      destruct x as [y|]; destruct Ho as (o & ? & ?); eauto with lia.
    + destruct (depends cutoff x); [|by apply Hb]. simpl in *. rewrite Hg in *.
      destruct x as [y|]; destruct Hn as (o & ? & ?); eauto with lia.
  - intros g [<-|Hin]%elem_of_cons Hlt; [|by apply Hm].
    unfold affected_step in *. simpl in *. rewrite (proj2 (Z.ltb_lt g cutoff)) in * by done.
    simpl in *. destruct (Hb (match af_oldest a with Some o => Z.min o g | None => g end)) as [Ho _].
    destruct (Hb (match af_newest a with Some o => Z.max o g | None => g end)) as [_ Hn].
    destruct Ho as (o & Ho1 & Ho2); [done|]. destruct Hn as (n & Hn1 & Hn2); [done|].
    exists o, n. split_and!; try done; destruct (af_oldest a), (af_newest a); lia.
Qed.

(** ** The counts of [fleet_status] *)
Definition get_count (g : Z) (l : list (Z * Z)) : Z :=
  match find (λ kc, (kc.1 =? g)%Z) l with Some (_, c) => c | None => 0%Z end.

Definition ascending (l : list (Z * Z)) : Prop := StronglySorted (λ a b, (a.1 < b.1)%Z) l.

Lemma bump_keys g l k c :
  (k, c) ∈ bump g l → k = g ∨ ∃ c', (k, c') ∈ l.
Proof.
  induction l as [|[k' c'] l IH]; simpl; [set_solver|].
  destruct (g <? k')%Z; [set_solver|]. destruct (Z.eqb_spec g k') as [->|]; [set_solver|].
  intros [Heq|Hin]%elem_of_cons; [set_solver|].
  destruct (IH Hin) as [->|[c'' ?]]; [by left|right; exists c''; set_solver].
Qed.

Lemma bump_ascending g l : ascending l → ascending (bump g l).
Proof.
  induction 1 as [|[k c] l Hl IH Hk]; simpl; [by repeat constructor|].
  destruct (Z.ltb_spec g k).
  - constructor; [by constructor|]. constructor; [done|].
    eapply Forall_impl; [done|]. simpl. lia.
  - destruct (Z.eqb_spec g k) as [->|]; constructor; try done.
    rewrite Forall_forall in Hk |- *. intros [k' c'] Hin. simpl.
    apply bump_keys in Hin as [->|[c'' Hin]]; [lia|by apply (Hk (k', c''))].
Qed.

Lemma get_count_bump g g' l :
  ascending l →
  get_count g' (bump g l) = (get_count g' l + if g =? g' then 1 else 0)%Z.
Proof.
  unfold get_count. induction 1 as [|[k c] l Hl IH Hk]; simpl.
  - destruct (Z.eqb_spec g g'); done.
  - destruct (Z.ltb_spec g k); simpl; [|destruct (Z.eqb_spec g k) as [->|]; simpl].
    + destruct (Z.eqb_spec g g') as [->|]; [|by rewrite Z.add_0_r].
      rewrite (proj2 (Z.eqb_neq k g')) by lia.
      assert (find (λ kc, (kc.1 =? g')%Z) l = None) as ->; [|done].
      destruct (find _ l) as [[k' c']|] eqn:Hf; [|done].
      apply find_some in Hf as [Hin%list_elem_of_In Heq]. rewrite Forall_forall in Hk.
      apply Hk in Hin. simpl in *. bool_prop. lia.
    + destruct (Z.eqb_spec k g'); [done|by rewrite Z.add_0_r].
    + destruct (Z.eqb_spec k g') as [->|]; [|done].
      by rewrite (proj2 (Z.eqb_neq g g')), Z.add_0_r by done.
Qed.

Lemma bump_positive g l : Forall (λ kc, 0 < kc.2)%Z l → Forall (λ kc, 0 < kc.2)%Z (bump g l).
Proof.
  induction 1 as [|[k c] l Hk Hl IH]; simpl; [by repeat constructor|].
  destruct (g <? k)%Z; [by repeat constructor|]. simpl in *.
  destruct (g =? k)%Z; constructor; simpl; try done. lia.
Qed.

(** How many rows satisfy a condition. *)
Definition rows_where {A} (p : A → bool) (l : list A) : Z := Z.of_nat (length (List.filter p l)).

Lemma filter_fmap_length {A B} (f : A → B) (p : B → bool) l :
  length (List.filter p (f <$> l)) = length (List.filter (λ x, p (f x)) l).
Proof. induction l as [|x l IH]; csimpl; [done|]. destruct (p (f x)); simpl; by rewrite IH. Qed.

Lemma rows_where_zero {A} (p : A → bool) l :
  rows_where p l = 0%Z ↔ ∀ x, x ∈ l → p x = false.
Proof.
  unfold rows_where. induction l as [|x l IH]; simpl; [set_solver|].
  destruct (p x) eqn:Hx; simpl.
  - split; [lia|]. intros Hp. specialize (Hp x). rewrite Hx in Hp. set_solver.
  - rewrite IH. set_solver.
Qed.

Lemma fleet_fold latest now rows f :
  ascending (fc_counts f) → Forall (λ kc, 0 < kc.2)%Z (fc_counts f) →
  let r := foldl (fleet_step latest now) f rows in
  (fc_online r + fc_stale r + fc_offline r =
     fc_online f + fc_stale f + fc_offline f + Z.of_nat (length rows))%Z ∧
  fc_on_latest r = (fc_on_latest f + rows_where (λ x, bool_decide (x.2 = Some latest)) rows)%Z ∧
  ascending (fc_counts r) ∧ Forall (λ kc, 0 < kc.2)%Z (fc_counts r) ∧
  ∀ g, get_count g (fc_counts r) =
    (get_count g (fc_counts f) + rows_where (λ x, bool_decide (x.2 = Some g)) rows)%Z.
Proof.
  unfold rows_where. revert f. induction rows as [|[seen synced] rows IH]; intros f Ha Hp; simpl.
  { split_and!; try done; intros; lia. }
  destruct (IH (fleet_step latest now f (seen, synced))) as (H1' & H2' & H3' & H4' & H5').
  { simpl. destruct synced; [by apply bump_ascending|done]. }
  { simpl. destruct synced; [by apply bump_positive|done]. }
  simpl in *. split_and!; try done.
  - rewrite H1'. destruct (LivenessStatus_derive _ _); simpl; lia.
  - rewrite H2'. destruct synced as [g|]; simpl; [|lia].
    rewrite (bool_decide_ext (Some g = Some latest) (g = latest)) by naive_solver.
    destruct (Z.eqb_spec g latest) as [->|Hn];
      [rewrite (bool_decide_true (latest = latest)) by done
      |rewrite (bool_decide_false (g = latest)) by done]; simpl; lia.
  - intros g. rewrite H5'. destruct synced as [g0|]; simpl; [|lia].
    rewrite get_count_bump by done.
    rewrite (bool_decide_ext (Some g0 = Some g) (g0 = g)) by naive_solver.
    destruct (Z.eqb_spec g0 g) as [->|Hn]; [rewrite (bool_decide_true (g = g)) by done
      |rewrite (bool_decide_false (g0 = g)) by done]; simpl; lia.
Qed.

Lemma get_count_elem g c l :
  ascending l → Forall (λ kc, 0 < kc.2)%Z l →
  (g, c) ∈ l ↔ get_count g l = c ∧ (0 < c)%Z.
Proof.
  unfold get_count. induction 1 as [|[k d] l Hl IH Hk]; intros Hp; simpl.
  { split; [set_solver|intros [<- ?]; lia]. }
  apply Forall_cons in Hp as [Hd Hp]. simpl in Hd. rewrite elem_of_cons.
  rewrite Forall_forall in Hk. destruct (Z.eqb_spec k g) as [->|Hne].
  - split.
    + intros [[= ->]|Hin]; [done|]. apply Hk in Hin. simpl in Hin. lia.
    + intros [-> _]. by left.
  - rewrite <-IH by done. split; [intros [[= -> ->]|?]; done|by right].
Qed.

(** A fingerprint as the CA manager writes it. *)
Definition plain_tag (fp : string) : bool :=
  negb (str_is_empty fp) &&
  str_all (λ c, is_ascii_alphanumeric c || bool_decide (c = ":"%char)) fp.

Lemma plain_char c :
  is_ascii_alphanumeric c || bool_decide (c = ":"%char) = true →
  (byte_code c <? 128)%Z = true ∧ bool_decide (c = dquote) = false ∧
  char_is_whitespace (String c "") = false ∧
  in_range 32 126 (byte_code c) || (byte_code c =? 9)%Z = true ∧ bool_decide (","%char = c) = false.
Proof. by destruct c as [[] [] [] [] [] [] [] []]. Qed.

Lemma tag_roundtrip fp : plain_tag fp = true → tag_matches fp (etag_value fp) = true.
Proof.
  intros [Hne Hall]%andb_true_iff. unfold tag_matches, etag_value, quoted.
  set (q := String dquote (fp +:+ String dquote "")).
  assert (chars q = String dquote "" :: ((λ c, String c "") <$> bytes_of fp) ++ [String dquote ""])
    as Hq.
  { unfold q. rewrite chars_ascii.
    - csimpl. by rewrite bytes_of_app, fmap_app.
    - simpl. rewrite str_all_app. simpl. rewrite (str_all_impl _ _ fp (λ c Hc, proj1 (plain_char c Hc)) Hall). done. }
  assert (trim q = q) as Ht.
  { unfold trim. rewrite Hq, drop_while_ends by done. rewrite <-Hq. apply str_concat_chars. }
  rewrite Ht. rewrite bool_decide_false by (unfold q; by intros [=]).
  change (strip_prefix "W/" q) with (@None string). cbn [default]. rewrite Ht.
  apply bool_decide_eq_true. unfold trim_matches. rewrite Hq. simpl.
  set (p := λ ch, bool_decide (ch = String dquote "")).
  assert (∀ ch, ch ∈ (λ c, String c "") <$> bytes_of fp → p ch = false) as Hp.
  { intros ch (c & -> & Hc)%list_elem_of_fmap. apply bool_decide_eq_false. intros [= ->].
    by destruct (plain_char _ (str_all_bytes _ _ _ Hall Hc)) as (_ & Hd & _). }
  assert (drop_while p (((λ c, String c "") <$> bytes_of fp) ++ [String dquote ""]) =
    ((λ c, String c "") <$> bytes_of fp) ++ [String dquote ""]) as ->.
  { destruct fp as [|c fp]; [done|]. csimpl in *. by rewrite Hp by set_solver. }
  rewrite reverse_snoc. simpl. change (p (String dquote "")) with true. simpl.
  rewrite drop_while_all by (intros ch Hch; apply Hp; by apply elem_of_reverse).
  rewrite reverse_involutive. apply str_concat_bytes.
Qed.

Lemma revalidation fp :
  plain_tag fp = true → if_none_match_matches [("if-none-match", etag_value fp)] fp = true.
Proof.
  intros Hfp. pose proof Hfp as [_ Hall]%andb_true_iff.
  unfold if_none_match_matches, header_get. simpl. unfold header_to_str.
  assert (∀ p : ascii → bool, p dquote = true →
    (∀ c, is_ascii_alphanumeric c || bool_decide (c = ":"%char) = true → p c = true) →
    str_all p (etag_value fp) = true) as Hq.
  { intros p Hd Hp. unfold etag_value, quoted. simpl. rewrite Hd, str_all_app. simpl. rewrite Hd.
    by rewrite (str_all_impl _ p fp Hp Hall). }
  rewrite Hq; [|done|by intros c Hc; apply plain_char].
  rewrite split_on_none; [simpl; by rewrite tag_roundtrip|].
  apply str_all_not_mem, Hq; [done|]. intros c Hc. apply negb_true_iff. by apply plain_char.
Qed.

(** What an acknowledgement does to the tables before it is audited. *)
Definition acked (outcome : AckOutcome) (i : string) (ack : BundleAckRequest) (now : Z) (d : Db)
  : Db :=
  if AckOutcome_is_success outcome then
    set_machines (λ l, (update_where (λ r, bool_decide (mr_machine_id r = i))
      (applied_row (ba_generation ack) (trim (ba_fingerprint ack)) now) l).2) d
  else d.

(** The step of the route that reads or writes [machines]. *)
Lemma ack_known_inv (outcome : AckOutcome) i ack now w b w' :
  (if AckOutcome_is_success outcome then
     with_err ApiError_of_sqlx (record_applied i (ba_generation ack) (trim (ba_fingerprint ack)) now)
   else with_err ApiError_of_sqlx (machine_exists i)) w = (b, w') →
  db w' = db w ∧ (∃ e, b = Err e) ∨ db w' = acked outcome i ack now (db w) ∧
    (machines_ok (db w) → b = Ok false → db w' = db w).
Proof.
  unfold acked, with_err. destruct (AckOutcome_is_success outcome).
  - destruct (record_applied _ _ _ _ w) as [x w1] eqn:Hr.
    apply update_machine_inv in Hr as [(e & -> & Hdb)|(u & -> & Hu & Hdb)]; intros [= <- <-].
    + left. eauto.
    + right. split; [done|]. intros Hok [= ->]. rewrite Hdb.
      rewrite update_by_id_none; [by destruct (db w)|apply Hok|by symmetry].
  - destruct (machine_exists i w) as [x w1] eqn:Hr. apply query_inv in Hr as [Hdb _].
    intros Hb. right. destruct x; simplify_eq; done.
Qed.

(** The acknowledgement route; shared with the system invariant. *)
Lemma ack_effect `{!ChronoLaws, !SerdeJsonLaws} s now audit_now authenticated ack w r w' :
  audit_ok (db w) → machines_ok (db w) → rfc3339_range audit_now = true →
  ack_ca_bundle s now audit_now authenticated ack w = (r, w') →
  match r with
  | Ok _ => ∃ outcome row, AckOutcome_parse (ba_status ack) = Some outcome ∧
      same_but_audit (acked outcome (machine_id authenticated) ack now (db w)) (db w') ∧
      audit_log (db w') = audit_log (db w) ++ [row] ∧
      ar_event_type row = AckOutcome_audit_event outcome ∧
      ar_subject row = Some (machine_id authenticated) ∧ audit_ok (db w')
  | Err _ => audit_log (db w') = audit_log (db w) ∧
      (db w' = db w ∨ ∃ outcome, AckOutcome_parse (ba_status ack) = Some outcome ∧
        db w' = acked outcome (machine_id authenticated) ack now (db w))
  end.
Proof.
  intros Ha Hm Hn. unfold ack_ca_bundle, ensure. set (i := machine_id authenticated).
  do 2 (unfold mbind at 1, M_bind at 1, lift at 1).
  destruct (require_bundle s); [|intros [= <- <-]; auto].
  destruct (AckOutcome_parse _) as [outcome|] eqn:Hp; simpl; [|intros [= <- <-]; auto].
  unfold mbind at 1, M_bind at 1.
  destruct (ba_generation ack <? 0)%Z; simpl; [intros [= <- <-]; auto|].
  unfold mbind at 1, M_bind at 1.
  destruct (str_is_empty _ || _); simpl; [intros [= <- <-]; auto|].
  unfold mbind at 1, M_bind at 1.
  match goal with |- context [(if AckOutcome_is_success outcome then ?x else ?y) w] =>
    destruct ((if AckOutcome_is_success outcome then x else y) w) as [b w1] eqn:Hk end.
  apply ack_known_inv in Hk as [[Hdb [e ->]]|[Hdb Hfalse]].
  { intros [= <- <-]. rewrite Hdb. auto. }
  assert (audit_log (acked outcome i ack now (db w)) = audit_log (db w)) as Hlog0
    by (unfold acked; by destruct (AckOutcome_is_success outcome)).
  destruct b as [[]|e]; simpl.
  2:{ intros [= <- <-]. rewrite Hfalse by done. auto. }
  2:{ intros [= <- <-]. rewrite Hdb, Hlog0. split; [done|]. eauto. }
  unfold mbind, M_bind, with_err, append_audit_event. simpl. set (ev := ack_event _ _ _).
  assert (event_ok audit_now ev = true) as Hev.
  { unfold event_ok, ev, ack_event. rewrite Hn. by destruct (ba_reason ack). }
  assert (audit_ok (db w1)) as Ha1 by (rewrite Hdb; unfold audit_ok; by rewrite Hlog0).
  destruct (append_entry ev audit_now w1) as [[en|e] w2] eqn:Happ; simpl; intros [= <- <-].
  - destruct (append_entry_ok _ _ _ _ _ Ha1 Hev Happ) as (row & Hlog & Hdec & Hsame & Hok).
    destruct (append_entry_fields _ _ _ _ _ Hn Happ) as (Het & _ & Hsub & _).
    destruct (decodes_fields _ _ Hdec) as (_ & _ & Het' & _ & Hsub' & _).
    exists outcome, row. rewrite <-Hdb, <-Het', <-Hsub', Het, Hsub, Hlog, Hdb, Hlog0.
    rewrite <-Hdb. split_and!; done.
  - apply append_entry_err in Happ. rewrite Happ, Hdb, Hlog0. split; [done|]. eauto.
Qed.

(** ** Theorems *)

(** C35: what the server serves, an agent that pinned its key accepts.  A bundle built
    and signed at [now] verifies against the public key of the signing seed at any
    instant up to its expiry, [ttl] seconds later (cut to whole seconds). *)
Theorem served_bundle_verifies `{!ChronoLaws, !SshKeyLaws, !Base64Laws, !Ed25519Laws}
    ca seed ttl now now' b :
  let s := BundleService_new ca (Ed25519BundleSigner_from_seed seed) ttl in
  rfc3339_range (now + seconds (bs_ttl_seconds s)) = true →
  build_signed_bundle s now = Ok b →
  (now' <= trunc_secs (now + seconds (bs_ttl_seconds s)))%Z →
  verify_signed_bundle b (dalek_public seed) now' = Ok tt.
Proof.
  intros s Hr Hb Hn. unfold build_signed_bundle in Hb. case_match; [|done].
  simpl in Hb. apply Ok_inj in Hb. subst b. unfold verify_signed_bundle. cbn -[canonical_v1 seconds].
  rewrite bool_decide_true by done. unfold public_key_openssh. cbn -[canonical_v1 seconds].
  destruct (from_ed25519_encodes (dalek_public seed)) as [text Htext]. rewrite Htext.
  cbn -[canonical_v1 seconds]. rewrite (openssh_roundtrip _ _ Htext). cbn -[canonical_v1 seconds].
  rewrite ed25519_bytes_from. cbn -[canonical_v1 seconds]. rewrite bool_decide_true by done.
  rewrite dalek_public_ok. unfold sign_b64. rewrite b64_roundtrip. cbn -[canonical_v1 seconds].
  unfold str_len. rewrite dalek_sign_length. cbn -[canonical_v1 seconds].
  rewrite dalek_verify. rewrite parse_secs by done. simpl.
  by rewrite (proj2 (Z.ltb_ge _ _)).
Qed.

(** The count of the loop, and when it is zero. *)
Lemma affected_count cutoff rows :
  af_count (foldl (affected_step cutoff) (MkAffected 0 None None) (mr_synced_generation <$> rows)) =
  rows_where (λ r, depends cutoff (mr_synced_generation r)) rows.
Proof.
  destruct (affected_fold cutoff (mr_synced_generation <$> rows) (MkAffected 0 None None))
    as (Hc & _ & _). cbn -[affected_step] in Hc.
  rewrite Hc. unfold rows_where. by rewrite filter_fmap_length.
Qed.

Lemma unaffected_iff cutoff rows :
  af_count (foldl (affected_step cutoff) (MkAffected 0 None None) (mr_synced_generation <$> rows)) = 0%Z
  ↔ ∀ r, r ∈ rows → ∃ g, mr_synced_generation r = Some g ∧ (cutoff <= g)%Z.
Proof.
  rewrite affected_count, rows_where_zero. split; intros Hall r Hr.
  - specialize (Hall r Hr). unfold depends in Hall.
    destruct (mr_synced_generation r) as [g|]; [|done]. bool_prop. eauto.
  - destruct (Hall r Hr) as (g & -> & Hg). simpl. by apply Z.ltb_ge.
Qed.

(** What an assessment that answers says, whichever calls fail. *)
Lemma assess_ok_inv s id w a w' :
  assess_retirement s id w = (Ok a, w') →
  db w' = db w ∧ ∃ record, cm_get (bs_ca s) id = Some record ∧
    (ra_safe a = true → ca_enabled record = false ∧ ∀ r, r ∈ machines (db w) →
       ∃ g, mr_synced_generation r = Some g ∧
         (default (cm_generation (bs_ca s)) (ca_disabled_generation record) <= g)%Z).
Proof.
  unfold assess_retirement. intros Ha. do 2 ok_step.
  destruct (cm_get (bs_ca s) id) as [record|]; [|done]. injection Hl as <-.
  destruct (ca_enabled record) eqn:Hen.
  { ok_step. split; [done|]. by exists record. }
  db_steps. split; [congruence|]. exists record. split; [done|]. intros Hs. split; [done|].
  apply unaffected_iff. by apply Z.eqb_eq.
Qed.

(** The retirement verdict is exact.  For a disabled CA, [safe] is reported exactly
    when every enrolled machine has applied a bundle of the cutoff generation or a
    later one; [affected_machines] counts the others, and the reported generations
    enclose theirs. *)
Theorem retirement_verdict_exact s id record w :
  cm_get (bs_ca s) id = Some record → ca_enabled record = false → no_faults w →
  let cutoff := default (cm_generation (bs_ca s)) (ca_disabled_generation record) in
  ∃ a, assess_retirement s id w = (Ok a, w) ∧
    (ra_safe a = true ↔ ∀ r, r ∈ machines (db w) →
       ∃ g, mr_synced_generation r = Some g ∧ (cutoff <= g)%Z) ∧
    ra_affected_machines a =
      rows_where (λ r, depends cutoff (mr_synced_generation r)) (machines (db w)) ∧
    ∀ r g, r ∈ machines (db w) → mr_synced_generation r = Some g → (g < cutoff)%Z →
      ∃ o n, ra_oldest_generation a = Some o ∧ ra_latest_generation a = Some n ∧ (o <= g <= n)%Z.
Proof.
  intros Hget Hen Hw cutoff. unfold assess_retirement, mbind, M_bind, lift, with_err.
  rewrite Hget. simpl. rewrite Hen, query_ok by done. fold cutoff. eexists. split; [reflexivity|].
  cbn -[affected_step].
  destruct (affected_fold cutoff (mr_synced_generation <$> machines (db w)) (MkAffected 0 None None))
    as (Hc & _ & Hm). cbn -[affected_step] in Hc.
  split_and!; [rewrite Z.eqb_eq; apply unaffected_iff|apply affected_count|].
  - intros r g Hr Hg Hlt. apply Hm; [|done]. apply list_elem_of_fmap. by exists r.
Qed.

(** What fleet metrics say, whichever calls fail. *)
Lemma fleet_status_ok_inv s now w f w' :
  fleet_status s now w = (Ok f, w') →
  db w' = db w ∧ fs_latest_generation f = cm_generation (bs_ca s) ∧
  (fs_online f + fs_stale f + fs_offline f = fs_total_machines f)%Z ∧
  fs_total_machines f = Z.of_nat (length (machines (db w))) ∧
  StronglySorted (λ a b, gc_generation a < gc_generation b)%Z (fs_generations f) ∧
  ∀ g c, MkGenerationCount g c ∈ fs_generations f ↔
    c = rows_where (λ r, bool_decide (mr_synced_generation r = Some g)) (machines (db w)) ∧
    (0 < c)%Z.
Proof.
  unfold fleet_status. intros Hf. db_steps. split; [congruence|]. split; [done|].
  cbn -[fleet_step].
  destruct (fleet_fold (cm_generation (bs_ca s)) now
    ((λ r, (mr_last_seen r, mr_synced_generation r)) <$> machines (db w))
    (MkFleetCounts 0 0 0 0 [])) as (Hsum & _ & Hasc & Hpos & Hget); [by constructor..|].
  cbn -[fleet_step] in Hsum, Hget. split_and!.
  - rewrite Hsum. lia.
  - by rewrite length_fmap.
  - apply sorted_fmap. exact Hasc.
  - intros g c. rewrite list_elem_of_fmap.
    pose proof (filter_fmap_length (λ r, (mr_last_seen r, mr_synced_generation r))
      (λ x, bool_decide (x.2 = Some g)) (machines (db w))) as Hfl. simpl in Hfl.
    specialize (Hget g). unfold rows_where in Hget |- *. rewrite Hfl in Hget.
    split.
    + intros ([g' c'] & [= -> ->] & Hin). apply get_count_elem in Hin; [|done..].
      destruct Hin as [Hin ?]. by rewrite Hget in Hin.
    + intros [-> ?]. eexists (g, _). split; [reflexivity|]. apply get_count_elem; try done.
Qed.

(** Fleet metrics add up.  Every machine is online, stale or offline, once; the
    generations are listed in strictly ascending order, each with exactly the number
    of machines that last applied it, and none is left out. *)
Theorem fleet_status_adds_up s now w :
  no_faults w →
  ∃ f, fleet_status s now w = (Ok f, w) ∧
    (fs_online f + fs_stale f + fs_offline f = fs_total_machines f)%Z ∧
    fs_total_machines f = Z.of_nat (length (machines (db w))) ∧
    StronglySorted (λ a b, gc_generation a < gc_generation b)%Z (fs_generations f) ∧
    ∀ g c, MkGenerationCount g c ∈ fs_generations f ↔
      c = rows_where (λ r, bool_decide (mr_synced_generation r = Some g)) (machines (db w)) ∧
      (0 < c)%Z.
Proof.
  intros Hw.
  assert (∃ f, fleet_status s now w = (Ok f, w)) as [f Hf].
  { unfold fleet_status, mbind, M_bind. rewrite query_ok by done. by eexists. }
  exists f. split; [done|]. by apply fleet_status_ok_inv in Hf as (_ & _ & Hf).
Qed.

(** An acknowledgement, whichever database calls fail.  Only a success report
    writes to [machines], and only the row of the authenticated machine: it records
    the generation and fingerprint the agent claims.  Whenever the route answers
    [recorded] the outcome is the last entry of the audit log, about that machine; an
    error leaves the log as it was. *)
Theorem ack_outcome_recorded `{!ChronoLaws, !SerdeJsonLaws} s now audit_now authenticated ack w r w' :
  audit_ok (db w) → machines_ok (db w) → rfc3339_range audit_now = true →
  ack_ca_bundle s now audit_now authenticated ack w = (r, w') →
  match r with
  | Ok _ => ∃ outcome row, AckOutcome_parse (ba_status ack) = Some outcome ∧
      same_but_audit (acked outcome (machine_id authenticated) ack now (db w)) (db w') ∧
      audit_log (db w') = audit_log (db w) ++ [row] ∧
      ar_event_type row = AckOutcome_audit_event outcome ∧
      ar_subject row = Some (machine_id authenticated) ∧ audit_ok (db w')
  | Err _ => audit_log (db w') = audit_log (db w) ∧
      (db w' = db w ∨ ∃ outcome, AckOutcome_parse (ba_status ack) = Some outcome ∧
        db w' = acked outcome (machine_id authenticated) ack now (db w))
  end.
Proof. apply ack_effect. Qed.

(** Revalidation.  An agent that sends back the entity tag it was given gets [304]
    while the fingerprint is unchanged; nothing is signed and nothing is written. *)
Theorem revalidation_not_modified s now audit_now authenticated w :
  plain_tag (current_fingerprint s) = true →
  get_ca_bundle (Some s) now audit_now authenticated
    [("if-none-match", etag_value (current_fingerprint s))] w =
  (Ok (NotModified (etag_value (current_fingerprint s))), w).
Proof.
  intros Hfp. unfold get_ca_bundle, mbind, M_bind, lift. simpl. by rewrite revalidation.
Qed.
End bundle_service.

(** ** Witnesses *)
#[local] Existing Instances toy_sha256 toy_chrono toy_serde_json toy_ssh_key toy_base64
  toy_ed25519.
#[local] Existing Instances toy_sha256_laws toy_chrono_laws toy_serde_json_laws
  toy_ssh_key_laws toy_base64_laws toy_ed25519_laws.

Definition retired_ca : CaRecord :=
  MkCaRecord "id-1" "ca-00" "ssh-ed25519 OLD" "SHA256:old" false 0 None (Some 1%Z) None 7 (Some 3%Z).
Definition demo_ca : CaManager :=
  MkCaManager 4 "sha256:ab" (MkPublicBundle 4 "sha256:ab"
    [MkCaPublicKeyEntry "ca-01" "ssh-ed25519 AAAA" "SHA256:x"])
    (λ id, if bool_decide (id = "id-1") then Some retired_ca else None).
Definition demo_bundle_service : BundleService :=
  BundleService_new demo_ca (Ed25519BundleSigner_from_seed demo_seed) 3600.

Lemma served_bundle_verifies_witness :
  ∃ b, build_signed_bundle demo_bundle_service (seconds 100) = Ok b ∧
    verify_signed_bundle b (dalek_public demo_seed) (seconds 3000) = Ok tt.
Proof.
  destruct (build_signed_bundle demo_bundle_service (seconds 100)) as [b|e] eqn:Hb;
    [|vm_compute in Hb; discriminate Hb].
  exists b. split; [reflexivity|].
  apply (served_bundle_verifies demo_ca demo_seed 3600 (seconds 100) (seconds 3000) b);
    [vm_compute; reflexivity|exact Hb|vm_compute; discriminate].
Defined.

Lemma retirement_verdict_exact_witness :
  ∃ a, assess_retirement demo_bundle_service "id-1" machine_world = (Ok a, machine_world) ∧
    ra_affected_machines a = 1%Z ∧ ra_safe a = false.
Proof.
  destruct (retirement_verdict_exact demo_bundle_service "id-1" retired_ca machine_world)
    as (a & Ha & Hsafe & Hcount & _); [reflexivity..|].
  exists a. split_and!; [exact Ha|exact Hcount|].
  destruct (ra_safe a) eqn:Hs; [|reflexivity]. exfalso.
  destruct (proj1 Hsafe eq_refl (new_machine_row demo_machine)) as (g & Hg & _);
    [apply list_elem_of_here|discriminate Hg].
Defined.

Lemma fleet_status_adds_up_witness :
  ∃ f, fleet_status demo_bundle_service (seconds 10) machine_world = (Ok f, machine_world) ∧
    (fs_online f + fs_stale f + fs_offline f = fs_total_machines f)%Z ∧
    fs_total_machines f = 1%Z.
Proof.
  destruct (fleet_status_adds_up demo_bundle_service (seconds 10) machine_world)
    as (f & Hf & Hsum & Htot & _); [reflexivity|].
  exists f. split_and!; [exact Hf|exact Hsum|exact Htot].
Defined.

Definition demo_bundle_ack : BundleAckRequest := MkBundleAckRequest 4 "sha256:ab" "applied" None.

Lemma ack_outcome_recorded_witness :
  ∃ resp w' outcome row,
    ack_ca_bundle (Some demo_bundle_service) (seconds 20) (seconds 20) (read_back demo_machine)
      demo_bundle_ack machine_world = (Ok resp, w') ∧
    AckOutcome_parse "applied" = Some outcome ∧
    audit_log (db w') = [] ++ [row] ∧ ar_event_type row = AckOutcome_audit_event outcome.
Proof.
  destruct (is_ok_run (ack_ca_bundle (Some demo_bundle_service) (seconds 20) (seconds 20)
    (read_back demo_machine) demo_bundle_ack machine_world)) as [resp Hr];
    [vm_compute; reflexivity|].
  destruct (ack_outcome_recorded (Some demo_bundle_service) (seconds 20) (seconds 20)
    (read_back demo_machine) demo_bundle_ack machine_world (Ok resp) _ (empty_audit_ok [])
    machine_world_ok eq_refl Hr) as (outcome & row & Hp & _ & Hlog & Het & _).
  eexists resp, _, outcome, row. split_and!; [exact Hr|exact Hp|exact Hlog|exact Het].
Defined.

Lemma revalidation_not_modified_witness :
  get_ca_bundle (Some demo_bundle_service) (seconds 1) (seconds 1) (read_back demo_machine)
    [("if-none-match", etag_value "sha256:ab")] machine_world =
  (Ok (NotModified (etag_value "sha256:ab")), machine_world).
Proof.
  apply (revalidation_not_modified demo_bundle_service (seconds 1) (seconds 1)
    (read_back demo_machine) machine_world). vm_compute. reflexivity.
Defined.
