(* ===== verification/Golden.v ===== *)
(** * The golden protocol vectors
      ([src/src/golden_vectors.rs], [src/tests/vectors/protocol-vectors.json])

    Server and agent pin the bytes they exchange by one file of vectors.  The
    repository's tests recompute the vectors with the production functions; here
    they are recomputed with the definitions of this development, SHA-256 being the
    function of the standard, so the definitions give byte for byte what the code
    is pinned to.  The two tests that verify Ed25519 signatures are not repeated:
    curve arithmetic stays a parameter. *)
From S2P Require Import Prelude External AgentAuth CaBundle Bundle BundleService Sha2.

(** A JSON text written with single quotes. *)
Definition dq (s : string) : string :=
  str_map (λ c, if bool_decide (c = "'"%char) then dquote else c) s.

Record KeyVector : Type := MkKeyVector { kv_key_id : string; kv_public_key : string }.

Record BundleVectors : Type := MkBundleVectors {
  bv_bundle_version : Z;
  bv_generation : Z;
  bv_created_at : string;
  bv_expires_at : string;
  bv_signature_algorithm : string;
  bv_keys : list KeyVector;
  bv_fingerprint : string;
  bv_etag : string;
  bv_signing_payload : string;
}.

Record RequestSigningVectors : Type := MkRequestSigningVectors {
  rv_machine_id : string;
  rv_timestamp : Z;
  rv_nonce : string;
  rv_method : string;
  rv_path : string;
  rv_body : string;
  rv_body_sha256 : string;
  rv_canonical_string : string;
  rv_minimal_canonical_string : string;
}.

Record Vectors : Type := MkVectors {
  vs_signing_domain : string;
  vs_bundle : BundleVectors;
  vs_request_signing : RequestSigningVectors;
}.

(** What [VECTORS_JSON] parses to, less the keys and signatures of the two tests
    that are not repeated. *)
Definition vectors : Vectors := {|
  vs_signing_domain := "mayfly-agent-auth-v1";
  vs_bundle := {|
    bv_bundle_version := 1;
    bv_generation := 42;
    bv_created_at := "2026-01-01T00:00:00Z";
    bv_expires_at := "2026-02-01T00:00:00Z";
    bv_signature_algorithm := "ssh-ed25519";
    bv_keys :=
      [MkKeyVector "ca-01"
         "ssh-ed25519 AAAAC3NzaC1lZDI1NTE5AAAAIIqI4910CfGV/VLbLTy6XXLKZwm/HZQSG/N0iAG0D29c ca-01";
       MkKeyVector "ca-02"
         "ssh-ed25519 AAAAC3NzaC1lZDI1NTE5AAAAIIE5dw6ofRdfVqNUZsNMfszLjYqRtO43ol32D1uPybOU ca-02"];
    bv_fingerprint :=
      "sha256:1b932dea3b97e300d8477414f3eefcf51a7e935044aa719476e8a6c0c6099b24";
    bv_etag :=
      dq "'sha256:1b932dea3b97e300d8477414f3eefcf51a7e935044aa719476e8a6c0c6099b24'";
    bv_signing_payload :=
      dq "{'bundle_version':1,'created_at':'2026-01-01T00:00:00Z','expires_at':'2026-02-01T00:00:00Z','fingerprint':'sha256:1b932dea3b97e300d8477414f3eefcf51a7e935044aa719476e8a6c0c6099b24','generation':42,'keys':[{'key_id':'ca-01','public_key':'ssh-ed25519 AAAAC3NzaC1lZDI1NTE5AAAAIIqI4910CfGV/VLbLTy6XXLKZwm/HZQSG/N0iAG0D29c ca-01'},{'key_id':'ca-02','public_key':'ssh-ed25519 AAAAC3NzaC1lZDI1NTE5AAAAIIE5dw6ofRdfVqNUZsNMfszLjYqRtO43ol32D1uPybOU ca-02'}]}" |};
  vs_request_signing := {|
    rv_machine_id := "srv-golden";
    rv_timestamp := 1700000000;
    rv_nonce := "00112233445566778899aabbccddeeff";
    rv_method := "POST";
    rv_path := "/api/v1/agent/heartbeat";
    rv_body := dq "{'agent_version':'0.1.0'}";
    rv_body_sha256 :=
      "cea5c058f1eeab327f68a42c4c6e63350dfc9d5b9e08d5332697e7f6b172b126";
    rv_canonical_string :=
      String.concat (String newline "") ["mayfly-agent-auth-v1"; "srv-golden"; "1700000000"; "00112233445566778899aabbccddeeff"; "POST"; "/api/v1/agent/heartbeat"; "cea5c058f1eeab327f68a42c4c6e63350dfc9d5b9e08d5332697e7f6b172b126"];
    rv_minimal_canonical_string :=
      String.concat (String newline "") ["mayfly-agent-auth-v1"; "m"; "5"; "n"; "POST"; "/p"; "deadbeef"] |}
|}.

Definition UNUSED_KEY_FP : string := "SHA256:unused".

Definition bundle_keys (keys : list KeyVector) : list BundleKey :=
  (λ k, MkBundleKey (kv_key_id k) (kv_public_key k) UNUSED_KEY_FP) <$> keys.

(** The same keys for the fingerprint of the CA bundle. *)
Definition ca_entries (keys : list KeyVector) : list CaBundleKey :=
  (λ k, MkCaBundleKey (kv_key_id k) (kv_public_key k)) <$> keys.

(** ** The tests *)
Definition signing_domain_matches : bool :=
  bool_decide (vs_signing_domain vectors = SIGNING_DOMAIN).

(** [bundle_fingerprint] is the CA manager's. *)
Definition bundle_fingerprint_and_etag_match
    (bundle_fingerprint : Z → list CaBundleKey → string) : bool :=
  let b := vs_bundle vectors in
  let fp := bundle_fingerprint (bv_generation b) (ca_entries (bv_keys b)) in
  bool_decide (fp = bv_fingerprint b) && bool_decide (etag_value fp = bv_etag b).

Definition bundle_signing_payload_matches : bool :=
  let b := vs_bundle vectors in
  bool_decide (bv_signature_algorithm b = "ssh-ed25519") &&
  match canonical_message (MkCanonicalInput (bv_bundle_version b) (bv_generation b)
          (bv_created_at b) (bv_expires_at b) (bv_fingerprint b) (bundle_keys (bv_keys b))) with
  | Ok bytes => bool_decide (bytes = bv_signing_payload b)
  | Err _ => false
  end.

Definition request_signing_canonical_strings_match `{Sha256} : bool :=
  let r := vs_request_signing vectors in
  bool_decide (body_sha256_hex (rv_body r) = rv_body_sha256 r) &&
  bool_decide (canonical_string (rv_machine_id r) (rv_timestamp r) (rv_nonce r) (rv_method r)
                 (rv_path r) (rv_body_sha256 r) = rv_canonical_string r) &&
  bool_decide (canonical_string "m" 5 "n" "POST" "/p" "deadbeef" = rv_minimal_canonical_string r).

#[local] Existing Instances fips_sha256.

