(* ===== verification/TestsMachines.v ===== *)
(** * The unit tests of the machine modules, run on the definitions
      ([src/src/machines/repository.rs], [service.rs], [admin.rs], the [tests] modules)

    Each test is a program over a freshly migrated database that fails with the
    message of the step that went wrong; the theorem of a group says that all its
    tests pass.  The repository's own expectations of its code thereby hold of the
    definitions.  Keys and hashes come from the concrete instances of [Toy] and
    [Repository]; no test depends on which. *)
From S2P Require Import Prelude External Errors Database AuditChain AuditRepo Machines Enrollment Registry AgentAuth MachineAdmin Repository Toy Testing.

#[export] Instance Machine_eq_dec : EqDecision Machine.
Proof. solve_decision. Defined.
#[export] Instance EnrollmentToken_eq_dec : EqDecision EnrollmentToken.
Proof. solve_decision. Defined.

#[local] Existing Instances toy_sha256 toy_hex toy_serde_json toy_ssh_key toy_lowercase.
#[local] Existing Instances fixed_chrono.

(** ** [repository.rs] *)
Definition new_machine (suffix : string) (status : MachineStatus) : NewMachine :=
  {| nm_machine_id := "srv_" +:+ suffix;
     nm_hostname := "host-" +:+ suffix;
     nm_public_key := "ssh-ed25519 AAAA" +:+ suffix;
     nm_os := "linux";
     nm_arch := "x86_64";
     nm_agent_version := "0.1.0";
     nm_status := status;
     nm_enrolled_at := at_ 0 |}.

Definition new_token (id hash : string) (single_use : bool) : NewEnrollmentToken :=
  {| nt_id := id;
     nt_token_hash := hash;
     nt_created_at := at_ 0;
     nt_expires_at := at_ 3600;
     nt_created_by := "admin";
     nt_single_use := single_use |}.

Definition machine_insert_and_lookup_round_trip : test :=
  inserted ← expect "insert" (machine_insert (new_machine "01" Active));
  found ← expect "find" (find_by_id (machine_id inserted));
  by_id ← present "present" found;
  _ ← assert "by id" (bool_decide (by_id = inserted));
  _ ← assert "status" (bool_decide (status by_id = Active));
  found ← expect "find" (find_by_hostname (hostname inserted));
  by_host ← present "present" found;
  _ ← assert "by host" (bool_decide (by_host = inserted));
  found ← expect "find" (find_by_public_key (public_key inserted));
  by_key ← present "present" found;
  assert "by key" (bool_decide (by_key = inserted)).

Definition update_last_seen_refreshes_heartbeat_fields : test :=
  _ ← expect "insert" (machine_insert (new_machine "01" Active));
  updated ← expect "update"
    (update_last_seen (MkHeartbeatUpdate "srv_01" (at_ 30) "0.2.0" (Some "10.0.0.5") 42));
  _ ← assert "updated" updated;
  found ← expect "find" (find_by_id "srv_01");
  machine ← present "present" found;
  _ ← assert "last_seen" (bool_decide (last_seen machine = Some (at_ 30)));
  _ ← assert "agent_version" (bool_decide (agent_version machine = "0.2.0"));
  _ ← assert "ip" (bool_decide (ip machine = Some "10.0.0.5"));
  _ ← assert "generation" (bool_decide (current_generation machine = 42%Z));
  assert "status" (bool_decide (status machine = Active)).

Definition update_last_seen_unknown_machine_returns_false : test :=
  updated ← expect "update"
    (update_last_seen (MkHeartbeatUpdate "srv_missing" (at_ 30) "0.2.0" None 1));
  assert "not updated" (negb updated).

Definition insert_three : test :=
  for_each ["a"; "b"; "c"] (λ s,
    _ ← expect "insert" (machine_insert (new_machine s Active)); ret tt).

Definition list_recent_orders_by_last_seen_desc_nulls_last : test :=
  _ ← insert_three;
  _ ← expect "update a" (update_last_seen (MkHeartbeatUpdate "srv_a" (at_ 10) "0.1.0" None 0));
  _ ← expect "update b" (update_last_seen (MkHeartbeatUpdate "srv_b" (at_ 20) "0.1.0" None 0));
  listed ← expect "list" (list_recent 10);
  assert "order" (bool_decide (machine_id <$> listed = ["srv_b"; "srv_a"; "srv_c"])).

Definition list_recent_respects_limit : test :=
  _ ← insert_three;
  listed ← expect "list" (list_recent 2);
  assert "limit" (bool_decide (length listed = 2)).

Definition machine_lookup_misses_return_none : test :=
  a ← expect "q" (find_by_id "nope");
  _ ← assert "id" (bool_decide (a = None));
  b ← expect "q" (find_by_hostname "nope");
  _ ← assert "hostname" (bool_decide (b = None));
  c ← expect "q" (find_by_public_key "nope");
  assert "key" (bool_decide (c = None)).

Definition is_database_error (e : sqlx_error) : bool :=
  match e with SqlDatabase _ => true | _ => false end.

Definition duplicate_hostname_violates_unique_constraint : test :=
  _ ← expect "first" (machine_insert (new_machine "01" Active));
  let m := new_machine "02" Active in
  let dup := MkNewMachine (nm_machine_id m) "host-01" (nm_public_key m) (nm_os m) (nm_arch m)
               (nm_agent_version m) (nm_status m) (nm_enrolled_at m) in
  err ← expect_err "dup hostname" (machine_insert dup);
  assert "database error" (is_database_error err).

Definition duplicate_public_key_violates_unique_constraint : test :=
  _ ← expect "first" (machine_insert (new_machine "01" Active));
  let m := new_machine "02" Active in
  let dup := MkNewMachine (nm_machine_id m) (nm_hostname m) "ssh-ed25519 AAAA01" (nm_os m)
               (nm_arch m) (nm_agent_version m) (nm_status m) (nm_enrolled_at m) in
  err ← expect_err "dup key" (machine_insert dup);
  assert "database error" (is_database_error err).

Definition token_create_find_and_consume : test :=
  created ← expect "create" (token_create (new_token "tok1" "hash-abc" true));
  _ ← assert "unused" (bool_decide (et_used_at created = None));
  _ ← assert "single use" (et_single_use created);
  found ← expect "find" (find_by_hash "hash-abc");
  found ← present "present" found;
  _ ← assert "found" (bool_decide (found = created));
  first ← expect "consume" (token_consume "tok1" true (at_ 5));
  _ ← assert "consumed" first;
  second ← expect "re-consume" (token_consume "tok1" true (at_ 6));
  _ ← assert "not consumed twice" (negb second);
  after ← expect "find" (find_by_hash "hash-abc");
  after ← present "present" after;
  assert "used_at" (bool_decide (et_used_at after = Some (at_ 5))).

Definition reusable_token_can_be_consumed_repeatedly : test :=
  _ ← expect "create" (token_create (new_token "tok2" "hash-reuse" false));
  first ← expect "consume" (token_consume "tok2" false (at_ 5));
  _ ← assert "consumed" first;
  second ← expect "consume again" (token_consume "tok2" false (at_ 6));
  assert "consumed again" second.

Definition find_missing_token_returns_none : test :=
  found ← expect "q" (find_by_hash "absent");
  assert "absent" (bool_decide (found = None)).

Definition insert_and_consume_within_a_transaction_commit : test :=
  _ ← transaction (λ _, "begin or commit")
        (_ ← expect "create" (token_create (new_token "tok3" "hash-tx" true));
         consumed ← expect "consume" (token_consume "tok3" true (at_ 1));
         _ ← assert "consumed" consumed;
         expect "insert" (machine_insert (new_machine "tx" Active)));
  found ← expect "q" (find_by_id "srv_tx");
  assert "committed" (bool_decide (found ≠ None)).

(** [drop(tx)]: the transaction ends without a commit. *)
Definition transaction_rollback_discards_all_writes : test :=
  _ ← expect "seed token" (token_create (new_token "tok4" "hash-rb" true));
  dropped ← expect_err "committed" (transaction (λ _, "begin")
        (_ ← expect "consume" (token_consume "tok4" true (at_ 1));
         _ ← expect "insert" (machine_insert (new_machine "rb" Active));
         throw (A := unit) "dropped"));
  _ ← assert "dropped" (bool_decide (dropped = "dropped"));
  found ← expect "q" (find_by_id "srv_rb");
  _ ← assert "never persisted" (bool_decide (found = None));
  found ← expect "q" (find_by_hash "hash-rb");
  token ← present "present" found;
  assert "never consumed" (bool_decide (et_used_at token = None)).

Definition repository_tests : list test :=
  [machine_insert_and_lookup_round_trip;
   update_last_seen_refreshes_heartbeat_fields;
   update_last_seen_unknown_machine_returns_false;
   list_recent_orders_by_last_seen_desc_nulls_last;
   list_recent_respects_limit;
   machine_lookup_misses_return_none;
   duplicate_hostname_violates_unique_constraint;
   duplicate_public_key_violates_unique_constraint;
   token_create_find_and_consume;
   reusable_token_can_be_consumed_repeatedly;
   find_missing_token_returns_none;
   insert_and_consume_within_a_transaction_commit;
   transaction_rollback_discards_all_writes].

Theorem repository_tests_pass : forallb test_passes repository_tests = true.
Proof. vm_compute. reflexivity. Qed.

(** ** [service.rs]

    The random bytes, identifiers and keys the tests draw are written out. *)
Definition test_service : EnrollmentService := EnrollmentService_sqlite "ssh-ed25519 IDENTITY".
Definition hour : Z := seconds 3600.

Definition mint_token (random uuid : string) (single_use : bool) : M World string string :=
  issued ← expect "mint" (create_enrollment_token random uuid (at_ 0) "admin" hour single_use);
  ret (it_plaintext issued).

Definition tok_1 : M World string string := mint_token "0123456789abcdef0123456789abcdef" "tok-1" true.
Definition tok_2 : M World string string := mint_token "fedcba9876543210fedcba9876543210" "tok-2" true.

Definition request (token hostname public_key : string) : EnrollRequest :=
  MkEnrollRequest token hostname "linux" "x86_64" "0.1.0" public_key.

Definition agent_key_1 : string := "ssh-ed25519 AGENT1".
Definition agent_key_2 : string := "ssh-ed25519 AGENT2".

Definition test_enroll (uuid : string) (now : Z) (r : EnrollRequest)
  : M World EnrollmentError EnrollResponse := enroll test_service uuid now now r.


Definition valid_enrollment_succeeds : test :=
  tok ← tok_1;
  response ← expect "enroll" (test_enroll "u1" (at_ 0) (request tok "web-01" agent_key_1));
  _ ← assert "machine id" (starts_with "srv_" (es_machine_id response));
  _ ← assert "heartbeat" (es_heartbeat_interval response =? DEFAULT_HEARTBEAT_INTERVAL)%Z;
  _ ← assert "sync" (es_sync_interval response =? DEFAULT_SYNC_INTERVAL)%Z;
  assert "identity" (starts_with "ssh-ed25519 " (es_server_identity response)).

Definition is_already_used (e : EnrollmentError) : bool :=
  match e with TokenAlreadyUsed => true | _ => false end.

Definition token_is_consumed_after_enrollment : test :=
  plaintext ← tok_1;
  _ ← expect "enroll" (test_enroll "u1" (at_ 0) (request plaintext "web-01" agent_key_1));
  err ← expect_err "reuse rejected"
    (test_enroll "u2" (at_ 0) (request plaintext "web-02" agent_key_2));
  _ ← assert "already used" (is_already_used err);
  found ← expect "find" (find_by_hash (hash_token plaintext));
  record ← present "present" found;
  assert "used_at" (bool_decide (et_used_at record ≠ None)).

Definition invalid_token_is_rejected : test :=
  err ← expect_err "invalid"
    (test_enroll "u1" (at_ 0) (request "mf_enroll_doesnotexist" "web-01" agent_key_1));
  _ ← assert "invalid" (match err with TokenInvalid => true | _ => false end);
  err ← expect_err "malformed"
    (test_enroll "u1" (at_ 0) (request "not-a-token" "web-01" agent_key_1));
  assert "malformed" (match err with TokenInvalid => true | _ => false end).

Definition expired_token_is_rejected : test :=
  tok ← tok_1;
  err ← expect_err "expired"
    (test_enroll "u1" (at_ 0 + 2 * hour) (request tok "web-01" agent_key_1));
  assert "expired" (match err with TokenExpired => true | _ => false end).

Definition already_used_token_is_rejected : test :=
  tok ← tok_1;
  _ ← expect "first" (test_enroll "u1" (at_ 0) (request tok "web-01" agent_key_1));
  err ← expect_err "used" (test_enroll "u2" (at_ 0) (request tok "web-02" agent_key_2));
  assert "already used" (is_already_used err).

Definition duplicate_hostname_is_rejected : test :=
  tok1 ← tok_1;
  tok2 ← tok_2;
  _ ← expect "first" (test_enroll "u1" (at_ 0) (request tok1 "web-01" agent_key_1));
  err ← expect_err "dup host" (test_enroll "u2" (at_ 0) (request tok2 "web-01" agent_key_2));
  assert "duplicate host" (match err with HostAlreadyEnrolled => true | _ => false end).

Definition duplicate_public_key_is_rejected : test :=
  tok1 ← tok_1;
  tok2 ← tok_2;
  _ ← expect "first" (test_enroll "u1" (at_ 0) (request tok1 "web-01" agent_key_1));
  err ← expect_err "dup key" (test_enroll "u2" (at_ 0) (request tok2 "web-02" agent_key_1));
  assert "duplicate key" (match err with PublicKeyAlreadyExists => true | _ => false end).

Definition invalid_public_key_is_rejected : test :=
  tok ← tok_1;
  err ← expect_err "bad key" (test_enroll "u1" (at_ 0) (request tok "web-01" "not a key"));
  assert "invalid key" (match err with PublicKeyInvalid => true | _ => false end).

Definition invalid_hostname_is_rejected : test :=
  tok ← tok_1;
  err ← expect_err "bad host" (test_enroll "u1" (at_ 0) (request tok "bad host!" agent_key_1));
  assert "invalid request" (match err with InvalidRequest _ => true | _ => false end).

Definition failed_enrollment_rolls_back_token_consume : test :=
  tok1 ← tok_1;
  _ ← expect "first" (test_enroll "u1" (at_ 0) (request tok1 "web-01" agent_key_1));
  tok2 ← tok_2;
  err ← expect_err "dup key" (test_enroll "u2" (at_ 0) (request tok2 "web-02" agent_key_1));
  _ ← assert "duplicate key" (match err with PublicKeyAlreadyExists => true | _ => false end);
  found ← expect "find" (find_by_hash (hash_token tok2));
  record ← present "present" found;
  _ ← assert "token must not be consumed on failure" (bool_decide (et_used_at record = None));
  host ← expect "q" (find_by_hostname "web-02");
  assert "never created" (bool_decide (host = None)).

Definition machine_ids_are_unique : test :=
  tok1 ← tok_1;
  tok2 ← tok_2;
  a ← expect "first" (test_enroll "u1" (at_ 0) (request tok1 "web-01" agent_key_1));
  b ← expect "second" (test_enroll "u2" (at_ 0) (request tok2 "web-02" agent_key_2));
  assert "unique" (bool_decide (es_machine_id a ≠ es_machine_id b)).

Definition service_tests : list test :=
  [valid_enrollment_succeeds; token_is_consumed_after_enrollment; invalid_token_is_rejected;
   expired_token_is_rejected; already_used_token_is_rejected; duplicate_hostname_is_rejected;
   duplicate_public_key_is_rejected; invalid_public_key_is_rejected; invalid_hostname_is_rejected;
   failed_enrollment_rolls_back_token_consume; machine_ids_are_unique].

Theorem service_tests_pass : forallb test_passes service_tests = true.
Proof. vm_compute. reflexivity. Qed.

(** ** [admin.rs] *)
Definition seeded : test :=
  _ ← expect "insert a" (machine_insert (new_machine "a" Active));
  _ ← expect "insert b" (machine_insert (new_machine "b" Disabled));
  _ ← expect "hb a"
    (update_last_seen (MkHeartbeatUpdate "srv_a" (at_ 10) "0.2.0" (Some "10.0.0.1") 5));
  ret tt.

Definition lists_all_ordered_by_hostname : test :=
  _ ← seeded;
  views ← expect "list" (admin_list (at_ 15) (Some 5%Z) MachineFilter_default);
  match views with
  | [a; b] =>
      _ ← assert "hosts" (bool_decide (vw_hostname <$> views = ["host-a"; "host-b"]));
      _ ← assert "online" (bool_decide (vw_liveness a = Online));
      _ ← assert "not up to date" (negb (vw_up_to_date a));
      _ ← assert "generation" (vw_current_generation a =? 5)%Z;
      assert "offline" (bool_decide (vw_liveness b = Offline))
  | _ => throw "hosts"
  end.

Definition filters_by_status_and_liveness : test :=
  _ ← seeded;
  active ← expect "list"
    (admin_list (at_ 15) (Some 5%Z) (MkMachineFilter (Some Active) None None None None None None));
  _ ← assert "active" (bool_decide (vw_hostname <$> active = ["host-a"]));
  offline ← expect "list"
    (admin_list (at_ 15) (Some 5%Z) (MkMachineFilter None (Some Offline) None None None None None));
  assert "offline" (bool_decide (vw_hostname <$> offline = ["host-b"])).

Definition set_status_and_delete : test :=
  _ ← seeded;
  updated ← expect "enable" (set_status "srv_b" Active (at_ 20));
  _ ← assert "enabled" (bool_decide (status updated = Active));
  deleted ← expect "delete" (admin_delete "srv_a");
  _ ← assert "deleted" (bool_decide (hostname deleted = "host-a"));
  found ← expect "find" (admin_find "srv_a");
  _ ← assert "gone" (bool_decide (found = None));
  missing ← expect_err "missing" (set_status "nope" Active (at_ 20));
  assert "not found" (match missing with AdminNotFound _ => true | _ => false end).

Theorem admin_tests_pass :
  forallb test_passes
    [lists_all_ordered_by_hostname; filters_by_status_and_liveness; set_status_and_delete] = true.
Proof. vm_compute. reflexivity. Qed.
