(* ===== verification/TestsAudit.v ===== *)
(** * The unit tests of the audit modules, run on the definitions
      ([src/src/audit/hash.rs], [verifier.rs], [model.rs], [query.rs], [repository.rs],
      [service.rs], the [tests] modules)

    The two property-based tests of the verifier are theorems about every chain
    length, every place of the mutation and any hash, clock and JSON library with the
    documented behaviour; the tests with fixed inputs are run, those of the hash with
    FIPS 180-4 SHA-256, the others with an encoding that keeps 64 bytes. *)
From S2P Require Import Prelude External Errors Database Toy Sha2 AuditChain AuditRepo AuditSearch Repository Testing.

#[export] Instance Value_eq_dec : EqDecision Value.
Proof.
  refine (λ v w, cast_if (decide (value_to_tree v = value_to_tree w))); [|by intros ->].
  by rewrite <-(tree_to_value_to_tree v), <-(tree_to_value_to_tree w), e.
Defined.
#[export] Instance AuditEntry_eq_dec : EqDecision AuditEntry.
Proof. solve_decision. Defined.
#[export] Instance Order_eq_dec : EqDecision Order.
Proof. solve_decision. Defined.

(** ** [verifier.rs] *)
Section verifier.
Context `{Sha256, Chrono, SerdeJson}.

Definition ts (n : Z) : Z := at_ (n `rem` 60)%Z.

(** [None] is the panic of [expect]. *)
Definition build_entry (chain_position : Z) (previous_hash : string) (metadata : Value)
  : option AuditEntry :=
  let actor := "actor-" +:+ display_int chain_position in
  let subject := "subject-" +:+ display_int chain_position in
  let event_type := "event." +:+ display_int chain_position in
  let recorded_at := ts chain_position in
  match canonicalize chain_position event_type actor (Some subject) recorded_at metadata with
  | Err _ => None
  | Ok canonical_json =>
      Some (MkAuditEntry chain_position chain_position event_type actor (Some subject) metadata
              recorded_at previous_hash canonical_json
              (compute_entry_hash canonical_json previous_hash))
  end.

Fixpoint build_from (count : nat) (index : Z) (previous : string) : option (list AuditEntry) :=
  match count with
  | 0 => Some []
  | S count =>
      let n := (index + 1)%Z in
      build_entry n previous (json_object [("n", VNumber n)]) ≫= λ entry,
      cons entry <$> build_from count (index + 1) (ae_entry_hash entry)
  end.

Definition build_chain (count : nat) : option (list AuditEntry) :=
  build_from count 0 GENESIS_PREVIOUS_HASH.

Definition set_actor (actor : string) (e : AuditEntry) : AuditEntry :=
  MkAuditEntry (ae_id e) (ae_chain_position e) (ae_event_type e) actor (ae_subject e)
    (ae_metadata e) (ae_recorded_at e) (ae_previous_hash e) (ae_canonical_json e) (ae_entry_hash e).
Definition set_previous (hash : string) (e : AuditEntry) : AuditEntry :=
  MkAuditEntry (ae_id e) (ae_chain_position e) (ae_event_type e) (ae_actor e) (ae_subject e)
    (ae_metadata e) (ae_recorded_at e) hash (ae_canonical_json e) (ae_entry_hash e).
Definition set_canonical (text : string) (e : AuditEntry) : AuditEntry :=
  MkAuditEntry (ae_id e) (ae_chain_position e) (ae_event_type e) (ae_actor e) (ae_subject e)
    (ae_metadata e) (ae_recorded_at e) (ae_previous_hash e) text (ae_entry_hash e).
Definition set_hash (hash : string) (e : AuditEntry) : AuditEntry :=
  MkAuditEntry (ae_id e) (ae_chain_position e) (ae_event_type e) (ae_actor e) (ae_subject e)
    (ae_metadata e) (ae_recorded_at e) (ae_previous_hash e) (ae_canonical_json e) hash.

Definition zeros : string := str_replicate 64 "0".

Definition valid_with (n : Z) (r : AuditVerificationResult) : bool :=
  match r with Valid m => bool_decide (m = n) | Broken _ _ => false end.
Definition broken_at (n : Z) (r : AuditVerificationResult) : bool :=
  match r with Valid _ => false | Broken p _ => bool_decide (p = n) end.

(** A test of a chain; a chain that cannot be built fails it. *)
Definition on_chain (count : nat) (f : list AuditEntry → bool) : bool :=
  match build_chain count with Some chain => f chain | None => false end.

Definition valid_chain_verifies : bool :=
  on_chain 3 (λ chain, valid_with 3 (verify_chain chain)).
Definition empty_chain_is_valid : bool := valid_with 0 (verify_chain []).
Definition genesis_must_link_to_genesis_hash : bool :=
  on_chain 1 (λ chain, broken_at 1 (verify_chain (alter (set_previous zeros) 0 chain))).
Definition detects_modified_column : bool :=
  on_chain 2 (λ chain, broken_at 2 (verify_chain (alter (set_actor "intruder") 1 chain))).
Definition detects_modified_canonical_json : bool :=
  let tampered := "{" +:+ String dquote "tampered" +:+ String dquote ":true}" in
  on_chain 2 (λ chain, broken_at 2 (verify_chain (alter (set_canonical tampered) 1 chain))).
Definition detects_modified_entry_hash : bool :=
  on_chain 2 (λ chain, broken_at 2 (verify_chain (alter (set_hash zeros) 1 chain))).
Definition detects_broken_previous_hash_link : bool :=
  on_chain 2 (λ chain, broken_at 2 (verify_chain (alter (set_previous zeros) 1 chain))).
Definition detects_deleted_entry_gap : bool :=
  on_chain 3 (λ chain,
    match chain with
    | [first; _; third] => broken_at 3 (verify_chain [first; third])
    | _ => false
    end).
Definition detects_reordered_entries : bool :=
  on_chain 3 (λ chain,
    match chain with
    | [first; second; third] => negb (is_valid (verify_chain [first; third; second]))
    | _ => false
    end).

Definition verifier_tests : bool :=
  valid_chain_verifies && empty_chain_is_valid && genesis_must_link_to_genesis_hash &&
  detects_modified_column && detects_modified_canonical_json && detects_modified_entry_hash &&
  detects_broken_previous_hash_link && detects_deleted_entry_gap && detects_reordered_entries.

Definition arbitrary_valid_chains_always_verify (count : nat) : bool :=
  on_chain count (λ chain, is_valid (verify_chain chain)).
Definition arbitrary_mutation_breaks_chain (count mutation_index : nat) : bool :=
  let index := mutation_index mod count in
  let mutated := "mutated-" +:+ display_int (Z.of_nat index) in
  on_chain count (λ chain, negb (is_valid (verify_chain (alter (set_actor mutated) index chain)))).

(** *** The property-based tests hold for all their inputs *)
Lemma build_from_good `{!SerdeJsonLaws} count : ∀ index previous,
  ∃ chain, build_from count index previous = Some chain ∧ good_chain previous index chain ∧
    length chain = count.
Proof.
  induction count as [|count IH]; intros index previous; simpl; [by exists []; repeat constructor|].
  unfold build_entry at 1, canonicalize.
  destruct (json_to_string _) as [text|] eqn:Ht; simpl;
    [|by destruct (json_total (Canonical (index + 1) ("event." +:+ display_int (index + 1))
        ("actor-" +:+ display_int (index + 1)) (Some ("subject-" +:+ display_int (index + 1)))
        (to_rfc3339_millis (ts (index + 1))) (json_object [("n", VNumber (index + 1))])))
      as [x Hx]; rewrite Hx in Ht].
  destruct (IH (index + 1)%Z (compute_entry_hash text previous)) as (chain & -> & Hg & Hl).
  eexists. split; [done|]. split; [|by simpl; rewrite Hl].
  constructor; [|done]. constructor; try done. unfold recompute_canonical_json, canonicalize. simpl.
  by rewrite Ht.
Qed.

Lemma good_chain_lookup prev n es i e :
  good_chain prev n es → es !! i = Some e → recompute_canonical_json e = Ok (ae_canonical_json e).
Proof.
  intros Hg. revert i. induction Hg as [|prev n x es [] Hg IH]; intros [|i] Hi; simplify_eq/=; eauto.
Qed.

Lemma build_from_actor count : ∀ index previous chain i e,
  build_from count index previous = Some chain → chain !! i = Some e →
  ae_actor e = "actor-" +:+ display_int (ae_chain_position e).
Proof.
  induction count as [|count IH]; intros index previous chain i e Hb Hi; simpl in Hb; [by simplify_eq|].
  apply bind_Some in Hb as (x & Hx & Hb). apply fmap_Some in Hb as (xs & Hb & ->).
  destruct i as [|i]; simpl in Hi; [|by eapply IH].
  simplify_eq. unfold build_entry in Hx. by destruct (canonicalize _ _ _ _ _ _); simplify_eq.
Qed.

(** Every chain built entry by entry is accepted, whatever its length. *)
Theorem built_chains_verify `{!SerdeJsonLaws} count :
  arbitrary_valid_chains_always_verify count = true.
Proof.
  unfold arbitrary_valid_chains_always_verify, on_chain, build_chain, verify_chain.
  destruct (build_from_good count 0 GENESIS_PREVIOUS_HASH) as (chain & -> & Hg & _).
  by rewrite (verify_from_good _ _ _ Hg).
Qed.

(** Changing the actor of any one entry of a built chain is noticed. *)
Theorem mutated_chains_break `{!SerdeJsonLaws} count index :
  count ≠ 0 → arbitrary_mutation_breaks_chain count index = true.
Proof.
  intros Hc. unfold arbitrary_mutation_breaks_chain, on_chain, build_chain.
  destruct (build_from_good count 0 GENESIS_PREVIOUS_HASH) as (chain & Hb & Hg & Hl). rewrite Hb.
  set (i := index mod count). assert (i < count) as Hi by (by apply Nat.mod_upper_bound).
  destruct (verify_chain _) as [m|] eqn:Hv; [exfalso|done].
  apply verify_from_valid in Hv as Hg'.
  destruct (lookup_lt_is_Some_2 chain i) as [e He]; [lia|].
  pose proof (good_chain_lookup _ _ _ _ _ Hg He) as Hold.
  apply (good_chain_lookup _ _ _ i (set_actor ("mutated-" +:+ display_int (Z.of_nat i)) e)) in Hg';
    [|by rewrite list_lookup_alter_eq, He].
  destruct e as [id pos ty actor subject meta time prev text hash].
  pose proof (build_from_actor _ _ _ _ _ _ Hb He) as Ha. simpl in *.
  pose proof (canonicalize_inj _ _ _ _ _ _ _ _ _ _ _ _ _ Hold Hg'). by simplify_eq.
Qed.

End verifier.

#[local] Existing Instances toy_serde_json fixed_chrono.

(** ** [hash.rs] *)
Section hash.
#[local] Existing Instance fips_sha256.

Definition genesis_constant_matches_documented_digest : bool :=
  bool_decide (GENESIS_PREVIOUS_HASH = sha256_hex "mayfly-audit-genesis-v1").

(** [assert_eq!(a.unwrap(), b.unwrap())]. *)
Definition unwrap_eq (a b : result string AuditError) : bool :=
  match a, b with Ok x, Ok y => bool_decide (x = y) | _, _ => false end.

Definition canonicalization_is_deterministic : bool :=
  let meta := json_object [("serial", VString "01"); ("ttl", VNumber 3600)] in
  let a := canonicalize 1 "cert.issued" "octocat" (Some "web-01") (at_ 0) meta in
  let b := canonicalize 1 "cert.issued" "octocat" (Some "web-01") (at_ 0) meta in
  unwrap_eq a b.

(** The two texts, read into maps. *)
Definition canonicalization_is_independent_of_metadata_key_order : bool :=
  let first := json_object [("b", VNumber 1); ("a", VNumber 2); ("c", VNumber 3)] in
  let second := json_object [("c", VNumber 3); ("a", VNumber 2); ("b", VNumber 1)] in
  let a := canonicalize 1 "e" "x" None (at_ 0) first in
  let b := canonicalize 1 "e" "x" None (at_ 0) second in
  unwrap_eq a b.

Definition object_a (digit : string) : string :=
  "{" +:+ String dquote ("a" +:+ String dquote (":" +:+ digit +:+ "}")).

Definition hash_changes_when_canonical_changes : bool :=
  let baseline := compute_entry_hash (object_a "1") GENESIS_PREVIOUS_HASH in
  let mutated := compute_entry_hash (object_a "2") GENESIS_PREVIOUS_HASH in
  bool_decide (baseline ≠ mutated) && (String.length baseline =? 64)%nat.

Definition hash_changes_when_previous_hash_changes : bool :=
  let a := compute_entry_hash (object_a "1") GENESIS_PREVIOUS_HASH in
  let b := compute_entry_hash (object_a "1") zeros in
  bool_decide (a ≠ b).

Definition hashes_equal_is_correct : bool :=
  hashes_equal "abcd" "abcd" && negb (hashes_equal "abcd" "abce") &&
  negb (hashes_equal "abcd" "abcde").

(** The genesis constant is the digest its comment documents, and the other tests of
    the hash pass. *)
Theorem hash_tests_pass :
  genesis_constant_matches_documented_digest && canonicalization_is_deterministic &&
  canonicalization_is_independent_of_metadata_key_order && hash_changes_when_canonical_changes &&
  hash_changes_when_previous_hash_changes && hashes_equal_is_correct = true.
Proof. vm_compute. reflexivity. Qed.

End hash.

#[local] Existing Instance toy_sha256.

(** The tests of the verifier that fix their input. *)
Theorem verifier_tests_pass : verifier_tests = true.
Proof. vm_compute. reflexivity. Qed.

(** ** [model.rs] and [query.rs] *)
Definition builder_sets_subject_and_metadata : bool :=
  let entry := with_metadata (json_object [("serial", VString "01")])
                 (with_subject "web-01" (NewAuditEntry_new "certificate.issued" "octocat")) in
  bool_decide (ne_event_type entry = "certificate.issued") &&
  bool_decide (ne_actor entry = "octocat") &&
  bool_decide (ne_subject entry = Some "web-01") &&
  bool_decide (value_get "serial" (ne_metadata entry) = Some (VString "01")).

Definition verification_result_is_valid_helper : bool :=
  is_valid (Valid 3) && negb (is_valid (Broken 2 "x")).

Definition limit_is_clamped : bool :=
  bool_decide (effective_limit (with_limit 0 AuditQuery_recent) = 1%Z) &&
  bool_decide (effective_limit (with_limit 99999 AuditQuery_recent) = MAX_LIMIT) &&
  bool_decide (effective_limit (with_limit 25 AuditQuery_recent) = 25%Z).

(** [Order::default()] is the order of the derived [AuditQuery::default()]. *)
Definition default_order_is_descending : bool :=
  bool_decide (q_order AuditQuery_default = Descending).

(** The model and query tests pass. *)
Theorem audit_model_tests_pass :
  builder_sets_subject_and_metadata && verification_result_is_valid_helper &&
  limit_is_clamped && default_order_is_descending = true.
Proof. vm_compute. reflexivity. Qed.

(** ** [repository.rs] *)
Definition event (suffix : string) : NewAuditEntry :=
  with_metadata (json_object [("suffix", VString suffix)])
    (with_subject ("subject-" +:+ suffix) (NewAuditEntry_new "test.event" ("actor-" +:+ suffix))).

(** A statement run on the table once the append-only triggers are dropped. *)
Definition tamper (f : list AuditRow → list AuditRow) : test := λ w,
  (Ok tt, with_db w (set_audit_log f (db w))).

Definition intruder (r : AuditRow) : AuditRow :=
  if bool_decide (ar_chain_position r = 2%Z) then
    MkAuditRow (ar_id r) (ar_chain_position r) (ar_event_type r) "intruder" (ar_subject r)
      (ar_metadata r) (ar_recorded_at r) (ar_previous_hash r) (ar_canonical_json r)
      (ar_entry_hash r)
  else r.

Definition first_append_uses_genesis_and_chain_position_one : test :=
  entry ← expect "append" (append_entry (event "01") (at_ 1));
  _ ← assert "position" (bool_decide (ae_chain_position entry = 1%Z));
  _ ← assert "genesis" (bool_decide (ae_previous_hash entry = GENESIS_PREVIOUS_HASH));
  assert "id" (bool_decide (ae_id entry = 1%Z)).

Definition append_links_to_previous_entry_hash : test :=
  first ← expect "first" (append_entry (event "01") (at_ 1));
  second ← expect "second" (append_entry (event "02") (at_ 2));
  _ ← assert "position" (bool_decide (ae_chain_position second = 2%Z));
  assert "link" (bool_decide (ae_previous_hash second = ae_entry_hash first)).

Definition latest_entry_reports_tip_and_none_when_empty : test :=
  empty ← expect "empty" latest_entry;
  _ ← assert "none" (bool_decide (empty = None));
  _ ← expect "first" (append_entry (event "01") (at_ 1));
  second ← expect "second" (append_entry (event "02") (at_ 2));
  latest ← expect "latest" latest_entry;
  latest ← present "some" latest;
  assert "tip" (bool_decide (latest = second)).

Definition list_entries_round_trips_and_orders_by_chain_position : test :=
  first ← expect "first" (append_entry (event "01") (at_ 1));
  second ← expect "second" (append_entry (event "02") (at_ 2));
  all ← expect "list" list_entries;
  _ ← assert "entries" (bool_decide (all = [first; second]));
  assert "valid" (is_valid (verify_chain all)).

Definition detects_out_of_band_tampered_row : test :=
  _ ← expect "first" (append_entry (event "01") (at_ 1));
  _ ← expect "second" (append_entry (event "02") (at_ 2));
  _ ← tamper (fmap intruder);
  entries ← expect "list" list_entries;
  assert "broken" (broken_at 2 (verify_chain entries)).

Definition detects_out_of_band_deleted_row : test :=
  _ ← expect "first" (append_entry (event "01") (at_ 1));
  _ ← expect "second" (append_entry (event "02") (at_ 2));
  _ ← expect "third" (append_entry (event "03") (at_ 3));
  _ ← tamper (List.filter (λ r, negb (bool_decide (ar_chain_position r = 2%Z))));
  entries ← expect "list" list_entries;
  assert "broken" (broken_at 3 (verify_chain entries)).

(** *** Searching *)
Definition search_entry (event_type actor subject : string) (fields : list (string * Value))
  : NewAuditEntry :=
  with_metadata (json_object fields) (with_subject subject (NewAuditEntry_new event_type actor)).

Definition seed_search_repo : test :=
  _ ← expect "e1" (append_entry (search_entry "certificate.issued" "Octocat" "web-01"
        [("serial", VString "0001"); ("provider", VString "github")]) (at_ 1));
  _ ← expect "e2" (append_entry (search_entry "certificate.denied" "mallory" "web-01"
        [("provider", VString "github")]) (at_ 2));
  _ ← expect "e3" (append_entry (search_entry "machine.approved" "octocat" "machine-1"
        [("hostname", VString "web-01"); ("provider", VString "keycloak")]) (at_ 3));
  ret tt.

(** [AuditQuery { field: Some(..), ..AuditQuery::recent() }]. *)
Definition recent_with (prefix actor machine provider : option string) (res : option ResultFilter)
    (since after : option Z) (order : Order) : AuditQuery :=
  MkAuditQuery None prefix actor None machine provider None None res since None after None
    DEFAULT_LIMIT order.

Definition positions (page : AuditPage) : list Z := ae_chain_position <$> page_entries page.
Definition event_types (page : AuditPage) : list string := ae_event_type <$> page_entries page.

Definition search_filters_by_prefix_and_orders_desc : test :=
  _ ← seed_search_repo;
  page ← expect "search"
    (search (recent_with (Some "certificate.") None None None None None None Descending));
  assert "positions" (bool_decide (positions page = [2; 1]%Z)).

Definition search_actor_is_case_insensitive : test :=
  _ ← seed_search_repo;
  page ← expect "search"
    (search (recent_with None (Some "OCTOCAT") None None None None None Descending));
  assert "two" (bool_decide (length (page_entries page) = 2)).

Definition search_filters_by_result_failure : test :=
  _ ← seed_search_repo;
  page ← expect "search"
    (search (recent_with None None None None (Some Failure) None None Descending));
  assert "denied" (bool_decide (event_types page = ["certificate.denied"])).

Definition search_filters_by_provider_json_extract : test :=
  _ ← seed_search_repo;
  page ← expect "search"
    (search (recent_with None None None (Some "keycloak") None None None Descending));
  assert "approved" (bool_decide (event_types page = ["machine.approved"])).

Definition search_machine_matches_subject_or_hostname : test :=
  _ ← seed_search_repo;
  page ← expect "search"
    (search (recent_with None None (Some "web-01") None None None None Descending));
  assert "three" (bool_decide (length (page_entries page) = 3)).

Definition search_paginates_with_limit_and_cursor : test :=
  _ ← seed_search_repo;
  page ← expect "search" (search (with_limit 2 AuditQuery_recent));
  _ ← assert "two" (bool_decide (length (page_entries page) = 2));
  _ ← assert "more" (page_has_more page);
  stream ← expect "stream"
    (search (recent_with None None None None None None (Some 1%Z) Ascending));
  assert "from the cursor" (bool_decide (head (positions stream) = Some 2%Z)).

Definition search_filters_by_time_range_and_counts : test :=
  _ ← seed_search_repo;
  let q := recent_with None None None None None (Some (at_ 2)) None Descending in
  page ← expect "search" (search q);
  _ ← assert "two" (bool_decide (length (page_entries page) = 2));
  n ← expect "count" (count q);
  assert "counted" (bool_decide (n = 2%Z)).

(** The tests of the repository pass. *)
Theorem audit_repository_tests_pass :
  forallb test_passes
    [first_append_uses_genesis_and_chain_position_one; append_links_to_previous_entry_hash;
     latest_entry_reports_tip_and_none_when_empty;
     list_entries_round_trips_and_orders_by_chain_position; detects_out_of_band_tampered_row;
     detects_out_of_band_deleted_row; search_filters_by_prefix_and_orders_desc;
     search_actor_is_case_insensitive; search_filters_by_result_failure;
     search_filters_by_provider_json_extract; search_machine_matches_subject_or_hostname;
     search_paginates_with_limit_and_cursor; search_filters_by_time_range_and_counts] = true.
Proof. vm_compute. reflexivity. Qed.

(** ** [service.rs] *)
Definition service_event (suffix : string) : NewAuditEntry :=
  with_metadata (json_object [("suffix", VString suffix)])
    (NewAuditEntry_new "test.event" ("actor-" +:+ suffix)).

Definition append_stamps_recorded_at_from_clock : test :=
  entry ← expect "append" (append_audit_event (at_ 0) (service_event "01"));
  _ ← assert "clock"
        (bool_decide (to_rfc3339_millis (ae_recorded_at entry) = to_rfc3339_millis (at_ 0)));
  assert "position" (bool_decide (ae_chain_position entry = 1%Z)).

Definition get_tip_tracks_latest_entry : test :=
  tip ← expect "tip" get_tip;
  _ ← assert "none" (match tip with None => true | Some _ => false end);
  _ ← expect "first" (append_audit_event (at_ 0) (service_event "01"));
  second ← expect "second" (append_audit_event (at_ 0) (service_event "02"));
  tip ← expect "tip" get_tip;
  tip ← present "some" tip;
  _ ← assert "position" (bool_decide (tip_chain_position tip = 2%Z));
  assert "hash" (bool_decide (tip_entry_hash tip = ae_entry_hash second)).

Definition verify_chain_reports_valid_then_broken : test :=
  _ ← expect "first" (append_audit_event (at_ 0) (service_event "01"));
  _ ← expect "second" (append_audit_event (at_ 0) (service_event "02"));
  before ← expect "verify" service_verify_chain;
  _ ← assert "valid" (is_valid before);
  _ ← tamper (fmap intruder);
  after ← expect "verify" service_verify_chain;
  assert "broken" (broken_at 2 after).

(** The tests of the service pass. *)
Theorem audit_service_tests_pass :
  forallb test_passes
    [append_stamps_recorded_at_from_clock; get_tip_tracks_latest_entry;
     verify_chain_reports_valid_then_broken] = true.
Proof. vm_compute. reflexivity. Qed.
