(* ===== verification/TestsBundle.v ===== *)
(** * The unit tests of the bundle modules, run on the definitions
      ([src/src/cabundle/models.rs], [repository.rs], [service.rs];
      [src/src/bundle/canonical.rs], [jitter.rs], [models.rs], [signer.rs], [service.rs],
      the [tests] modules)

    The property-based test of the jitter is a theorem about all its inputs; the other
    tests are run.  JSON texts are written with single quotes ([Golden.dq]). *)
From S2P Require Import Prelude External Errors Database Toy Testing Sha2 AuditChain AuditRepo Machines JsonText CaBundle Repository Bundle BundleService Golden.
From Stdlib Require Import Floats.SpecFloat.

#[local] Existing Instances toy_ssh_key tag_ed25519 fixed_chrono.

(** ** [cabundle/models.rs] *)
Definition key (id : string) (seed : nat) : CaBundleKey :=
  MkCaBundleKey id (openssh_public seed).

(** [matches!(r.unwrap_err(), e)] and [r.unwrap()] under an assertion. *)
Definition fails_with {A E} (p : E → bool) (r : result A E) : bool :=
  match r with Ok _ => false | Err e => p e end.
Definition built {A E} (r : result A E) (p : A → bool) : bool :=
  match r with Ok x => p x | Err _ => false end.

Section cabundle_models.
#[local] Existing Instance fips_sha256.

Definition canonical_json_is_sorted_and_stable : bool :=
  built (CaBundle_build 7 [key "ca-02" 2; key "ca-01" 1]) (λ bundle,
    let canonical := canonical_json (cb_generation bundle) (cb_keys bundle) in
    match String.index 0 "ca-01" canonical, String.index 0 "ca-02" canonical with
    | Some idx1, Some idx2 => (idx1 <? idx2)%nat
    | _, _ => false
    end &&
    starts_with (dq "{'generation':7,'keys':[{'key_id':'ca-01'") canonical).

Definition fingerprint_is_independent_of_input_order : bool :=
  built (CaBundle_build 3 [key "ca-01" 1; key "ca-02" 2]) (λ forward,
  built (CaBundle_build 3 [key "ca-02" 2; key "ca-01" 1]) (λ reverse,
    bool_decide (cb_fingerprint forward = cb_fingerprint reverse) &&
    starts_with "sha256:" (cb_fingerprint forward))).

Definition fingerprint_changes_with_generation_and_keys : bool :=
  built (CaBundle_build 1 [key "ca-01" 1]) (λ base,
  built (CaBundle_build 2 [key "ca-01" 1]) (λ gen2,
  built (CaBundle_build 1 [key "ca-01" 9]) (λ other,
    bool_decide (cb_fingerprint base ≠ cb_fingerprint gen2) &&
    bool_decide (cb_fingerprint base ≠ cb_fingerprint other)))).

Definition canonical_json_known_vector : bool :=
  bool_decide (canonical_json 42 [MkCaBundleKey "ca-01" "ssh-ed25519 AAAA"] =
    dq "{'generation':42,'keys':[{'key_id':'ca-01','public_key':'ssh-ed25519 AAAA'}]}").

Definition rejects_empty_bundle : bool :=
  fails_with (λ e, match e with Empty => true | _ => false end) (CaBundle_build 1 []).

(** [format!("ca-{i:03}")] for two digits. *)
Definition numbered_key (i : nat) : CaBundleKey :=
  key ("ca-0" +:+ (if (i <? 10)%nat then "0" else "") +:+ display_int (Z.of_nat i)) i.
Definition rejects_too_many_keys : bool :=
  fails_with (λ e, match e with TooManyKeys => true | _ => false end)
    (CaBundle_build 1 (numbered_key <$> seq 0 (Z.to_nat (MAX_CA_KEYS + 1)))).

Definition rejects_duplicate_key_id : bool :=
  fails_with (λ e, match e with DuplicateKeyId => true | _ => false end)
    (CaBundle_build 1 [key "ca-01" 1; key "ca-01" 2]).
Definition rejects_duplicate_public_key : bool :=
  fails_with (λ e, match e with DuplicatePublicKey => true | _ => false end)
    (CaBundle_build 1 [key "ca-01" 5; key "ca-02" 5]).
Definition rejects_invalid_generation : bool :=
  fails_with (λ e, match e with InvalidGeneration => true | _ => false end)
    (CaBundle_build 0 [key "ca-01" 1]).
Definition rejects_invalid_public_key : bool :=
  fails_with (λ e, match e with InvalidPublicKey => true | _ => false end)
    (CaBundle_build 1 [MkCaBundleKey "ca-01" "not a key"]).
Definition rejects_non_ed25519_public_key : bool :=
  fails_with (λ e, match e with InvalidPublicKey => true | _ => false end)
    (CaBundle_build 1
       [MkCaBundleKey "ca-01" "ssh-rsa AAAAB3NzaC1yc2EAAAADAQABAAAAgQDExample test"]).
Definition rejects_invalid_key_id : bool :=
  fails_with (λ e, match e with InvalidKeyId => true | _ => false end)
    (CaBundle_build 1 [MkCaBundleKey "has space" (openssh_public 1)]).

Definition newline : string := String (byte_of 10) "".
Definition json_escape_handles_specials : bool :=
  bool_decide (cabundle_json_escape (dq "a'b\c" +:+ newline) = dq "'a\'b\\c\n'").

(** The tests of the CA bundle's data pass, with the standard's SHA-256. *)
Theorem cabundle_model_tests_pass :
  canonical_json_is_sorted_and_stable && fingerprint_is_independent_of_input_order &&
  fingerprint_changes_with_generation_and_keys && canonical_json_known_vector &&
  rejects_empty_bundle && rejects_too_many_keys && rejects_duplicate_key_id &&
  rejects_duplicate_public_key && rejects_invalid_generation && rejects_invalid_public_key &&
  rejects_non_ed25519_public_key && rejects_invalid_key_id && json_escape_handles_specials = true.
Proof. vm_compute. reflexivity. Qed.

End cabundle_models.

(** ** [cabundle/repository.rs] *)
#[local] Existing Instance toy_sha256.

Definition KEY_A : string := "ssh-ed25519 AAAAaaaa".
Definition KEY_B : string := "ssh-ed25519 BBBBbbbb".

Definition empty_store_reports_zero_generation_and_no_keys : test :=
  g ← expect "generation" repo_current_generation;
  _ ← assert "zero" (bool_decide (g = 0%Z));
  keys ← expect "list" list_enabled;
  assert "empty" (bool_decide (length keys = 0)).

Definition ensure_seeded_inserts_once : test :=
  _ ← expect "seed" (repo_ensure_seeded "mayfly-ca" KEY_A (at_ 0));
  g ← expect "generation" repo_current_generation;
  _ ← assert "one" (bool_decide (g = 1%Z));
  keys ← expect "list" list_enabled;
  _ ← assert "key" (bool_decide (((λ k, (kr_key_id k, kr_public_key k)) <$> keys) =
        [("mayfly-ca", KEY_A)]));
  _ ← expect "seed again" (repo_ensure_seeded "other" KEY_B (at_ 1));
  keys ← expect "list" list_enabled;
  assert "unchanged" (bool_decide ((kr_key_id <$> keys) = ["mayfly-ca"])).

(** The test's own [INSERT]. *)
Definition insert_keys (rows : list CaKeyRow) : test :=
  for_each rows (λ r, expect "insert" (execute (insert_ca_key r))).

Definition list_enabled_filters_disabled_and_orders_by_key_id : test :=
  _ ← expect "seed" (repo_ensure_seeded "ca-02" KEY_B (at_ 0));
  _ ← insert_keys [MkCaKeyRow "ca-01" KEY_A (to_text (at_ 1)) 2 1;
                   MkCaKeyRow "ca-03" "ssh-ed25519 CCCC" (to_text (at_ 2)) 3 0];
  keys ← expect "list" list_enabled;
  assert "ids" (bool_decide ((kr_key_id <$> keys) = ["ca-01"; "ca-02"])).

Definition record_ack_updates_existing_machine : test :=
  _ ← expect "insert" (machine_insert (MkNewMachine "srv_1" "h1" "ssh-ed25519 KKKK" "linux" "x86_64"
        "0.1.0" Active (at_ 0)));
  known ← expect "ack" (repo_record_ack "srv_1" 5 "sha256:abc" (at_ 10));
  _ ← assert "known" known;
  unknown ← expect "ack" (repo_record_ack "missing" 5 "sha256:abc" (at_ 10));
  _ ← assert "unknown" (negb unknown);
  row ← expect "select" (query (λ d,
    List.find (λ r, bool_decide (mr_machine_id r = "srv_1")) (machines d)));
  row ← present "one" row;
  _ ← assert "generation" (bool_decide (mr_synced_generation row = Some 5%Z));
  _ ← assert "fingerprint" (bool_decide (mr_bundle_fingerprint row = Some "sha256:abc"));
  assert "last_sync" (bool_decide (mr_last_sync row ≠ None)).

(** ** [cabundle/service.rs] *)
Definition seed_service : test :=
  expect "seed" (ensure_seeded "mayfly-ca" (openssh_public 1) (at_ 0)).

Definition current_bundle_after_seed_has_one_key : test :=
  _ ← seed_service;
  bundle ← expect "bundle" current_bundle;
  _ ← assert "generation" (bool_decide (cb_generation bundle = 1%Z));
  _ ← assert "keys" (bool_decide (length (cb_keys bundle) = 1));
  assert "fingerprint" (starts_with "sha256:" (cb_fingerprint bundle)).

Definition current_bundle_without_seed_is_empty_error : test :=
  e ← expect_err "built" current_bundle;
  assert "generation" (match e with InvalidGeneration => true | _ => false end).

Definition ack_rejects_non_success_status : test :=
  _ ← seed_service;
  e ← expect_err "acked" (record_ack "srv_1" (MkAckRequest 1 "sha256:x" "failure") (at_ 1));
  assert "invalid" (match e with AckInvalid _ => true | _ => false end).

Definition ack_rejects_mismatched_generation : test :=
  _ ← seed_service;
  bundle ← expect "bundle" current_bundle;
  e ← expect_err "acked"
    (record_ack "srv_1" (MkAckRequest 99 (cb_fingerprint bundle) "success") (at_ 1));
  assert "mismatch" (match e with Mismatch => true | _ => false end).

Definition ack_unknown_machine_is_reported : test :=
  _ ← seed_service;
  bundle ← expect "bundle" current_bundle;
  e ← expect_err "acked" (record_ack "srv_missing"
    (MkAckRequest (cb_generation bundle) (cb_fingerprint bundle) "success") (at_ 1));
  assert "unknown" (match e with AckUnknownMachine => true | _ => false end).

(** The tests of the repository and of the service pass. *)
Theorem cabundle_tests_pass :
  forallb test_passes
    [empty_store_reports_zero_generation_and_no_keys; ensure_seeded_inserts_once;
     list_enabled_filters_disabled_and_orders_by_key_id; record_ack_updates_existing_machine;
     current_bundle_after_seed_has_one_key; current_bundle_without_seed_is_empty_error;
     ack_rejects_non_success_status; ack_rejects_mismatched_generation;
     ack_unknown_machine_is_reported] = true.
Proof. vm_compute. reflexivity. Qed.

(** ** [bundle/canonical.rs] *)
Definition canonical_key (id pk : string) : BundleKey := MkBundleKey id pk ("SHA256:" +:+ id).
Definition input (keys : list BundleKey) : CanonicalInput :=
  MkCanonicalInput BUNDLE_VERSION 42 "2026-06-29T00:00:00Z" "2026-06-29T01:00:00Z" "sha256:abc" keys.

Definition message_is (i : CanonicalInput) (text : string) : bool :=
  built (canonical_message i) (λ bytes, bool_decide (bytes = text)).

Definition golden_layout_is_exact_and_matches_agent : bool :=
  message_is
    (MkCanonicalInput 1 42 "2026-01-01T00:00:00Z" "2026-02-01T00:00:00Z" "sha256:ab"
       [canonical_key "ca-01" "ssh-ed25519 AAAA"])
    (dq ("{'bundle_version':1,'created_at':'2026-01-01T00:00:00Z'," +:+
         "'expires_at':'2026-02-01T00:00:00Z','fingerprint':'sha256:ab'," +:+
         "'generation':42,'keys':[{'key_id':'ca-01','public_key':'ssh-ed25519 AAAA'}]}")).

Definition multiple_keys_are_sorted_by_key_id : bool :=
  message_is
    (input [canonical_key "ca-02" "ssh-ed25519 BBBB"; canonical_key "ca-01" "ssh-ed25519 AAAA"])
    (dq ("{'bundle_version':1,'created_at':'2026-06-29T00:00:00Z'," +:+
         "'expires_at':'2026-06-29T01:00:00Z','fingerprint':'sha256:abc'," +:+
         "'generation':42,'keys':[{'key_id':'ca-01','public_key':'ssh-ed25519 AAAA'}," +:+
         "{'key_id':'ca-02','public_key':'ssh-ed25519 BBBB'}]}")).

Definition key_order_does_not_affect_output : bool :=
  built (canonical_message (input [canonical_key "ca-01" "AAA"; canonical_key "ca-02" "BBB"]))
    (message_is (input [canonical_key "ca-02" "BBB"; canonical_key "ca-01" "AAA"])).

Definition stable_across_repeated_calls : bool :=
  let keys := [canonical_key "ca-01" "AAA"; canonical_key "ca-02" "BBB"] in
  built (canonical_message (input keys)) (message_is (input keys)).

Definition distinct_generation_changes_bytes : bool :=
  let keys := [canonical_key "ca-01" "AAA"] in
  let i := input keys in
  let other := MkCanonicalInput (ci_bundle_version i) 43 (ci_created_at i) (ci_expires_at i)
                 (ci_fingerprint i) keys in
  built (canonical_message i) (λ a, built (canonical_message other) (λ b, bool_decide (a ≠ b))).

Definition is_unsupported_version (e : BundleError) : bool :=
  match e with UnsupportedVersion _ => true | _ => false end.

Definition unsupported_version_is_rejected : bool :=
  let i := input [canonical_key "ca-01" "AAA"] in
  fails_with is_unsupported_version
    (canonical_message (MkCanonicalInput 2 (ci_generation i) (ci_created_at i) (ci_expires_at i)
       (ci_fingerprint i) (ci_keys i))).

Definition structural_characters_in_values_are_escaped : bool :=
  built (canonical_message (input [canonical_key (dq "ca'\" +:+ newline +:+ "01") "ssh-ed25519 AAAA"]))
    (contains (dq "\'\\\n01")).

Theorem canonical_tests_pass :
  golden_layout_is_exact_and_matches_agent && multiple_keys_are_sorted_by_key_id &&
  key_order_does_not_affect_output && stable_across_repeated_calls &&
  distinct_generation_changes_bytes && unsupported_version_is_rejected &&
  structural_characters_in_values_are_escaped = true.
Proof. vm_compute. reflexivity. Qed.

(** ** [bundle/jitter.rs] *)
Definition FixedRng (index : Z) : Z → Z := λ bound, (index `mod` bound)%Z.

Definition lowest_index_is_lower_bound : bool := (with_jitter 60 10 (FixedRng 0) =? 54)%Z.
Definition highest_index_is_upper_bound : bool := (with_jitter 60 10 (FixedRng 12) =? 66)%Z.
Definition midpoint_index_is_base : bool := (with_jitter 60 10 (FixedRng 6) =? 60)%Z.
Definition zero_percent_returns_base : bool := (with_jitter 60 0 (FixedRng 0) =? 60)%Z.
Definition result_never_below_one : bool := (with_jitter 1 100 (FixedRng 0) =? 1)%Z.

(** [SeqRng]: the draw at a cursor; the loop draws once per round. *)
Definition SeqRng (draws : list Z) (cursor : nat) : Z → Z := λ bound,
  (default 0 (draws !! (cursor mod length draws)%nat) `mod` bound)%Z.
Definition all_results_stay_within_bounds : bool :=
  let draws := Z.of_nat <$> seq 0 1000 in
  forallb (λ cursor, in_range 240 360 (with_jitter 300 20 (SeqRng draws cursor))) (seq 0 1000).

Theorem jitter_tests_pass :
  lowest_index_is_lower_bound && highest_index_is_upper_bound && midpoint_index_is_base &&
  zero_percent_returns_base && result_never_below_one && all_results_stay_within_bounds = true.
Proof. vm_compute. reflexivity. Qed.

(** The property-based test, as the code writes the window. *)
Definition jitter_within_declared_window (base percent idx : Z) : bool :=
  let v := with_jitter base percent (FixedRng idx) in
  let delta := (saturating_mul_u32 base percent `div` 100)%Z in
  let lo := Z.max (Z.max 0 (base - delta)) 1 in
  let hi := Z.min u32_max (base + delta) in
  (lo <=? v)%Z && (v <=? hi)%Z.

(** It holds on all its inputs, not only the sampled ones. *)
Theorem jitter_window_for_all base percent idx :
  (1 <= base <= 86400)%Z → (0 <= percent <= 100)%Z → (0 <= idx)%Z →
  jitter_within_declared_window base percent idx = true.
Proof.
  intros Hb Hp Hi. unfold jitter_within_declared_window.
  destruct (jitter_within_percent base percent (FixedRng idx)) as [H1 [H2 H3]];
    [lia|lia|intros span Hs; unfold FixedRng; apply Z.mod_pos_bound; lia|].
  rewrite Z.min_l in H2, H3 by lia.
  unfold saturating_mul_u32, u32_max. rewrite (Z.min_r _ (base * percent)) by nia.
  assert (0 <= (base * percent) `div` 100 <= base)%Z
    by (split; [apply Z.div_pos; nia|apply Z.div_le_upper_bound; nia]).
  apply andb_true_iff. rewrite !Z.leb_le. lia.
Qed.

(** ** [bundle/models.rs] *)
#[export] Instance AckOutcome_eq_dec : EqDecision AckOutcome.
Proof. solve_decision. Defined.

Definition ack_outcome_parses_known_statuses_case_insensitively : bool :=
  bool_decide (AckOutcome_parse "applied" = Some Applied) &&
  bool_decide (AckOutcome_parse "SUCCESS" = Some Applied) &&
  bool_decide (AckOutcome_parse "rollback" = Some RolledBack) &&
  bool_decide (AckOutcome_parse " signature_failed " = Some SignatureFailed) &&
  bool_decide (AckOutcome_parse "nonsense" = None).

Definition ack_outcome_maps_to_audit_events : bool :=
  bool_decide (AckOutcome_audit_event Applied = "bundle.applied") &&
  bool_decide (AckOutcome_audit_event RolledBack = "bundle.rollback") &&
  bool_decide (AckOutcome_audit_event SignatureFailed = "bundle.signature_failed") &&
  AckOutcome_is_success Applied && negb (AckOutcome_is_success RolledBack).

(** ** [bundle/signer.rs] *)
Section bundle_signer.
#[local] Existing Instance rfc_base64.

Definition signer : BundleSigner := Ed25519BundleSigner_from_seed (seed_of 7).
Definition hours (n : Z) : Z := seconds (3600 * n).

(** [None] is the panic of [unwrap]. *)
Definition signed_bundle (s : BundleSigner) (now : Z) : option SignedBundle :=
  let keys := [MkBundleKey "ca-01" "ssh-ed25519 AAAA" "SHA256:x"] in
  let created_at := to_rfc3339 now in
  let expires_at := to_rfc3339 (now + hours 1) in
  let fingerprint := "sha256:deadbeef" in
  match canonical_message (MkCanonicalInput BUNDLE_VERSION 5 created_at expires_at
          fingerprint keys) with
  | Ok message =>
      Some (MkSignedBundle BUNDLE_VERSION 5 created_at expires_at fingerprint keys
              SIGNATURE_ALGORITHM (sign_b64 s message) (public_key_openssh s))
  | Err _ => None
  end.

Definition set_bundle (version generation : Z) (keys : list BundleKey) (signature : string)
    (b : SignedBundle) : SignedBundle :=
  MkSignedBundle version generation (sb_created_at b) (sb_expires_at b) (sb_fingerprint b) keys
    (sb_signature_algorithm b) signature (sb_bundle_signing_public_key b).

(** Sign at noon, change the bundle, verify at [later] against the key of [pinned]. *)
Definition verdict (s : BundleSigner) (change : SignedBundle → SignedBundle)
    (pinned : BundleSigner) (later : Z) : option (result unit BundleError) :=
  (λ b, verify_signed_bundle (change b) (signer_public_key_bytes pinned) later) <$>
    signed_bundle s (at_ 0).

Definition verdict_fails (p : BundleError → bool) (o : option (result unit BundleError)) : bool :=
  match o with Some r => fails_with p r | None => false end.

Definition round_trip_verifies : bool :=
  match verdict signer id signer (at_ 0) with Some r => is_ok r | None => false end.

Definition is_signature_invalid (e : BundleError) : bool :=
  match e with SignatureInvalid => true | _ => false end.
Definition is_untrusted (e : BundleError) : bool :=
  match e with UntrustedSigner => true | _ => false end.

Definition tampered_generation_fails : bool :=
  verdict_fails is_signature_invalid
    (verdict signer (λ b, set_bundle (sb_bundle_version b) 6 (sb_keys b) (sb_signature b) b)
       signer (at_ 0)).

Definition tampered_key_list_fails : bool :=
  let evil k := MkBundleKey (bu_key_id k) "ssh-ed25519 EVIL" (bu_fingerprint k) in
  verdict_fails is_signature_invalid
    (verdict signer (λ b, set_bundle (sb_bundle_version b) (sb_generation b)
                            (alter evil 0 (sb_keys b)) (sb_signature b) b) signer (at_ 0)).

Definition wrong_pinned_key_is_untrusted : bool :=
  verdict_fails is_untrusted
    (verdict signer id (Ed25519BundleSigner_from_seed (seed_of 9)) (at_ 0)).

Definition forged_bundle_under_attacker_key_fails : bool :=
  let attacker := Ed25519BundleSigner_from_seed (seed_of 1) in
  let forge b := MkSignedBundle (sb_bundle_version b) (sb_generation b) (sb_created_at b)
    (sb_expires_at b) (sb_fingerprint b) (sb_keys b) (sb_signature_algorithm b) (sb_signature b)
    (public_key_openssh attacker) in
  verdict_fails is_untrusted (verdict attacker forge signer (at_ 0)).

Definition expired_bundle_fails_after_signature : bool :=
  verdict_fails (λ e, match e with Expired => true | _ => false end)
    (verdict signer id signer (at_ 0 + hours 2)).

Definition unsupported_version_rejected : bool :=
  verdict_fails is_unsupported_version
    (verdict signer (λ b, set_bundle 2 (sb_generation b) (sb_keys b) (sb_signature b) b)
       signer (at_ 0)).

Definition malformed_signature_rejected : bool :=
  verdict_fails (λ e, match e with Malformed _ => true | _ => false end)
    (verdict signer (λ b, set_bundle (sb_bundle_version b) (sb_generation b) (sb_keys b)
                            "not-base64-!!!" b) signer (at_ 0)).

Definition seed_b64_round_trips : bool :=
  let s := Ed25519BundleSigner_from_seed (seed_of 3) in
  built (from_seed_b64 (seed_b64 (seed_of 3))) (λ restored,
    bool_decide (signer_public_key_bytes restored = signer_public_key_bytes s)).

Theorem signer_tests_pass :
  ack_outcome_parses_known_statuses_case_insensitively && ack_outcome_maps_to_audit_events &&
  round_trip_verifies && tampered_generation_fails && tampered_key_list_fails &&
  wrong_pinned_key_is_untrusted && forged_bundle_under_attacker_key_fails &&
  expired_bundle_fails_after_signature && unsupported_version_rejected &&
  malformed_signature_rejected && seed_b64_round_trips = true.
Proof. vm_compute. reflexivity. Qed.

End bundle_signer.

(** ** [bundle/service.rs]

    The CA manager is a parameter: one that holds a single generated CA, at its first
    generation. *)
Section bundle_service.
#[local] Existing Instance rfc_base64.

Definition one_ca : CaManager :=
  let fp := compute_fingerprint 1 [key "ca-01" 2] in
  MkCaManager 1 fp
    (MkPublicBundle 1 fp [MkCaPublicKeyEntry "ca-01" (openssh_public 2) "SHA256:ca-01"]) (λ _, None).
Definition test_bundle_service : BundleService :=
  BundleService_new one_ca (Ed25519BundleSigner_from_seed (seed_of 5)) 3600.

Definition builds_a_bundle_that_verifies : test :=
  bundle ← expect "build" (lift (build_signed_bundle test_bundle_service (at_ 0)));
  _ ← assert "version" (bool_decide (sb_bundle_version bundle = 1%Z));
  _ ← assert "generation" (bool_decide (sb_generation bundle = 1%Z));
  _ ← assert "keys" (bool_decide (length (sb_keys bundle) = 1));
  let pinned := Ed25519BundleSigner_from_seed (seed_of 5) in
  expect "verify" (lift (verify_signed_bundle bundle (signer_public_key_bytes pinned) (at_ 0))).

Definition fingerprint_is_the_managers_fingerprint : test :=
  _ ← assert "same"
        (bool_decide (current_fingerprint test_bundle_service = cm_bundle_fingerprint one_ca));
  bundle ← expect "build" (lift (build_signed_bundle test_bundle_service (at_ 0)));
  assert "prefix" (starts_with "sha256:" (sb_fingerprint bundle)).

Definition empty_fleet_metrics_are_zeroed : test :=
  status ← expect "status" (fleet_status test_bundle_service (at_ 0));
  _ ← assert "total" (bool_decide (fs_total_machines status = 0%Z));
  _ ← assert "percentage" (SFeqb (fs_rollout_percentage status) (f64_of_Z 0));
  _ ← assert "latest" (bool_decide (fs_latest_generation status = 1%Z));
  assert "none" (bool_decide (length (fs_generations status) = 0)).

Theorem bundle_service_tests_pass :
  forallb test_passes
    [builds_a_bundle_that_verifies; fingerprint_is_the_managers_fingerprint;
     empty_fleet_metrics_are_zeroed] = true.
Proof. vm_compute. reflexivity. Qed.

End bundle_service.
