(* ===== verification/TestsAgent.v ===== *)
(** * The unit tests of tokens, requests, authorization and errors, run on the definitions
      ([src/src/machines/token.rs], [validation.rs], [models.rs], [errors.rs],
      [protocol.rs]; [src/src/agentauth/nonce.rs], [signing.rs];
      [src/src/authz/service.rs]; [src/src/auth/registry.rs]; [src/src/errors.rs], the
      [tests] modules)

    Tests that draw keys or tokens at random are run on fixed bytes; tests of derived
    serializers are left out, as the serializers are. *)
From S2P Require Import Prelude External Errors Database Toy Sha2 Testing AuditChain AuditRepo Machines Enrollment AgentAuth Registry Authz Providers JsonText CaBundle Bundle BundleService Golden.

#[local] Existing Instances fips_sha256 rfc_hex rfc_base64 toy_ssh_key tag_ed25519 toy_debug.

(** [assert_eq!(r, Err(e))] and its like: the error of a result. *)
Definition error_of {A E} (r : result A E) : option E :=
  match r with Ok _ => None | Err e => Some e end.

(** ** [machines/token.rs] *)
Definition generated_tokens_are_well_formed_and_unique (bytes_a bytes_b : string) : bool :=
  let a := generate_token bytes_a in
  let b := generate_token bytes_b in
  starts_with TOKEN_PREFIX a && is_well_formed a && bool_decide (a ≠ b) &&
  (str_len a =? str_len TOKEN_PREFIX + TOKEN_ENTROPY_BYTES * 2)%Z.

Definition hash_is_stable_and_sha256_sized : bool :=
  let token := "mf_enroll_deadbeef" in
  let first := hash_token token in
  let second := hash_token token in
  bool_decide (first = second) && (str_len first =? 64)%Z &&
  bool_decide (hash_token "mf_enroll_aaaa" ≠ hash_token "mf_enroll_bbbb").

Definition known_sha256_vector : bool :=
  bool_decide (hash_token "abc" =
    "ba7816bf8f01cfea414140de5dae2223b00361a396177a9cb410ff61f20015ad").

Definition well_formed_accepts_valid_and_rejects_invalid : bool :=
  is_well_formed "mf_enroll_abcDEF123_456" &&
  forallb (λ bad, negb (is_well_formed bad))
    [""; "mf_enroll_"; "enroll_abc"; "mf_enroll_has space"; "mf_enroll_semi;colon";
     "MF_ENROLL_abc"].

Definition constant_time_eq_matches_semantics : bool :=
  let eq a b := constant_time_eq (as_bytes a) (as_bytes b) in
  eq "abc" "abc" && negb (eq "abc" "abd") && negb (eq "abc" "abcd") && eq "" "".

Theorem token_tests_pass :
  generated_tokens_are_well_formed_and_unique (seed_of 1) (seed_of 2) &&
  hash_is_stable_and_sha256_sized && known_sha256_vector &&
  well_formed_accepts_valid_and_rejects_invalid && constant_time_eq_matches_semantics = true.
Proof. vm_compute. reflexivity. Qed.

(** ** [machines/validation.rs] *)
#[export] Instance PublicKeyError_eq_dec : EqDecision PublicKeyError.
Proof. solve_decision. Defined.

Definition accepts_reasonable_hostnames : bool :=
  forallb is_valid_hostname ["web-01"; "a"; "host.example.com"; "db1.internal"; "x.y.z"].

Definition rejects_bad_hostnames : bool :=
  forallb (λ bad, negb (is_valid_hostname bad))
    [""; "-leading"; "trailing-"; "has space"; "under_score"; "double..dot";
     "UPPER_is_fine_but_underscore_not"] &&
  negb (is_valid_hostname (str_replicate 254 "a")) &&
  negb (is_valid_hostname (str_replicate 64 "a" +:+ ".com")).

Definition accepts_ed25519_public_key (key : string) : bool :=
  match validate_ed25519_public_key key with
  | Ok normalized => starts_with "ssh-ed25519 " normalized
  | Err _ => false
  end.

Definition rejects_malformed_public_key : bool :=
  bool_decide (error_of (validate_ed25519_public_key "not a key") = Some PkMalformed).

(** [key] is a key of another algorithm. *)
Definition rejects_other_public_key (key : string) : bool :=
  bool_decide (error_of (validate_ed25519_public_key key) = Some PkNotEd25519).

Definition fingerprint_is_sha256_prefixed (key : string) : bool :=
  match public_key_fingerprint key with
  | Some fingerprint => starts_with "SHA256:" fingerprint
  | None => false
  end.

Theorem validation_tests_pass :
  accepts_reasonable_hostnames && rejects_bad_hostnames &&
  accepts_ed25519_public_key (openssh_public 4) && rejects_malformed_public_key &&
  rejects_other_public_key "ssh-rsa AAAA" && fingerprint_is_sha256_prefixed (openssh_public 4)
  = true.
Proof. vm_compute. reflexivity. Qed.

(** ** [machines/models.rs] *)
Definition status_round_trips_through_db_string : bool :=
  forallb (λ s, bool_decide (MachineStatus_from_db_str (MachineStatus_as_str s) = Some s))
    [Machines.Pending; Active; Disabled; Revoked].
Definition unknown_status_string_is_rejected : bool :=
  bool_decide (MachineStatus_from_db_str "bogus" = None).

(** Quotes without the escapes, which the texts of the test do not need. *)
#[local] Instance plain_debug : DebugStr := λ s, String dquote (s +:+ String dquote "").

Definition enroll_request_debug_redacts_token : bool :=
  let rendered := EnrollRequest_debug
    (MkEnrollRequest "mf_enroll_supersecret" "web-01" "linux" "x86_64" "0.1.0"
       "ssh-ed25519 AAAA") in
  contains "<redacted>" rendered && negb (contains "supersecret" rendered) &&
  contains "web-01" rendered.

(** ** [machines/errors.rs] *)
Definition codes_and_statuses_match_the_api_contract : bool :=
  forallb (λ c, (EnrollmentError_status c.1.1 =? c.1.2)%Z &&
                bool_decide (EnrollmentError_code c.1.1 = c.2))
    [(TokenInvalid, 401%Z, "TOKEN_INVALID"); (TokenExpired, 401%Z, "TOKEN_EXPIRED");
     (TokenAlreadyUsed, 409%Z, "TOKEN_ALREADY_USED");
     (PublicKeyInvalid, 400%Z, "PUBLIC_KEY_INVALID");
     (HostAlreadyEnrolled, 409%Z, "HOST_ALREADY_ENROLLED");
     (PublicKeyAlreadyExists, 409%Z, "PUBLIC_KEY_ALREADY_EXISTS")].

Definition internal_error_hides_cause : bool :=
  let err := EnrollmentError_internal (CauseMessage "token=mf_enroll_secret leaked") in
  (EnrollmentError_status err =? 500)%Z && bool_decide (EnrollmentError_code err = "internal_error") &&
  bool_decide (EnrollmentError_client_message err = "internal server error") &&
  negb (contains "secret" (EnrollmentError_client_message err)).

Definition response_uses_standard_envelope : bool :=
  let response := EnrollmentError_into_response TokenExpired in
  (er_status response =? 401)%Z && bool_decide (er_code response = "TOKEN_EXPIRED") &&
  bool_decide (er_message response = "enrollment token has expired").

Theorem machine_model_tests_pass :
  status_round_trips_through_db_string && unknown_status_string_is_rejected &&
  enroll_request_debug_redacts_token && codes_and_statuses_match_the_api_contract &&
  internal_error_hides_cause && response_uses_standard_envelope = true.
Proof. vm_compute. reflexivity. Qed.

(** ** [machines/protocol.rs] *)
Definition liveness_online_within_two_minutes : bool :=
  let now := seconds 10000 in
  bool_decide (LivenessStatus_derive (Some (seconds 10000)) now = Online) &&
  bool_decide (LivenessStatus_derive (Some (seconds (10000 - 120))) now = Online).

Definition liveness_stale_between_two_and_ten_minutes : bool :=
  let now := seconds 10000 in
  bool_decide (LivenessStatus_derive (Some (seconds (10000 - 121))) now = Stale) &&
  bool_decide (LivenessStatus_derive (Some (seconds (10000 - 600))) now = Stale).

Definition liveness_offline_after_ten_minutes_or_never : bool :=
  let now := seconds 10000 in
  bool_decide (LivenessStatus_derive (Some (seconds (10000 - 601))) now = Offline) &&
  bool_decide (LivenessStatus_derive None now = Offline).

Definition good_request : HeartbeatRequest :=
  MkHeartbeatRequest "0.1.0" "pi-zero" "linux" "6.12" "192.168.1.20" 17 123456.

(** [req.field = ..] on a good request. *)
Definition request_with (agent_version hostname kernel ip : string) (generation : Z)
  : HeartbeatRequest :=
  MkHeartbeatRequest agent_version hostname (hb_os good_request) kernel ip generation
    (hb_uptime_seconds good_request).

Definition is_validation (r : result (option string) RegistryError) : bool :=
  match r with Err (Validation _) => true | _ => false end.
Definition normalized_ip (r : HeartbeatRequest) : option (option string) :=
  match validate_heartbeat r with Ok ip => Some ip | Err _ => None end.

Definition validate_accepts_good_request_and_normalizes_ip : bool :=
  bool_decide (normalized_ip good_request = Some (Some "192.168.1.20")).
Definition validate_blank_ip_becomes_none : bool :=
  bool_decide (normalized_ip (request_with "0.1.0" "pi-zero" "6.12" "   " 17) = Some None).
Definition validate_rejects_empty_agent_version : bool :=
  is_validation (validate_heartbeat (request_with "" "pi-zero" "6.12" "192.168.1.20" 17)).
Definition validate_rejects_negative_generation : bool :=
  is_validation (validate_heartbeat (request_with "0.1.0" "pi-zero" "6.12" "192.168.1.20" (-1))).
Definition validate_rejects_control_characters : bool :=
  is_validation (validate_heartbeat
    (request_with "0.1.0" ("bad" +:+ String (byte_of 0) "host") "6.12" "192.168.1.20" 17)).
Definition validate_rejects_overlong_kernel : bool :=
  is_validation (validate_heartbeat
    (request_with "0.1.0" "pi-zero" (str_replicate (Z.to_nat (MAX_KERNEL_LEN + 1)) "k")
       "192.168.1.20" 17)).

Theorem protocol_tests_pass :
  liveness_online_within_two_minutes && liveness_stale_between_two_and_ten_minutes &&
  liveness_offline_after_ten_minutes_or_never && validate_accepts_good_request_and_normalizes_ip &&
  validate_blank_ip_becomes_none && validate_rejects_empty_agent_version &&
  validate_rejects_negative_generation && validate_rejects_control_characters &&
  validate_rejects_overlong_kernel = true.
Proof. vm_compute. reflexivity. Qed.

(** ** [agentauth/nonce.rs]: the answers of a sequence of calls, and the cache after them *)
Fixpoint check_all (calls : list (string * string * Z)) (cache : InMemoryNonceCache)
  : list bool * InMemoryNonceCache :=
  match calls with
  | [] => ([], cache)
  | (machine, nonce, now) :: calls =>
      let '(fresh, cache) := check_and_record cache machine nonce (seconds now) in
      let '(answers, cache) := check_all calls cache in
      (fresh :: answers, cache)
  end.
Definition checks (calls : list (string * string * Z)) : list bool :=
  (check_all calls InMemoryNonceCache_new).1.

Definition first_use_is_accepted_replay_is_rejected : bool :=
  bool_decide (checks [("m1", "n1", 1000%Z); ("m1", "n1", 1001%Z)] = [true; false]).
Definition different_machines_may_share_a_nonce : bool :=
  bool_decide (checks [("m1", "shared", 1000%Z); ("m2", "shared", 1000%Z)] = [true; true]).
Definition distinct_nonces_for_one_machine_are_accepted : bool :=
  bool_decide (checks [("m1", "n1", 1000%Z); ("m1", "n2", 1000%Z)] = [true; true]).
Definition nonce_is_reusable_after_ttl_expires : bool :=
  bool_decide (checks [("m1", "n1", 1000%Z); ("m1", "n1", 1000 + NONCE_TTL_SECS - 1)%Z;
                       ("m1", "n1", 1000 + NONCE_TTL_SECS)%Z] = [true; false; true]).
Definition expired_entries_are_purged : bool :=
  let first := (check_all [("m1", "n1", 1000%Z)] InMemoryNonceCache_new).2 in
  let second := (check_all [("m2", "n2", 2000%Z)] first).2 in
  (InMemoryNonceCache_len first =? 1)%Z && (InMemoryNonceCache_len second =? 1)%Z &&
  negb (InMemoryNonceCache_is_empty second).

Theorem nonce_tests_pass :
  first_use_is_accepted_replay_is_rejected && different_machines_may_share_a_nonce &&
  distinct_nonces_for_one_machine_are_accepted && nonce_is_reusable_after_ttl_expires &&
  expired_entries_are_purged = true.
Proof. vm_compute. reflexivity. Qed.

(** ** [agentauth/signing.rs] *)
#[export] Instance SignatureError_eq_dec : EqDecision SignatureError.
Proof. solve_decision. Defined.

Definition canonical_with (body : string) : string :=
  canonical_string "srv_abc" 1700000000 "0123456789abcdef0123456789abcdef" "POST"
    "/api/v1/agent/heartbeat" (body_sha256_hex body).
Definition canonical : string := canonical_with "{}".

Definition body_hash_matches_known_vector : bool :=
  bool_decide (body_sha256_hex "" =
    "e3b0c44298fc1c149afbf4c8996fb92427ae41e4649b934ca495991b7852b855").

(** [c.lines().count()] is the number of pieces between newlines, none at the end here. *)
Definition canonical_string_layout_is_exact : bool :=
  let c := canonical_string "m" 5 "n" "POST" "/p" "deadbeef" in
  let nl := String newline "" in
  bool_decide (c = "mayfly-agent-auth-v1" +:+ nl +:+ "m" +:+ nl +:+ "5" +:+ nl +:+ "n" +:+ nl +:+
                   "POST" +:+ nl +:+ "/p" +:+ nl +:+ "deadbeef") &&
  bool_decide (length (split_on newline c) = 7).

Definition sign_then_verify_round_trips : bool :=
  is_ok (verify_signature (openssh_public 7) canonical (sign_canonical (seed_of 7) canonical)).

Definition verify_rejects_tampered_canonical : bool :=
  let sig := sign_canonical (seed_of 7) canonical in
  bool_decide (error_of (verify_signature (openssh_public 7) (canonical_with (dq "{'evil':true}")) sig)
    = Some Invalid).

Definition verify_rejects_wrong_key : bool :=
  let sig := sign_canonical (seed_of 7) canonical in
  bool_decide (error_of (verify_signature (openssh_public 9) canonical sig) = Some Invalid).

Definition verify_rejects_malformed_signature : bool :=
  bool_decide (error_of (verify_signature (openssh_public 7) canonical "not-base64-!!!")
    = Some MalformedSignature) &&
  bool_decide (error_of (verify_signature (openssh_public 7) canonical "QUJD")
    = Some MalformedSignature).

Definition verify_rejects_malformed_public_key : bool :=
  bool_decide (error_of (verify_signature "not a key" canonical "QUJD") = Some MalformedPublicKey).

Definition verify_rejects_non_ed25519_key : bool :=
  negb (is_ok (verify_signature "ssh-rsa AAAAB3NzaC1yc2EAAAADAQABAAAAgQDExample test"
                 canonical "QUJD")).

Theorem signing_tests_pass :
  body_hash_matches_known_vector && canonical_string_layout_is_exact &&
  sign_then_verify_round_trips && verify_rejects_tampered_canonical && verify_rejects_wrong_key &&
  verify_rejects_malformed_signature && verify_rejects_malformed_public_key &&
  verify_rejects_non_ed25519_key = true.
Proof. vm_compute. reflexivity. Qed.

(** ** [authz/service.rs] *)
Definition access : AccessConfig := MkAccessConfig [] [] [] [] [] [].
Definition user (username : string) : Identity := Identity_new "github" "1" username.
Definition vasu : Identity := Identity_new "keycloak" "sub" "vasu".

Definition allowed_user_is_permitted : bool :=
  is_allowed (authorize (MkAccessConfig ["vasugarg"] [] [] [] [] []) (user "vasugarg")).
Definition allowed_user_match_is_case_insensitive : bool :=
  is_allowed (authorize (MkAccessConfig ["VasuGarg"] [] [] [] [] []) (user "vasugarg")).
Definition denied_user_is_rejected : bool :=
  negb (is_allowed (authorize (MkAccessConfig ["someone-else"] [] [] [] [] []) (user "vasugarg"))).
Definition allowed_org_is_permitted : bool :=
  is_allowed (authorize (MkAccessConfig [] ["acme"] [] [] [] [])
                (with_orgs ["acme"] (user "vasugarg"))).
Definition allowed_team_is_permitted : bool :=
  is_allowed (authorize (MkAccessConfig [] [] ["acme/platform"] [] [] [])
                (with_teams ["acme/platform"] (user "vasugarg"))).
Definition allowed_group_is_permitted : bool :=
  is_allowed (authorize (MkAccessConfig [] [] [] ["engineering"] [] [])
                (with_groups ["engineering"] vasu)).
Definition allowed_role_is_permitted : bool :=
  is_allowed (authorize (MkAccessConfig [] [] [] [] ["mayfly/operator"] [])
                (with_roles ["mayfly/operator"] vasu)).
Definition allowed_attribute_is_permitted : bool :=
  let i := vasu in
  let identity := MkIdentity (id_provider i) (id_subject i) (id_username i) (id_email i)
    (id_display_name i) (id_realm i) (id_organizations i) (id_teams i) (id_groups i) (id_roles i)
    [("department", ["platform"])] in
  is_allowed (authorize (MkAccessConfig [] [] [] [] [] ["department=platform"]) identity).
Definition empty_config_denies_everyone : bool :=
  negb (is_allowed (authorize access
    (with_roles ["admin"] (with_groups ["engineering"] (with_orgs ["acme"] vasu))))).

Theorem authz_tests_pass :
  allowed_user_is_permitted && allowed_user_match_is_case_insensitive && denied_user_is_rejected &&
  allowed_org_is_permitted && allowed_team_is_permitted && allowed_group_is_permitted &&
  allowed_role_is_permitted && allowed_attribute_is_permitted && empty_config_denies_everyone = true.
Proof. vm_compute. reflexivity. Qed.

(** ** [errors.rs] *)
Definition maps_variants_to_expected_status_and_code : bool :=
  forallb (λ c, (ApiError_status c.1.1 =? c.1.2)%Z && bool_decide (ApiError_code c.1.1 = c.2))
    [(BadRequest "x", 400%Z, "bad_request"); (Unauthorized "x", 401%Z, "unauthorized");
     (Forbidden "x", 403%Z, "forbidden"); (NotFound "x", 404%Z, "not_found");
     (Conflict "x", 409%Z, "conflict")].

Definition hides_cause (err : ApiError) : bool :=
  (ApiError_status err =? 500)%Z && bool_decide (ApiError_code err = "internal_error") &&
  bool_decide (ApiError_client_message err = "internal server error").

Definition internal_error_hides_cause_from_client : bool :=
  let err := Internal (CauseMessage "secret db connection string leaked") in
  hides_cause err && negb (contains "secret" (ApiError_client_message err)).

Definition response_body_uses_standard_envelope : bool :=
  let response := ApiError_into_response (NotFound "user 7") in
  (er_status response =? 404)%Z && bool_decide (er_code response = "not_found") &&
  bool_decide (er_message response = "user 7").

Definition unauthorized_sets_www_authenticate_header : bool :=
  let response := ApiError_into_response (Unauthorized "token required") in
  (er_status response =? 401)%Z && bool_decide (er_www_authenticate response = Some "Bearer").

Definition audit_errors_map_to_internal_without_leaking_cause : bool :=
  forallb (λ err, hides_cause (ApiError_of_audit err))
    [Serialization "canonical json failed"; Corrupt "bad recorded_at"].

Theorem error_tests_pass :
  maps_variants_to_expected_status_and_code && internal_error_hides_cause_from_client &&
  response_body_uses_standard_envelope && unauthorized_sets_www_authenticate_header &&
  audit_errors_map_to_internal_without_leaking_cause = true.
Proof. vm_compute. reflexivity. Qed.

(** ** [auth/registry.rs] *)
Definition Stub (i : string) : AuthenticationProvider :=
  {| ap_metadata := MkProviderMetadata i i OAuth2Device;
     start_device_authorization := Ok (MkDeviceAuthorization "dc" "uc" "https://example" 900 5);
     poll_device_authorization := λ _, Ok Pending;
     fetch_identity := λ _, Ok (MkAuthenticatedIdentity i "1" "u" None None);
     resolve_authorization := λ _ _ _, Ok AuthorizationContext_default |}.

Definition registry : ProviderRegistry :=
  registry_with (registry_with (ProviderRegistry_new "github") (Stub "github")) (Stub "keycloak").

Definition resolved_id (selector : option string) : option string :=
  match resolve selector registry with
  | Ok provider => Some (pm_id (ap_metadata provider))
  | Err _ => None
  end.

Definition resolves_default_when_selector_absent_or_empty : bool :=
  bool_decide (resolved_id None = Some "github") &&
  bool_decide (resolved_id (Some "  ") = Some "github").
Definition resolves_explicit_provider : bool :=
  bool_decide (resolved_id (Some "keycloak") = Some "keycloak").
Definition unknown_provider_is_error : bool :=
  match resolve (Some "gitlab") registry with Err ApUnknownProvider => true | _ => false end.
Definition list_is_sorted : bool :=
  bool_decide ((pm_id <$> provider_list registry) = ["github"; "keycloak"]).

Theorem registry_tests_pass :
  resolves_default_when_selector_absent_or_empty && resolves_explicit_provider &&
  unknown_provider_is_error && list_is_sorted = true.
Proof. vm_compute. reflexivity. Qed.
