(* ===== verification/Rollout.v ===== *)
(** * The rollout console
      ([src/src/rollout/service.rs], [src/src/rollout/models.rs])

    A snapshot of the machines, of the current generation and of the recent bundle
    events, and the views derived from it.  Percentages and rates are IEEE 754 doubles. *)
From Stdlib Require Import SpecFloat.
From S2P Require Import Prelude External Errors Database AuditChain AuditRepo AuditSearch Machines.
From S2P Require Import Registry MachineAdmin BundleService Toy.

(** ** Models *)
Definition HEALTH_HEALTHY : string := "Healthy".
Definition HEALTH_DEGRADED : string := "Degraded".
Definition HEALTH_BLOCKED : string := "Blocked".
Definition HEALTH_FAILED : string := "Failed".

Record MachineFailure : Type := MkMachineFailure {
  fl_event_type : string;
  fl_generation : option Z;
  fl_reason : option string;
  fl_at : string;
}.

Record MachineRollout : Type := MkMachineRollout {
  mo_machine_id : string;
  mo_hostname : string;
  mo_status : string;
  mo_liveness : string;
  mo_synced_generation : option Z;
  mo_latest_generation : option Z;
  mo_current_generation : Z;
  mo_up_to_date : bool;
  mo_generations_behind : Z;
  mo_state : string;
  mo_category : string;
  mo_last_sync : option string;
  mo_last_seen : option string;
  mo_last_failure : option MachineFailure;
}.

Record RolloutBreakdown : Type := MkBreakdown {
  bd_healthy : Z;
  bd_stale : Z;
  bd_offline : Z;
  bd_failed : Z;
  bd_pending : Z;
}.

Record GenerationDetail : Type := MkGenerationDetail {
  gd_generation : Z;
  gd_machines : Z;
  gd_percentage : spec_float;
  gd_is_latest : bool;
}.

Record RolloutEta : Type := MkRolloutEta {
  eta_complete : bool;
  eta_remaining : Z;
  eta_applies_last_hour : Z;
  eta_per_hour : spec_float;
  eta_seconds : option Z;
  eta_estimated_completion : option string;
}.

Record RolloutHealth : Type := MkRolloutHealth {
  rh_status : string;
  rh_score : Z;
  rh_reasons : list string;
}.

Record RolloutStatus : Type := MkRolloutStatus {
  ro_configured : bool;
  ro_latest_generation : option Z;
  ro_bundle_fingerprint : option string;
  ro_total_machines : Z;
  ro_active_machines : Z;
  ro_completed : Z;
  ro_remaining : Z;
  ro_never_synced : Z;
  ro_percentage : spec_float;
  ro_online : Z;
  ro_stale : Z;
  ro_offline : Z;
  ro_breakdown : RolloutBreakdown;
  ro_generations : list GenerationDetail;
  ro_eta : RolloutEta;
  ro_health : RolloutHealth;
}.

Record ExplainCategory : Type := MkExplainCategory {
  xc_category : string;
  xc_count : Z;
  xc_description : string;
  xc_recommendation : string;
  xc_machines : list string;
}.

Record RolloutExplanation : Type := MkExplanation {
  xp_latest_generation : option Z;
  xp_complete : bool;
  xp_remaining : Z;
  xp_categories : list ExplainCategory;
}.

Record StuckMachine : Type := MkStuckMachine {
  sk_machine_id : string;
  sk_hostname : string;
  sk_category : string;
  sk_generations_behind : Z;
  sk_liveness : string;
  sk_last_sync : option string;
  sk_last_seen : option string;
  sk_last_failure : option MachineFailure;
  sk_recommendation : string;
}.

Record StuckReport : Type := MkStuckReport { sr_count : Z; sr_stuck : list StuckMachine }.

Record TimelineEvent : Type := MkTimelineEvent {
  te_position : Z;
  te_at : string;
  te_event_type : string;
  te_outcome : string;
  te_machine_id : option string;
  te_generation : option Z;
  te_reason : option string;
}.

Record RolloutTimeline : Type := MkTimeline { tl_count : Z; tl_events : list TimelineEvent }.

Record GenerationHistory : Type := MkGenerationHistory {
  gh_generation : Z;
  gh_is_latest : bool;
  gh_machines_on_generation : Z;
  gh_first_applied_at : option string;
  gh_last_applied_at : option string;
  gh_total_applies : Z;
}.

Record RolloutHistory : Type := MkHistory {
  hy_latest_generation : option Z;
  hy_generations : list GenerationHistory;
}.

(** ** Constants and helpers *)
Definition FAILURE_WINDOW_HOURS : Z := 24.
Definition ETA_WINDOW_SECONDS : Z := 3600.
Definition BUNDLE_EVENT_SCAN : Z := 1000.
Definition HISTORY_EVENT_SCAN : Z := 1000.
Definition TIMELINE_DEFAULT_LIMIT : Z := 50.
Definition TIMELINE_MAX_LIMIT : Z := 500.
Definition EXPLAIN_SAMPLE : nat := 10.

Definition CAT_UP_TO_DATE : string := "up_to_date".
Definition CAT_REVOKED : string := "revoked_machine".
Definition CAT_DISABLED : string := "disabled_machine".
Definition CAT_VERIFICATION : string := "bundle_verification_failure".
Definition CAT_HELPER : string := "helper_failure".
Definition CAT_OFFLINE : string := "offline".
Definition CAT_STALE : string := "heartbeat_stale".
Definition CAT_MISMATCH : string := "generation_mismatch".

Inductive RolloutError : Type :=
| RolloutDatabase (err : sqlx_error)
| RolloutAudit (err : AuditError).

Definition ApiError_of_rollout (err : RolloutError) : ApiError :=
  match err with
  | RolloutDatabase e => Internal (CauseSqlx e)
  | RolloutAudit e => Internal (CauseAudit e)
  end.

(** [f64::ceil]. *)
Definition f64_ceil (x : spec_float) : spec_float :=
  match x with
  | S754_finite s m e =>
      if (0 <=? e)%Z then x else
        let d := (2 ^ (- e))%Z in
        let n := (- ((if s then Z.pos m else - Z.pos m) `div` d))%Z in
        binary_normalize 53 1024 n 0 s
  | _ => x
  end.

(** [as] from a float to an integer type: towards zero, saturating, [NaN] to zero. *)
Definition f64_as_int (lo hi : Z) (x : spec_float) : Z :=
  match x with
  | S754_finite s m e =>
      let a := if (0 <=? e)%Z then (Z.pos m * 2 ^ e)%Z else (Z.pos m `div` 2 ^ (- e))%Z in
      Z.max lo (Z.min hi (if s then - a else a)%Z)
  | S754_infinity s => if s then lo else hi
  | _ => 0%Z
  end.
Definition f64_as_u8 : spec_float → Z := f64_as_int 0 255.
Definition f64_as_i64 : spec_float → Z := f64_as_int i64_min i64_max.

Definition f64_leb (x y : spec_float) : bool :=
  match SFcompare x y with Some Lt | Some Eq => true | _ => false end.

(** The literal [0.5]. *)
Definition f64_half : spec_float := f64_div (f64_of_Z 1) (f64_of_Z 2).

Definition percentage (part whole : Z) : spec_float :=
  if (whole <=? 0)%Z then f64_of_Z 0
  else
    let pct := f64_div (f64_mul (f64_of_Z part) (f64_of_Z 100)) (f64_of_Z whole) in
    f64_div (f64_round (f64_mul pct (f64_of_Z 10))) (f64_of_Z 10).

Definition is_stuck_category (category : string) : bool :=
  bool_decide (category ∈ [CAT_OFFLINE; CAT_VERIFICATION; CAT_HELPER; CAT_DISABLED; CAT_REVOKED]).

Definition category_description (category : string) : string :=
  match_str category
    [(CAT_VERIFICATION, "agent rejected the bundle signature (untrusted signing key)");
     (CAT_HELPER, "agent rolled back after a failed sshd reload");
     (CAT_OFFLINE, "no recent heartbeat; the host appears down");
     (CAT_STALE, "heartbeats are arriving late");
     (CAT_DISABLED, "machine is administratively disabled");
     (CAT_REVOKED, "machine is revoked and will not receive bundles");
     (CAT_MISMATCH, "online but has not pulled the latest generation yet")]
    "unknown".

Definition category_recommendation (category : string) : string :=
  match_str category
    [(CAT_VERIFICATION,
       "Verify the pinned bundle signing key matches the server; re-enroll the machine if the key was rotated.");
     (CAT_HELPER,
       "Inspect agent logs (journalctl -u mayfly-agent) and the host's sshd config; the previous bundle was restored.");
     (CAT_OFFLINE,
       "Ensure the host is powered on and mayfly-agent is running (systemctl status mayfly-agent).");
     (CAT_STALE,
       "Check network/agent health; the machine should converge on its next sync.");
     (CAT_DISABLED,
       "Enable the machine (mayfly machine enable <id>) if it should receive rollouts.");
     (CAT_REVOKED,
       "Remove the machine (mayfly machine delete <id>) or re-enroll a replacement.");
     (CAT_MISMATCH, "No action needed; it should converge on its next sync interval.")]
    "Investigate the machine state.".

Definition outcome_of (event_type : string) : string :=
  match_str event_type
    [("bundle.downloaded", "downloaded");
     ("bundle.applied", "applied");
     ("bundle.rollback", "rolled_back");
     ("bundle.signature_failed", "verification_failed")]
    "other".

Definition liveness_str (l : LivenessStatus) : string :=
  match l with Online => "ONLINE" | Stale => "STALE" | Offline => "OFFLINE" end.

Definition generations_behind (m : MachineView) : Z :=
  match vw_synced_generation m, vw_latest_generation m with
  | Some s, Some l => Z.max (l - s) 0
  | None, Some l => Z.max l 0
  | _, _ => 0
  end.

Definition meta_string (metadata : Value) (key : string) : option string :=
  value_get key metadata ≫= value_as_str.
Definition meta_i64 (metadata : Value) (key : string) : option Z :=
  value_get key metadata ≫= value_as_i64.

(** [subject.or_else(...)]. *)
Definition event_machine_id (e : AuditEntry) : option string :=
  match ae_subject e with
  | Some s => Some s
  | None => meta_string (ae_metadata e) "machine_id"
  end.

(** ** The snapshot *)
Record RecentFailure : Type := MkRecentFailure { rf_failure : MachineFailure; rf_at : Z }.

Record RolloutService : Type := MkRolloutService {
  rs_machines : list MachineView;
  rs_latest_generation : option Z;
  rs_bundle_fingerprint : option string;
  rs_configured : bool;
  rs_failures : gmap string RecentFailure;
  rs_bundle_events : list AuditEntry;
  rs_now : Z;
}.

(** [Duration::hours]. *)
Definition hours (n : Z) : Z := seconds (n * 3600).

(** The queries the service makes; every other field has its default. *)
Definition bundle_query (since : option Z) (limit : Z) : AuditQuery :=
  MkAuditQuery None (Some "bundle.") None None None None None None None since None None None limit
    Descending.
Definition history_query : AuditQuery :=
  MkAuditQuery (Some "bundle.applied") None None None None None None None None None None None None
    HISTORY_EVENT_SCAN Ascending.

Definition is_failure_event (e : AuditEntry) : bool :=
  bool_decide (ae_event_type e = "bundle.rollback") ||
  bool_decide (ae_event_type e = "bundle.signature_failed").

Section rollout.
Context `{Sha256, Chrono, SerdeJson, SshKey, ToLowercase}.

Definition rfc3339 (t : Z) : string := to_rfc3339_secs t.
Definition parse_rfc3339 (s : string) : option Z := parse_from_rfc3339 s.

Definition recent_failure (e : AuditEntry) : RecentFailure :=
  {| rf_failure := {| fl_event_type := ae_event_type e;
                      fl_generation := meta_i64 (ae_metadata e) "generation";
                      fl_reason := meta_string (ae_metadata e) "reason";
                      fl_at := rfc3339 (ae_recorded_at e) |};
     rf_at := ae_recorded_at e |}.

(** One event in the loop of [load]: [entry(mid).or_insert_with(..)]. *)
Definition note_failure (failures : gmap string RecentFailure) (e : AuditEntry)
  : gmap string RecentFailure :=
  if is_failure_event e then
    match event_machine_id e with
    | Some mid =>
        match failures !! mid with
        | Some _ => failures
        | None => <[mid := recent_failure e]> failures
        end
    | None => failures
    end
  else failures.

Definition rollout_load (ca : option CaManager) (configured : bool) (now : Z)
  : M World RolloutError RolloutService :=
  let latest_generation := cm_generation <$> ca in
  let bundle_fingerprint := cm_bundle_fingerprint <$> ca in
  machines ← with_err RolloutDatabase (admin_list now latest_generation MachineFilter_default);
  let since := (now - hours FAILURE_WINDOW_HOURS)%Z in
  page ← with_err RolloutAudit (service_search (bundle_query (Some since) BUNDLE_EVENT_SCAN));
  let bundle_events := page_entries page in
  ret {| rs_machines := machines;
         rs_latest_generation := latest_generation;
         rs_bundle_fingerprint := bundle_fingerprint;
         rs_configured := configured;
         rs_failures := foldl note_failure ∅ bundle_events;
         rs_bundle_events := bundle_events;
         rs_now := now |}.

Definition effective_failure (s : RolloutService) (m : MachineView) : option MachineFailure :=
  rf ← rs_failures s !! vw_machine_id m;
  match vw_last_sync m ≫= parse_rfc3339 with
  | Some last_sync => if (rf_at rf <=? last_sync)%Z then None else Some (rf_failure rf)
  | None => Some (rf_failure rf)
  end.

Definition categorize (s : RolloutService) (m : MachineView) : string * string :=
  if vw_up_to_date m then ("current", CAT_UP_TO_DATE)
  else
    let category :=
      match vw_status m with
      | Revoked => CAT_REVOKED
      | Disabled => CAT_DISABLED
      | _ =>
          let by_liveness :=
            match vw_liveness m with
            | Offline => CAT_OFFLINE
            | Stale => CAT_STALE
            | Online => CAT_MISMATCH
            end in
          match fl_event_type <$> effective_failure s m with
          | Some ty =>
              if bool_decide (ty = "bundle.signature_failed") then CAT_VERIFICATION
              else if bool_decide (ty = "bundle.rollback") then CAT_HELPER
              else by_liveness
          | None => by_liveness
          end
      end in
    (if is_stuck_category category then "stuck" else "lagging", category).

Definition machine_rollout (s : RolloutService) (m : MachineView) : MachineRollout :=
  let '(state, category) := categorize s m in
  {| mo_machine_id := vw_machine_id m;
     mo_hostname := vw_hostname m;
     mo_status := MachineStatus_as_str (vw_status m);
     mo_liveness := liveness_str (vw_liveness m);
     mo_synced_generation := vw_synced_generation m;
     mo_latest_generation := vw_latest_generation m;
     mo_current_generation := vw_current_generation m;
     mo_up_to_date := vw_up_to_date m;
     mo_generations_behind := generations_behind m;
     mo_state := state;
     mo_category := category;
     mo_last_sync := vw_last_sync m;
     mo_last_seen := vw_last_seen m;
     mo_last_failure := effective_failure s m |}.

Definition rollout_machines (s : RolloutService) : list MachineRollout :=
  machine_rollout s <$> rs_machines s.

Definition state_selected (state : string) (m : MachineRollout) : bool :=
  match state with
  | "current" => bool_decide (mo_state m = "current")
  | "lagging" => negb (bool_decide (mo_state m = "current"))
  | "stuck" => bool_decide (mo_state m = "stuck")
  | _ => true
  end.

Definition machines_filtered (s : RolloutService) (state : string) (generation : option Z)
  : list MachineRollout :=
  List.filter (λ m, match generation with
                    | Some g => bool_decide (mo_synced_generation m = Some g)
                    | None => true
                    end)
    (List.filter (state_selected state) (rollout_machines s)).

Definition active (s : RolloutService) : list MachineView :=
  List.filter (λ m, bool_decide (vw_status m = Active)) (rs_machines s).

Definition breakdown_step (s : RolloutService) (b : RolloutBreakdown) (m : MachineView)
  : RolloutBreakdown :=
  let '(MkBreakdown healthy stale offline failed pending) := b in
  if vw_up_to_date m then MkBreakdown (healthy + 1) stale offline failed pending
  else
    match effective_failure s m with
    | Some _ => MkBreakdown healthy stale offline (failed + 1) pending
    | None =>
        match vw_liveness m with
        | Offline => MkBreakdown healthy stale (offline + 1) failed pending
        | Stale => MkBreakdown healthy (stale + 1) offline failed pending
        | Online => MkBreakdown healthy stale offline failed (pending + 1)
        end
    end.

Definition breakdown (s : RolloutService) : RolloutBreakdown :=
  foldl (breakdown_step s) (MkBreakdown 0 0 0 0 0) (active s).

(** The [BTreeMap] of machines per applied generation. *)
Definition population (s : RolloutService) : list (Z * Z) :=
  foldl (λ counts m, match vw_synced_generation m with
                     | Some g => bump g counts
                     | None => counts
                     end) [] (rs_machines s).

Definition rollout_generations (s : RolloutService) : list GenerationDetail :=
  let total := Z.of_nat (length (rs_machines s)) in
  (λ gc, {| gd_generation := gc.1;
            gd_machines := gc.2;
            gd_percentage := percentage gc.2 total;
            gd_is_latest := bool_decide (Some gc.1 = rs_latest_generation s) |}) <$> population s.

Definition completed_count (s : RolloutService) : Z := rows_where vw_up_to_date (active s).
Definition active_count (s : RolloutService) : Z := Z.of_nat (length (active s)).

Definition counts_as_apply (s : RolloutService) (e : AuditEntry) : bool :=
  let cutoff := (rs_now s - seconds ETA_WINDOW_SECONDS)%Z in
  bool_decide (ae_event_type e = "bundle.applied") &&
  (cutoff <=? ae_recorded_at e)%Z &&
  match rs_latest_generation s, meta_i64 (ae_metadata e) "generation" with
  | Some latest, Some g => (g =? latest)%Z
  | _, _ => true
  end.

Definition applies_last_hour (s : RolloutService) : Z :=
  rows_where (counts_as_apply s) (rs_bundle_events s).

Definition rollout_eta (s : RolloutService) : RolloutEta :=
  let remaining := (active_count s - completed_count s)%Z in
  let applies := applies_last_hour s in
  let per_hour := f64_of_Z applies in
  let complete := (remaining <=? 0)%Z in
  let estimate :=
    if complete || f64_leb per_hour (f64_of_Z 0) then None
    else Some (f64_as_i64 (f64_ceil (f64_mul (f64_div (f64_of_Z remaining) per_hour)
                                       (f64_of_Z ETA_WINDOW_SECONDS)))) in
  {| eta_complete := complete;
     eta_remaining := Z.max remaining 0;
     eta_applies_last_hour := applies;
     eta_per_hour := per_hour;
     eta_seconds := estimate;
     eta_estimated_completion := (λ secs, rfc3339 (rs_now s + seconds secs)%Z) <$> estimate |}.

Definition is_reachable (m : MachineView) : bool :=
  match vw_liveness m with Online | Stale => true | Offline => false end.

Definition count_event (s : RolloutService) (ty : string) : Z :=
  rows_where (λ e, bool_decide (ae_event_type e = ty)) (rs_bundle_events s).

Definition rollout_health (s : RolloutService) : RolloutHealth :=
  let completed := completed_count s in
  let remaining := (active_count s - completed)%Z in
  let pct := percentage completed (active_count s) in
  let signature_failures := count_event s "bundle.signature_failed" in
  let rollbacks := count_event s "bundle.rollback" in
  let lagging := List.filter (λ m, negb (vw_up_to_date m)) (active s) in
  let reachable_lagging := rows_where is_reachable lagging in
  let window := display_int FAILURE_WINDOW_HOURS in
  if (0 <? signature_failures)%Z then
    MkRolloutHealth HEALTH_FAILED (f64_as_u8 (f64_mul pct f64_half))
      [display_int signature_failures +:+
       " bundle signature verification failure(s) in the last " +:+ window +:+
       "h — agents rejected an untrusted bundle"]
  else if (active_count s =? 0)%Z then
    MkRolloutHealth HEALTH_HEALTHY 100 ["no active machines enrolled"]
  else if (remaining =? 0)%Z then
    MkRolloutHealth HEALTH_HEALTHY 100
      ["all " +:+ display_int (active_count s) +:+
       " active machine(s) are on the latest generation"]
  else if (reachable_lagging =? 0)%Z then
    MkRolloutHealth HEALTH_BLOCKED (f64_as_u8 pct)
      [display_int remaining +:+ " machine(s) behind and none are reachable (offline); " +:+
       "rollout cannot progress without intervention"]
  else
    MkRolloutHealth HEALTH_DEGRADED (f64_as_u8 pct)
      ((display_int completed +:+ "/" +:+ display_int (active_count s) +:+
        " active machine(s) on the latest generation (" +:+ display_int remaining +:+ " behind)") ::
       if (0 <? rollbacks)%Z then
         [display_int rollbacks +:+ " bundle rollback(s) (apply/reload failures) in the last " +:+
          window +:+ "h"]
       else []).

Definition rollout_status (s : RolloutService) : RolloutStatus :=
  let on (l : LivenessStatus) := rows_where (λ m, bool_decide (vw_liveness m = l)) (rs_machines s) in
  {| ro_configured := rs_configured s;
     ro_latest_generation := rs_latest_generation s;
     ro_bundle_fingerprint := rs_bundle_fingerprint s;
     ro_total_machines := Z.of_nat (length (rs_machines s));
     ro_active_machines := active_count s;
     ro_completed := completed_count s;
     ro_remaining := (active_count s - completed_count s)%Z;
     ro_never_synced := rows_where (λ m, bool_decide (vw_synced_generation m = None)) (rs_machines s);
     ro_percentage := percentage (completed_count s) (active_count s);
     ro_online := on Online;
     ro_stale := on Stale;
     ro_offline := on Offline;
     ro_breakdown := breakdown s;
     ro_generations := rollout_generations s;
     ro_eta := rollout_eta s;
     ro_health := rollout_health s |}.

(** *** Explanation *)

(** One machine in the loop: [buckets.entry(category).or_default().push(hostname)]. *)
Definition bucket_step (s : RolloutService) (buckets : gmap string (list string)) (m : MachineView)
  : gmap string (list string) :=
  if vw_up_to_date m then buckets
  else
    let category := (categorize s m).2 in
    <[category := default [] (buckets !! category) ++ [vw_hostname m]]> buckets.

Definition buckets (s : RolloutService) : gmap string (list string) :=
  foldl (bucket_step s) ∅ (rs_machines s).

Definition EXPLAIN_ORDER : list string :=
  [CAT_VERIFICATION; CAT_HELPER; CAT_OFFLINE; CAT_STALE; CAT_DISABLED; CAT_REVOKED; CAT_MISMATCH].

Definition explain_category (b : gmap string (list string)) (cat : string)
  : option ExplainCategory :=
  hosts ← b !! cat;
  if bool_decide (hosts = []) then None
  else
    Some {| xc_category := cat;
            xc_count := Z.of_nat (length hosts);
            xc_description := category_description cat;
            xc_recommendation := category_recommendation cat;
            xc_machines := take EXPLAIN_SAMPLE (sort_by str_leb hosts) |}.

Definition rollout_explain (s : RolloutService) : RolloutExplanation :=
  let remaining := (active_count s - completed_count s)%Z in
  {| xp_latest_generation := rs_latest_generation s;
     xp_complete := (remaining <=? 0)%Z;
     xp_remaining := Z.max remaining 0;
     xp_categories := omap (explain_category (buckets s)) EXPLAIN_ORDER |}.

(** *** Stuck machines *)
Definition stuck_machine (s : RolloutService) (m : MachineView) : option StuckMachine :=
  let '(state, category) := categorize s m in
  if bool_decide (state = "stuck") then
    Some {| sk_machine_id := vw_machine_id m;
            sk_hostname := vw_hostname m;
            sk_category := category;
            sk_generations_behind := generations_behind m;
            sk_liveness := liveness_str (vw_liveness m);
            sk_last_sync := vw_last_sync m;
            sk_last_seen := vw_last_seen m;
            sk_last_failure := effective_failure s m;
            sk_recommendation := category_recommendation category |}
  else None.

(** The comparator is not [Greater]. *)
Definition stuck_leb (a b : StuckMachine) : bool :=
  (sk_generations_behind b <? sk_generations_behind a)%Z ||
  ((sk_generations_behind b =? sk_generations_behind a)%Z &&
   str_leb (sk_hostname a) (sk_hostname b)).

Definition rollout_stuck (s : RolloutService) : StuckReport :=
  let stuck := sort_by stuck_leb (omap (stuck_machine s) (rs_machines s)) in
  MkStuckReport (Z.of_nat (length stuck)) stuck.

(** *** Timeline and history *)
Definition timeline_event (e : AuditEntry) : TimelineEvent :=
  {| te_position := ae_chain_position e;
     te_at := rfc3339 (ae_recorded_at e);
     te_event_type := ae_event_type e;
     te_outcome := outcome_of (ae_event_type e);
     te_machine_id := event_machine_id e;
     te_generation := meta_i64 (ae_metadata e) "generation";
     te_reason := meta_string (ae_metadata e) "reason" |}.

Definition rollout_timeline (limit : Z) : M World RolloutError RolloutTimeline :=
  let limit := Z.min (Z.max limit 1) TIMELINE_MAX_LIMIT in
  page ← with_err RolloutAudit (service_search (bundle_query None limit));
  let events := timeline_event <$> page_entries page in
  ret (MkTimeline (Z.of_nat (length events)) events).

Record Agg : Type := MkAgg { ag_first : Z; ag_last : Z; ag_total : Z }.

(** One event in the loop of [history]. *)
Definition note_apply (applies : gmap Z Agg) (e : AuditEntry) : gmap Z Agg :=
  match meta_i64 (ae_metadata e) "generation" with
  | None => applies
  | Some gen =>
      let t := ae_recorded_at e in
      <[gen := match applies !! gen with
               | Some a => MkAgg (Z.min (ag_first a) t) (Z.max (ag_last a) t) (ag_total a + 1)
               | None => MkAgg t t 1
               end]> applies
  end.

(** Keys of the one map, then those of the other that are not among them, sorted. *)
Definition all_generations (population : list (Z * Z)) (applies : gmap Z Agg) : list Z :=
  let gens := population.*1 in
  sort_by Z.leb
    (gens ++ List.filter (λ g, negb (bool_decide (g ∈ gens))) (map_to_list applies).*1).

Definition generation_history (s : RolloutService) (applies : gmap Z Agg) (g : Z)
  : GenerationHistory :=
  let agg := applies !! g in
  {| gh_generation := g;
     gh_is_latest := bool_decide (Some g = rs_latest_generation s);
     gh_machines_on_generation := get_count g (population s);
     gh_first_applied_at := (λ a, rfc3339 (ag_first a)) <$> agg;
     gh_last_applied_at := (λ a, rfc3339 (ag_last a)) <$> agg;
     gh_total_applies := default 0%Z (ag_total <$> agg) |}.

Definition rollout_history (s : RolloutService) : M World RolloutError RolloutHistory :=
  page ← with_err RolloutAudit (service_search history_query);
  let applies := foldl note_apply ∅ (page_entries page) in
  ret (MkHistory (rs_latest_generation s)
         (generation_history s applies <$> all_generations (population s) applies)).

(** ** Lemmas *)

(** Counting rows by a key that takes its values in a list. *)
Lemma rows_where_app {A} (p : A → bool) l1 l2 :
  rows_where p (l1 ++ l2) = (rows_where p l1 + rows_where p l2)%Z.
Proof. unfold rows_where. rewrite List.filter_app, length_app. lia. Qed.

Lemma rows_where_cons {A} (p : A → bool) x l :
  rows_where p (x :: l) = ((if p x then 1 else 0) + rows_where p l)%Z.
Proof. unfold rows_where. simpl. destruct (p x); simpl; lia. Qed.

Lemma rows_where_filter {A} (p q : A → bool) l :
  rows_where p (List.filter q l) = rows_where (λ x, q x && p x) l.
Proof. unfold rows_where. by rewrite filter_filter_and. Qed.

Lemma positive_rows {A} (p : A → bool) l :
  (∃ x, x ∈ l ∧ p x = true) ↔ (0 < rows_where p l)%Z.
Proof.
  unfold rows_where. induction l as [|x l IH]; simpl.
  { split; [by intros (? & []%elem_of_nil & _)|lia]. }
  setoid_rewrite elem_of_cons. destruct (p x) eqn:Hx; simpl.
  - split; [intros _; lia|]. intros _. exists x. auto.
  - rewrite <-IH. split; [intros (y & [->|Hy] & Hp); [congruence|eauto]|].
    intros (y & ? & ?). eauto.
Qed.

Lemma sum_one k (ks : list string) :
  NoDup ks → k ∈ ks →
  foldr (λ k' n, (if bool_decide (k = k') then 1 else 0) + n)%Z 0%Z ks = 1%Z.
Proof.
  assert (∀ ks, k ∉ ks →
    foldr (λ k' n, (if bool_decide (k = k') then 1 else 0) + n)%Z 0%Z ks = 0%Z) as Hz.
  { intros l. induction l as [|k' l IH]; simpl; [done|]. intros Hk.
    rewrite bool_decide_false by set_solver. rewrite IH by set_solver. done. }
  induction 1 as [|k' ks Hk' _ IH]; [set_solver|]. simpl.
  intros [->|Hk]%elem_of_cons; [by rewrite bool_decide_true, Hz|].
  rewrite bool_decide_false by set_solver. rewrite IH by done. done.
Qed.

Lemma sum_by_key {A} (f : A → string) ks l :
  NoDup ks → Forall (λ x, f x ∈ ks) l →
  foldr (λ k n, rows_where (λ x, bool_decide (f x = k)) l + n)%Z 0%Z ks = Z.of_nat (length l).
Proof.
  intros Hnd. induction 1 as [|x l Hx _ IH].
  - clear. induction ks as [|k ks IH]; simpl; [done|]. by rewrite IH.
  - cbn [length]. rewrite Nat2Z.inj_succ, <-Z.add_1_l, <-IH, <-(sum_one (f x) ks Hnd Hx).
    clear. induction ks as [|k ks IH]; simpl; [done|]. rewrite rows_where_cons. lia.
Qed.

(** *** Categories *)
Lemma explain_order_nodup : NoDup EXPLAIN_ORDER.
Proof. by apply (bool_decide_unpack _); vm_compute. Qed.

Lemma categorize_behind s m :
  vw_up_to_date m = false →
  (categorize s m).2 ∈ EXPLAIN_ORDER ∧
  (categorize s m).1 = if is_stuck_category (categorize s m).2 then "stuck" else "lagging".
Proof.
  intros Hu. unfold categorize. rewrite Hu. simpl. split; [|done].
  destruct (vw_status m), (vw_liveness m), (fl_event_type <$> effective_failure s m);
    repeat case_bool_decide; by apply (bool_decide_unpack _); vm_compute.
Qed.

Lemma categorize_current s m :
  (categorize s m).2 = CAT_UP_TO_DATE ↔ vw_up_to_date m = true.
Proof.
  split; [|by unfold categorize; intros ->]. intros Hc.
  destruct (vw_up_to_date m) eqn:Hu; [done|]. destruct (categorize_behind s m Hu) as [Hin _].
  rewrite Hc in Hin. by apply (bool_decide_pack _) in Hin; vm_compute in Hin.
Qed.

(** The machines of a category. *)
Definition behind (s : RolloutService) : list MachineView :=
  List.filter (λ m, negb (vw_up_to_date m)) (rs_machines s).
Definition in_category (s : RolloutService) (cat : string) : list MachineView :=
  List.filter (λ m, bool_decide ((categorize s m).2 = cat)) (behind s).

Lemma buckets_lookup s cat :
  default [] (buckets s !! cat) = vw_hostname <$> in_category s cat.
Proof.
  unfold buckets, in_category, behind.
  assert (∀ l b, default [] (foldl (bucket_step s) b l !! cat) = default [] (b !! cat) ++
    (vw_hostname <$> List.filter (λ m, bool_decide ((categorize s m).2 = cat))
      (List.filter (λ m, negb (vw_up_to_date m)) l))) as Hf; [|by rewrite Hf].
  intros l. induction l as [|m l IH]; intros b; simpl; [by rewrite app_nil_r|].
  rewrite IH. unfold bucket_step. destruct (vw_up_to_date m); simpl; [done|].
  case_bool_decide as Hc.
  - rewrite Hc, lookup_insert_eq. simpl. by rewrite <-app_assoc.
  - by rewrite lookup_insert_ne.
Qed.

Lemma explain_category_spec s cat :
  explain_category (buckets s) cat =
    if bool_decide (in_category s cat = []) then None
    else Some (MkExplainCategory cat (Z.of_nat (length (in_category s cat)))
      (category_description cat) (category_recommendation cat)
      (take EXPLAIN_SAMPLE (sort_by str_leb (vw_hostname <$> in_category s cat)))).
Proof.
  pose proof (buckets_lookup s cat) as Hb. unfold explain_category.
  assert ((vw_hostname <$> in_category s cat = []) ↔ in_category s cat = []) as Hnil
    by by destruct (in_category s cat).
  destruct (buckets s !! cat) as [hosts|]; simpl in *; subst.
  - rewrite (bool_decide_ext _ _ Hnil), length_fmap. done.
  - rewrite bool_decide_true; [done|]. by apply Hnil.
Qed.

(** *** Recorded failures *)
Definition failure_of (mid : string) (e : AuditEntry) : bool :=
  is_failure_event e && bool_decide (event_machine_id e = Some mid).

(** The map holds the first failure of each machine in the list. *)
Lemma failures_lookup mid events :
  foldl note_failure ∅ events !! mid = recent_failure <$> find (failure_of mid) events.
Proof.
  assert (∀ events b, foldl note_failure b events !! mid =
    match b !! mid with
    | Some rf => Some rf
    | None => recent_failure <$> find (failure_of mid) events
    end) as Hf; [|by rewrite Hf].
  intros l. induction l as [|e l IH]; intros b; simpl; [by destruct (b !! mid)|].
  rewrite IH. unfold note_failure, failure_of. destruct (is_failure_event e); simpl; [|done].
  destruct (event_machine_id e) as [mid'|]; [|done].
  destruct (decide (mid' = mid)) as [->|Hne].
  - rewrite bool_decide_true by done. destruct (b !! mid) eqn:Hb; [by rewrite Hb|].
    by rewrite lookup_insert_eq.
  - rewrite bool_decide_false by congruence.
    destruct (b !! mid'); [done|]. by rewrite lookup_insert_ne.
Qed.

Lemma failure_event_type e :
  is_failure_event e = true →
  ae_event_type e = "bundle.rollback" ∨ ae_event_type e = "bundle.signature_failed".
Proof. unfold is_failure_event. by intros [?%bool_decide_eq_true|?%bool_decide_eq_true]%orb_true_iff; auto. Qed.

(** What the loader stores in the map. *)
Definition loaded (s : RolloutService) : Prop :=
  rs_failures s = foldl note_failure ∅ (rs_bundle_events s).

Lemma load_loaded ca configured now w s w' :
  rollout_load ca configured now w = (Ok s, w') → loaded s.
Proof. unfold rollout_load. intros Hl. by ok_steps. Qed.

Lemma effective_failure_type s m f :
  loaded s → effective_failure s m = Some f →
  fl_event_type f = "bundle.rollback" ∨ fl_event_type f = "bundle.signature_failed".
Proof.
  intros Hs. unfold effective_failure. rewrite Hs, failures_lookup.
  destruct (find _ _) as [e|] eqn:He; [|done]. simpl.
  apply find_some in He as [_ [Hf _]%andb_true_iff]. apply failure_event_type in Hf.
  intros Heq. cases; done.
Qed.

(** *** The breakdown, by category *)
Definition has_category (s : RolloutService) (cats : list string) (m : MachineView) : bool :=
  bool_decide ((categorize s m).2 ∈ cats).

Definition add_to (s : RolloutService) (b : RolloutBreakdown) (m : MachineView)
  : RolloutBreakdown :=
  let one cats := if has_category s cats m then 1%Z else 0%Z in
  MkBreakdown (one [CAT_UP_TO_DATE] + bd_healthy b) (one [CAT_STALE] + bd_stale b)
    (one [CAT_OFFLINE] + bd_offline b) (one [CAT_VERIFICATION; CAT_HELPER] + bd_failed b)
    (one [CAT_MISMATCH] + bd_pending b).

Lemma breakdown_step_category s b m :
  loaded s → vw_status m = Active → breakdown_step s b m = add_to s b m.
Proof.
  intros Hs Ha. unfold breakdown_step, add_to, has_category, categorize. destruct b as [h st o f p].
  rewrite Ha. destruct (vw_up_to_date m); [simpl; f_equal; lia|].
  destruct (effective_failure s m) as [g|] eqn:Hf.
  - cbn [fmap option_fmap option_map]. destruct (effective_failure_type _ _ _ Hs Hf) as [->| ->];
      cbn [snd]; repeat case_bool_decide; simplify_eq; simpl; f_equal; try lia; set_solver.
  - destruct (vw_liveness m); simpl; f_equal; lia.
Qed.

Lemma breakdown_counts s :
  loaded s →
  let n cats := rows_where (has_category s cats) (active s) in
  breakdown s = MkBreakdown (n [CAT_UP_TO_DATE]) (n [CAT_STALE]) (n [CAT_OFFLINE])
    (n [CAT_VERIFICATION; CAT_HELPER]) (n [CAT_MISMATCH]).
Proof.
  intros Hs. unfold breakdown.
  assert (Forall (λ m, vw_status m = Active) (active s)) as Hact.
  { apply Forall_forall. intros m Hm. apply list_elem_of_In, filter_In in Hm as [_ Hm].
    by apply bool_decide_eq_true in Hm. }
  assert (∀ l b, Forall (λ m, vw_status m = Active) l → foldl (breakdown_step s) b l =
    let n cats := rows_where (has_category s cats) l in
    MkBreakdown (n [CAT_UP_TO_DATE] + bd_healthy b) (n [CAT_STALE] + bd_stale b)
      (n [CAT_OFFLINE] + bd_offline b) (n [CAT_VERIFICATION; CAT_HELPER] + bd_failed b)
      (n [CAT_MISMATCH] + bd_pending b)) as Hf.
  { intros l. induction l as [|m l IH]; intros b Hl; [by destruct b|].
    apply Forall_cons in Hl as [Hm Hl]. cbn [foldl]. rewrite IH by done.
    rewrite breakdown_step_category by done. cbv zeta. rewrite !rows_where_cons.
    unfold add_to. simpl. f_equal; lia. }
  rewrite Hf by done. simpl. f_equal; lia.
Qed.

(** *** Population and history *)
Lemma population_spec s :
  ascending (population s) ∧ Forall (λ kc, 0 < kc.2)%Z (population s) ∧
  ∀ g, get_count g (population s) =
    rows_where (λ m, bool_decide (vw_synced_generation m = Some g)) (rs_machines s).
Proof.
  unfold population.
  assert (∀ l c, ascending c → Forall (λ kc, 0 < kc.2)%Z c →
    let r := foldl (λ counts m, match vw_synced_generation m with
                     | Some g => bump g counts | None => counts end) c l in
    ascending r ∧ Forall (λ kc, 0 < kc.2)%Z r ∧ ∀ g, get_count g r =
      (get_count g c + rows_where (λ m, bool_decide (vw_synced_generation m = Some g)) l)%Z) as Hf.
  { intros l. induction l as [|m l IH]; intros c Ha Hp; simpl.
    { split_and!; try done. intros g. unfold rows_where. simpl. lia. }
    destruct (vw_synced_generation m) as [g0|] eqn:Hm.
    - destruct (IH (bump g0 c)) as (H1' & H2' & H3');
        [by apply bump_ascending|by apply bump_positive|]. split_and!; [done..|].
      intros g. rewrite H3', get_count_bump, rows_where_cons, Hm by done.
      rewrite (bool_decide_ext (Some g0 = Some g) (g0 = g)) by naive_solver.
      destruct (Z.eqb_spec g0 g) as [->|Hn]; [rewrite (bool_decide_true (g = g)) by done
        |rewrite (bool_decide_false (g0 = g)) by done]; lia.
    - destruct (IH c) as (H1' & H2' & H3'); [done..|]. split_and!; [done..|].
      intros g. rewrite H3', rows_where_cons, Hm. rewrite (bool_decide_false (None = Some g)) by done.
      lia. }
  destruct (Hf (rs_machines s) []) as (H1' & H2' & H3'); [by constructor..|].
  split_and!; [done..|]. intros g. rewrite H3'. done.
Qed.

Definition applied_at (g : Z) (e : AuditEntry) : bool :=
  bool_decide (meta_i64 (ae_metadata e) "generation" = Some g).

(** The aggregate of a generation against the events that name it. *)
Definition agg_ok (o : option Agg) (ts : list Z) : Prop :=
  match o with
  | None => ts = []
  | Some a => ag_total a = Z.of_nat (length ts) ∧ ag_first a ∈ ts ∧ ag_last a ∈ ts ∧
      Forall (λ t, ag_first a <= t <= ag_last a)%Z ts
  end.

Lemma agg_ok_snoc o ts t :
  agg_ok o ts →
  agg_ok (Some match o with
               | Some a => MkAgg (Z.min (ag_first a) t) (Z.max (ag_last a) t) (ag_total a + 1)
               | None => MkAgg t t 1
               end) (ts ++ [t]).
Proof.
  destruct o as [a|]; simpl.
  - intros (Ht & Hf & Hl & Hall). rewrite length_app. simpl. split_and!; [lia| | |].
    + destruct (Z.min_spec (ag_first a) t) as [[_ ->]|[_ ->]]; set_solver.
    + destruct (Z.max_spec (ag_last a) t) as [[_ ->]|[_ ->]]; set_solver.
    + apply Forall_app. split; [|constructor; [lia|constructor]].
      eapply Forall_impl; [done|]. simpl. lia.
  - intros ->. simpl. split_and!; [lia|set_solver|set_solver|]. constructor; [lia|constructor].
Qed.

Lemma applies_spec g events :
  agg_ok (foldl note_apply ∅ events !! g) (ae_recorded_at <$> List.filter (applied_at g) events).
Proof.
  induction events as [|e events IH] using rev_ind; [done|].
  rewrite foldl_app, List.filter_app, fmap_app. simpl. unfold note_apply at 1.
  change (applied_at g e) with (bool_decide (meta_i64 (ae_metadata e) "generation" = Some g)).
  destruct (meta_i64 _ _) as [g'|]; simpl.
  - case_bool_decide as Hg; simplify_eq/=.
    + rewrite lookup_insert_eq. by apply agg_ok_snoc.
    + rewrite lookup_insert_ne by congruence. by rewrite app_nil_r.
  - by rewrite app_nil_r.
Qed.

Lemma all_generations_spec pop applies :
  ascending pop →
  StronglySorted Z.lt (all_generations pop applies) ∧
  ∀ g, g ∈ all_generations pop applies ↔ g ∈ pop.*1 ∨ is_Some (applies !! g).
Proof.
  intros Ha. unfold all_generations.
  set (rest := List.filter _ ((map_to_list applies).*1)).
  assert (∀ g, g ∈ rest ↔ (g ∉ pop.*1) ∧ is_Some (applies !! g)) as Hrest.
  { intros g. unfold rest. rewrite list_elem_of_In, filter_In, <-list_elem_of_In.
    rewrite list_elem_of_fmap. split.
    - intros [([g' a] & -> & Hin%elem_of_map_to_list) Hn]. simpl in *.
      apply negb_true_iff, bool_decide_eq_false in Hn. by rewrite Hin.
    - intros [Hn [a Hin]]. split; [|by rewrite bool_decide_false].
      exists (g, a). by rewrite elem_of_map_to_list. }
  assert (NoDup (pop.*1 ++ rest)) as Hnd.
  { apply NoDup_app. split_and!.
    - clear -Ha. induction Ha as [|[k c] l _ IH Hk]; simpl; constructor; [|done].
      rewrite Forall_forall in Hk. intros ([k' c'] & Heq & Hin)%list_elem_of_fmap.
      simpl in Heq. subst. apply Hk in Hin. simpl in Hin. lia.
    - intros g Hg. rewrite Hrest. tauto.
    - apply NoDup_ListNoDup, List.NoDup_filter, NoDup_ListNoDup, NoDup_fst_map_to_list. }
  split.
  - assert (StronglySorted (λ x y, (x <=? y)%Z = true) (sort_by Z.leb (pop.*1 ++ rest))) as Hs
      by (apply sort_by_sorted; intros; rewrite !Z.leb_le in *; lia).
    assert (NoDup (sort_by Z.leb (pop.*1 ++ rest))) as Hnd' by by rewrite sort_by_perm.
    clear -Hs Hnd'. induction Hs as [|x l _ IH Hx]; constructor;
      apply NoDup_cons in Hnd' as [Hn Hnd']; [by apply IH|].
    rewrite Forall_forall in Hx |- *. intros y Hy. specialize (Hx y Hy). apply Z.leb_le in Hx.
    assert (x ≠ y) by congruence. lia.
  - intros g. rewrite sort_by_perm, elem_of_app, Hrest.
    destruct (decide (g ∈ pop.*1)); tauto.
Qed.

Definition bd_total (b : RolloutBreakdown) : Z :=
  bd_healthy b + bd_stale b + bd_offline b + bd_failed b + bd_pending b.

Lemma breakdown_total s : bd_total (breakdown s) = active_count s.
Proof.
  unfold breakdown, active_count.
  assert (∀ l b, bd_total (foldl (breakdown_step s) b l) = (bd_total b + Z.of_nat (length l))%Z) as Hf.
  { intros l. induction l as [|m l IH]; intros b; simpl; [lia|]. rewrite IH.
    destruct b; unfold breakdown_step, bd_total; simpl.
    destruct (vw_up_to_date m), (effective_failure s m), (vw_liveness m); simpl; lia. }
  rewrite Hf. unfold bd_total. simpl. lia.
Qed.

Lemma healthy_completed s : loaded s → bd_healthy (breakdown s) = completed_count s.
Proof.
  intros Hs. rewrite breakdown_counts by done. simpl. unfold completed_count, rows_where.
  do 2 f_equal. apply filter_ext. intros m. unfold has_category.
  apply Bool.eq_iff_eq_true. rewrite bool_decide_eq_true, list_elem_of_singleton.
  apply categorize_current.
Qed.

Lemma remaining_spec s :
  (active_count s - completed_count s = rows_where (λ m, negb (vw_up_to_date m)) (active s))%Z.
Proof.
  unfold active_count, completed_count, rows_where.
  induction (active s) as [|m l IH]; simpl; [lia|]. destruct (vw_up_to_date m); simpl; lia.
Qed.

Lemma machine_rollout_id s m : mo_machine_id (machine_rollout s m) = vw_machine_id m.
Proof. unfold machine_rollout. by destruct (categorize s m). Qed.

(** *** Loading reads *)
Lemma search_reads q : frame eq (service_search q).
Proof. unfold service_search, search. eauto 20 with frame. Qed.

Lemma admin_list_reads now latest f : frame eq (admin_list now latest f).
Proof. unfold admin_list, list_all. eauto 20 with frame. Qed.

Lemma rollout_load_reads ca configured now : frame eq (rollout_load ca configured now).
Proof. unfold rollout_load. eauto 20 using search_reads, admin_list_reads with frame. Qed.

(** The events of a snapshot: the first thousand of the last day's, newest first. *)
Lemma load_events ca configured now w s w' :
  audit_ok (db w) → rollout_load ca configured now w = (Ok s, w') →
  ∃ es, Forall2 decodes (matching (bundle_query (Some (now - hours 24)%Z) 1000) (db w)) es ∧
    rs_bundle_events s = take 1000 es.
Proof.
  intros Hok Hl. unfold rollout_load in Hl. ok_steps. simpl.
  match goal with Ha : admin_list _ _ _ _ = _ |- _ => apply admin_list_reads in Ha; rewrite Ha in * end.
  match goal with Hs : service_search _ _ = _ |- _ =>
    apply search_ok_inv in Hs as (es & Hes & ->); [|done] end.
  by exists es.
Qed.

(** ** Theorems *)

(** The dashboard accounts for every active machine.  In a loaded snapshot the five
    buckets sum to the number of active machines, [healthy] is the number reported as
    completed, the others sum to the remaining ones, and each bucket is the exact number
    of active machines whose category it stands for. *)
Theorem breakdown_partitions ca configured now w s w' :
  rollout_load ca configured now w = (Ok s, w') →
  let st := rollout_status s in
  let b := ro_breakdown st in
  let n cats := rows_where (has_category s cats) (active s) in
  b = MkBreakdown (n [CAT_UP_TO_DATE]) (n [CAT_STALE]) (n [CAT_OFFLINE])
        (n [CAT_VERIFICATION; CAT_HELPER]) (n [CAT_MISMATCH]) ∧
  bd_total b = ro_active_machines st ∧ bd_healthy b = ro_completed st ∧
  (bd_stale b + bd_offline b + bd_failed b + bd_pending b = ro_remaining st)%Z.
Proof.
  intros Hs%load_loaded. simpl. pose proof (breakdown_total s) as Ht.
  pose proof (healthy_completed s Hs) as Hh. split; [by apply breakdown_counts|].
  split_and!; [done..|]. unfold bd_total in Ht. lia.
Qed.

(** The explanation names every machine that is behind exactly once.  The categories
    come in the fixed order without repetition, each with a positive count that is the
    number of its machines and with the first ten of their hostnames in order, and the
    counts sum to the number of machines not on the latest generation.  The rollout is
    called complete exactly when every active machine is on it. *)
Theorem explanation_exact s :
  let x := rollout_explain s in
  (xc_category <$> xp_categories x) `sublist_of` EXPLAIN_ORDER ∧
  (∀ c, c ∈ xp_categories x →
    (0 < xc_count c)%Z ∧ xc_count c = Z.of_nat (length (in_category s (xc_category c))) ∧
    xc_machines c = take 10 (sort_by str_leb (vw_hostname <$> in_category s (xc_category c)))) ∧
  foldr (λ c n, xc_count c + n)%Z 0%Z (xp_categories x) = Z.of_nat (length (behind s)) ∧
  (xp_complete x = true ↔ ∀ m, m ∈ active s → vw_up_to_date m = true).
Proof.
  unfold rollout_explain. cbn [xp_categories xp_complete]. split_and!.
  - assert (∀ l, (xc_category <$> omap (explain_category (buckets s)) l) `sublist_of` l) as Hl
      by (intros l; induction l as [|c l IH]; [done|]; csimpl; rewrite explain_category_spec;
          case_bool_decide; by constructor). apply Hl.
  - intros c (cat & _ & Hc)%list_elem_of_omap. rewrite explain_category_spec in Hc.
    case_bool_decide as Hn; [done|]. simplify_eq/=. split_and!; [|done..].
    destruct (in_category s cat); simpl; [done|lia].
  - assert (∀ l, foldr (λ c n, xc_count c + n)%Z 0%Z (omap (explain_category (buckets s)) l) =
      foldr (λ k n, rows_where (λ m, bool_decide ((categorize s m).2 = k)) (behind s) + n)%Z 0%Z l)
      as Hl.
    { intros l. induction l as [|c l IH]; [done|]. csimpl. rewrite explain_category_spec.
      change (rows_where (λ m, bool_decide ((categorize s m).2 = c)) (behind s))
        with (Z.of_nat (length (in_category s c))).
      case_bool_decide as Hc; simpl; rewrite IH; [by rewrite Hc|done]. }
    rewrite Hl. apply sum_by_key; [apply explain_order_nodup|]. apply Forall_forall.
    intros m Hm. apply list_elem_of_In, filter_In in Hm as [_ Hm].
    by apply categorize_behind, negb_true_iff.
  - rewrite remaining_spec, Z.leb_le.
    assert (rows_where (λ m, negb (vw_up_to_date m)) (active s) <= 0 ↔
      rows_where (λ m, negb (vw_up_to_date m)) (active s) = 0)%Z as -> by (unfold rows_where; lia).
    rewrite rows_where_zero. by setoid_rewrite negb_false_iff.
Qed.

(** The health verdict, exactly.  [Failed] means that some agent rejected a bundle
    signature among the recent events; without that, [Blocked] that some active machine is
    behind and none of those is reachable, [Degraded] that one that is behind is reachable,
    and [Healthy] that no active machine is behind. *)
Theorem health_verdict_exact s :
  let rejected := ∃ e, e ∈ rs_bundle_events s ∧ ae_event_type e = "bundle.signature_failed" in
  let lags m := m ∈ active s ∧ vw_up_to_date m = false in
  match rh_status (rollout_health s) with
  | "Failed" => rejected
  | "Blocked" => ¬ rejected ∧ (∃ m, lags m) ∧ ∀ m, lags m → vw_liveness m = Offline
  | "Degraded" => ¬ rejected ∧ ∃ m, lags m ∧ vw_liveness m ≠ Offline
  | "Healthy" => ¬ rejected ∧ ∀ m, ¬ lags m
  | _ => False
  end.
Proof.
  cbv zeta. unfold rollout_health. pose proof (remaining_spec s) as Hrem. rewrite Hrem.
  assert (∀ ty, (0 <? count_event s ty)%Z = true ↔
    ∃ e, e ∈ rs_bundle_events s ∧ ae_event_type e = ty) as Hev.
  { intros ty. rewrite Z.ltb_lt. unfold count_event. rewrite <-positive_rows.
    by setoid_rewrite bool_decide_eq_true. }
  destruct (0 <? count_event s _)%Z eqn:Hsig; [by apply Hev|].
  assert (¬ ∃ e, e ∈ rs_bundle_events s ∧ ae_event_type e = "bundle.signature_failed") as Hno
    by (rewrite <-Hev; congruence).
  destruct (Z.eqb_spec (active_count s) 0) as [Hz|Hz].
  { simpl. split; [done|]. intros m [Hm _]. unfold active_count in Hz.
    by destruct (active s); [apply not_elem_of_nil in Hm|]. }
  destruct (Z.eqb_spec (rows_where (λ m, negb (vw_up_to_date m)) (active s)) 0) as [Hr|Hr].
  { simpl. split; [done|]. intros m [Hm Hu]. rewrite rows_where_zero in Hr.
    apply Hr in Hm. by rewrite Hu in Hm. }
  assert (∃ m, m ∈ active s ∧ vw_up_to_date m = false) as Hlag.
  { assert (0 < rows_where (λ m, negb (vw_up_to_date m)) (active s))%Z as Hp
      by (unfold rows_where in *; lia).
    apply positive_rows in Hp as (m & Hm & Hu). exists m. by rewrite negb_true_iff in Hu. }
  rewrite rows_where_filter.
  match goal with |- context [(rows_where ?p _ =? 0)%Z] => set (q := p) end.
  assert (∀ m, q m = true ↔ vw_up_to_date m = false ∧ vw_liveness m ≠ Offline) as Hq.
  { intros m. unfold q, is_reachable. destruct (vw_up_to_date m), (vw_liveness m); naive_solver. }
  destruct (Z.eqb_spec (rows_where q (active s)) 0) as [Hb|Hb]; simpl; split; try done.
  - split; [done|]. intros m [Hm Hu]. rewrite rows_where_zero in Hb. apply Hb in Hm.
    destruct (vw_liveness m) eqn:Hl; [..|done]; exfalso;
      (assert (q m = true) as Hqm by (apply Hq; by rewrite Hl)); congruence.
  - assert (0 < rows_where q (active s))%Z as Hp by (unfold rows_where in *; lia).
    apply positive_rows in Hp as (m & Hm & Hqm%Hq). naive_solver.
Qed.

(** The stuck report lists exactly the machines in a stuck state, with their count, the
    most generations behind first and hostnames ascending among equals; each of them is
    among the lagging ones. *)
Theorem stuck_report_exact s :
  let r := rollout_stuck s in
  sr_count r = Z.of_nat (length (sr_stuck r)) ∧
  StronglySorted (λ a b, sk_generations_behind b < sk_generations_behind a ∨
    sk_generations_behind b = sk_generations_behind a ∧
    String.le (sk_hostname a) (sk_hostname b))%Z (sr_stuck r) ∧
  (sk_machine_id <$> sr_stuck r ≡ₚ mo_machine_id <$> machines_filtered s "stuck" None) ∧
  machines_filtered s "stuck" None `sublist_of` machines_filtered s "lagging" None.
Proof.
  cbv zeta. split_and!; [done| | |].
  - assert (StronglySorted (λ a b, stuck_leb a b = true) (sr_stuck (rollout_stuck s))) as Hs.
    { apply sort_by_sorted; unfold stuck_leb.
      - intros x y. rewrite !orb_true_iff, !andb_true_iff, !Z.ltb_lt, !Z.eqb_eq.
        destruct (Z.lt_trichotomy (sk_generations_behind y) (sk_generations_behind x)) as [?|[?|?]];
          [by left; left| |by right; left].
        destruct (str_leb_total (sk_hostname x) (sk_hostname y)); [left|right]; by right.
      - intros x y z. rewrite !orb_true_iff, !andb_true_iff, !Z.ltb_lt, !Z.eqb_eq.
        intros [?|[? Hxy]] [?|[? Hyz]]; try lia.
        right. split; [lia|]. by eapply str_leb_trans. }
    eapply sorted_impl; [|exact Hs]. intros a b. unfold stuck_leb.
    rewrite orb_true_iff, andb_true_iff, Z.ltb_lt, Z.eqb_eq, str_leb_le. tauto.
  - simpl. rewrite sort_by_perm. unfold machines_filtered, rollout_machines.
    induction (rs_machines s) as [|m l IH]; [done|]. csimpl. unfold machine_rollout at 1 2.
    unfold stuck_machine at 1. destruct (categorize s m) as [state cat]. cbn [mo_state].
    case_bool_decide; csimpl; [|done]. rewrite machine_rollout_id. by f_equiv.
  - unfold machines_filtered. rewrite !filter_filter_and.
    induction (rollout_machines s) as [|m l IH]; [done|]. simpl. rewrite !andb_true_r.
    case_bool_decide as Hst; [rewrite Hst; simpl; by constructor|].
    destruct (negb _); [by constructor|done].
Qed.

(** A machine's failure is its latest.  The failure a loaded snapshot attributes to a
    machine is that of the newest rollback or rejected signature among the bundle events
    of the last day it scanned, and a machine without one has none there.  Loading writes
    nothing. *)
Theorem latest_failure_attributed ca configured now w s w' mid :
  audit_ok (db w) → rollout_load ca configured now w = (Ok s, w') →
  db w' = db w ∧
  match rs_failures s !! mid with
  | Some rf => ∃ e, e ∈ rs_bundle_events s ∧ failure_of mid e = true ∧ rf = recent_failure e ∧
      ∀ e', e' ∈ rs_bundle_events s → failure_of mid e' = true →
        (ae_chain_position e' <= ae_chain_position e)%Z
  | None => ∀ e, e ∈ rs_bundle_events s → failure_of mid e = false
  end.
Proof.
  intros Hok Hl. destruct (load_events _ _ _ _ _ _ Hok Hl) as (es & Hes & Hev).
  assert (StronglySorted (λ a b, ae_chain_position b <= ae_chain_position a)%Z
    (rs_bundle_events s)) as Hs by by rewrite Hev; eapply take_sorted, matching_descending.
  split; [by rewrite (rollout_load_reads _ _ _ _ _ _ Hl)|].
  rewrite (load_loaded _ _ _ _ _ _ Hl), failures_lookup.
  destruct (find _ _) as [e|] eqn:He; simpl.
  - exists e. destruct (find_some _ _ He) as [Hin%list_elem_of_In Hf]. split_and!; try done.
    revert He Hs. clear. induction (rs_bundle_events s) as [|e0 l IH]; simpl; [done|].
    intros He Hs. inversion Hs as [|?? Hs' Hall]; subst. rewrite Forall_forall in Hall.
    destruct (failure_of mid e0) eqn:H0.
    + simplify_eq. intros e' [->|Hin]%elem_of_cons _; [done|by apply Hall].
    + intros e' [->|Hin]%elem_of_cons Hf; [congruence|by apply IH].
  - intros e Hin%list_elem_of_In. by apply (find_none _ _ He).
Qed.

(** The adoption history.  The scan covers the oldest thousand [bundle.applied] entries.
    The generations are strictly ascending and are those some machine is on or some
    scanned entry names; each comes with the number of machines on it, the number of
    scanned applications of it, and the first and last instants of those. *)
Theorem history_exact s w h w' :
  audit_ok (db w) → rollout_history s w = (Ok h, w') →
  ∃ es events, Forall2 decodes (matching history_query (db w)) es ∧ events = take 1000 es ∧
    StronglySorted (λ a b, gh_generation a < gh_generation b)%Z (hy_generations h) ∧
    (∀ g, g ∈ gh_generation <$> hy_generations h ↔
      (0 < rows_where (λ m, bool_decide (vw_synced_generation m = Some g)) (rs_machines s))%Z ∨
      (0 < rows_where (applied_at g) events)%Z) ∧
    ∀ x, x ∈ hy_generations h →
      let g := gh_generation x in
      let ts := ae_recorded_at <$> List.filter (applied_at g) events in
      gh_machines_on_generation x =
        rows_where (λ m, bool_decide (vw_synced_generation m = Some g)) (rs_machines s) ∧
      gh_total_applies x = Z.of_nat (length ts) ∧
      match gh_first_applied_at x, gh_last_applied_at x with
      | Some first, Some last => ∃ t t', t ∈ ts ∧ t' ∈ ts ∧ first = rfc3339 t ∧ last = rfc3339 t' ∧
          Forall (λ u, t <= u <= t')%Z ts
      | None, None => ts = []
      | _, _ => False
      end.
Proof.
  unfold rollout_history. intros Hok Hh. ok_steps. rename a into page.
  match goal with Hs : service_search _ _ = _ |- _ =>
    apply search_ok_inv in Hs as (es & Hes & Hpage); [|done] end.
  exists es, (page_entries page). split; [done|]. split; [by rewrite Hpage|]. clear es Hes Hpage.
  set (applies := foldl note_apply ∅ (page_entries page)).
  destruct (population_spec s) as (Hasc & Hpos & Hget).
  destruct (all_generations_spec (population s) applies Hasc) as [Hsort Hel].
  assert (∀ g, is_Some (applies !! g) ↔ (0 < rows_where (applied_at g) (page_entries page))%Z) as Hap.
  { intros g. pose proof (applies_spec g (page_entries page)) as Ha. fold applies in Ha.
    unfold rows_where. destruct (applies !! g) as [a|]; simpl in Ha.
    - destruct Ha as (_ & Hin & _). split; [intros _|by eauto].
      destruct (List.filter _ _); [by apply not_elem_of_nil in Hin|]. simpl. lia.
    - apply fmap_nil_inv in Ha. rewrite Ha. simpl. split; [by intros []|lia]. }
  simpl. split_and!.
  - by apply sorted_fmap.
  - intros g. rewrite <-list_fmap_compose, <-Hap, <-Hget. unfold compose. simpl.
    rewrite list_fmap_id, Hel. apply or_iff_compat_r. rewrite list_elem_of_fmap. split.
    + intros ([g' c] & -> & Hin). apply get_count_elem in Hin as [<- ?]; done.
    + intros Hp. exists (g, get_count g (population s)). split; [done|].
      by apply get_count_elem.
  - intros x (g & -> & Hin)%list_elem_of_fmap. simpl. split; [by apply Hget|].
    pose proof (applies_spec g (page_entries page)) as Ha. fold applies in Ha.
    destruct (applies !! g) as [a|]; simpl in Ha |- *.
    + destruct Ha as (Ht & Hf & Hl & Hall). split; [done|].
      by exists (ag_first a), (ag_last a).
    + by rewrite Ha.
Qed.
End rollout.

(** ** Witnesses *)
#[local] Existing Instances toy_sha256 toy_chrono toy_serde_json toy_ssh_key toy_lowercase.
#[local] Existing Instances toy_sha256_laws toy_chrono_laws toy_serde_json_laws.

(** A machine that rolled back and then applied generation 3. *)
Definition bundle_event (ty : string) (g : Z) : NewAuditEntry :=
  with_subject "srv_1" (with_metadata (json_object [("generation", VNumber g)])
    (NewAuditEntry_new ty "agent")).

Definition rollout_base : World :=
  (append_audit_event (seconds 999990) (bundle_event "bundle.rollback" 3) machine_world).2.
Definition rollout_world : World :=
  (append_audit_event (seconds 999995) (bundle_event "bundle.applied" 3) rollout_base).2.

Lemma rollout_world_audit_ok : audit_ok (db rollout_world).
Proof.
  assert (∀ now ev w, event_ok now ev = true → audit_ok (db w) →
    audit_ok (db (append_audit_event now ev w).2)) as Hstep.
  { intros now ev w Hev Hok. destruct (append_audit_event now ev w) as [r w'] eqn:Happ.
    destruct r as [e|e]; simpl.
    - by destruct (append_entry_ok _ _ _ _ _ Hok Hev Happ) as (?&?&?&?&?).
    - by rewrite (append_entry_err _ _ _ _ _ Happ). }
  by apply Hstep, Hstep, (empty_audit_ok []).
Qed.

Definition rollout_ca : CaManager :=
  MkCaManager 4 "sha256:ab" (MkPublicBundle 4 "sha256:ab" []) (λ _, None).

Definition demo_rollout : result RolloutService RolloutError * World :=
  rollout_load (Some rollout_ca) true (seconds 1000000) rollout_world.

Lemma breakdown_partitions_witness :
  match demo_rollout.1 with
  | Ok s => bd_total (breakdown s) = 1%Z ∧ bd_failed (breakdown s) = 1%Z
  | Err _ => False
  end.
Proof.
  destruct (is_ok_run demo_rollout) as [s Hs]; [vm_compute; reflexivity|].
  assert (active_count s = 1%Z ∧ rows_where (has_category s [CAT_VERIFICATION; CAT_HELPER]) (active s)
    = 1%Z) as [Hn Hf].
  { assert (match demo_rollout.1 with
      | Ok s => (active_count s, rows_where (has_category s [CAT_VERIFICATION; CAT_HELPER]) (active s))
      | Err _ => (0, 0)%Z end = (1, 1)%Z) as Ht by (vm_compute; reflexivity).
    rewrite Hs in Ht. cbn [fst] in Ht. injection Ht as H1 H2. split; [exact H1|exact H2]. }
  rewrite Hs. cbn [fst]. unfold demo_rollout at 1 in Hs.
  destruct (breakdown_partitions (Some rollout_ca) true (seconds 1000000) rollout_world s
    demo_rollout.2 Hs) as (Hb & Ht & _).
  cbn in Hb, Ht. split; [by rewrite Ht|]. rewrite Hb. exact Hf.
Defined.

Lemma latest_failure_attributed_witness :
  match demo_rollout.1 with
  | Ok s => match rs_failures s !! "srv_1" with
            | Some rf => fl_event_type (rf_failure rf) = "bundle.rollback" ∧
                ∃ e, e ∈ rs_bundle_events s ∧ rf = recent_failure e
            | None => False
            end
  | Err _ => False
  end.
Proof.
  destruct (is_ok_run demo_rollout) as [s Hs]; [vm_compute; reflexivity|].
  assert (match demo_rollout.1 with
    | Ok s => (λ rf, fl_event_type (rf_failure rf)) <$> rs_failures s !! "srv_1"
    | Err _ => None end = Some "bundle.rollback") as Ht by (vm_compute; reflexivity).
  rewrite Hs in Ht |- *. cbn [fst] in Ht |- *. unfold demo_rollout at 1 in Hs.
  pose proof (latest_failure_attributed (Some rollout_ca) true (seconds 1000000) rollout_world s
    demo_rollout.2 "srv_1" rollout_world_audit_ok Hs) as [_ Hl].
  destruct (rs_failures s !! "srv_1") as [rf|]; [|discriminate Ht].
  split; [injection Ht as Ht; exact Ht|]. destruct Hl as (e & Hin & _ & Hrf & _).
  exists e. split; [exact Hin|exact Hrf].
Defined.

Definition demo_snapshot (views : list MachineView) : RolloutService :=
  MkRolloutService views (Some 4%Z) None true ∅ [] (seconds 1000000).

Definition demo_history : result RolloutHistory RolloutError * World :=
  rollout_history (demo_snapshot []) rollout_world.

Lemma history_exact_witness :
  match demo_history.1 with
  | Ok h => (gh_generation <$> hy_generations h) = [3%Z] ∧
      StronglySorted (λ a b, gh_generation a < gh_generation b)%Z (hy_generations h)
  | Err _ => False
  end.
Proof.
  destruct (is_ok_run demo_history) as [h Hh]; [vm_compute; reflexivity|].
  assert (match demo_history.1 with Ok h => gh_generation <$> hy_generations h | Err _ => [] end
    = [3%Z]) as Hg by (vm_compute; reflexivity).
  rewrite Hh in Hg |- *. cbn [fst] in Hg |- *. split; [exact Hg|]. unfold demo_history at 1 in Hh.
  destruct (history_exact (demo_snapshot []) rollout_world h demo_history.2
    rollout_world_audit_ok Hh) as (es & events & _ & _ & Hs & _). exact Hs.
Defined.

(** *** Behaviours worth knowing *)
Definition demo_view (h : string) (synced : Z) : MachineView :=
  {| vw_machine_id := h; vw_hostname := h; vw_status := Active; vw_liveness := Online;
     vw_os := "linux"; vw_arch := "x86_64"; vw_agent_version := "0.1.0"; vw_fingerprint := "f";
     vw_ip := None; vw_current_generation := synced; vw_synced_generation := Some synced;
     vw_latest_generation := Some 4%Z; vw_up_to_date := (4 <=? synced)%Z;
     vw_bundle_fingerprint := None; vw_last_seen := None; vw_last_sync := None;
     vw_enrolled_at := "" |}.

(** The score is cut from a percentage rounded to one digit, so it can be 100 for a rollout
    that is not complete: here one machine of two thousand is behind. *)
Example full_score_incomplete :
  let s := demo_snapshot (demo_view "web-0" 3 :: replicate 1999 (demo_view "web" 4)) in
  rh_score (rollout_health s) = 100%Z ∧ rh_status (rollout_health s) = "Degraded" ∧
  ro_remaining (rollout_status s) = 1%Z.
Proof. vm_compute. split_and!; reflexivity. Qed.

(** The last sync of a view is cut to seconds while a failure keeps its milliseconds: a
    machine that failed and then synced within one second still counts as failed. *)
Definition synced_row : MachineRow :=
  applied_row 3 "sha256:ab" (seconds 999990 + 300 * nanos_per_milli) (new_machine_row demo_machine).
Definition synced_world : World :=
  MkWorld (set_machines (λ _, [synced_row]) (db rollout_base)) [].

Example recovered_machine_still_failed :
  match (rollout_load (Some rollout_ca) true (seconds 1000000)
           (append_audit_event (seconds 999990 + 100 * nanos_per_milli)
              (bundle_event "bundle.rollback" 3) synced_world).2).1 with
  | Ok s => (mo_category <$> rollout_machines s) = [CAT_HELPER]
  | Err _ => False
  end.
Proof. vm_compute. reflexivity. Qed.
