(* ===== verification/Metrics.v ===== *)
(** * Request metrics and request identifiers
      ([src/src/ops/metrics.rs], [src/src/request_id.rs])

    The bounded in-memory collector behind [GET /api/v1/admin/metrics], and the middleware
    that gives every request its identifier. *)
From Stdlib Require Import SpecFloat.
From S2P Require Import Prelude External Machines AgentAuth BundleService.

(** ** Metrics *)
Definition MAX_ROUTES : nat := 256.
Definition OVERFLOW_KEY : string := "<other>".

(** Durations are in nanoseconds.  The counters are [u64]; 2^64 requests are out of reach. *)
Record RouteStat : Type := MkRouteStat {
  rt_count : Z;
  rt_status_2xx : Z;
  rt_status_4xx : Z;
  rt_status_5xx : Z;
  rt_total_nanos : Z;
  rt_min_nanos : Z;
  rt_max_nanos : Z;
}.
Definition RouteStat_default : RouteStat := MkRouteStat 0 0 0 0 0 0 0.

Definition u128_max : Z := 340282366920938463463374607431768211455%Z.
Definition saturating_add_u128 (a b : Z) : Z := Z.min u128_max (a + b).

Definition observe (s : RouteStat) (status nanos : Z) : RouteStat :=
  let one (lo hi : Z) : Z := if in_range lo hi status then 1%Z else 0%Z in
  let count := (rt_count s + 1)%Z in
  {| rt_count := count;
     rt_status_2xx := (rt_status_2xx s + one 200 299)%Z;
     rt_status_4xx := (rt_status_4xx s + one 400 499)%Z;
     rt_status_5xx := (rt_status_5xx s + one 500 599)%Z;
     rt_total_nanos := saturating_add_u128 (rt_total_nanos s) nanos;
     rt_min_nanos := if (count =? 1)%Z || (nanos <? rt_min_nanos s)%Z then nanos
                     else rt_min_nanos s;
     rt_max_nanos := if (rt_max_nanos s <? nanos)%Z then nanos else rt_max_nanos s |}.

(** What the mutex guards. *)
Record ApiMetrics : Type := MkApiMetrics {
  am_routes : gmap string RouteStat;
  am_total_requests : Z;
}.
Definition ApiMetrics_new : ApiMetrics := MkApiMetrics ∅ 0.

Definition route_key (m : ApiMetrics) (key : string) : string :=
  if bool_decide (is_Some (am_routes m !! key)) || bool_decide (size (am_routes m) < MAX_ROUTES)
  then key else OVERFLOW_KEY.

Definition record (m : ApiMetrics) (key : string) (status latency : Z) : ApiMetrics :=
  let k := route_key m key in
  {| am_routes :=
       <[k := observe (default RouteStat_default (am_routes m !! k)) status latency]> (am_routes m);
     am_total_requests := (am_total_requests m + 1)%Z |}.

Record RouteMetric : Type := MkRouteMetric {
  rm_route : string;
  rm_count : Z;
  rm_status_2xx : Z;
  rm_status_4xx : Z;
  rm_status_5xx : Z;
  rm_avg_ms : spec_float;
  rm_min_ms : spec_float;
  rm_max_ms : spec_float;
}.

Record ApiMetricsSnapshot : Type := MkSnapshot {
  sn_total_requests : Z;
  sn_routes : list RouteMetric;
}.

Definition nanos_to_ms (x : spec_float) : spec_float := f64_div x (f64_of_Z 1000000).

Definition route_metric (route : string) (s : RouteStat) : RouteMetric :=
  {| rm_route := route;
     rm_count := rt_count s;
     rm_status_2xx := rt_status_2xx s;
     rm_status_4xx := rt_status_4xx s;
     rm_status_5xx := rt_status_5xx s;
     rm_avg_ms := if (rt_count s =? 0)%Z then f64_of_Z 0
                  else nanos_to_ms (f64_div (f64_of_Z (rt_total_nanos s)) (f64_of_Z (rt_count s)));
     rm_min_ms := nanos_to_ms (f64_of_Z (rt_min_nanos s));
     rm_max_ms := nanos_to_ms (f64_of_Z (rt_max_nanos s)) |}.

(** The [BTreeMap] iterates in the order of its keys. *)
Definition snapshot (m : ApiMetrics) : ApiMetricsSnapshot :=
  MkSnapshot (am_total_requests m)
    ((λ kv, route_metric kv.1 kv.2) <$>
       sort_by (λ a b, str_leb a.1 b.1) (map_to_list (am_routes m))).

(** The middleware: [matched] is the route template, if any. *)
Definition record_metrics (m : ApiMetrics) (method path : string) (matched : option string)
    (status latency : Z) : ApiMetrics :=
  record m (method +:+ " " +:+ default path matched) status latency.

(** ** Request identifiers *)
Definition REQUEST_ID_HEADER : string := "x-request-id".
Definition MAX_REQUEST_ID_LEN : Z := 128.

Definition is_acceptable_id (candidate : string) : bool :=
  negb (str_is_empty candidate) && (str_len candidate <=? MAX_REQUEST_ID_LEN)%Z &&
  str_all (λ b, is_ascii_alphanumeric b || bool_decide (b = "-"%char)) candidate.

Definition upstream_request_id (headers : list (string * string)) : option string :=
  candidate ← header_get REQUEST_ID_HEADER headers ≫= header_to_str;
  if is_acceptable_id candidate then Some candidate else None.

(** The fields of the request span. *)
Record RequestSpan : Type := MkRequestSpan {
  sp_request_id : string;
  sp_upstream_request_id : string;
}.

(** [HeaderMap::insert] replaces what is there. *)
Definition header_insert (name value : string) (headers : list (string * string))
  : list (string * string) :=
  List.filter (λ h, negb (bool_decide (h.1 = name))) headers ++ [(name, value)].

(** [HeaderValue::from_str]: visible ASCII, space or tab. *)
Definition header_value_ok (s : string) : bool :=
  str_all (λ c, in_range 32 126 (byte_code c) || bool_decide (byte_code c = 9%Z)) s.

(** [uuid] is the fresh identifier; [next] the rest of the stack, given the extension and
    answering with the headers of its response. *)
Definition propagate_request_id (uuid : string) (headers : list (string * string))
    (next : string → list (string * string)) : RequestSpan * list (string * string) :=
  let upstream := upstream_request_id headers in
  let span := MkRequestSpan uuid (default "none" upstream) in
  let response := next uuid in
  (span, if header_value_ok uuid then header_insert REQUEST_ID_HEADER uuid response
         else response).

(** ** Lemmas *)
Definition stat_ok (s : RouteStat) : Prop :=
  (0 <= rt_count s)%Z ∧ (0 <= rt_status_2xx s)%Z ∧ (0 <= rt_status_4xx s)%Z ∧
  (0 <= rt_status_5xx s)%Z ∧
  (rt_status_2xx s + rt_status_4xx s + rt_status_5xx s <= rt_count s)%Z ∧
  (0 <= rt_min_nanos s <= rt_max_nanos s)%Z ∧
  (rt_count s * rt_min_nanos s <= rt_total_nanos s ∨ rt_total_nanos s = u128_max)%Z ∧
  (rt_total_nanos s <= rt_count s * rt_max_nanos s)%Z ∧ (0 <= rt_total_nanos s <= u128_max)%Z.

Lemma default_ok : stat_ok RouteStat_default.
Proof. unfold stat_ok. simpl. unfold u128_max. lia. Qed.

Lemma observe_ok s status nanos : stat_ok s → (0 <= nanos)%Z → stat_ok (observe s status nanos).
Proof.
  unfold stat_ok, observe, saturating_add_u128. intros (?&?&?&?&?&?&?&?&?) Hn. simpl.
  assert ((if in_range 200 299 status then 1 else 0) + (if in_range 400 499 status then 1 else 0) +
    (if in_range 500 599 status then 1 else 0) <= 1)%Z.
  { unfold in_range. repeat case_match; lia. }
  assert (0 < u128_max)%Z by done.
  split_and!; try (repeat case_match; lia).
  all: destruct (Z.eqb_spec (rt_count s + 1) 1); simpl;
    destruct (Z.ltb_spec nanos (rt_min_nanos s)), (Z.ltb_spec (rt_max_nanos s) nanos); simpl; nia.
Qed.

(** The number of requests the routes account for. *)
Definition observed (m : ApiMetrics) : Z :=
  map_fold (λ _ s n, (rt_count s + n)%Z) 0%Z (am_routes m).

Lemma observed_insert (routes : gmap string RouteStat) k s :
  map_fold (λ _ s n, (rt_count s + n)%Z) 0%Z (<[k := s]> routes) =
    (rt_count s - rt_count (default RouteStat_default (routes !! k)) +
     map_fold (λ _ s n, (rt_count s + n)%Z) 0%Z routes)%Z.
Proof.
  assert (∀ m : gmap string RouteStat, m !! k = None →
    map_fold (λ _ s n, (rt_count s + n)%Z) 0%Z (<[k := s]> m) =
    (rt_count s + map_fold (λ _ s n, (rt_count s + n)%Z) 0%Z m)%Z) as Hfresh.
  { intros m Hm. rewrite map_fold_insert_L; [done|intros; lia|done]. }
  destruct (routes !! k) as [s0|] eqn:Hk; simpl; [|rewrite Hfresh by done; lia].
  rewrite <-(insert_delete_eq routes k s), Hfresh by apply lookup_delete_eq.
  rewrite <-(insert_delete_id routes k s0 Hk) at 2.
  rewrite map_fold_insert_L; [lia|intros; lia|apply lookup_delete_eq].
Qed.

(** A run of the collector. *)
Definition run (events : list (string * (Z * Z))) : ApiMetrics :=
  foldl (λ m e, record m e.1 e.2.1 e.2.2) ApiMetrics_new events.

Definition metrics_ok (m : ApiMetrics) : Prop :=
  size (am_routes m) <= S MAX_ROUTES ∧ observed m = am_total_requests m ∧
  map_Forall (λ _ s, stat_ok s ∧ (1 <= rt_count s)%Z) (am_routes m) ∧
  (size (am_routes m) = S MAX_ROUTES → is_Some (am_routes m !! OVERFLOW_KEY)).

Lemma record_ok m key status latency :
  metrics_ok m → (0 <= latency)%Z → metrics_ok (record m key status latency).
Proof.
  intros (Hsize & Hsum & Hall & Hover) Hl. unfold record, metrics_ok.
  set (k := route_key m key). set (s0 := default RouteStat_default (am_routes m !! k)).
  assert (stat_ok s0) as Hs0.
  { unfold s0. destruct (am_routes m !! k) as [s|] eqn:Hk; [|apply default_ok].
    by apply (Hall k s Hk). }
  simpl. split_and!.
  - destruct (am_routes m !! k) as [s|] eqn:Hk; [by rewrite map_size_insert_Some by eauto|].
    rewrite map_size_insert_None by done. unfold k, route_key in Hk.
    destruct (decide (size (am_routes m) < MAX_ROUTES)) as [|Hn]; [lia|].
    rewrite (bool_decide_false (size _ < _)), orb_false_r in Hk by done.
    case_bool_decide as Hkey; [by rewrite Hk in Hkey; destruct Hkey|].
    destruct (decide (size (am_routes m) = S MAX_ROUTES)) as [He|]; [|lia].
    destruct (Hover He) as [s Hs]. congruence.
  - unfold observed in *. simpl. rewrite observed_insert. fold s0.
    assert (rt_count (observe s0 status latency) = rt_count s0 + 1)%Z as -> by done. lia.
  - apply map_Forall_insert_2; [|done]. split; [by apply observe_ok|].
    simpl. destruct Hs0. lia.
  - intros Hsz. destruct (decide (k = OVERFLOW_KEY)) as [->|Hne]; [by rewrite lookup_insert_eq|].
    rewrite lookup_insert_ne by done. apply Hover.
    destruct (am_routes m !! k) as [s|] eqn:Hk; [by rewrite map_size_insert_Some in Hsz by eauto|].
    rewrite map_size_insert_None in Hsz by done. exfalso. unfold k, route_key in Hne, Hk.
    rewrite (bool_decide_false (size _ < _)), orb_false_r in Hne, Hk by lia.
    case_bool_decide as Hkey; [by rewrite Hk in Hkey; destruct Hkey|done].
Qed.

(** ** Theorems *)


(** The identifier of a request is the server's.  Whatever the client sends and the
    handlers answer, the handlers see the fresh identifier, the span carries it and the
    response has it as its only [x-request-id]; of the client's value the span records at
    most 128 letters, digits and dashes. *)
Theorem request_id_server_owned uuid headers next :
  header_value_ok uuid = true →
  let '(span, response) := propagate_request_id uuid headers next in
  sp_request_id span = uuid ∧
  (∀ v, (REQUEST_ID_HEADER, v) ∈ response ↔ v = uuid) ∧
  (sp_upstream_request_id span = "none" ∨
   (str_len (sp_upstream_request_id span) <= 128)%Z ∧
   str_all (λ b, is_ascii_alphanumeric b || bool_decide (b = "-"%char))
     (sp_upstream_request_id span) = true).
Proof.
  intros Hu. unfold propagate_request_id. rewrite Hu. split_and!; [done| |].
  - intros v. unfold header_insert. rewrite elem_of_app, list_elem_of_singleton.
    split; [|intros ->; by right]. intros [Hin|Heq]; [|by injection Heq].
    apply list_elem_of_In, filter_In in Hin as [_ Hn]. by rewrite bool_decide_true in Hn.
  - simpl. destruct (upstream_request_id headers) as [u|] eqn:Hup; [right|by left].
    unfold upstream_request_id in Hup. simpl.
    destruct (_ ≫= header_to_str) as [c|]; [|done]. simpl in Hup.
    destruct (is_acceptable_id c) eqn:Hc; [|done]. simplify_eq.
    unfold is_acceptable_id in Hc. apply andb_true_iff in Hc as [[_ Hl]%andb_true_iff Hall].
    by rewrite Z.leb_le in Hl.
Qed.


Lemma request_id_server_owned_witness :
  let r := propagate_request_id "018f-77" [("x-request-id", "trace-1")]
             (λ _, [("x-request-id", "forged")]) in
  r.1 = MkRequestSpan "018f-77" "trace-1" ∧ (REQUEST_ID_HEADER, "018f-77") ∈ r.2.
Proof.
  split; [vm_compute; reflexivity|].
  destruct (request_id_server_owned "018f-77" [("x-request-id", "trace-1")]
    (λ _, [("x-request-id", "forged")]) eq_refl) as (_ & Hv & _).
  by apply Hv.
Defined.
