(* ===== verification/TestsFleet.v ===== *)
(** * The unit tests of the rollout, of the metrics and of the request context, run on the
      definitions ([src/src/rollout/service.rs], [src/src/ops/metrics.rs],
      [src/src/audit/context.rs], the [tests] modules) *)
From Stdlib Require Import SpecFloat.
From S2P Require Import Prelude External Errors Database Toy Testing AuditChain AuditRepo AuditSearch Machines Registry MachineAdmin ClientContext Repository Bundle BundleService Rollout Metrics TestsMachines.

#[local] Existing Instances toy_sha256 toy_serde_json toy_ssh_key toy_lowercase fixed_chrono.

(** ** [rollout/service.rs] *)

(** The tests' own [UPDATE machines SET .. WHERE machine_id = ..]. *)
Definition update_row (i : string) (f : MachineRow → MachineRow) : test :=
  expect "update" (execute (λ d, Ok (tt, set_machines
    (fmap (λ r, if bool_decide (mr_machine_id r = i) then f r else r)) d))).

Definition set_sync (generation : Z) (last_sync : string) (r : MachineRow) : MachineRow :=
  MkMachineRow (mr_machine_id r) (mr_hostname r) (mr_public_key r) (mr_os r) (mr_arch r)
    (mr_agent_version r) (mr_status r) (mr_ip r) (mr_current_generation r) (Some generation)
    (mr_bundle_fingerprint r) (Some last_sync) (mr_last_seen r) (mr_enrolled_at r)
    (mr_created_at r) (mr_updated_at r).
Definition set_seen (last_seen : string) (r : MachineRow) : MachineRow :=
  MkMachineRow (mr_machine_id r) (mr_hostname r) (mr_public_key r) (mr_os r) (mr_arch r)
    (mr_agent_version r) (mr_status r) (mr_ip r) (mr_current_generation r) (mr_synced_generation r)
    (mr_bundle_fingerprint r) (mr_last_sync r) (Some last_seen) (mr_enrolled_at r)
    (mr_created_at r) (mr_updated_at r).

(** [a] is synced and online, [b] behind and online, [c] behind and offline, [d] disabled
    and behind. *)
Definition fixture : test :=
  _ ← for_each [("a", Active); ("b", Active); ("c", Active); ("d", Disabled)] (λ m,
        _ ← expect "insert" (machine_insert (new_machine m.1 m.2)); ret tt);
  _ ← for_each [("srv_a", 3%Z); ("srv_b", 2%Z); ("srv_c", 2%Z); ("srv_d", 1%Z)] (λ m,
        _ ← expect "hb"
              (update_last_seen (MkHeartbeatUpdate m.1 (at_ 0) "0.1.0" (Some "10.0.0.1") m.2));
        update_row m.1 (set_sync m.2 (to_rfc3339 (at_ 0))));
  update_row "srv_c" (set_seen (to_rfc3339 (at_ (-100000)))).

(** A CA manager after three generations; what else it holds the tests do not read. *)
Definition third_generation : CaManager :=
  MkCaManager 3 "sha256:ab" (MkPublicBundle 3 "sha256:ab" []) (λ _, None).

Definition loaded_service : M World string RolloutService :=
  _ ← fixture;
  expect "load" (rollout_load (Some third_generation) true (at_ 0)).

Definition status_counts_active_completion : test :=
  svc ← loaded_service;
  let s := rollout_status svc in
  _ ← assert "latest" (bool_decide (ro_latest_generation s = Some 3%Z));
  _ ← assert "total" (bool_decide (ro_total_machines s = 4%Z));
  _ ← assert "active" (bool_decide (ro_active_machines s = 3%Z));
  _ ← assert "completed" (bool_decide (ro_completed s = 1%Z));
  _ ← assert "remaining" (bool_decide (ro_remaining s = 2%Z));
  assert "percentage" (SFeqb (ro_percentage s) (f64_div (f64_of_Z 333) (f64_of_Z 10))).

Definition breakdown_buckets_are_exclusive_and_sum_to_active : test :=
  svc ← loaded_service;
  let b := breakdown svc in
  _ ← assert "healthy" (bool_decide (bd_healthy b = 1%Z));
  _ ← assert "pending" (bool_decide (bd_pending b = 1%Z));
  _ ← assert "offline" (bool_decide (bd_offline b = 1%Z));
  assert "sum" (bool_decide
    ((bd_healthy b + bd_stale b + bd_offline b + bd_failed b + bd_pending b)%Z = 3%Z)).

Definition health_is_degraded_when_reachable_machines_lag : test :=
  svc ← loaded_service;
  let h := rollout_health svc in
  _ ← assert "degraded" (bool_decide (rh_status h = HEALTH_DEGRADED));
  assert "reasons" (negb (bool_decide (length (rh_reasons h) = 0))).

Definition explain_categorizes_lagging_machines : test :=
  svc ← loaded_service;
  let e := rollout_explain svc in
  _ ← assert "incomplete" (negb (xp_complete e));
  let cats := xc_category <$> xp_categories e in
  _ ← assert "offline" (bool_decide (CAT_OFFLINE ∈ cats));
  _ ← assert "mismatch" (bool_decide (CAT_MISMATCH ∈ cats));
  assert "disabled" (bool_decide (CAT_DISABLED ∈ cats)).

Definition stuck_includes_offline_and_disabled_not_online_mismatch : test :=
  svc ← loaded_service;
  let hosts := sk_hostname <$> sr_stuck (rollout_stuck svc) in
  _ ← assert "c" (bool_decide ("host-c" ∈ hosts));
  _ ← assert "d" (bool_decide ("host-d" ∈ hosts));
  assert "b" (bool_decide ("host-b" ∉ hosts)).

Definition generations_breakdown_is_ascending_with_latest_flag : test :=
  svc ← loaded_service;
  let g := rollout_generations svc in
  _ ← assert "first" (bool_decide ((gd_generation <$> head g) = Some 1%Z));
  assert "latest" (bool_decide ((gd_generation <$> List.find gd_is_latest g) = Some 3%Z)).

Definition machines_filter_by_state_and_generation : test :=
  svc ← loaded_service;
  _ ← assert "current" (bool_decide (length (machines_filtered svc "current" None) = 1));
  _ ← assert "stuck" (bool_decide (length (machines_filtered svc "stuck" None) = 2));
  assert "all" (bool_decide (length (machines_filtered svc "all" (Some 2%Z)) = 2)).

Theorem rollout_tests_pass :
  forallb test_passes
    [status_counts_active_completion; breakdown_buckets_are_exclusive_and_sum_to_active;
     health_is_degraded_when_reachable_machines_lag; explain_categorizes_lagging_machines;
     stuck_includes_offline_and_disabled_not_online_mismatch;
     generations_breakdown_is_ascending_with_latest_flag;
     machines_filter_by_state_and_generation] = true.
Proof. vm_compute. reflexivity. Qed.

(** ** [ops/metrics.rs] *)
Definition millis (n : Z) : Z := (n * nanos_per_milli)%Z.

(** [(x - expected).abs() < 0.001]. *)
Definition close_to (x : spec_float) (expected : Z) : bool :=
  SFltb (SFabs (SFsub 53 1024 x (f64_of_Z expected))) (f64_div (f64_of_Z 1) (f64_of_Z 1000)).

Definition records_counts_and_latency : bool :=
  let m := record ApiMetrics_new "GET /x" 200 (millis 10) in
  let m := record m "GET /x" 500 (millis 30) in
  let snap := snapshot m in
  (sn_total_requests snap =? 2)%Z &&
  match sn_routes snap with
  | [r] =>
      (rm_count r =? 2)%Z && (rm_status_2xx r =? 1)%Z && (rm_status_5xx r =? 1)%Z &&
      close_to (rm_avg_ms r) 20 && close_to (rm_min_ms r) 10 && close_to (rm_max_ms r) 30
  | _ => false
  end.

Definition bounds_distinct_routes : bool :=
  let requests := MAX_ROUTES + 50 in
  let m := foldl (λ m i, record m ("GET /p/" +:+ display_int (Z.of_nat i)) 200 (millis 1))
             ApiMetrics_new (seq 0 requests) in
  let snap := snapshot m in
  (length (sn_routes snap) <=? MAX_ROUTES + 1)%nat &&
  existsb (λ r, bool_decide (rm_route r = OVERFLOW_KEY)) (sn_routes snap) &&
  bool_decide (sn_total_requests snap = Z.of_nat requests).

Theorem metrics_tests_pass : records_counts_and_latency && bounds_distinct_routes = true.
Proof. vm_compute. reflexivity. Qed.

(** ** [audit/context.rs] *)
Definition context_now : Z := seconds 1782820800.

Definition extracts_known_headers : bool :=
  let ctx := from_headers
    [(HEADER_CLIENT_VERSION, "1.2.3"); (HEADER_PLATFORM, "darwin"); (HEADER_ARCH, "arm64");
     (HEADER_SESSION_ID, "sess-1"); (HEADER_CI, "true"); ("user-agent", "mayfly-cli/1.2.3")]
    (Some "req-1") context_now in
  bool_decide (rc_cli_version ctx = Some "1.2.3") && bool_decide (rc_platform ctx = Some "darwin") &&
  bool_decide (rc_arch ctx = Some "arm64") && bool_decide (rc_session_id ctx = Some "sess-1") &&
  bool_decide (rc_request_id ctx = Some "req-1") && bool_decide (rc_ci ctx = Some true) &&
  bool_decide (rc_user_agent ctx = Some "mayfly-cli/1.2.3").

(** The client's clock is two seconds behind, in [chrono]'s rendering. *)
Definition computes_clock_drift : bool :=
  let client := to_rfc3339_secs (context_now - seconds 2) in
  bool_decide (rc_clock_drift_ms (from_headers [(HEADER_CLIENT_TIME, client)] None context_now)
    = Some 2000%Z).

Definition sanitizes_control_characters : bool :=
  let value := "host" +:+ String (byte_of 9) "name" in
  bool_decide (rc_hostname (from_headers [(HEADER_HOSTNAME, value)] None context_now)
    = Some "hostname").

Definition remote_ip_prefers_real_ip : bool :=
  bool_decide (rc_remote_ip (from_headers
    [("x-forwarded-for", "1.1.1.1, 2.2.2.2"); ("x-real-ip", "3.3.3.3")] None context_now)
    = Some "3.3.3.3").

Definition to_value_omits_none_fields : bool :=
  let value := to_value (from_headers [] None context_now) in
  match value_get "session_id" value, value_get "server_timestamp" value with
  | None, Some _ => true
  | _, _ => false
  end.

Theorem context_tests_pass :
  extracts_known_headers && computes_clock_drift && sanitizes_control_characters &&
  remote_ip_prefers_real_ip && to_value_omits_none_fields = true.
Proof. vm_compute. reflexivity. Qed.
