(* ===== verification/AdminRoutes.v ===== *)
(** * Operator routes
      ([src/src/routes/admin_machines.rs], [servers.rs], [machines.rs], and the
      token endpoint of [admin.rs])

    Every route authenticates a bearer token, authorizes the identity behind it and
    records denials; mutations call the modelled services and are audited. *)
From S2P Require Import Prelude External Errors Database AuditChain AuditRepo Machines Enrollment.
From S2P Require Import AgentAuth Registry MachineAdmin ClientContext Authz Providers.
From S2P Require Import Certificates Bundle Toy.

Definition REENROLL_TOKEN_TTL_SECONDS : Z := 3600.
Definition DEFAULT_ENROLLMENT_TOKEN_TTL_SECONDS : Z := 3600.
Definition MIN_ENROLLMENT_TOKEN_TTL_SECONDS : Z := 60.
Definition MAX_ENROLLMENT_TOKEN_TTL_SECONDS : Z := 86400.

(** What these routes ask of the CA manager. *)
Record CaFacts : Type := MkCaFacts {
  cf_generation : Z;
  cf_primary_public_key : result string CaError;
}.

(** The parts of the shared state that the routes read. *)
Record AppState : Type := MkAppState {
  st_providers : ProviderRegistry;
  st_access : AccessConfig;
  st_ca : option CaFacts;
}.

(** One request: its headers and identifier, and the readings of the clock the
    handler takes: for its own use, for a token, for the context, for the log. *)
Record Call : Type := MkCall {
  cl_headers : list (string * string);
  cl_request_id : string;
  cl_now : Z;
  cl_token_now : Z;
  cl_context_now : Z;
  cl_audit_now : Z;
}.

(** ** Listing and its query *)
Record MachineListQuery : Type := MkMachineListQuery {
  mq_status : option string;
  mq_liveness : option string;
  mq_hostname : option string;
  mq_generation : option Z;
  mq_os : option string;
  mq_arch : option string;
  mq_agent_version : option string;
}.

Definition non_empty (value : option string) : option string :=
  s ← trim <$> value; if str_is_empty s then None else Some s.

Definition parse_opt {T} (value : option string) (parse : string → result T ApiError)
  : result (option T) ApiError :=
  match non_empty value with
  | None => Ok None
  | Some v => map_ok Some (parse v)
  end.

Definition parse_liveness `{ToLowercase} (value : string) : option LivenessStatus :=
  match to_lowercase value with
  | "online" => Some Online
  | "stale" => Some Stale
  | "offline" => Some Offline
  | _ => None
  end.

Definition into_filter `{ToLowercase} (q : MachineListQuery) : result MachineFilter ApiError :=
  let? status := parse_opt (mq_status q) (λ v,
    ok_or (BadRequest ("unknown status '" +:+ v +:+ "'"))
      (MachineStatus_from_db_str (to_lowercase v))) in
  let? liveness := parse_opt (mq_liveness q) (λ v,
    ok_or (BadRequest ("unknown liveness '" +:+ v +:+ "'")) (parse_liveness v)) in
  Ok (MkMachineFilter status liveness (non_empty (mq_hostname q)) (mq_generation q)
        (non_empty (mq_os q)) (non_empty (mq_arch q)) (non_empty (mq_agent_version q))).

Definition latest_generation (st : AppState) : option Z := cf_generation <$> st_ca st.

(** ** Authorization and audit *)
Section admin_routes.
Context `{Sha256, HexEncode, Chrono, SerdeJson, SshKey, ToLowercase, DebugStrings}.

Definition admin_denied_event (identity : Identity) (action reason : string) : NewAuditEntry :=
  with_metadata (json_object [("reason", VString reason)])
    (with_subject action (NewAuditEntry_new "machine.admin_denied" (id_username identity))).

Definition authorize_admin (st : AppState) (c : Call) (action : string)
  : M World ApiError Identity :=
  token ← lift (BearerToken_from_request (cl_headers c));
  identity ← lift (resolve_identity (st_providers st) (st_access st) None token);
  match authorize (st_access st) identity with
  | Deny reason =>
      _ ← with_err ApiError_of_audit (append_audit_event (cl_audit_now c)
            (admin_denied_event identity action reason));
      throw (ApiError_of_authz (Denied reason))
  | Allow => ret identity
  end.

Definition client_context (identity : Identity) (c : Call) : Value :=
  to_value (with_provider (id_provider identity)
              (from_headers (cl_headers c) (Some (cl_request_id c)) (cl_context_now c))).

(** [extra] is merged into the metadata. *)
Definition machine_event (identity : Identity) (c : Call) (action : string) (machine : Machine)
    (extra : list (string * Value)) : NewAuditEntry :=
  with_metadata (json_object ([("hostname", VString (hostname machine));
                               ("status", VString (MachineStatus_as_str (status machine)));
                               ("agent_version", VString (agent_version machine));
                               ("provider", VString (id_provider identity));
                               ("subject", VString (id_subject identity));
                               ("client", client_context identity c)] ++ extra))
    (with_subject (machine_id machine) (NewAuditEntry_new action (id_username identity))).

Definition audit_machine (identity : Identity) (c : Call) (action : string) (machine : Machine)
    (extra : list (string * Value)) : M World ApiError unit :=
  _ ← with_err ApiError_of_audit (append_audit_event (cl_audit_now c)
        (machine_event identity c action machine extra));
  ret tt.

(** ** The routes *)
Definition list_machines (st : AppState) (c : Call) (q : MachineListQuery)
  : M World ApiError (list MachineView) :=
  _ ← authorize_admin st c "machine.list";
  f ← lift (into_filter q);
  with_err ApiError_of_sqlx (admin_list (cl_now c) (latest_generation st) f).

Definition get_machine (st : AppState) (c : Call) (i : string) : M World ApiError MachineView :=
  _ ← authorize_admin st c "machine.get";
  found ← with_err ApiError_of_sqlx (admin_get (cl_now c) (latest_generation st) i);
  lift (ok_or (NotFound ("machine '" +:+ i +:+ "' was not found")) found).

Definition set_lifecycle (st : AppState) (c : Call) (i : string) (target : MachineStatus)
    (action : string) : M World ApiError MachineView :=
  identity ← authorize_admin st c action;
  machine ← with_err ApiError_of_admin (set_status i target (cl_now c));
  _ ← audit_machine identity c action machine [];
  ret (from_machine machine (cl_now c) (latest_generation st)).

Definition approve (st : AppState) (c : Call) (i : string) : M World ApiError MachineView :=
  set_lifecycle st c i Active "machine.approved".
Definition disable (st : AppState) (c : Call) (i : string) : M World ApiError MachineView :=
  set_lifecycle st c i Disabled "machine.disabled".
Definition enable (st : AppState) (c : Call) (i : string) : M World ApiError MachineView :=
  set_lifecycle st c i Active "machine.enabled".
Definition revoke (st : AppState) (c : Call) (i : string) : M World ApiError MachineView :=
  set_lifecycle st c i Revoked "machine.revoked".

Record DeleteMachineResponse : Type := MkDeleteMachineResponse {
  dm_deleted : bool;
  dm_machine_id : string;
  dm_hostname : string;
}.

Definition delete_machine (st : AppState) (c : Call) (i : string)
  : M World ApiError DeleteMachineResponse :=
  identity ← authorize_admin st c "machine.delete";
  machine ← with_err ApiError_of_admin (admin_delete i);
  _ ← audit_machine identity c "machine.deleted" machine [];
  ret (MkDeleteMachineResponse true (machine_id machine) (hostname machine)).

Record MintEnrollmentTokenResponse : Type := MkMintResponse {
  mt_token : string;
  mt_id : string;
  mt_expires_at : string;
  mt_single_use : bool;
}.

Definition mint_response (issued : IssuedEnrollmentToken) : MintEnrollmentTokenResponse :=
  let r := it_record issued in
  MkMintResponse (it_plaintext issued) (et_id r) (to_rfc3339 (et_expires_at r)) (et_single_use r).

(** [ApiError::internal(anyhow::Error::new(err))] of an enrollment or a CA error. *)
Definition EnrollmentError_display (e : EnrollmentError) : string :=
  match e with
  | TokenInvalid => "enrollment token is invalid"
  | TokenExpired => "enrollment token has expired"
  | TokenAlreadyUsed => "enrollment token has already been used"
  | InvalidRequest m => m
  | PublicKeyInvalid => "public key is invalid"
  | HostAlreadyEnrolled => "a machine with this hostname is already enrolled"
  | PublicKeyAlreadyExists => "a machine with this public key is already enrolled"
  | EnrollmentInternal _ => "internal server error"
  end.
Definition internal_enrollment (e : EnrollmentError) : ApiError :=
  Internal (CauseMessage (EnrollmentError_display e)).
Definition internal_ca (e : CaError) : ApiError := Internal (CauseMessage (CaError_display e)).

Definition require_ca_facts (st : AppState) : result CaFacts ApiError :=
  ok_or (Internal (CauseMessage "certificate authority is not configured")) (st_ca st).

(** [random] and [uuid] are what the token service draws. *)
Definition reissue_identity (st : AppState) (c : Call) (random uuid i action : string)
  : M World ApiError MintEnrollmentTokenResponse :=
  identity ← authorize_admin st c action;
  ca ← lift (require_ca_facts st);
  _ ← lift (map_err internal_ca (cf_primary_public_key ca));
  old ← with_err ApiError_of_admin (admin_delete i);
  issued ← with_err internal_enrollment (create_enrollment_token random uuid (cl_token_now c)
             (id_username identity) (seconds REENROLL_TOKEN_TTL_SECONDS) true);
  _ ← audit_machine identity c action old
        [("enrollment_token_id", VString (et_id (it_record issued)));
         ("token_expires_at", VString (to_rfc3339 (et_expires_at (it_record issued))))];
  ret (mint_response issued).

Definition reenroll (st : AppState) (c : Call) (random uuid i : string)
  : M World ApiError MintEnrollmentTokenResponse :=
  reissue_identity st c random uuid i "machine.reenroll_requested".
Definition rotate_identity (st : AppState) (c : Call) (random uuid i : string)
  : M World ApiError MintEnrollmentTokenResponse :=
  reissue_identity st c random uuid i "machine.identity_rotation_requested".

(** *** Minting ([admin.rs]) *)
Definition ca_denied_event (identity : Identity) (c : Call) (action reason : string)
  : NewAuditEntry :=
  with_metadata (json_object [("reason", VString reason);
                              ("provider", VString (id_provider identity));
                              ("subject", VString (id_subject identity));
                              ("client", client_context identity c)])
    (with_subject action (NewAuditEntry_new "ca.admin_denied" (id_username identity))).

(** The [authorize_admin] of [admin.rs], whose denials carry the client context. *)
Definition ca_authorize_admin (st : AppState) (c : Call) (action : string)
  : M World ApiError Identity :=
  token ← lift (BearerToken_from_request (cl_headers c));
  identity ← lift (resolve_identity (st_providers st) (st_access st) None token);
  match authorize (st_access st) identity with
  | Deny reason =>
      _ ← with_err ApiError_of_audit (append_audit_event (cl_audit_now c)
            (ca_denied_event identity c action reason));
      throw (ApiError_of_authz (Denied reason))
  | Allow => ret identity
  end.

Definition clamp_enrollment_token_ttl (requested : Z) : Z :=
  if (requested =? 0)%Z then DEFAULT_ENROLLMENT_TOKEN_TTL_SECONDS
  else Z.min (Z.max requested MIN_ENROLLMENT_TOKEN_TTL_SECONDS) MAX_ENROLLMENT_TOKEN_TTL_SECONDS.

Record MintEnrollmentTokenRequest : Type := MkMintRequest {
  mr_ttl_seconds : Z;
  mr_mint_single_use : bool;
}.
Definition MintEnrollmentTokenRequest_default : MintEnrollmentTokenRequest := MkMintRequest 0 true.

Definition minted_event (identity : Identity) (c : Call) (issued : IssuedEnrollmentToken)
    (ttl_seconds : Z) : NewAuditEntry :=
  let r := it_record issued in
  with_metadata (json_object [("expires_at", VString (to_rfc3339 (et_expires_at r)));
                              ("single_use", VBool (et_single_use r));
                              ("ttl_seconds", VNumber ttl_seconds);
                              ("client", client_context identity c)])
    (with_subject (et_id r)
       (NewAuditEntry_new "machine.enrollment_token.minted" (id_username identity))).

Definition mint_enrollment_token (st : AppState) (c : Call) (random uuid : string)
    (request : option MintEnrollmentTokenRequest) : M World ApiError MintEnrollmentTokenResponse :=
  identity ← ca_authorize_admin st c "machine.enrollment_token.mint";
  ca ← lift (require_ca_facts st);
  _ ← lift (map_err internal_ca (cf_primary_public_key ca));
  let request := default MintEnrollmentTokenRequest_default request in
  let ttl_seconds := clamp_enrollment_token_ttl (mr_ttl_seconds request) in
  issued ← with_err internal_enrollment (create_enrollment_token random uuid (cl_token_now c)
             (id_username identity) (seconds ttl_seconds) (mr_mint_single_use request));
  _ ← with_err ApiError_of_audit (append_audit_event (cl_audit_now c)
        (minted_event identity c issued ttl_seconds));
  ret (mint_response issued).

(** *** The enrollment endpoint ([routes/machines.rs]) and the listing ([servers.rs]) *)
Record PollConfig : Type := MkPollConfig {
  pl_sync_interval_seconds : Z;
  pl_jitter_percent : Z;
}.

Definition enroll_route `{Base64} (st : AppState) (cfg : PollConfig) (next_index : Z → Z)
    (signer : option BundleSigner) (uuid : string) (now audit_now : Z) (request : EnrollRequest)
  : M World EnrollmentError EnrollResponse :=
  ca ← lift (ok_or (EnrollmentInternal (CauseMessage "certificate authority is not configured"))
               (st_ca st));
  server_identity ← lift (map_err (λ e, EnrollmentInternal (CauseMessage (CaError_display e)))
                            (cf_primary_public_key ca));
  let sync_interval := with_jitter (pl_sync_interval_seconds cfg) (pl_jitter_percent cfg)
                         next_index in
  let bundle_signing_key := public_key_openssh <$> signer in
  let service := with_bundle_signing_key bundle_signing_key
                   (with_sync_interval sync_interval (EnrollmentService_sqlite server_identity)) in
  enroll service uuid now audit_now request.

Definition list_servers_route (st : AppState) (c : Call) (provider : option string)
  : M World ApiError (list ServerSummary) :=
  token ← lift (BearerToken_from_request (cl_headers c));
  identity ← lift (resolve_identity (st_providers st) (st_access st) provider token);
  match authorize (st_access st) identity with
  | Deny reason => throw (ApiError_of_authz (Denied reason))
  | Allow => with_err ApiError_of_registry (list_servers (cl_now c) DEFAULT_LIST_LIMIT)
  end.

(** ** Mutations *)

(** The routes that change machines or tokens for an operator. *)
Inductive AdminAction : Type :=
| Approve (i : string)
| Disable (i : string)
| Enable (i : string)
| Revoke (i : string)
| DeleteMachine (i : string)
| Reenroll (random uuid i : string)
| RotateIdentity (random uuid i : string)
| MintToken (random uuid : string) (request : option MintEnrollmentTokenRequest).

Definition perform (st : AppState) (c : Call) (a : AdminAction) : M World ApiError unit :=
  match a with
  | Approve i => _ ← approve st c i; ret tt
  | Disable i => _ ← disable st c i; ret tt
  | Enable i => _ ← enable st c i; ret tt
  | Revoke i => _ ← revoke st c i; ret tt
  | DeleteMachine i => _ ← delete_machine st c i; ret tt
  | Reenroll random uuid i => _ ← reenroll st c random uuid i; ret tt
  | RotateIdentity random uuid i => _ ← rotate_identity st c random uuid i; ret tt
  | MintToken random uuid request => _ ← mint_enrollment_token st c random uuid request; ret tt
  end.

(** The event type under which each is recorded. *)
Definition action_event (a : AdminAction) : string :=
  match a with
  | Approve _ => "machine.approved"
  | Disable _ => "machine.disabled"
  | Enable _ => "machine.enabled"
  | Revoke _ => "machine.revoked"
  | DeleteMachine _ => "machine.deleted"
  | Reenroll _ _ _ => "machine.reenroll_requested"
  | RotateIdentity _ _ _ => "machine.identity_rotation_requested"
  | MintToken _ _ _ => "machine.enrollment_token.minted"
  end.

(** The caller as the routes see it. *)
Definition caller (st : AppState) (c : Call) (identity : Identity) : Prop :=
  ∃ token, BearerToken_from_request (cl_headers c) = Ok token ∧
    resolve_identity (st_providers st) (st_access st) None token = Ok identity.

(** ** Lemmas *)
Lemma client_context_wf identity c : wf_value (client_context identity c) = true.
Proof. apply to_value_wf. Qed.

Ltac admin_event_ok :=
  intros; apply event_ok_object; [done|]; cbn -[to_value client_context];
  rewrite ?client_context_wf; rewrite ?andb_true_r; try done.

Lemma admin_denied_ok now identity action reason :
  rfc3339_range now = true → event_ok now (admin_denied_event identity action reason) = true.
Proof. admin_event_ok. Qed.

Lemma ca_denied_ok now identity c action reason :
  rfc3339_range now = true → event_ok now (ca_denied_event identity c action reason) = true.
Proof. admin_event_ok. Qed.

Lemma machine_event_ok now identity c action machine extra :
  rfc3339_range now = true → forallb (λ kv, wf_value kv.2) extra = true →
  event_ok now (machine_event identity c action machine extra) = true.
Proof. admin_event_ok. Qed.

Lemma clamp_range requested : (60 <= clamp_enrollment_token_ttl requested <= 86400)%Z.
Proof.
  unfold clamp_enrollment_token_ttl, DEFAULT_ENROLLMENT_TOKEN_TTL_SECONDS,
    MIN_ENROLLMENT_TOKEN_TTL_SECONDS, MAX_ENROLLMENT_TOKEN_TTL_SECONDS.
  destruct (requested =? 0)%Z; lia.
Qed.

Lemma minted_event_ok now identity c issued requested :
  rfc3339_range now = true →
  event_ok now (minted_event identity c issued requested) = true.
Proof. admin_event_ok. Qed.

(** The writes of the services leave the log alone. *)
Lemma fetch_machine_frame p : frame same_log (fetch_machine p).
Proof. unfold fetch_machine. eauto with frame. Qed.
Lemma update_machine_frame i f : frame same_log (update_machine i f).
Proof.
  unfold update_machine. apply frame_bind; [typeclasses eauto| |eauto with frame].
  apply frame_execute; [typeclasses eauto|]. by intros d n d' [= _ <-].
Qed.
Lemma machine_delete_frame i : frame same_log (machine_delete i).
Proof.
  unfold machine_delete. apply frame_bind; [typeclasses eauto| |eauto with frame].
  apply frame_execute; [typeclasses eauto|]. by intros d n d' [= _ <-].
Qed.
Lemma token_create_frame new : frame same_log (token_create new).
Proof.
  unfold token_create. apply frame_bind; [typeclasses eauto| |eauto with frame].
  apply frame_execute; [typeclasses eauto|]. intros d n d' Hi.
  by apply insert_token_row_inv in Hi as (-> & _).
Qed.

Lemma set_status_frame i s now : frame same_log (set_status i s now).
Proof.
  unfold set_status, find_by_id, update_status.
  eauto 40 using fetch_machine_frame, update_machine_frame with frame.
Qed.
Lemma admin_delete_frame i : frame same_log (admin_delete i).
Proof.
  unfold admin_delete, find_by_id.
  eauto 40 using fetch_machine_frame, machine_delete_frame with frame.
Qed.
Lemma create_token_frame random uuid now by_ ttl su :
  frame same_log (create_enrollment_token random uuid now by_ ttl su).
Proof. unfold create_enrollment_token. eauto 40 using token_create_frame with frame. Qed.

(** *** Accountability *)

(** A check that lets through only a permitted caller, and writes only to the log. *)
Definition authorizes (st : AppState) (c : Call) (m : M World ApiError Identity) : Prop :=
  ∀ w r w', audit_ok (db w) → m w = (r, w') →
  match r with
  | Ok identity => db w' = db w ∧ caller st c identity ∧ permitted (st_access st) identity
  | Err _ => same_but_audit (db w) (db w')
  end.

(** A success is a permitted caller's and on the record under his name; an error has
    changed nothing but the log, or is a permitted caller's. *)
Definition accountable {A} (st : AppState) (c : Call) (ty : string) (m : M World ApiError A)
  : Prop := ∀ w r w', audit_ok (db w) → m w = (r, w') →
  match r with
  | Ok _ => ∃ identity, caller st c identity ∧ permitted (st_access st) identity ∧
      recorded ty (id_username identity) (db w) (db w')
  | Err _ => same_but_audit (db w) (db w') ∨
      ∃ identity, caller st c identity ∧ permitted (st_access st) identity ∧
        same_log (db w) (db w')
  end.

Lemma accountable_bind {A} st c ty (m : M World ApiError Identity)
    (f : Identity → M World ApiError A) :
  authorizes st c m → (∀ identity, audited ty (id_username identity) (f identity)) →
  accountable st c ty (m ≫= f).
Proof.
  intros Hm Hf w r w' Hok. unfold mbind, M_bind. destruct (m w) as [x w1] eqn:Hw.
  apply Hm in Hw; [|done]. destruct x as [identity|e]; [|intros [= <- <-]; by left].
  destruct Hw as (Hdb & Hc & Hp). intros Hrun. rewrite <-Hdb in Hok |- *.
  specialize (Hf _ _ _ _ Hok Hrun). destruct r; eauto.
Qed.

Lemma accountable_ret {A B} st c ty (m : M World ApiError A) (b : B) :
  accountable st c ty m → accountable st c ty (m ≫= λ _, ret b).
Proof.
  intros Hm w r w' Hok. unfold mbind, M_bind, ret. destruct (m w) as [x w1] eqn:Hw.
  apply Hm in Hw; [|done]. destruct x; by intros [= <- <-].
Qed.

Section with_laws.
Context `{!ChronoLaws, !SerdeJsonLaws}.

(** Both checks have this shape. *)
Lemma check_authorizes st c now (denied : Identity → string → NewAuditEntry) :
  (∀ identity reason, event_ok now (denied identity reason) = true) →
  authorizes st c (
    token ← lift (BearerToken_from_request (cl_headers c));
    identity ← lift (resolve_identity (st_providers st) (st_access st) None token);
    match authorize (st_access st) identity with
    | Deny reason =>
        _ ← with_err ApiError_of_audit (append_audit_event now (denied identity reason));
        throw (ApiError_of_authz (Denied reason))
    | Allow => ret identity
    end).
Proof.
  intros Hev w r w' Hok. unfold mbind at 1, M_bind at 1, lift at 1.
  destruct (BearerToken_from_request _) as [token|] eqn:Ht; [|by intros [= <- <-]].
  unfold mbind at 1, M_bind at 1, lift at 1.
  destruct (resolve_identity _ _ _ _) as [identity|] eqn:Hi; [|by intros [= <- <-]].
  destruct (authorize _ _) as [|reason] eqn:Ha.
  - intros [= <- <-]. split_and!; [done|by exists token|]. apply authorize_sound. by rewrite Ha.
  - unfold mbind, M_bind. destruct (with_err _ _ w) as [x w1] eqn:Happ.
    apply append_outcome in Happ; [|done|done].
    destruct x; intros [= <- <-]; [|by rewrite Happ].
    by destruct Happ as (? & ? & ? & ? & ? & ? & ? & ? & ? & Hs & _).
Qed.

Lemma authorize_admin_authorizes st c action :
  rfc3339_range (cl_audit_now c) = true → authorizes st c (authorize_admin st c action).
Proof. intros Hn. apply (check_authorizes _ _ _ (λ i r, admin_denied_event i action r)).
  intros. by apply admin_denied_ok. Qed.
Lemma ca_authorize_authorizes st c action :
  rfc3339_range (cl_audit_now c) = true → authorizes st c (ca_authorize_admin st c action).
Proof. intros Hn. apply (check_authorizes _ _ _ (λ i r, ca_denied_event i c action r)).
  intros. by apply ca_denied_ok. Qed.

Lemma audit_machine_audited identity c action machine extra :
  rfc3339_range (cl_audit_now c) = true → forallb (λ kv, wf_value kv.2) extra = true →
  audited action (id_username identity) (audit_machine identity c action machine extra).
Proof.
  intros Hn He. apply audited_ret.
  by apply (audited_append ApiError_of_audit (cl_audit_now c)
    (machine_event identity c action machine extra)), machine_event_ok.
Qed.

Lemma set_lifecycle_accountable st c i target action :
  rfc3339_range (cl_audit_now c) = true →
  accountable st c action (set_lifecycle st c i target action).
Proof.
  intros Hn. apply accountable_bind; [by apply authorize_admin_authorizes|]. intros identity.
  apply audited_bind; [eauto using set_status_frame with frame|]. intros machine.
  by apply audited_ret, audit_machine_audited.
Qed.

Lemma delete_machine_accountable st c i :
  rfc3339_range (cl_audit_now c) = true →
  accountable st c "machine.deleted" (delete_machine st c i).
Proof.
  intros Hn. apply accountable_bind; [by apply authorize_admin_authorizes|]. intros identity.
  apply audited_bind; [eauto using admin_delete_frame with frame|]. intros machine.
  by apply audited_ret, audit_machine_audited.
Qed.

Lemma reissue_accountable st c random uuid i action :
  rfc3339_range (cl_audit_now c) = true →
  accountable st c action (reissue_identity st c random uuid i action).
Proof.
  intros Hn. apply accountable_bind; [by apply authorize_admin_authorizes|]. intros identity.
  do 4 (apply audited_bind;
    [eauto using admin_delete_frame, create_token_frame with frame|]; intros ?).
  by apply audited_ret, audit_machine_audited.
Qed.

Lemma mint_accountable st c random uuid request :
  rfc3339_range (cl_audit_now c) = true →
  accountable st c "machine.enrollment_token.minted" (mint_enrollment_token st c random uuid request).
Proof.
  intros Hn. apply accountable_bind; [by apply ca_authorize_authorizes|]. intros identity.
  do 3 (apply audited_bind; [eauto using create_token_frame with frame|]; intros ?).
  by apply audited_ret, (audited_append ApiError_of_audit (cl_audit_now c)
    (minted_event identity c _ _)), minted_event_ok.
Qed.

Lemma authorize_admin_ok_inv st c action w identity w' :
  authorize_admin st c action w = (Ok identity, w') → db w' = db w.
Proof.
  unfold authorize_admin. intros Ha. db_steps. destruct (authorize _ _); by db_steps.
Qed.

Lemma authorize_admin_allow st c action token identity w :
  BearerToken_from_request (cl_headers c) = Ok token →
  resolve_identity (st_providers st) (st_access st) None token = Ok identity →
  authorize (st_access st) identity = Allow →
  authorize_admin st c action w = (Ok identity, w).
Proof.
  intros Ht Hi Ha. unfold authorize_admin, mbind, M_bind, lift. by rewrite Ht, Hi, Ha.
Qed.

Lemma authorize_admin_deny st c action token identity reason w :
  BearerToken_from_request (cl_headers c) = Ok token →
  resolve_identity (st_providers st) (st_access st) None token = Ok identity →
  authorize (st_access st) identity = Deny reason →
  audit_ok (db w) → no_faults w → rfc3339_range (cl_audit_now c) = true →
  ∃ w', authorize_admin st c action w = (Err (Forbidden "access denied"), w') ∧
    appended (cl_audit_now c) (admin_denied_event identity action reason) (db w) (db w').
Proof.
  intros Ht Hi Ha Hok Hw Hn. unfold authorize_admin, lift.
  destruct (append_runs ApiError_of_audit _ _ w Hok (admin_denied_ok _ identity action reason Hn) Hw)
    as (e & w' & Happ & Hd).
  exists w'. split; [|done]. unfold mbind, M_bind. by rewrite Ht, Hi, Ha, Happ.
Qed.

(** What a reissue that answers has done. *)
Lemma reissue_ok_inv st c random tid i action w0 resp w :
  tokens_ok (db w0) → audit_ok (db w0) →
  Forall (λ t, rfc3339_range t = true)
    [cl_token_now c; (cl_token_now c + seconds REENROLL_TOKEN_TTL_SECONDS)%Z; cl_audit_now c] →
  reissue_identity st c random tid i action w0 = (Ok resp, w) →
  ∃ by_,
    let new := MkNewEnrollmentToken tid (hash_token (generate_token random)) (cl_token_now c)
                 (cl_token_now c + seconds REENROLL_TOKEN_TTL_SECONDS) by_ true in
    mt_token resp = generate_token random ∧
    machines (db w) =
      List.filter (λ r, negb (bool_decide (mr_machine_id r = i))) (machines (db w0)) ∧
    enrollment_tokens (db w) = enrollment_tokens (db w0) ++ [new_token_row new] ∧
    tokens_ok (db w) ∧ audit_ok (db w).
Proof.
  intros Ht Ha Htimes Hr. rewrite !Forall_cons in Htimes. destruct Htimes as (Hr1 & Hr2 & Han & _).
  unfold reissue_identity in Hr. db_steps. apply authorize_admin_ok_inv in Hm.
  apply admin_delete_ok_inv in Hm2.
  rewrite Hm in Hm2.
  apply create_token_stored in Hm3 as (Hpl & Hdb & Ht'); [|by rewrite Hm2|done|done].
  rewrite Hm2 in Hdb. unfold audit_machine in Hm4. ok_steps.
  destruct (append_entry_ok _ _ w5 _ _ ltac:(by rewrite Hdb)
    (machine_event_ok _ _ _ _ _ [(_, VString _); (_, VString _)] Han eq_refl) Hm0) as (_ & _ & _ & (Hmach & Htok & _) & Ha').
  exists (id_username a). split_and!; [done|by rewrite Hmach, Hdb|by rewrite Htok, Hdb| |done].
  unfold tokens_ok. by rewrite Htok.
Qed.

(** ** Theorems *)

(** C11: operators act under their own name.  Whichever database calls fail, a route that
    changes machines or tokens succeeds only for a bearer token whose identity is on an
    allowlist, and then the log has grown by exactly one entry, of the event type of the
    route, with that identity's username as actor.  A route that answers with an error
    has left machines, tokens and keys alone, unless the caller was permitted; then the
    log is unchanged. *)
Theorem admin_changes_accountable st c a w r w' :
  audit_ok (db w) → rfc3339_range (cl_audit_now c) = true →
  perform st c a w = (r, w') →
  match r with
  | Ok _ => ∃ identity, caller st c identity ∧ permitted (st_access st) identity ∧
      recorded (action_event a) (id_username identity) (db w) (db w')
  | Err _ => same_but_audit (db w) (db w') ∨
      ∃ identity, caller st c identity ∧ permitted (st_access st) identity ∧
        same_log (db w) (db w')
  end.
Proof.
  intros Hok Hn Hrun. refine ((_ : accountable st c (action_event a) _) w r w' Hok Hrun).
  destruct a; apply accountable_ret;
    eauto using set_lifecycle_accountable, delete_machine_accountable, reissue_accountable,
      mint_accountable.
Qed.

(** A machine can come back.  When a re-enrollment or rotation has answered with a
    token, the machine it named is gone, and a host with that machine's hostname and
    either its key or one nobody has enrolls with the token during the following hour:
    the table then has the other machines and the new one, active under that key. *)
Theorem reissued_machine_enrolls `{!HexEncodeLaws} st c random tid i action resp w0 w sv uuid now
    audit_now request r pk :
  tokens_ok (db w0) → machines_ok (db w0) → audit_ok (db w0) → no_faults w →
  Forall (λ t, rfc3339_range t = true) [cl_token_now c;
    (cl_token_now c + seconds REENROLL_TOKEN_TTL_SECONDS)%Z; cl_audit_now c; audit_now] →
  String.length random = 32 →
  reissue_identity st c random tid i action w0 = (Ok resp, w) →
  r ∈ machines (db w0) → mr_machine_id r = i →
  (now < trunc_millis (cl_token_now c + seconds 3600))%Z →
  eq_enrollment_token request = mt_token resp → eq_hostname request = mr_hostname r →
  is_valid_hostname (mr_hostname r) = true →
  validate_ed25519_public_key (eq_public_key request) = Ok pk →
  (pk = mr_public_key r ∨ pk ∉ mr_public_key <$> machines (db w0)) →
  generate_machine_id uuid ∉ mr_machine_id <$> machines (db w0) →
  ∃ resp' w' row, enroll sv uuid now audit_now request w = (Ok resp', w') ∧
    machines (db w') =
      List.filter (λ r, negb (bool_decide (mr_machine_id r = i))) (machines (db w0)) ++ [row] ∧
    mr_machine_id row = es_machine_id resp' ∧ mr_status row = MachineStatus_as_str Active ∧
    mr_public_key row = pk.
Proof.
  intros Ht Hm Ha Hw Htimes Hlen Hre Hr Hi Hnow Htok Hhost Hh Hpk Hkey Hid.
  rewrite !Forall_cons in Htimes. destruct Htimes as (Hr1 & Hr2 & Hr3 & Hr4 & _).
  apply reissue_ok_inv in Hre as (by_ & Hpl & Hmach & Htoks & Ht' & Ha');
    [|done|done|by rewrite !Forall_cons].
  pose proof Hm as (_ & Hnh & Hnk & _).
  assert (machines_ok (db w)) as Hm'
    by (unfold machines_ok; rewrite Hmach; by apply machine_rows_ok_filter).
  destruct (known_token_enrolls sv (MkNewEnrollmentToken tid (hash_token (generate_token random))
    (cl_token_now c) (cl_token_now c + seconds REENROLL_TOKEN_TTL_SECONDS) by_ true) uuid now
    audit_now request pk w) as (resp' & w' & row & He & ? & Hrows & ? & ? & ?); try done.
  all: rewrite ?Htok, ?Hpl, ?Hhost, ?Htoks, ?Hmach; try done.
  - set_solver.
  - by apply generate_token_well_formed.
  - rewrite <-Hi. by apply filter_frees.
  - destruct Hkey as [->|Hkey]; [rewrite <-Hi; by apply filter_frees|by apply filter_stays_free].
  - by apply filter_stays_free.
  - exists resp', w', row. by rewrite Hrows, Hmach.
Qed.

(** A lifecycle route on every branch, with a database that answers.  A caller who is
    not allowed is recorded and refused; an unknown machine is reported and nothing is
    written; a known one, whatever its status was, gets the new status, every other row
    stays, one entry about it is appended, and the answer shows the new status. *)
Theorem lifecycle_outcome st c i target action token identity w :
  machines_ok (db w) → audit_ok (db w) → no_faults w → rfc3339_range (cl_now c) = true →
  rfc3339_range (cl_audit_now c) = true →
  BearerToken_from_request (cl_headers c) = Ok token →
  resolve_identity (st_providers st) (st_access st) None token = Ok identity →
  ∃ r w', set_lifecycle st c i target action w = (r, w') ∧
  match authorize (st_access st) identity with
  | Deny reason => r = Err (Forbidden "access denied") ∧
      appended (cl_audit_now c) (admin_denied_event identity action reason) (db w) (db w')
  | Allow =>
      if bool_decide (i ∈ mr_machine_id <$> machines (db w)) then
        ∃ v m, r = Ok v ∧ vw_machine_id v = i ∧ vw_status v = target ∧
          appended (cl_audit_now c) (machine_event identity c action m [])
            (set_machines (λ l, (λ r, if bool_decide (mr_machine_id r = i)
               then status_row target (cl_now c) r else r) <$> l) (db w)) (db w')
      else r = Err (NotFound ("machine '" +:+ i +:+ "' was not found")) ∧ w' = w
  end.
Proof.
  intros Hm Ha Hw Hn Han Ht Hi. unfold set_lifecycle.
  pose proof (set_status_effect i target (cl_now c) w Hm Hw Hn) as Heff.
  destruct (authorize _ _) as [|reason] eqn:Hauth.
  - erewrite bind_ok by by eapply authorize_admin_allow. case_bool_decide as Hin.
    + destruct Heff as (m & Hs & Hid & Hst).
      set (w1 := with_db w _) in Hs. change (audit_ok (db w1)) in Ha.
      erewrite bind_ok by by apply with_err_ok. unfold audit_machine.
      destruct (append_runs ApiError_of_audit (cl_audit_now c)
        (machine_event identity c action m []) w1 Ha
        (machine_event_ok _ _ _ _ _ [] Han eq_refl) Hw) as (e & w' & Happ & Hd).
      eexists _, w'. split; [unfold mbind, M_bind; rewrite Happ; reflexivity|].
      by eexists _, m.
    + eexists _, _. split; [by erewrite bind_err by by apply with_err_err|done].
  - destruct (authorize_admin_deny st c action token identity reason w) as (w' & Hd & Happ); try done.
    eexists _, w'. by erewrite bind_err.
Qed.
End with_laws.
End admin_routes.

(** ** Witnesses *)
#[local] Existing Instances toy_sha256 toy_hex toy_chrono toy_serde_json toy_ssh_key toy_debug
  toy_lowercase.
#[local] Existing Instances toy_sha256_laws toy_hex_laws toy_chrono_laws toy_serde_json_laws.

Definition demo_state : AppState :=
  MkAppState demo_providers (MkAccessConfig ["Octo"] [] [] [] [] [])
    (Some (MkCaFacts 3 (Ok "ssh-ed25519 CA"))).
Definition demo_call : Call :=
  MkCall [("authorization", "Bearer gho_1")] "req-1" (seconds 20) (seconds 20) (seconds 20)
    (seconds 20).

Definition demo_admin : result unit ApiError * World :=
  perform demo_state demo_call (Revoke "srv_1") machine_world.

Lemma admin_changes_accountable_witness :
  is_ok demo_admin.1 = true ∧
  ∃ identity, caller demo_state demo_call identity ∧
    recorded "machine.revoked" (id_username identity) (db machine_world) (db demo_admin.2).
Proof.
  split; [vm_compute; reflexivity|].
  destruct (is_ok_run demo_admin) as [u Hr]; [vm_compute; reflexivity|].
  unfold demo_admin at 1 in Hr.
  destruct (admin_changes_accountable demo_state demo_call (Revoke "srv_1") machine_world (Ok u)
    demo_admin.2 (empty_audit_ok []) eq_refl Hr) as (identity & Hc & _ & Hrec).
  exists identity. split; [exact Hc|exact Hrec].
Defined.

Definition demo_reissue : result MintEnrollmentTokenResponse ApiError * World :=
  reissue_identity demo_state demo_call demo_random "t1" "srv_1" "machine.reenroll_requested"
    machine_world.

Lemma reissued_machine_enrolls_witness :
  ∃ resp w' row, enroll demo_service "u2" (seconds 600) (seconds 600) demo_request demo_reissue.2
      = (Ok resp, w') ∧ machines (db w') = [row] ∧ mr_hostname row = "web-01" ∧
    mr_machine_id row = es_machine_id resp.
Proof.
  destruct (is_ok_run demo_reissue) as [resp Hr]; [vm_compute; reflexivity|].
  assert (mt_token resp = eq_enrollment_token demo_request) as Htok.
  { assert (match demo_reissue.1 with Ok x => mt_token x | Err _ => "" end
      = eq_enrollment_token demo_request) as Ht by (vm_compute; reflexivity).
    by rewrite Hr in Ht. }
  unfold demo_reissue at 1 in Hr.
  destruct (reissued_machine_enrolls demo_state demo_call demo_random "t1" "srv_1"
    "machine.reenroll_requested" resp machine_world demo_reissue.2 demo_service "u2" (seconds 600)
    (seconds 600) demo_request (new_machine_row demo_machine) "ssh-ed25519 AAAA")
    as (resp' & w' & row & He & Hrows & Hid & _);
    [by repeat constructor|exact machine_world_ok|exact (empty_audit_ok [])
    |vm_compute; reflexivity|by repeat constructor|reflexivity|exact Hr|by apply list_elem_of_here
    |reflexivity|vm_compute; reflexivity|by symmetry|reflexivity|vm_compute; reflexivity
    |vm_compute; reflexivity|by left|by apply (bool_decide_unpack _); vm_compute|].
  exists resp', w', row. split_and!; [exact He|exact Hrows| |exact Hid].
  assert (mr_hostname <$> machines (db (enroll demo_service "u2" (seconds 600) (seconds 600)
    demo_request demo_reissue.2).2) = ["web-01"]) as Hh by (vm_compute; reflexivity).
  rewrite He in Hh. simpl in Hh. rewrite Hrows in Hh. by injection Hh.
Defined.

Lemma lifecycle_outcome_witness :
  ∃ v w', set_lifecycle demo_state demo_call "srv_1" Disabled "machine.disabled" machine_world
    = (Ok v, w') ∧ vw_status v = Disabled ∧ audit_ok (db w').
Proof.
  destruct (lifecycle_outcome demo_state demo_call "srv_1" Disabled "machine.disabled" "gho_1"
    (MkIdentity "github" "7" "octo" None None None [] [] [] [] []) machine_world machine_world_ok
    (empty_audit_ok []) eq_refl eq_refl eq_refl) as (r & w' & Hrun & Hout);
    [vm_compute; reflexivity..|].
  destruct Hout as (v & m & -> & _ & Hst & Happ).
  exists v, w'. split_and!; [exact Hrun|exact Hst|].
  destruct Happ as (? & ? & Hrest). apply Hrest.
Defined.

(** The write comes before its entry: when the append fails the caller gets an error, the
    machine has its new status and the log knows nothing of it. *)
Example failed_append_leaves_change :
  let w := MkWorld (db machine_world) [false; false; false; true] in
  let out := set_lifecycle demo_state demo_call "srv_1" Disabled "machine.disabled" w in
  is_ok out.1 = false ∧ mr_status <$> machines (db out.2) = ["disabled"] ∧
  audit_log (db out.2) = [].
Proof. vm_compute. split_and!; reflexivity. Qed.

(** The routes ask nothing of the machine's status: approving a revoked one activates it. *)
Example approve_revives_revoked :
  mr_status <$> machines (db demo_admin.2) = ["revoked"] ∧
  mr_status <$> machines (db (perform demo_state demo_call (Approve "srv_1") demo_admin.2).2)
    = ["active"].
Proof. vm_compute. split; reflexivity. Qed.
