(* ===== verification/Console.v ===== *)
(** * The operator console
      ([src/src/routes/ops.rs], [rollout.rs], [health.rs], [ready.rs], [src/src/state.rs])

    Searching and following the audit log, health, status and metrics, and the rollout
    views.  All of these read; only a denial is written to the log. *)
From Stdlib Require Import SpecFloat.
From S2P Require Import Prelude External Errors Database AuditChain AuditRepo AuditSearch Machines.
From S2P Require Import Enrollment AgentAuth Registry MachineAdmin ClientContext Authz Providers.
From S2P Require Import Certificates Bundle BundleService Rollout Metrics AdminRoutes Toy.

Definition DEFAULT_WINDOW_HOURS : Z := 24.
Definition PROVIDER_TALLY_LIMIT : Z := 1000.

(** The shared state as these routes see it: [ca.list()] is beside the manager. *)
Record ConsoleState : Type := MkConsoleState {
  cs_app : AppState;
  cs_ca : option BundleService.CaManager;
  cs_ca_list : list CaRecord;
  cs_signer : option BundleSigner;
  cs_bundle_ttl : Z;
  cs_metrics : ApiMetrics;
  cs_started_at : Z;
}.

Definition bundle_service (st : ConsoleState) : option BundleService :=
  ca ← cs_ca st;
  signer ← cs_signer st;
  Some (BundleService_new ca signer (cs_bundle_ttl st)).

(** [AppState::providers]: GitHub is always there, and the default unless configured. *)
Definition state_providers (default_provider : option string) (github : GitHubClient)
    (extra_providers : list AuthenticationProvider) : ProviderRegistry :=
  foldl (λ r p, register p r)
    (register (GitHubProvider github) (ProviderRegistry_new (default PROVIDER_ID default_provider)))
    extra_providers.

Definition uptime (st : ConsoleState) (now : Z) : Z := Z.max (now - cs_started_at st) 0.
Definition uptime_seconds (st : ConsoleState) (now : Z) : Z := Z.max (num_seconds (uptime st now)) 0.

(** ** Search parameters *)
Record AuditSearchParams : Type := MkAuditSearchParams {
  ap_event_type : option string;
  ap_actor : option string;
  ap_operator : option string;
  ap_username : option string;
  ap_subject : option string;
  ap_machine : option string;
  ap_provider : option string;
  ap_serial : option string;
  ap_request_id : option string;
  ap_result : option string;
  ap_since : option string;
  ap_until : option string;
  ap_after : option Z;
  ap_before : option Z;
  ap_limit : option Z;
  ap_order : option string;
}.

(** [find_map(non_empty)]. *)
Fixpoint first_non_empty (values : list (option string)) : option string :=
  match values with
  | [] => None
  | v :: values =>
      match non_empty v with Some s => Some s | None => first_non_empty values end
  end.

(** [trim_end_matches('*')]. *)
Definition star : ascii := byte_of 42.
Fixpoint trim_end_stars (s : string) : string :=
  match s with
  | EmptyString => ""
  | String c s' =>
      match trim_end_stars s' with
      | EmptyString => if bool_decide (c = star) then "" else String c ""
      | t => String c t
      end
  end.

Record AuditEntryView : Type := MkAuditEntryView {
  ev_position : Z;
  ev_event_type : string;
  ev_actor : string;
  ev_subject : option string;
  ev_result : string;
  ev_recorded_at : string;
  ev_metadata : Value;
  ev_entry_hash : string;
}.

Record AuditSearchResponse : Type := MkAuditSearchResponse {
  as_entries : list AuditEntryView;
  as_count : Z;
  as_has_more : bool;
  as_last_position : option Z;
  as_order : string;
}.

(** ** Reports *)
Record MachineHealth : Type := MkMachineHealth {
  mh_total : Z;
  mh_online : Z;
  mh_stale : Z;
  mh_offline : Z;
  mh_latest_generation : option Z;
  mh_rollout_percentage : spec_float;
  mh_behind : Z;
}.

Record CertificateActivity : Type := MkCertificateActivity { ca_issued : Z; ca_denied : Z }.

Record ProviderStat : Type := MkProviderStat { ps_provider : string; ps_authentications : Z }.

Record AuthActivity : Type := MkAuthActivity { aa_total : Z; aa_by_provider : list ProviderStat }.

Record BundleHealth : Type := MkBundleHealth {
  bh_configured : bool;
  bh_generation : option Z;
  bh_fingerprint : option string;
}.

Record AuditHealth : Type := MkAuditHealth {
  ah_entries : Z;
  ah_verified : bool;
  ah_chain_position : option Z;
}.

Record HealthReport : Type := MkHealthReport {
  hr_status : string;
  hr_version : string;
  hr_uptime_seconds : Z;
  hr_machines : MachineHealth;
  hr_certificates : CertificateActivity;
  hr_authentication : AuthActivity;
  hr_bundle : BundleHealth;
  hr_audit : AuditHealth;
  hr_window_hours : Z;
}.

Record CaStatus : Type := MkCaStatus {
  ct_configured : bool;
  ct_total : Z;
  ct_enabled : Z;
  ct_generation : option Z;
}.

Record ApiSummary : Type := MkApiSummary { su_total_requests : Z; su_routes_tracked : Z }.

Record StatusReport : Type := MkStatusReport {
  sp_version : string;
  sp_uptime_seconds : Z;
  sp_started_at : string;
  sp_database : string;
  sp_certificate_authority : CaStatus;
  sp_bundle : BundleHealth;
  sp_audit : AuditHealth;
  sp_providers : list string;
  sp_api : ApiSummary;
}.

(** [is_ok()] on the outcome of a call. *)
Definition succeeds {E F A} (m : M World E A) : M World F bool := λ w,
  let '(r, w') := m w in (Ok (is_ok r), w').

Definition bundle_health (st : ConsoleState) : BundleHealth :=
  match cs_ca st with
  | Some ca =>
      MkBundleHealth (bool_decide (is_Some (cs_signer st))) (Some (cm_generation ca))
        (Some (cm_bundle_fingerprint ca))
  | None => MkBundleHealth false None None
  end.

Definition ca_status (st : ConsoleState) : CaStatus :=
  match cs_ca st with
  | Some ca =>
      MkCaStatus true (Z.of_nat (length (cs_ca_list st))) (rows_where ca_enabled (cs_ca_list st))
        (Some (cm_generation ca))
  | None => MkCaStatus false 0 0 None
  end.

(** The liveness probes ([health.rs], [ready.rs]). *)
Record HealthResponse : Type := MkHealthResponse {
  he_status : string;
  he_version : string;
  he_uptime_seconds : Z;
}.
Record ReadyResponse : Type := MkReadyResponse { re_status : string; re_checks_config : string }.
Definition ready : ReadyResponse := MkReadyResponse "ready" "ok".

(** [counts.entry(provider).or_default() += 1]. *)
Definition tally (counts : gmap string Z) (e : AuditEntry) : gmap string Z :=
  match value_get "provider" (ae_metadata e) ≫= value_as_str with
  | Some p => <[p := (default 0 (counts !! p) + 1)%Z]> counts
  | None => counts
  end.

(** [VERSION] is a build-time constant; [parse_error v] is what [chrono] says of [v]. *)
Section console.
Context `{Sha256, HexEncode, Chrono, SerdeJson, SshKey, ToLowercase, DebugStrings}.
Context (VERSION : string) (parse_error : string → string).

Definition health_probe (st : ConsoleState) (now : Z) : HealthResponse :=
  MkHealthResponse "ok" VERSION (uptime_seconds st now).

(** *** Queries *)
Definition ResultFilter_parse (value : string) : option ResultFilter :=
  let v := to_lowercase (trim value) in
  if bool_decide (v ∈ ["success"; "ok"; "succeeded"]) then Some Success
  else if bool_decide (v ∈ ["failure"; "failed"; "fail"; "denied"; "error"]) then Some Failure
  else None.

Definition parse_time (value : option string) (field : string) : result (option Z) ApiError :=
  match non_empty value with
  | None => Ok None
  | Some v =>
      match parse_from_rfc3339 v with
      | Some t => Ok (Some t)
      | None => Err (BadRequest ("invalid " +:+ field +:+ " timestamp '" +:+ v +:+ "': " +:+
                                 parse_error v))
      end
  end.

Definition parse_result (value : option string) : result (option ResultFilter) ApiError :=
  match non_empty value with
  | None => Ok None
  | Some v => map_ok Some (ok_or (BadRequest ("unknown result '" +:+ v +:+ "'"))
                             (ResultFilter_parse v))
  end.

Definition parse_order (value : option string) (default_order : Order) : result Order ApiError :=
  match to_lowercase <$> non_empty value with
  | None => Ok default_order
  | Some v =>
      if bool_decide (v ∈ ["asc"; "ascending"]) then Ok Ascending
      else if bool_decide (v ∈ ["desc"; "descending"]) then Ok Descending
      else Err (BadRequest ("unknown order '" +:+ v +:+ "'"))
  end.

(** Exact, or a prefix when it ends in [.] or [*]. *)
Definition event_selector (value : option string) : option string * option string :=
  match non_empty value with
  | Some value =>
      if ends_with_byte "." value then (None, Some value)
      else if ends_with_byte star value then (None, Some (trim_end_stars value))
      else (Some value, None)
  | None => (None, None)
  end.

Definition into_query (p : AuditSearchParams) (default_order : Order)
  : result AuditQuery ApiError :=
  let actor := first_non_empty [ap_actor p; ap_operator p; ap_username p] in
  let '(event_type, event_prefix) := event_selector (ap_event_type p) in
  let? res := parse_result (ap_result p) in
  let? order := parse_order (ap_order p) default_order in
  let? since := parse_time (ap_since p) "since" in
  let? until := parse_time (ap_until p) "until" in
  Ok {| q_event_type := event_type;
        q_event_prefix := event_prefix;
        q_actor := actor;
        q_subject := non_empty (ap_subject p);
        q_machine := non_empty (ap_machine p);
        q_provider := non_empty (ap_provider p);
        q_serial := non_empty (ap_serial p);
        q_request_id := non_empty (ap_request_id p);
        q_result := res;
        q_since := since;
        q_until := until;
        q_after_position := ap_after p;
        q_before_position := ap_before p;
        q_limit := default DEFAULT_LIMIT (ap_limit p);
        q_order := order |}.

Definition classify_result (event_type : string) : string :=
  let lower := to_lowercase event_type in
  if existsb (λ kw, str_contains kw lower) FAILURE_KEYWORDS then "failure" else "success".

Definition from_entry (entry : AuditEntry) : AuditEntryView :=
  {| ev_position := ae_chain_position entry;
     ev_event_type := ae_event_type entry;
     ev_actor := ae_actor entry;
     ev_subject := ae_subject entry;
     ev_result := classify_result (ae_event_type entry);
     ev_recorded_at := to_rfc3339_millis (ae_recorded_at entry);
     ev_metadata := ae_metadata entry;
     ev_entry_hash := ae_entry_hash entry |}.

(** [iter().max()]. *)
Definition max_position (l : list Z) : option Z :=
  foldl (λ acc x, Some match acc with Some m => Z.max m x | None => x end) None l.

Definition order_name (o : Order) : string :=
  match o with Ascending => "asc" | Descending => "desc" end.

Definition run_search (q : AuditQuery) : M World ApiError AuditSearchResponse :=
  page ← with_err ApiError_of_audit (service_search q);
  let entries := from_entry <$> page_entries page in
  ret {| as_entries := entries;
         as_count := Z.of_nat (length entries);
         as_has_more := page_has_more page;
         as_last_position := max_position (ev_position <$> entries);
         as_order := order_name (q_order q) |}.

(** *** Authorization *)
Definition ops_denied_event (identity : Identity) (c : Call) (action reason : string)
  : NewAuditEntry :=
  with_metadata (json_object [("reason", VString reason);
                              ("provider", VString (id_provider identity));
                              ("subject", VString (id_subject identity));
                              ("client", client_context identity c)])
    (with_subject action (NewAuditEntry_new "ops.admin_denied" (id_username identity))).

Definition ops_authorize_admin (st : ConsoleState) (c : Call) (action : string)
  : M World ApiError Identity :=
  token ← lift (BearerToken_from_request (cl_headers c));
  identity ← lift (resolve_identity (st_providers (cs_app st)) (st_access (cs_app st)) None token);
  match authorize (st_access (cs_app st)) identity with
  | Deny reason =>
      _ ← with_err ApiError_of_audit (append_audit_event (cl_audit_now c)
            (ops_denied_event identity c action reason));
      throw (ApiError_of_authz (Denied reason))
  | Allow => ret identity
  end.

Definition audit_search (st : ConsoleState) (c : Call) (p : AuditSearchParams)
  : M World ApiError AuditSearchResponse :=
  _ ← ops_authorize_admin st c "ops.audit";
  q ← lift (into_query p Descending);
  run_search q.

Definition audit_stream (st : ConsoleState) (c : Call) (p : AuditSearchParams)
  : M World ApiError AuditSearchResponse :=
  _ ← ops_authorize_admin st c "ops.audit_stream";
  q ← lift (into_query p Ascending);
  run_search q.

(** *** Health *)
Definition machine_health (st : ConsoleState) (now : Z) : M World ApiError MachineHealth :=
  let latest_generation := cm_generation <$> cs_ca st in
  match bundle_service st with
  | Some service =>
      fleet ← with_err ApiError_of_sqlx (fleet_status service now);
      let on_latest := foldr (λ g n, (gc_count g + n)%Z) 0%Z
        (List.filter (λ g, bool_decide (gc_generation g = fs_latest_generation fleet))
           (fs_generations fleet)) in
      ret {| mh_total := fs_total_machines fleet;
             mh_online := fs_online fleet;
             mh_stale := fs_stale fleet;
             mh_offline := fs_offline fleet;
             mh_latest_generation := Some (fs_latest_generation fleet);
             mh_rollout_percentage := fs_rollout_percentage fleet;
             mh_behind := Z.max (fs_total_machines fleet - on_latest) 0 |}
  | None =>
      views ← with_err ApiError_of_sqlx (admin_list now latest_generation MachineFilter_default);
      let on l := rows_where (λ v, bool_decide (vw_liveness v = l)) views in
      ret {| mh_total := Z.of_nat (length views);
             mh_online := on Online;
             mh_stale := on Stale;
             mh_offline := on Offline;
             mh_latest_generation := latest_generation;
             mh_rollout_percentage := f64_of_Z 0;
             mh_behind := Z.of_nat (length views) |}
  end.

Definition audit_health : M World ApiError AuditHealth :=
  tip ← with_err ApiError_of_audit get_tip;
  verdict ← with_err ApiError_of_audit service_verify_chain;
  ret {| ah_entries := default 0%Z (tip_chain_position <$> tip);
         ah_verified := is_valid verdict;
         ah_chain_position := tip_chain_position <$> tip |}.

Definition event_query (event_type : string) (since : Z) : AuditQuery :=
  MkAuditQuery (Some event_type) None None None None None None None None (Some since) None None None
    0 Descending.
Definition auth_query (since limit : Z) : AuditQuery :=
  MkAuditQuery None (Some "auth.") None None None None None None None (Some since) None None None
    limit Descending.

Definition count_events (event_type : string) (since : Z) : M World ApiError Z :=
  with_err ApiError_of_audit (service_count (event_query event_type since)).

Definition certificate_activity (since : Z) : M World ApiError CertificateActivity :=
  issued ← count_events "certificate.issued" since;
  denied ← count_events "certificate.denied" since;
  ret (MkCertificateActivity issued denied).

Definition auth_activity (since : Z) : M World ApiError AuthActivity :=
  total ← with_err ApiError_of_audit (service_count (auth_query since 0));
  page ← with_err ApiError_of_audit (service_search (auth_query since PROVIDER_TALLY_LIMIT));
  let counts := foldl tally ∅ (page_entries page) in
  ret (MkAuthActivity total
         ((λ kv, MkProviderStat kv.1 kv.2) <$>
            sort_by (λ a b, str_leb a.1 b.1) (map_to_list counts))).

Definition health (st : ConsoleState) (c : Call) : M World ApiError HealthReport :=
  _ ← ops_authorize_admin st c "ops.health";
  let now := cl_now c in
  let window_start := (now - hours DEFAULT_WINDOW_HOURS)%Z in
  machines ← machine_health st now;
  let bundle := bundle_health st in
  audit ← audit_health;
  certificates ← certificate_activity window_start;
  authentication ← auth_activity window_start;
  let status := if negb (bh_configured bundle) then "unconfigured"
                else if negb (ah_verified audit) || (0 <? mh_offline machines)%Z then "degraded"
                else "ok" in
  ret {| hr_status := status;
         hr_version := VERSION;
         hr_uptime_seconds := uptime_seconds st (cl_context_now c);
         hr_machines := machines;
         hr_certificates := certificates;
         hr_authentication := authentication;
         hr_bundle := bundle;
         hr_audit := audit;
         hr_window_hours := DEFAULT_WINDOW_HOURS |}.

(** *** Status and metrics *)
Definition ops_status (st : ConsoleState) (c : Call) : M World ApiError StatusReport :=
  _ ← ops_authorize_admin st c "ops.status";
  let certificate_authority := ca_status st in
  let snap := snapshot (cs_metrics st) in
  connected ← succeeds db_call;
  audit ← audit_health;
  ret {| sp_version := VERSION;
         sp_uptime_seconds := uptime_seconds st (cl_context_now c);
         sp_started_at := to_rfc3339_secs (cs_started_at st);
         sp_database := if (connected : bool) then "ok" else "error";
         sp_certificate_authority := certificate_authority;
         sp_bundle := bundle_health st;
         sp_audit := audit;
         sp_providers := pm_id <$> provider_list (st_providers (cs_app st));
         sp_api := MkApiSummary (sn_total_requests snap) (Z.of_nat (length (sn_routes snap))) |}.

Definition ops_metrics (st : ConsoleState) (c : Call) : M World ApiError ApiMetricsSnapshot :=
  _ ← ops_authorize_admin st c "ops.metrics";
  ret (snapshot (cs_metrics st)).

(** *** The rollout routes *)
Record GenerationsResponse : Type := MkGenerationsResponse {
  gr_latest_generation : option Z;
  gr_generations : list GenerationDetail;
}.
Record MachinesResponse : Type := MkMachinesResponse {
  mr_count : Z;
  mr_rollouts : list MachineRollout;
}.

Definition route_load (st : ConsoleState) (c : Call) (action : string)
  : M World ApiError RolloutService :=
  _ ← ops_authorize_admin st c action;
  with_err ApiError_of_rollout
    (rollout_load (cs_ca st) (bool_decide (is_Some (bundle_service st))) (cl_now c)).

Definition route_status (st : ConsoleState) (c : Call) : M World ApiError RolloutStatus :=
  svc ← route_load st c "rollout.status"; ret (rollout_status svc).

Definition route_generations (st : ConsoleState) (c : Call)
  : M World ApiError GenerationsResponse :=
  svc ← route_load st c "rollout.generations";
  let status := rollout_status svc in
  ret (MkGenerationsResponse (ro_latest_generation status) (ro_generations status)).

(** [state] defaults to [all]; other selectors are refused. *)
Definition state_selector (state : option string) : result string ApiError :=
  let selector := to_lowercase (default "all" (non_empty state)) in
  if bool_decide (selector ∈ ["all"; "current"; "lagging"; "stuck"]) then Ok selector
  else Err (BadRequest ("unknown state '" +:+ selector +:+ "' (want all|current|lagging|stuck)")).

Definition route_machines (st : ConsoleState) (c : Call) (state : option string)
    (generation : option Z) : M World ApiError MachinesResponse :=
  svc ← route_load st c "rollout.machines";
  selector ← lift (state_selector state);
  let machines := machines_filtered svc selector generation in
  ret (MkMachinesResponse (Z.of_nat (length machines)) machines).

Definition route_stuck (st : ConsoleState) (c : Call) : M World ApiError StuckReport :=
  svc ← route_load st c "rollout.stuck"; ret (rollout_stuck svc).
Definition route_health (st : ConsoleState) (c : Call) : M World ApiError RolloutHealth :=
  svc ← route_load st c "rollout.health"; ret (rollout_health svc).
Definition route_explain (st : ConsoleState) (c : Call) : M World ApiError RolloutExplanation :=
  svc ← route_load st c "rollout.explain"; ret (rollout_explain svc).

Definition route_timeline (st : ConsoleState) (c : Call) (limit : option Z)
  : M World ApiError RolloutTimeline :=
  _ ← route_load st c "rollout.timeline";
  with_err ApiError_of_rollout (rollout_timeline (default TIMELINE_DEFAULT_LIMIT limit)).

Definition route_history (st : ConsoleState) (c : Call) : M World ApiError RolloutHistory :=
  svc ← route_load st c "rollout.history";
  with_err ApiError_of_rollout (rollout_history svc).

(** All the routes of the console, by what they are asked for. *)
Inductive ConsoleRoute : Type :=
| OpsAudit (p : AuditSearchParams)
| OpsAuditStream (p : AuditSearchParams)
| OpsHealth
| OpsStatus
| OpsMetrics
| RolloutStatusRoute
| RolloutGenerations
| RolloutMachines (state : option string) (generation : option Z)
| RolloutStuck
| RolloutHealthRoute
| RolloutExplain
| RolloutTimelineRoute (limit : option Z)
| RolloutHistoryRoute.

Definition serve (st : ConsoleState) (c : Call) (r : ConsoleRoute) : M World ApiError unit :=
  match r with
  | OpsAudit p => _ ← audit_search st c p; ret tt
  | OpsAuditStream p => _ ← audit_stream st c p; ret tt
  | OpsHealth => _ ← health st c; ret tt
  | OpsStatus => _ ← ops_status st c; ret tt
  | OpsMetrics => _ ← ops_metrics st c; ret tt
  | RolloutStatusRoute => _ ← route_status st c; ret tt
  | RolloutGenerations => _ ← route_generations st c; ret tt
  | RolloutMachines state generation => _ ← route_machines st c state generation; ret tt
  | RolloutStuck => _ ← route_stuck st c; ret tt
  | RolloutHealthRoute => _ ← route_health st c; ret tt
  | RolloutExplain => _ ← route_explain st c; ret tt
  | RolloutTimelineRoute limit => _ ← route_timeline st c limit; ret tt
  | RolloutHistoryRoute => _ ← route_history st c; ret tt
  end.

(** The action under which a denial of each is recorded. *)
Definition console_action (r : ConsoleRoute) : string :=
  match r with
  | OpsAudit _ => "ops.audit"
  | OpsAuditStream _ => "ops.audit_stream"
  | OpsHealth => "ops.health"
  | OpsStatus => "ops.status"
  | OpsMetrics => "ops.metrics"
  | RolloutStatusRoute => "rollout.status"
  | RolloutGenerations => "rollout.generations"
  | RolloutMachines _ _ => "rollout.machines"
  | RolloutStuck => "rollout.stuck"
  | RolloutHealthRoute => "rollout.health"
  | RolloutExplain => "rollout.explain"
  | RolloutTimelineRoute _ => "rollout.timeline"
  | RolloutHistoryRoute => "rollout.history"
  end.

(** ** Lemmas *)
Lemma ops_denied_ok now identity c action reason :
  rfc3339_range now = true → event_ok now (ops_denied_event identity c action reason) = true.
Proof.
  intros. apply event_ok_object; [done|]. cbn -[to_value client_context].
  by rewrite client_context_wf.
Qed.

(** A read behind the check: only a permitted caller gets past it, and nothing is written
    but the denial of a caller who is not. *)
Definition gated_read {A} (st : ConsoleState) (c : Call) (action : string)
    (m : M World ApiError A) : Prop := ∀ w r w', audit_ok (db w) → m w = (r, w') →
  (db w' = db w ∧ (is_ok r = true → ∃ identity, caller (cs_app st) c identity ∧
     permitted (st_access (cs_app st)) identity)) ∨
  ∃ identity reason, caller (cs_app st) c identity ∧
    authorize (st_access (cs_app st)) identity = Deny reason ∧
    r = Err (Forbidden "access denied") ∧
    appended (cl_audit_now c) (ops_denied_event identity c action reason) (db w) (db w').

Lemma gated_bind {A B} st c action (m : M World ApiError A) (f : A → M World ApiError B) :
  gated_read st c action m → (∀ a, frame eq (f a)) → gated_read st c action (m ≫= f).
Proof.
  intros Hm Hf w r w' Hok. unfold mbind, M_bind. destruct (m w) as [x w1] eqn:Hw.
  destruct (Hm _ _ _ Hok Hw) as [[Hdb Hc]|(identity & reason & Hc & Hd & -> & Happ)].
  - destruct x as [a|e]; [|intros [= <- <-]; by left]. intros Hrun. left.
    specialize (Hf a _ _ _ Hrun). split; [congruence|]. intros _. by apply Hc.
  - intros [= <- <-]. right. by exists identity, reason.
Qed.

Lemma gated_check `{!ChronoLaws, !SerdeJsonLaws} st c action :
  rfc3339_range (cl_audit_now c) = true → gated_read st c action (ops_authorize_admin st c action).
Proof.
  intros Hn w r w' Hok. unfold ops_authorize_admin, caller.
  unfold mbind at 1, M_bind at 1, lift at 1.
  destruct (BearerToken_from_request _) as [token|] eqn:Ht; [|intros [= <- <-]; by left].
  unfold mbind at 1, M_bind at 1, lift at 1.
  destruct (resolve_identity _ _ _ _) as [identity|] eqn:Hi; [|intros [= <- <-]; by left].
  destruct (authorize _ _) as [|reason] eqn:Ha.
  - intros [= <- <-]. left. split; [done|]. intros _. exists identity. split; [by exists token|].
    apply authorize_sound. by rewrite Ha.
  - unfold mbind, M_bind. destruct (with_err _ _ w) as [x w1] eqn:Happ.
    apply append_outcome in Happ; [|done|by apply ops_denied_ok].
    destruct x; intros [= <- <-]; [right|by left].
    exists identity, reason. split_and!; [by exists token|done..].
Qed.

(** *** The reads *)
Lemma frame_succeeds {E F A} (R : Db → Db → Prop) (m : M World E A) :
  frame R m → frame R (succeeds (F := F) m).
Proof.
  intros Hm w r w'. unfold succeeds. destruct (m w) as [x w1] eqn:Hw. intros [= _ <-].
  by apply Hm in Hw.
Qed.

Lemma count_reads q : frame eq (service_count q).
Proof. unfold service_count, count. eauto 20 with frame. Qed.
Lemma audit_health_reads : frame eq audit_health.
Proof.
  unfold audit_health, get_tip, service_verify_chain, latest_entry, list_entries.
  eauto 30 with frame.
Qed.
#[local] Hint Resolve search_reads count_reads admin_list_reads rollout_load_reads frame_succeeds
  audit_health_reads : frame.

Lemma machine_health_reads st now : frame eq (machine_health st now).
Proof.
  unfold machine_health, fleet_status. destruct (bundle_service st); eauto 20 with frame.
Qed.
Lemma certificate_activity_reads since : frame eq (certificate_activity since).
Proof. unfold certificate_activity, count_events. eauto 20 with frame. Qed.
Lemma auth_activity_reads since : frame eq (auth_activity since).
Proof. unfold auth_activity. eauto 20 with frame. Qed.
Lemma run_search_reads q : frame eq (run_search q).
Proof. unfold run_search. eauto 20 with frame. Qed.
Lemma timeline_reads limit : frame eq (rollout_timeline limit).
Proof. unfold rollout_timeline. eauto 20 with frame. Qed.
Lemma history_reads s : frame eq (rollout_history s).
Proof. unfold rollout_history. eauto 20 with frame. Qed.
#[local] Hint Resolve machine_health_reads certificate_activity_reads auth_activity_reads
  run_search_reads timeline_reads history_reads : frame.

(** *** Event types *)
Definition plain (c : ascii) : bool := negb (is_wild c) && bool_decide (byte_to_ascii_lowercase c = c).

Lemma lower_lower c : byte_to_ascii_lowercase (byte_to_ascii_lowercase c) = byte_to_ascii_lowercase c.
Proof. by destruct c as [[] [] [] [] [] [] [] []]. Qed.

(** On text in lower case, [LIKE '%kw%'] is containment. *)
Lemma like_prefix kw s :
  str_all plain kw = true →
  sql_like (kw +:+ String percent "") (to_ascii_lowercase s) =
    bool_decide (is_Some (strip_prefix kw (to_ascii_lowercase s))).
Proof.
  revert s. induction kw as [|c kw IH]; intros s Hkw.
  { rewrite app_nil_string, sql_like_percent. by rewrite bool_decide_true. }
  simpl in Hkw. apply andb_true_iff in Hkw as [Hc Hkw].
  unfold plain, is_wild in Hc. apply andb_true_iff in Hc as [Hw Hlow%bool_decide_eq_true].
  apply negb_true_iff, orb_false_iff in Hw as [[Hb Hp]%orb_false_iff Hu].
  rewrite app_String. simpl. rewrite Hb, Hp, Hu.
  destruct s as [|e s]; [by rewrite bool_decide_false by by intros []|].
  change (to_ascii_lowercase (String e s))
    with (String (byte_to_ascii_lowercase e) (to_ascii_lowercase s)).
  cbv iota beta. simpl. rewrite IH by done. unfold fold_eq. rewrite lower_lower, Hlow.
  repeat case_bool_decide; simpl; try done.
Qed.

Lemma is_Some_match {A} (o : option A) :
  bool_decide (is_Some o) = match o with Some _ => true | None => false end.
Proof. destruct o; [by rewrite bool_decide_true|by rewrite bool_decide_false by by intros []]. Qed.

Lemma like_contains kw s :
  str_all plain kw = true →
  sql_like (String percent (kw +:+ String percent "")) (to_ascii_lowercase s) =
    str_contains kw (to_ascii_lowercase s).
Proof.
  intros Hkw. induction s as [|e s IH].
  - change (sql_like (kw +:+ String percent "") (to_ascii_lowercase "") || false =
      str_contains kw ""). rewrite orb_false_r, like_prefix, is_Some_match by done. done.
  - change (to_ascii_lowercase (String e s))
      with (String (byte_to_ascii_lowercase e) (to_ascii_lowercase s)) in *.
    change (sql_like (kw +:+ String percent "") (to_ascii_lowercase (String e s)) ||
      sql_like (String percent (kw +:+ String percent "")) (to_ascii_lowercase s) =
      str_contains kw (to_ascii_lowercase (String e s))).
    rewrite IH, like_prefix, is_Some_match by done.
    change (to_ascii_lowercase (String e s))
      with (String (byte_to_ascii_lowercase e) (to_ascii_lowercase s)). cbn [str_contains].
    by destruct (strip_prefix kw _).
Qed.

(** *** Pages of a stream *)
Lemma max_position_spec l : max_position l = foldr (λ x acc, Some (default x (Z.max x <$> acc))) None l.
Proof.
  unfold max_position. induction l as [|x l IH] using rev_ind; [done|].
  rewrite foldl_app, foldr_app. simpl. rewrite IH. clear IH.
  induction l as [|y l IH]; simpl; [done|]. rewrite <-IH. f_equal.
  destruct (foldr _ None l); simpl; lia.
Qed.

(** In an ascending page the highest position is that of the last entry. *)
Lemma max_position_last l x :
  StronglySorted Z.lt (l ++ [x]) → max_position (l ++ [x]) = Some x.
Proof.
  intros Hs. unfold max_position. rewrite foldl_app. simpl. f_equal.
  fold (max_position l). rewrite max_position_spec.
  assert (Forall (λ y, y < x)%Z l) as Hlt.
  { revert Hs. clear. induction l as [|y l IH]; simpl; [constructor|]. intros Hs.
    inversion Hs as [|?? Hs' Hall]; subst. constructor; [|by apply IH].
    rewrite Forall_forall in Hall. apply Hall. set_solver. }
  assert (∀ m, foldr (λ x acc, Some (default x (Z.max x <$> acc))) None l = Some m → (m < x)%Z) as Hm.
  { clear Hs. induction Hlt as [|y l Hy _ IH]; simpl; [done|]. intros m [= <-].
    destruct (foldr _ None l) as [k|]; simpl; [|done]. specialize (IH k eq_refl). lia. }
  destruct (foldr _ None l) as [k|]; [|done]. specialize (Hm k eq_refl). lia.
Qed.

Lemma decodes_positions rows es :
  Forall2 decodes rows es → ae_chain_position <$> es = ar_chain_position <$> rows.
Proof.
  induction 1 as [|r e rows es Hr _ IH]; csimpl; [done|].
  destruct (decodes_fields _ _ Hr) as (_ & -> & _). by rewrite IH.
Qed.

Lemma decodes_fun rows es es' : Forall2 decodes rows es → Forall2 decodes rows es' → es = es'.
Proof.
  intros H1'. revert es'. induction H1' as [|r e rows es Hr _ IH]; intros es' H2';
    inversion H2' as [|? e' ? es1 Hr' Hes]; subst; [done|].
  f_equal; [|by apply IH]. unfold decodes in *. congruence.
Qed.

(** A client that follows the stream: it asks for a page, and while there is more it asks
    again after the last position it was told.  [fuel] bounds its requests. *)
Fixpoint follow (fuel : nat) (q : AuditQuery) : M World ApiError (list AuditEntryView) :=
  resp ← run_search q;
  match fuel, as_has_more resp, as_last_position resp with
  | S fuel, true, Some p => rest ← follow fuel (with_after p q); ret (as_entries resp ++ rest)
  | _, _, _ => ret (as_entries resp)
  end.

Lemma run_search_ok q w :
  audit_ok (db w) → no_faults w →
  ∃ es, Forall2 decodes (matching q (db w)) es ∧
    run_search q w =
      (Ok (let page := take (Z.to_nat (effective_limit q)) es in
           MkAuditSearchResponse (from_entry <$> page) (Z.of_nat (length (from_entry <$> page)))
             (effective_limit q <? Z.of_nat (length es))%Z
             (max_position (ev_position <$> (from_entry <$> page))) (order_name (q_order q))), w).
Proof.
  intros Hok Hw. destruct (search_run q w Hok Hw) as (es & Hes & Hs & _). exists es. split; [done|].
  unfold run_search, service_search. erewrite bind_ok by by apply with_err_ok. done.
Qed.

(** The cursor after a page that is not the last: the position of its last row. *)
Lemma page_cursor q d es n :
  audit_ok d → q_order q = Ascending → Forall2 decodes (matching q d) es → S n < length es →
  ∃ row, matching q d !! n = Some row ∧
    max_position (ev_position <$> (from_entry <$> take (S n) es)) = Some (ar_chain_position row).
Proof.
  intros Hok Ho Hes Hn. pose proof (Forall2_length _ _ _ Hes) as Hlen.
  destruct (lookup_lt_is_Some_2 (matching q d) n) as [row Hrow]; [lia|]. exists row. split; [done|].
  assert (ev_position <$> (from_entry <$> take (S n) es) =
    ar_chain_position <$> take (S n) (matching q d)) as ->.
  { rewrite <-list_fmap_compose. rewrite !fmap_take. f_equal. by apply decodes_positions. }
  rewrite (take_S_r _ _ _ Hrow), fmap_app. simpl. apply max_position_last.
  assert (StronglySorted Z.lt (ar_chain_position <$> take (S n) (matching q d))) as Hs.
  { apply (sorted_fmap ar_chain_position), take_sorted. by apply matching_sorted. }
  by rewrite (take_S_r _ _ _ Hrow), fmap_app in Hs.
Qed.

(** *** Parameters *)
Definition params_ok (p : AuditSearchParams) : Prop :=
  (∀ v, non_empty (ap_result p) = Some v → is_Some (ResultFilter_parse v)) ∧
  (∀ v, non_empty (ap_order p) = Some v →
     to_lowercase v ∈ ["asc"; "ascending"; "desc"; "descending"]) ∧
  (∀ v, non_empty (ap_since p) = Some v → is_Some (parse_from_rfc3339 v)) ∧
  (∀ v, non_empty (ap_until p) = Some v → is_Some (parse_from_rfc3339 v)).

Lemma strip_prefix_contains v s t : strip_prefix v s = Some t → str_contains v s = true.
Proof. intros Hs. destruct s; simpl; by rewrite Hs. Qed.

Lemma contains_quoted pre v post : str_contains v (pre +:+ v +:+ post) = true.
Proof.
  induction pre as [|c pre IH].
  - rewrite app_nil_string. by eapply strip_prefix_contains, strip_prefix_app.
  - rewrite app_String. cbn [str_contains]. rewrite IH. by destruct (strip_prefix v _).
Qed.

(** The refusal of one parameter quotes its text. *)
Definition quotes (e : ApiError) (v : string) : Prop :=
  ∃ msg, e = BadRequest msg ∧ str_contains v msg = true.

Lemma parse_time_cases value field :
  match parse_time value field with
  | Ok _ => ∀ v, non_empty value = Some v → is_Some (parse_from_rfc3339 v)
  | Err e => ∃ v, non_empty value = Some v ∧ parse_from_rfc3339 v = None ∧ quotes e v
  end.
Proof.
  unfold parse_time. destruct (non_empty value) as [v|]; [|done].
  destruct (parse_from_rfc3339 v) as [t|] eqn:Hv; [intros ? [= <-]; eauto|].
  exists v. split_and!; [done..|]. eexists. split; [done|].
  rewrite <-(app_string_assoc "invalid "). rewrite <-(app_string_assoc _ " timestamp '").
  apply contains_quoted.
Qed.

Lemma parse_result_cases value :
  match parse_result value with
  | Ok _ => ∀ v, non_empty value = Some v → is_Some (ResultFilter_parse v)
  | Err e => ∃ v, non_empty value = Some v ∧ ResultFilter_parse v = None ∧ quotes e v
  end.
Proof.
  unfold parse_result. destruct (non_empty value) as [v|]; [|done].
  destruct (ResultFilter_parse v) as [t|] eqn:Hv; simpl; [intros ? [= <-]; eauto|].
  exists v. split_and!; [done..|]. eexists. split; [done|]. apply contains_quoted.
Qed.

Lemma parse_order_cases value o :
  match parse_order value o with
  | Ok _ => ∀ v, non_empty value = Some v →
      to_lowercase v ∈ ["asc"; "ascending"; "desc"; "descending"]
  | Err e => ∃ v, non_empty value = Some v ∧
      (to_lowercase v ∉ ["asc"; "ascending"; "desc"; "descending"]) ∧ quotes e (to_lowercase v)
  end.
Proof.
  unfold parse_order. destruct (non_empty value) as [v|]; simpl; [|done].
  case_bool_decide; [intros ? [= <-]; set_solver|].
  case_bool_decide; [intros ? [= <-]; set_solver|].
  exists v. split_and!; [done|set_solver|]. eexists. split; [done|]. apply contains_quoted.
Qed.

(** *** Health *)
Lemma ops_authorize_allow st c action token identity w :
  BearerToken_from_request (cl_headers c) = Ok token →
  resolve_identity (st_providers (cs_app st)) (st_access (cs_app st)) None token = Ok identity →
  authorize (st_access (cs_app st)) identity = Allow →
  ops_authorize_admin st c action w = (Ok identity, w).
Proof.
  intros Ht Hi Ha. unfold ops_authorize_admin, mbind, M_bind, lift. by rewrite Ht, Hi, Ha.
Qed.

Lemma get_tip_run w :
  audit_ok (db w) → no_faults w →
  ∃ tip, get_tip w = (Ok tip, w) ∧
    default 0%Z (tip_chain_position <$> tip) = Z.of_nat (length (audit_log (db w))).
Proof.
  intros Hok Hw. pose proof Hok as (es & Hd & Hg).
  unfold get_tip, latest_entry, mbind, M_bind, with_err. rewrite query_ok by done.
  rewrite select_latest_last by done.
  pose proof (next_link_good _ _ Hd Hg) as Hn. rewrite <-(Forall2_length _ _ _ Hd) in Hn.
  destruct (last (audit_log (db w))) as [row|] eqn:Hlast; simpl in Hn.
  - apply last_Some in Hlast as [l Hl]. rewrite Hl in Hd.
    apply Forall2_app_inv_l in Hd as (es1 & es2 & _ & Hd2 & _).
    apply Forall2_cons_inv_l in Hd2 as (e & es' & Hr & _ & _).
    pose proof Hr as Hr'. unfold decodes in Hr'. simpl. rewrite Hr'. simpl.
    eexists. split; [reflexivity|]. simpl.
    destruct (decodes_fields _ _ Hr) as (_ & -> & _). injection Hn. lia.
  - apply last_None in Hlast. rewrite Hlast. eexists. split; [reflexivity|]. done.
Qed.

Lemma audit_health_run w :
  audit_ok (db w) → no_faults w →
  ∃ h, audit_health w = (Ok h, w) ∧ ah_verified h = true ∧
    ah_entries h = Z.of_nat (length (audit_log (db w))).
Proof.
  intros Hok Hw. destruct (get_tip_run w Hok Hw) as (tip & Htip & Hp). unfold audit_health.
  erewrite bind_ok by by apply with_err_ok.
  erewrite bind_ok by by apply with_err_ok, verify_ok_service. eexists. split; [reflexivity|]. done.
Qed.

Lemma list_all_run w :
  machines_ok (db w) → no_faults w →
  ∃ ms, list_all w = (Ok ms, w) ∧ length ms = length (machines (db w)).
Proof.
  intros (_ & _ & _ & Hrows) Hw. unfold list_all, mbind, M_bind. rewrite query_ok by done.
  assert (Forall machine_row_ok (sort_by by_hostname (machines (db w)))) as Hall
    by by rewrite sort_by_perm.
  rewrite <-(length_sort_by by_hostname (machines (db w))). clear Hrows Hw. unfold lift.
  induction Hall as [|r rows [m Hm] _ (ms & Hms & Hlen)]; [by exists []|].
  exists (m :: ms). csimpl. simpl in Hms. rewrite Hm.
  destruct (collect (machine_try_from <$> rows)); [|done]. simplify_eq/=. by rewrite Hlen.
Qed.

Lemma filter_default_all (l : list MachineView) :
  List.filter (filter_matches MachineFilter_default) l = l.
Proof. induction l as [|m l IH]; simpl; [done|]. by rewrite IH. Qed.

Lemma fleet_offline_nonneg latest now rows f :
  (0 <= fc_offline f)%Z → (0 <= fc_offline (foldl (fleet_step latest now) f rows))%Z.
Proof.
  revert f. induction rows as [|[seen synced] rows IH]; intros f Hf; [done|].
  cbn [foldl]. apply IH. simpl. destruct (LivenessStatus_derive _ _); simpl; lia.
Qed.

Lemma machine_health_run st now w :
  machines_ok (db w) → no_faults w →
  ∃ h, machine_health st now w = (Ok h, w) ∧
    mh_total h = Z.of_nat (length (machines (db w))) ∧ (0 <= mh_offline h)%Z.
Proof.
  intros Hm Hw. unfold machine_health. destruct (bundle_service st) as [s|].
  - unfold fleet_status. erewrite bind_ok.
    2: { apply with_err_ok. unfold mbind, M_bind. by rewrite query_ok. }
    eexists. split; [reflexivity|]. cbn -[fleet_step]. rewrite length_fmap. split; [done|].
    apply fleet_offline_nonneg. done.
  - destruct (list_all_run w Hm Hw) as (ms & Hms & Hlen). unfold admin_list.
    erewrite bind_ok.
    2: { apply with_err_ok. erewrite bind_ok by by apply db_call_ok.
         by erewrite bind_ok by exact Hms. }
    eexists. split; [reflexivity|]. simpl. rewrite filter_default_all, length_fmap, Hlen.
    split; [done|]. unfold rows_where. lia.
Qed.

(** What the check may do, a route may do. *)
Lemma frame_then_read (R : Db → Db → Prop) `{!PreOrder R} {E A B} (m : M World E A)
    (f : A → M World E B) : frame R m → (∀ a, frame eq (f a)) → frame R (m ≫= f).
Proof.
  intros Hm Hf. apply (frame_bind R); [done|]. intros a. apply (frame_impl eq R); [|apply Hf].
  by intros d d' ->.
Qed.

Lemma serve_frame (R : Db → Db → Prop) `{!PreOrder R} st c route :
  (∀ action, frame R (ops_authorize_admin st c action)) → frame R (serve st c route).
Proof.
  intros Hc. destruct route; simpl; (apply (frame_then_read R); [|intros; apply (frame_ret eq)]);
    unfold audit_search, audit_stream, health, ops_status, ops_metrics, route_status,
      route_generations, route_machines, route_stuck, route_health, route_explain, route_timeline,
      route_history, route_load.
  all: repeat first
    [ by apply Hc | apply (frame_then_read R); [|solve [intros; eauto 30 with frame]] ].
Qed.

(** ** Theorems *)

(** The console reads.  Each of its thirteen routes, whichever database calls fail, answers
    only a caller whose identity is on an allowlist and leaves every table as it was; the
    one thing a route may write is the denial of a caller who is not permitted, as one
    [ops.admin_denied] entry with that caller and route, and then it answers [403]. *)
Theorem console_reads_gated `{!ChronoLaws, !SerdeJsonLaws} st c route w r w' :
  audit_ok (db w) → rfc3339_range (cl_audit_now c) = true →
  serve st c route w = (r, w') →
  (db w' = db w ∧ (is_ok r = true → ∃ identity, caller (cs_app st) c identity ∧
     permitted (st_access (cs_app st)) identity)) ∨
  ∃ identity reason, caller (cs_app st) c identity ∧
    authorize (st_access (cs_app st)) identity = Deny reason ∧
    r = Err (Forbidden "access denied") ∧
    appended (cl_audit_now c) (ops_denied_event identity c (console_action route) reason)
      (db w) (db w').
Proof.
  intros Hok Hn Hrun.
  refine ((_ : gated_read st c (console_action route) _) w r w' Hok Hrun). clear Hrun.
  destruct route; simpl; (apply gated_bind; [|intros; apply (frame_ret eq)]);
    unfold audit_search, audit_stream, health, ops_status, ops_metrics, route_status,
      route_generations, route_machines, route_stuck, route_health, route_explain, route_timeline,
      route_history, route_load.
  all: repeat first
    [ by apply gated_check | apply gated_bind; [|solve [intros; eauto 30 with frame]] ].
Qed.

(** The console classifies an event as the filter does: for an event type in ASCII,
    [classify_result] says [failure] exactly when the SQL predicate behind
    [result=failure] selects it. *)
Theorem classify_mirrors_filter `{!ToLowercaseLaws} event_type :
  str_all (λ c, byte_code c <? 128)%Z event_type = true →
  bool_decide (classify_result event_type = "failure") = failure_predicate event_type.
Proof.
  intros Ha. unfold classify_result, failure_predicate. rewrite to_lowercase_ascii by done.
  assert (Forall (λ kw, str_all plain kw = true) FAILURE_KEYWORDS) as Hplain
    by by repeat constructor.
  assert (existsb (λ kw, str_contains kw (to_ascii_lowercase event_type)) FAILURE_KEYWORDS =
    existsb (λ kw, sql_like (String percent (kw +:+ String percent ""))
      (to_ascii_lowercase event_type)) FAILURE_KEYWORDS) as ->.
  { induction Hplain as [|kw kws Hkw _ IH]; cbn [existsb]; [done|].
    by rewrite like_contains, IH. }
  by destruct (existsb _ _).
Qed.


(** The search parameters, on every branch.  A query is built exactly when the result,
    the order and both instants are absent, blank or readable; otherwise the answer is
    [400] and its message quotes the text the client sent. *)
Theorem search_params_outcome p o :
  match into_query p o with
  | Ok q => params_ok p ∧ (1 <= effective_limit q <= 1000)%Z
  | Err e => ¬ params_ok p ∧ ∃ v, quotes e v ∧
      (non_empty (ap_result p) = Some v ∨ to_lowercase <$> non_empty (ap_order p) = Some v ∨
       non_empty (ap_since p) = Some v ∨ non_empty (ap_until p) = Some v)
  end.
Proof.
  unfold into_query. destruct (event_selector _) as [et ep].
  pose proof (parse_result_cases (ap_result p)) as Hr.
  pose proof (parse_order_cases (ap_order p) o) as Ho.
  pose proof (parse_time_cases (ap_since p) "since") as Hs.
  pose proof (parse_time_cases (ap_until p) "until") as Hu.
  destruct (parse_result _) as [r|e].
  2: { destruct Hr as (v & Hv & Hn & Hq). split; [|eauto]. intros (Hp & _).
       destruct (Hp v Hv). congruence. }
  destruct (parse_order _ _) as [ord|e].
  2: { destruct Ho as (v & Hv & Hn & Hq). split.
       - intros (_ & Hp & _). by apply Hn, Hp.
       - exists (to_lowercase v). rewrite Hv. auto. }
  destruct (parse_time (ap_since p) _) as [since|e].
  2: { destruct Hs as (v & Hv & Hn & Hq). split; [|eauto 6]. intros (_ & _ & Hp & _).
       destruct (Hp v Hv). congruence. }
  destruct (parse_time (ap_until p) _) as [until|e].
  2: { destruct Hu as (v & Hv & Hn & Hq). split; [|eauto 6]. intros (_ & _ & _ & Hp).
       destruct (Hp v Hv). congruence. }
  split; [done|]. apply effective_limit_bounds.
Qed.

(** The health report is right.  With a database that answers and a permitted caller, the
    report counts the log's entries and finds the chain valid, counts the certificates
    issued and denied in the window, and calls the server [ok] exactly when bundles are
    configured and no machine is offline; nothing is written. *)
Theorem health_report_exact st c token identity w :
  audit_ok (db w) → machines_ok (db w) → no_faults w →
  BearerToken_from_request (cl_headers c) = Ok token →
  resolve_identity (st_providers (cs_app st)) (st_access (cs_app st)) None token = Ok identity →
  authorize (st_access (cs_app st)) identity = Allow →
  let since := (cl_now c - hours 24)%Z in
  let n ty := Z.of_nat (length (matching (event_query ty since) (db w))) in
  ∃ r, health st c w = (Ok r, w) ∧
    ah_entries (hr_audit r) = Z.of_nat (length (audit_log (db w))) ∧
    ah_verified (hr_audit r) = true ∧
    ca_issued (hr_certificates r) = n "certificate.issued" ∧
    ca_denied (hr_certificates r) = n "certificate.denied" ∧
    mh_total (hr_machines r) = Z.of_nat (length (machines (db w))) ∧
    (hr_status r = "ok" ↔ is_Some (bundle_service st) ∧ mh_offline (hr_machines r) = 0%Z).
Proof.
  intros Hok Hm Hw Ht Hi Ha. cbv zeta. unfold health.
  erewrite bind_ok by by apply (ops_authorize_allow _ _ _ _ _ _ Ht Hi Ha).
  destruct (machine_health_run st (cl_now c) w Hm Hw) as (mh & Hmh & Htot & Hoff).
  destruct (audit_health_run w Hok Hw) as (ah & Hah & Hver & Hent).
  erewrite bind_ok by exact Hmh. erewrite bind_ok by exact Hah.
  destruct (search_run (event_query "certificate.issued" (cl_now c - hours 24)) w Hok Hw)
    as (es1 & Hes1 & _ & Hc1 & _).
  destruct (search_run (event_query "certificate.denied" (cl_now c - hours 24)) w Hok Hw)
    as (es2 & Hes2 & _ & Hc2 & _).
  erewrite bind_ok.
  2: { unfold certificate_activity, count_events, service_count.
       erewrite bind_ok by by apply with_err_ok. by erewrite bind_ok by by apply with_err_ok. }
  destruct (search_run (auth_query (cl_now c - hours 24) 0) w Hok Hw) as (es3 & _ & _ & Hc3 & _).
  destruct (search_run (auth_query (cl_now c - hours 24) 1000) w Hok Hw) as (es4 & _ & Hs4 & _).
  erewrite bind_ok.
  2: { unfold auth_activity, service_count, service_search.
       erewrite bind_ok by by apply with_err_ok. by erewrite bind_ok by by apply with_err_ok. }
  eexists. split; [reflexivity|]. simpl.
  rewrite (Forall2_length _ _ _ Hes1), (Forall2_length _ _ _ Hes2). split_and!; try done.
  unfold bundle_health, bundle_service.
  destruct (cs_ca st), (cs_signer st); simpl; try (split; [done|by intros [[] ?]]).
  rewrite Hver. simpl. destruct (Z.ltb_spec 0 (mh_offline mh)); simpl.
  - split; [done|]. intros [_ ?]. lia.
  - split; [|done]. intros _. split; [by eexists|lia].
Qed.
End console.

(** ** Witnesses *)
#[local] Existing Instances toy_sha256 toy_hex toy_chrono toy_serde_json toy_ssh_key toy_debug
  toy_lowercase.
#[local] Existing Instances toy_sha256_laws toy_chrono_laws toy_serde_json_laws toy_lowercase_laws.

Definition demo_console : ConsoleState :=
  MkConsoleState demo_state (Some rollout_ca) [] (Some (bs_signer demo_bundle_service)) 3600
    ApiMetrics_new (seconds 1).
Definition demo_version : string := "0.1.0".
Definition no_detail (v : string) : string := "input".
Definition no_params : AuditSearchParams :=
  MkAuditSearchParams None None None None None None None None None None None None None None None None.

Definition demo_served : result unit ApiError * World :=
  serve demo_version no_detail demo_console demo_call (OpsAudit no_params) rollout_world.

Lemma console_reads_gated_witness :
  is_ok demo_served.1 = true ∧ db demo_served.2 = db rollout_world ∧
  ∃ identity, caller demo_state demo_call identity.
Proof.
  split; [vm_compute; reflexivity|].
  destruct (is_ok_run demo_served) as [u Hr]; [vm_compute; reflexivity|].
  unfold demo_served at 1 in Hr.
  destruct (console_reads_gated demo_version no_detail demo_console demo_call (OpsAudit no_params)
    rollout_world (Ok u) demo_served.2 rollout_world_audit_ok eq_refl Hr)
    as [[Hdb Hc]|(? & ? & _ & _ & [=] & _)].
  split; [exact Hdb|]. destruct (Hc eq_refl) as (identity & Hi & _). exists identity. exact Hi.
Defined.

Lemma classify_mirrors_filter_witness :
  failure_predicate "machine.admin_Denied" = true ∧ classify_result "machine.admin_Denied" = "failure".
Proof.
  pose proof (classify_mirrors_filter "machine.admin_Denied" eq_refl) as Hc.
  assert (failure_predicate "machine.admin_Denied" = true) as Hf by (vm_compute; reflexivity).
  split; [exact Hf|]. rewrite Hf in Hc. by apply bool_decide_eq_true in Hc.
Defined.

Definition follow_query : AuditQuery :=
  MkAuditQuery None (Some "bundle.") None None None None None None None None None None None 1 Ascending.


Lemma rollout_world_machines_ok : machines_ok (db rollout_world).
Proof.
  split_and!; [apply NoDup_singleton..|]. apply Forall_singleton. eexists.
  vm_compute. reflexivity.
Qed.

Lemma health_report_exact_witness :
  ∃ r, health demo_version demo_console demo_call rollout_world = (Ok r, rollout_world) ∧
    ah_entries (hr_audit r) = 2%Z ∧ ah_verified (hr_audit r) = true.
Proof.
  destruct (health_report_exact demo_version demo_console demo_call "gho_1"
    (MkIdentity "github" "7" "octo" None None None [] [] [] [] []) rollout_world
    rollout_world_audit_ok rollout_world_machines_ok) as (r & Hr & He & Hv & _);
    [vm_compute; reflexivity..|].
  exists r. split; [exact Hr|]. split; [|exact Hv]. rewrite He. vm_compute. reflexivity.
Defined.

(** The stream asks for ascending order only by default: a client's [order] wins. *)
Example stream_order_overridable :
  match into_query no_detail (MkAuditSearchParams None None None None None None None None None None
          None None None None None (Some "desc")) Ascending with
  | Ok q => q_order q = Descending
  | Err _ => False
  end.
Proof. vm_compute. reflexivity. Qed.
