(* ===== verification/Config.v ===== *)
(** * Configuration and its use at start-up
      ([src/src/config.rs], [secret.rs], [environment.rs], [logging.rs],
      [src/src/main.rs], [server.rs])

    The configuration tree with its defaults, the checks it must pass, and what the
    start-up code makes of a checked configuration: the bind address, the source of the
    TLS material, the log filter and the identity providers.  Reading the layers is
    Figment's work and parsing a log filter tracing-subscriber's; both are parameters. *)
From S2P Require Import Prelude External Errors Authz Providers Keycloak AdminRoutes Console Toy.

(** ** Secrets and environments *)
Record Secret (A : Type) : Type := Secret_new { expose_secret : A }.
Arguments Secret_new {A} expose_secret.
Arguments expose_secret {A} _.

(** [Debug], [Display] and [Serialize] never look inside. *)
Definition Secret_debug {A} (_ : Secret A) : string := "Secret(***)".
Definition Secret_display {A} (_ : Secret A) : string := "***".
Definition Secret_serialize {A} (_ : Secret A) : string := quoted "***".

Inductive Environment : Type := Production | Development.

Definition is_development (e : Environment) : bool :=
  match e with Development => true | Production => false end.
Definition is_production (e : Environment) : bool :=
  match e with Production => true | Development => false end.
Definition Environment_label (e : Environment) : string :=
  match e with Production => "Production" | Development => "Development" end.

(** ** The configuration tree *)
Inductive LogFormat : Type := Pretty | Json.
Inductive SelectionStrategy : Type := Random.

Record TlsConfig : Type := MkTlsConfig {
  tls_enabled : bool;
  tls_cert_path : option string;
  tls_key_path : option string;
}.
Definition TlsConfig_default : TlsConfig := MkTlsConfig true None None.

Record ServerConfig : Type := MkServerConfig {
  sv_host : string;
  sv_port : Z;
  sv_tls : TlsConfig;
}.
Definition ServerConfig_default : ServerConfig :=
  MkServerConfig "127.0.0.1" 8443 TlsConfig_default.

Record DatabaseConfig : Type := MkDatabaseConfig {
  dc_url : string;
  dc_max_connections : Z;
}.
Definition DatabaseConfig_default : DatabaseConfig := MkDatabaseConfig "sqlite://mayfly.db" 5.

Record LoggingConfig : Type := MkLoggingConfig {
  lg_format : LogFormat;
  lg_level : string;
}.
Definition LoggingConfig_default : LoggingConfig := MkLoggingConfig Pretty "info".

Record GithubConfig : Type := MkGithubConfig {
  gh_client_id : string;
  gh_client_secret : option (Secret string);
  gh_scopes : string;
  gh_device_base_url : string;
  gh_api_base_url : string;
}.
Definition GithubConfig_default : GithubConfig :=
  MkGithubConfig "" None "read:user user:email" "https://github.com" "https://api.github.com".

Definition github_client_secret_value (c : GithubConfig) : string :=
  default "" (expose_secret <$> gh_client_secret c).

Record KeycloakConfig : Type := MkKcConfig {
  kc_issuer_url : string;
  kc_client_id : string;
  kc_client_secret : option (Secret string);
  kc_scopes : string;
  kc_audience : option string;
  kc_clock_skew_seconds : Z;
}.
Definition default_keycloak_scopes : string := "openid profile email".
Definition default_keycloak_clock_skew : Z := 60.

Definition keycloak_client_secret_value (c : KeycloakConfig) : option string :=
  match expose_secret <$> kc_client_secret c with
  | Some s => if str_is_empty s then None else Some s
  | None => None
  end.

Record CaConfig : Type := MkCaConfig {
  cc_storage_directory : string;
  cc_selection_strategy : SelectionStrategy;
  cc_auto_load : bool;
  cc_passphrase_env : string;
}.
Definition CaConfig_default : CaConfig := MkCaConfig "./ca" Random true "CA_STORAGE_PASSPHRASE".

Record BundleConfig : Type := MkBundleConfig {
  bc_sync_interval_seconds : Z;
  bc_jitter_percent : Z;
  bc_ttl_seconds : Z;
  bc_signing_key_env : string;
}.
Definition BundleConfig_default : BundleConfig := MkBundleConfig 300 10 3600 "BUNDLE_SIGNING_KEY".

Definition AccessConfig_default : AccessConfig := MkAccessConfig [] [] [] [] [] [].

Record Config : Type := MkConfig {
  cfg_environment : Environment;
  cfg_server : ServerConfig;
  cfg_database : DatabaseConfig;
  cfg_logging : LoggingConfig;
  cfg_github : GithubConfig;
  cfg_keycloak : option KeycloakConfig;
  cfg_default_provider : option string;
  cfg_ca : CaConfig;
  cfg_bundle : BundleConfig;
  cfg_access : AccessConfig;
}.
Definition Config_default : Config :=
  MkConfig Production ServerConfig_default DatabaseConfig_default LoggingConfig_default
    GithubConfig_default None None CaConfig_default BundleConfig_default AccessConfig_default.

(** ** Loading and checking *)
Inductive ConfigError : Type :=
| ConfigLoad (message : string)
| Validation (message : string).

Definition ConfigError_display (e : ConfigError) : string :=
  match e with
  | ConfigLoad m => "failed to load configuration: " +:+ m
  | Validation m => "invalid configuration: " +:+ m
  end.

Definition blank (s : string) : bool := str_is_empty (trim s).

Definition byte_to_ascii_uppercase (c : ascii) : ascii :=
  if is_ascii_lower c then ascii_of_N (N_of_ascii c - 32) else c.

(** [name.trim().to_ascii_uppercase().starts_with("MAYFLY_")]. *)
Definition reserved_env (name : string) : bool :=
  bool_decide (is_Some (strip_prefix "MAYFLY_" (str_map byte_to_ascii_uppercase (trim name)))).

(** The provider names a configuration makes available. *)
Definition known_provider (c : Config) (name : string) : bool :=
  bool_decide (name = "github")
  || (bool_decide (name = "keycloak") && bool_decide (is_Some (cfg_keycloak c))).

Definition secret_present (c : Config) : bool :=
  match gh_client_secret (cfg_github c) with
  | Some s => negb (blank (expose_secret s))
  | None => false
  end.

(** What reads the outside world: the answer of [EnvFilter::try_new] (its error, if any),
    the environment, and the layers Figment composes from the defaults, the file and the
    [MAYFLY_] variables. *)
Record Outside : Type := MkOutside {
  env_filter_error : string → option string;
  env_var : string → option string;
  path_exists : string → bool;
  figment_extract : Config → string → result Config string;
  parse_ip : string → option string;
}.

Definition validate_server (c : Config) : result unit ConfigError :=
  guard? negb (sv_port (cfg_server c) =? 0)%Z
  else Validation "server.port must be between 1 and 65535" in
  guard? negb (blank (sv_host (cfg_server c)))
  else Validation "server.host must not be empty" in
  guard? negb (dc_max_connections (cfg_database c) =? 0)%Z
  else Validation "database.max_connections must be at least 1" in
  guard? negb (blank (dc_url (cfg_database c)))
  else Validation "database.url must not be empty" in
  Ok tt.

Definition validate_logging (out : Outside) (c : Config) : result unit ConfigError :=
  let level := lg_level (cfg_logging c) in
  match env_filter_error out level with
  | Some err =>
      Err (Validation ("logging.level '" +:+ level +:+ "' is not a valid filter: " +:+ err))
  | None => Ok tt
  end.

Definition validate_tls (c : Config) : result unit ConfigError :=
  let tls := sv_tls (cfg_server c) in
  if tls_enabled tls && is_production (cfg_environment c) then
    guard? bool_decide (is_Some (tls_cert_path tls))
    else Validation "server.tls.cert_path is required when TLS is enabled in production" in
    guard? bool_decide (is_Some (tls_key_path tls))
    else Validation "server.tls.key_path is required when TLS is enabled in production" in
    Ok tt
  else Ok tt.

Definition validate_providers (c : Config) : result unit ConfigError :=
  guard? negb (blank (gh_client_id (cfg_github c)))
  else Validation "github.client_id is required" in
  guard? secret_present c else Validation "github.client_secret is required" in
  let? _ :=
    match cfg_keycloak c with
    | Some keycloak =>
        guard? negb (blank (kc_issuer_url keycloak))
        else Validation "keycloak.issuer_url is required when keycloak is configured" in
        guard? negb (blank (kc_client_id keycloak))
        else Validation "keycloak.client_id is required when keycloak is configured" in
        Ok tt
    | None => Ok tt
    end in
  match cfg_default_provider c with
  | Some name =>
      guard? known_provider c name
      else Validation ("default_provider '" +:+ name +:+ "' is not a configured provider (expected 'github', or 'keycloak' with a [keycloak] section)") in
      Ok tt
  | None => Ok tt
  end.

Definition validate_ca (c : Config) : result unit ConfigError :=
  let ca := cfg_ca c in
  guard? negb (blank (cc_storage_directory ca))
  else Validation "ca.storage_directory must not be empty" in
  guard? negb (blank (cc_passphrase_env ca))
  else Validation "ca.passphrase_env must not be empty" in
  guard? negb (reserved_env (cc_passphrase_env ca))
  else Validation ("ca.passphrase_env '" +:+ cc_passphrase_env ca +:+ "' must not start with 'MAYFLY_': that prefix is reserved for configuration environment variables and would be intercepted by the config loader. Use a non-prefixed name such as 'CA_STORAGE_PASSPHRASE'.") in
  Ok tt.

Definition validate_bundle (c : Config) : result unit ConfigError :=
  let b := cfg_bundle c in
  guard? negb (bc_sync_interval_seconds b =? 0)%Z
  else Validation "bundle.sync_interval_seconds must be at least 1" in
  guard? negb (100 <? bc_jitter_percent b)%Z
  else Validation "bundle.jitter_percent must be between 0 and 100" in
  guard? negb (bc_ttl_seconds b =? 0)%Z
  else Validation "bundle.ttl_seconds must be at least 1" in
  guard? negb (blank (bc_signing_key_env b))
  else Validation "bundle.signing_key_env must not be empty" in
  guard? negb (reserved_env (bc_signing_key_env b))
  else Validation ("bundle.signing_key_env '" +:+ bc_signing_key_env b +:+ "' must not start with 'MAYFLY_': that prefix is reserved for configuration environment variables. Use a non-prefixed name such as 'BUNDLE_SIGNING_KEY'.") in
  Ok tt.

(** [Config::validate]: the checks in source order, the first failure wins. *)
Definition validate_config (out : Outside) (c : Config) : result unit ConfigError :=
  let? _ := validate_server c in
  let? _ := validate_logging out c in
  let? _ := validate_tls c in
  let? _ := validate_providers c in
  let? _ := validate_ca c in
  validate_bundle c.

Definition load_config (out : Outside) (path : string) (required : bool)
  : result Config ConfigError :=
  if required && negb (path_exists out path) then
    Err (Validation ("configuration file '" +:+ path +:+ "' was specified but does not exist"))
  else
    let? c := map_err ConfigLoad (figment_extract out Config_default path) in
    let? _ := validate_config out c in
    Ok c.

(** ** Start-up decisions *)
Definition DEFAULT_CONFIG_PATH : string := "config.yaml".

(** An environment variable that is set and not blank, else a default. *)
Definition env_or (out : Outside) (name : string) : option string :=
  match env_var out name with
  | Some v => if negb (blank v) then Some v else None
  | None => None
  end.

Definition config_path (out : Outside) : string * bool :=
  match env_or out "MAYFLY_CONFIG" with
  | Some path => (path, true)
  | None => (DEFAULT_CONFIG_PATH, false)
  end.

Definition startup_config (out : Outside) : result Config ConfigError :=
  let '(path, required) := config_path out in load_config out path required.

Inductive LoggingError : Type := LogFilter (message : string) | LogInit.

(** [build_filter]: the directive the subscriber is built from. *)
Definition build_filter (out : Outside) (level : string) : result string LoggingError :=
  let directive := default level (env_or out "RUST_LOG") in
  match env_filter_error out directive with
  | Some err => Err (LogFilter (directive +:+ ": " +:+ err))
  | None => Ok directive
  end.

(** The configuration [main] hands to the Keycloak provider. *)
Definition keycloak_provider_config (kc : KeycloakConfig) : KeycloakProviderConfig :=
  MkKeycloakConfig (kc_issuer_url kc) (kc_client_id kc) (keycloak_client_secret_value kc)
    (if blank (kc_scopes kc) then "openid profile email" else kc_scopes kc)
    (kc_audience kc) (kc_clock_skew_seconds kc).

(** The registry the routes see: GitHub, and Keycloak when it is configured. *)
Definition startup_providers (c : Config) (github : GitHubClient)
    (keycloak : KeycloakProviderConfig → AuthenticationProvider) : ProviderRegistry :=
  state_providers (cfg_default_provider c) github
    (option_list ((λ kc, keycloak (KeycloakProvider_new (keycloak_provider_config kc)))
                  <$> cfg_keycloak c)).

(** The file pair the listener loads. *)
Inductive TlsSource : Type :=
| TlsFiles (cert key : string)
| DevCertificate.

Definition tls_source (c : Config) : TlsSource :=
  let tls := sv_tls (cfg_server c) in
  match tls_cert_path tls, tls_key_path tls with
  | Some cert, Some key => TlsFiles cert key
  | _, _ => DevCertificate
  end.

Inductive ServerError : Type :=
| InvalidHost (host : string)
| ServerTls (message : string)
| ServerIo (message : string).

Definition ServerError_display (e : ServerError) : string :=
  match e with
  | InvalidHost h => "invalid bind host '" +:+ h +:+ "': expected an IP address"
  | ServerTls m => m
  | ServerIo m => "server io error: " +:+ m
  end.

Definition socket_addr (out : Outside) (c : Config) : result (string * Z) ServerError :=
  let host := sv_host (cfg_server c) in
  let? ip := ok_or (InvalidHost host) (parse_ip out host) in
  Ok (ip, sv_port (cfg_server c)).

(** ** What a checked configuration guarantees *)
Definition some_text (s : string) : Prop := trim s ≠ "".
Definition plain_env_name (s : string) : Prop := some_text s ∧ reserved_env s = false.

Record valid_keycloak (kc : KeycloakConfig) : Prop := {
  vk_issuer : some_text (kc_issuer_url kc);
  vk_client : some_text (kc_client_id kc);
}.

Record valid_config (out : Outside) (c : Config) : Prop := {
  vc_port : sv_port (cfg_server c) ≠ 0%Z;
  vc_host : some_text (sv_host (cfg_server c));
  vc_connections : dc_max_connections (cfg_database c) ≠ 0%Z;
  vc_url : some_text (dc_url (cfg_database c));
  vc_level : env_filter_error out (lg_level (cfg_logging c)) = None;
  vc_tls : tls_enabled (sv_tls (cfg_server c)) = true → cfg_environment c = Production →
           ∃ cert key, tls_source c = TlsFiles cert key;
  vc_github : some_text (gh_client_id (cfg_github c));
  vc_secret : some_text (github_client_secret_value (cfg_github c));
  vc_keycloak : ∀ kc, cfg_keycloak c = Some kc → valid_keycloak kc;
  vc_default : ∀ name, cfg_default_provider c = Some name →
    name = "github" ∨ name = "keycloak" ∧ is_Some (cfg_keycloak c);
  vc_storage : some_text (cc_storage_directory (cfg_ca c));
  vc_passphrase : plain_env_name (cc_passphrase_env (cfg_ca c));
  vc_interval : bc_sync_interval_seconds (cfg_bundle c) ≠ 0%Z;
  vc_jitter : (bc_jitter_percent (cfg_bundle c) <= 100)%Z;
  vc_ttl : bc_ttl_seconds (cfg_bundle c) ≠ 0%Z;
  vc_signing : plain_env_name (bc_signing_key_env (cfg_bundle c));
}.

Lemma guard_ok {E} (b : bool) (e : E) (k : result unit E) :
  (guard? b else e in k) = Ok tt ↔ b = true ∧ k = Ok tt.
Proof. destruct b; split; [tauto|by intros []|done|by intros []]. Qed.

Lemma then_ok {E} (m k : result unit E) :
  (let? _ := m in k) = Ok tt ↔ m = Ok tt ∧ k = Ok tt.
Proof. destruct m as [[]|e]; split; [tauto|by intros []|done|by intros []]. Qed.

Lemma not_blank s : negb (blank s) = true ↔ some_text s.
Proof.
  unfold blank, str_is_empty, some_text. rewrite negb_true_iff. apply bool_decide_eq_false.
Qed.

Lemma not_zero z : negb (z =? 0)%Z = true ↔ z ≠ 0%Z.
Proof. rewrite negb_true_iff. apply Z.eqb_neq. Qed.

Lemma validate_server_ok c :
  validate_server c = Ok tt ↔
  sv_port (cfg_server c) ≠ 0%Z ∧ some_text (sv_host (cfg_server c)) ∧
  dc_max_connections (cfg_database c) ≠ 0%Z ∧ some_text (dc_url (cfg_database c)).
Proof. unfold validate_server. rewrite !guard_ok, !not_zero, !not_blank. tauto. Qed.

Lemma validate_logging_ok out c :
  validate_logging out c = Ok tt ↔ env_filter_error out (lg_level (cfg_logging c)) = None.
Proof. unfold validate_logging. by destruct (env_filter_error _ _). Qed.

Lemma validate_tls_ok c :
  validate_tls c = Ok tt ↔
  (tls_enabled (sv_tls (cfg_server c)) = true → cfg_environment c = Production →
   ∃ cert key, tls_source c = TlsFiles cert key).
Proof.
  unfold validate_tls, tls_source.
  destruct (sv_tls _) as [[] [cert|] [key|]], (cfg_environment c); simpl;
    (split; [intros H Hen Hprod|intros H]; try done; eauto);
    by destruct (H eq_refl eq_refl) as (? & ? & ?).
Qed.

Lemma secret_present_text c :
  secret_present c = true ↔ some_text (github_client_secret_value (cfg_github c)).
Proof.
  unfold secret_present, github_client_secret_value.
  destruct (gh_client_secret _) as [s|]; simpl; [apply not_blank|].
  split; [done|]. intros H. destruct H. reflexivity.
Qed.

Lemma known_provider_true c name :
  known_provider c name = true ↔
  name = "github" ∨ name = "keycloak" ∧ is_Some (cfg_keycloak c).
Proof.
  unfold known_provider.
  by rewrite orb_true_iff, andb_true_iff, !bool_decide_eq_true.
Qed.

Lemma validate_providers_ok c :
  validate_providers c = Ok tt ↔
  some_text (gh_client_id (cfg_github c)) ∧
  some_text (github_client_secret_value (cfg_github c)) ∧
  (∀ kc, cfg_keycloak c = Some kc → valid_keycloak kc) ∧
  (∀ name, cfg_default_provider c = Some name →
    name = "github" ∨ name = "keycloak" ∧ is_Some (cfg_keycloak c)).
Proof.
  unfold validate_providers.
  rewrite !guard_ok, then_ok, not_blank, secret_present_text.
  apply and_iff_compat_l, and_iff_compat_l, ZifyClasses.and_morph.
  - destruct (cfg_keycloak c) as [kc|]; [|naive_solver].
    rewrite !guard_ok, !not_blank. split.
    + intros (H1 & H2 & _) kc' [= <-]. by constructor.
    + intros H. by destruct (H kc eq_refl).
  - destruct (cfg_default_provider c) as [name|]; [|naive_solver].
    rewrite guard_ok, known_provider_true. split.
    + by intros [H _] name' [= <-].
    + intros H. auto.
Qed.

Lemma not_reserved s : negb (reserved_env s) = true ↔ reserved_env s = false.
Proof. apply negb_true_iff. Qed.

Lemma validate_ca_ok c :
  validate_ca c = Ok tt ↔
  some_text (cc_storage_directory (cfg_ca c)) ∧ plain_env_name (cc_passphrase_env (cfg_ca c)).
Proof.
  unfold validate_ca, plain_env_name. rewrite !guard_ok, !not_blank, not_reserved. tauto.
Qed.

Lemma validate_bundle_ok c :
  validate_bundle c = Ok tt ↔
  bc_sync_interval_seconds (cfg_bundle c) ≠ 0%Z ∧
  (bc_jitter_percent (cfg_bundle c) <= 100)%Z ∧
  bc_ttl_seconds (cfg_bundle c) ≠ 0%Z ∧ plain_env_name (bc_signing_key_env (cfg_bundle c)).
Proof.
  unfold validate_bundle, plain_env_name.
  rewrite !guard_ok, !not_zero, !not_blank, not_reserved, negb_true_iff, Z.ltb_ge. tauto.
Qed.

Lemma validate_valid out c : validate_config out c = Ok tt ↔ valid_config out c.
Proof.
  unfold validate_config.
  rewrite !then_ok, validate_server_ok, validate_logging_ok, validate_tls_ok,
    validate_providers_ok, validate_ca_ok, validate_bundle_ok.
  split; [intros; destruct_and!; by constructor|intros []; tauto].
Qed.

Lemma startup_config_ok out c :
  startup_config out = Ok c ↔
  figment_extract out Config_default (config_path out).1 = Ok c ∧ valid_config out c ∧
  ((config_path out).2 = true → path_exists out (config_path out).1 = true).
Proof.
  unfold startup_config, load_config. destruct (config_path out) as [path required]. simpl.
  rewrite <-validate_valid.
  destruct required, (path_exists out path); simpl;
    (destruct (figment_extract out Config_default path) as [c'|e]; simpl;
       [destruct (validate_config out c') as [[]|e] eqn:Hv|]);
    (split; [intros [= <-]; auto|intros (He & Hok & Hex)]); try congruence;
    by specialize (Hex eq_refl).
Qed.

(** Registering keeps what is there and adds one identifier. *)
Lemma provider_get_register p r id :
  provider_get id (register p r) =
  if bool_decide (id = pm_id (ap_metadata p)) then Some p else provider_get id r.
Proof.
  unfold provider_get, register. simpl. case_bool_decide as H.
  - subst. apply lookup_insert_eq.
  - by apply lookup_insert_ne.
Qed.

Section ready.
Context (github : GitHubClient) (keycloak : KeycloakProviderConfig → AuthenticationProvider).
Context (Hid : ∀ kp, pm_id (ap_metadata (keycloak kp)) = KEYCLOAK_PROVIDER_ID).

Definition configured_keycloak (kc : KeycloakConfig) : AuthenticationProvider :=
  keycloak (KeycloakProvider_new (keycloak_provider_config kc)).

Lemma startup_providers_get c id :
  provider_get id (startup_providers c github keycloak) =
  match cfg_keycloak c with
  | Some kc => if bool_decide (id = KEYCLOAK_PROVIDER_ID) then Some (configured_keycloak kc)
               else if bool_decide (id = PROVIDER_ID) then Some (GitHubProvider github) else None
  | None => if bool_decide (id = PROVIDER_ID) then Some (GitHubProvider github) else None
  end.
Proof using Hid.
  unfold startup_providers, state_providers. destruct (cfg_keycloak c) as [kc|]; simpl.
  - by rewrite !provider_get_register, Hid.
  - by rewrite provider_get_register.
Qed.

Lemma startup_default c :
  pr_default_id (startup_providers c github keycloak) =
  default PROVIDER_ID (cfg_default_provider c).
Proof using. unfold startup_providers, state_providers. by destruct (cfg_keycloak c). Qed.
End ready.

(** C27: the server starts with a configuration exactly when Figment produces it from the
    chosen path, every rule of the checker holds of it (ports and intervals not zero, the
    required texts not blank, a filter that parses, certificate files in production, a
    default provider that will be registered, no reserved variable names), and the file
    exists when [MAYFLY_CONFIG] names one; anything else is an error. *)
Theorem startup_config_exact (out : Outside) (c : Config) :
  startup_config out = Ok c ↔
  figment_extract out Config_default (config_path out).1 = Ok c ∧ valid_config out c ∧
  ((config_path out).2 = true → path_exists out (config_path out).1 = true).
Proof. apply startup_config_ok. Qed.

(** With a configuration the server starts with, a login that names no provider is
    served by the configured default (GitHub when none is set), naming a provider finds it
    exactly when it is GitHub or a configured Keycloak, and in production with TLS enabled
    the listener uses the operator's certificate files. *)
Lemma startup_ready (out : Outside) (c : Config) (github : GitHubClient)
    (keycloak : KeycloakProviderConfig → AuthenticationProvider)
    (Hc : startup_config out = Ok c)
    (Hid : ∀ kp, pm_id (ap_metadata (keycloak kp)) = KEYCLOAK_PROVIDER_ID) :
  (∃ p, resolve None (startup_providers c github keycloak) = Ok p ∧
        pm_id (ap_metadata p) = default PROVIDER_ID (cfg_default_provider c)) ∧
  (∀ id, is_Some (provider_get id (startup_providers c github keycloak)) ↔
         known_provider c id = true) ∧
  (cfg_environment c = Production → tls_enabled (sv_tls (cfg_server c)) = true →
   ∃ cert key, tls_source c = TlsFiles cert key).
Proof.
  apply startup_config_ok in Hc as (_ & Hv & _).
  assert (Hget : ∀ id, is_Some (provider_get id (startup_providers c github keycloak)) ↔
                       known_provider c id = true).
  { intros id. rewrite known_provider_true, startup_providers_get by done.
    unfold KEYCLOAK_PROVIDER_ID, PROVIDER_ID.
    destruct (cfg_keycloak c); repeat case_bool_decide; subst;
      (split; [intros [p Hp]; try done; eauto|intros [Hn|[Hn [kc Hk]]]; try done; eauto]). }
  split; [|split; [done|intros; by apply (vc_tls _ _ Hv)]].
  set (d := default PROVIDER_ID (cfg_default_provider c)).
  assert (Hd : known_provider c d = true).
  { apply known_provider_true. unfold d.
    destruct (cfg_default_provider c) as [n|] eqn:Hn; [by apply (vc_default _ _ Hv)|by left]. }
  apply Hget in Hd as [p Hp]. exists p. unfold resolve. simpl. rewrite startup_default.
  fold d. rewrite Hp. split; [done|].
  rewrite startup_providers_get in Hp by done.
  destruct (cfg_keycloak c); repeat case_bool_decide; simplify_eq; simpl;
    unfold configured_keycloak; rewrite ?Hid; congruence.
Qed.

(** ** Witnesses *)
Definition demo_keycloak_section : KeycloakConfig :=
  MkKcConfig "https://kc.example.com/realms/eng" "mayfly" None "" None 60.

Definition demo_app_config : Config :=
  MkConfig Production
    (MkServerConfig "0.0.0.0" 8443 (MkTlsConfig true (Some "/tls/cert.pem") (Some "/tls/key.pem")))
    DatabaseConfig_default LoggingConfig_default
    (MkGithubConfig "id" (Some (Secret_new "s3cret")) "read:user" "https://github.com"
       "https://api.github.com")
    (Some demo_keycloak_section) (Some "keycloak") CaConfig_default BundleConfig_default
    AccessConfig_default.

Definition demo_outside (c : Config) : Outside :=
  MkOutside (λ _, None) (λ name, if bool_decide (name = "MAYFLY_CONFIG") then Some "/etc/m.yaml" else None)
    (λ p, bool_decide (p = "/etc/m.yaml")) (λ _ _, Ok c) Some.

Definition demo_keycloak_provider (_ : KeycloakProviderConfig) : AuthenticationProvider :=
  MkProvider (MkProviderMetadata KEYCLOAK_PROVIDER_ID "Keycloak" OidcDevice)
    (Err ApRateLimited) (λ _, Err ApRateLimited) (λ _, Err ApRateLimited) (λ _ _ _, Err ApRateLimited).


(** The built-in defaults do not pass: they enable TLS without files. *)
Example defaults_do_not_start :
  startup_config (demo_outside Config_default) =
  Err (Validation "server.tls.cert_path is required when TLS is enabled in production").
Proof. vm_compute. reflexivity. Qed.

(** A production configuration with [tls.enabled = false] passes, and the listener then
    serves the self-signed development certificate. *)
Definition demo_tls_off : Config :=
  MkConfig Production (MkServerConfig "0.0.0.0" 8443 (MkTlsConfig false None None))
    DatabaseConfig_default LoggingConfig_default (cfg_github demo_app_config) None None
    CaConfig_default BundleConfig_default AccessConfig_default.

Example production_dev_certificate :
  startup_config (demo_outside demo_tls_off) = Ok demo_tls_off ∧
  is_production (cfg_environment demo_tls_off) = true ∧
  tls_source demo_tls_off = DevCertificate.
Proof. vm_compute. done. Qed.
