(* ===== verification/CaRoutes.v ===== *)
(** * The CA routes of the operator API ([src/src/routes/admin.rs])

    Generating, importing, renaming, enabling, disabling, rotating, retiring and deleting
    certificate authorities, and the reads beside them.  The manager that keeps the keys
    is in files that are not part of the sources: a record of its operations over a state
    of its own, given to the routes, with the projections [CaView] and [CaStats]. *)
From Stdlib Require Import SpecFloat.
From S2P Require Import Prelude External Errors Database AuditChain AuditRepo Machines.
From S2P Require Import AgentAuth ClientContext Authz Providers Certificates Bundle BundleService.
From S2P Require Import AdminRoutes Toy.

(** ** The manager *)

(** The manager's own state beside the database. *)
Record Host (S : Type) : Type := MkHost { ho_ca : S; ho_world : World }.
Arguments MkHost {S} ho_ca ho_world.
Arguments ho_ca {S} _.
Arguments ho_world {S} _.

Definition in_world {S E A} (m : M World E A) : M (Host S) E A := λ h,
  let '(r, w) := m (ho_world h) in (r, MkHost (ho_ca h) w).

Definition h_db {S} (h : Host S) : Db := db (ho_world h).

(** [CaManager]: what the routes read and call. *)
Record CaOperations (S : Type) : Type := MkCaOperations {
  op_snapshot : S → BundleService.CaManager;
  op_list : S → list CaRecord;
  op_active_keys : S → list CaRecord;
  op_generate : string → string → M (Host S) Certificates.CaError CaRecord;
  op_import : string → string → string → M (Host S) Certificates.CaError CaRecord;
  op_rename : string → string → M (Host S) Certificates.CaError CaRecord;
  op_enable : string → M (Host S) Certificates.CaError CaRecord;
  op_disable : string → M (Host S) Certificates.CaError CaRecord;
  op_retire : string → M (Host S) Certificates.CaError CaRecord;
  op_delete : string → M (Host S) Certificates.CaError CaRecord;
}.
Arguments op_snapshot {S} _ _.
Arguments op_list {S} _ _.
Arguments op_active_keys {S} _ _.
Arguments op_generate {S} _ _ _.
Arguments op_import {S} _ _ _ _.
Arguments op_rename {S} _ _ _.
Arguments op_enable {S} _ _.
Arguments op_disable {S} _ _.
Arguments op_retire {S} _ _.
Arguments op_delete {S} _ _.

(** Its bookkeeping stays in tables of its own ([ca_authorities], [ca_manager_state]), which
    nothing else reads or writes and which are part of its state here: no operation
    touches the tables of the other components. *)
Definition own_tables {S E A} (m : M (Host S) E A) : Prop := ∀ h r h',
  m h = (r, h') → h_db h' = h_db h.

Class CaOperationsLaws {S} (m : CaOperations S) : Prop := {
  generate_own k p : own_tables (op_generate m k p);
  import_own k sk p : own_tables (op_import m k sk p);
  rename_own i k : own_tables (op_rename m i k);
  enable_own i : own_tables (op_enable m i);
  disable_own i : own_tables (op_disable m i);
  retire_own i : own_tables (op_retire m i);
  delete_own i : own_tables (op_delete m i);
}.

Create HintDb ca_ops discriminated.
#[export] Hint Resolve generate_own import_own rename_own enable_own disable_own retire_own
  delete_own : ca_ops.

(** The shared state as these routes see it. *)
Record CaAppState (S : Type) : Type := MkCaAppState {
  as_app : AppState;
  as_ca : option (CaOperations S);
  as_signer : option BundleSigner;
  as_bundle_ttl : Z;
}.
Arguments as_app {S} _.
Arguments as_ca {S} _.
Arguments as_signer {S} _.
Arguments as_bundle_ttl {S} _.

(** [validate_key_id] ([src/src/ca/models.rs]), which the manager applies to new names. *)
Definition MAX_CA_KEY_ID_LEN : Z := 64.

Definition key_id_char (c : ascii) : bool :=
  is_ascii_alphanumeric c || bool_decide (c ∈ ["-"; "_"; "."; ":"]%char).

Definition validate_ca_key_id (key_id : string) : result unit string :=
  let trimmed := trim key_id in
  guard? negb (str_is_empty trimmed) else "key_id must not be empty" in
  guard? negb (MAX_CA_KEY_ID_LEN <? str_len trimmed)%Z
  else "key_id must be at most " +:+ display_int MAX_CA_KEY_ID_LEN +:+ " characters" in
  guard? bool_decide (trimmed = key_id)
  else "key_id must not have leading or trailing whitespace" in
  guard? str_all key_id_char key_id
  else "key_id may only contain alphanumerics and '-', '_', '.', ':'" in
  Ok tt.

(** One request: the readings for the check and the first audit entry, those for a second
    entry, and the reading of the final view. *)
Record CaCall : Type := MkCaCall {
  cq_call : Call;
  cq_second : Call;
  cq_view_now : Z;
}.

Record GenerateCaRequest : Type := MkGenerateCaRequest { gr_key_id : string; gr_passphrase : string }.
Record ImportCaRequest : Type := MkImportCaRequest {
  im_key_id : string;
  im_private_key : string;
  im_passphrase : string;
}.
Record PatchCaRequest : Type := MkPatchCaRequest {
  pt_enabled : option bool;
  pt_key_id : option string;
}.
Record RotateCaRequest : Type := MkRotateCaRequest {
  rt_key_id : option string;
  rt_passphrase : string;
}.

Record DeleteCaResponse : Type := MkDeleteCaResponse {
  dr_deleted : bool;
  dr_id : string;
  dr_key_id : string;
}.

Record RotationResult (View : Type) : Type := MkRotationResult {
  rr_new_ca : View;
  rr_previous_active : list View;
  rr_rollout : FleetStatus;
  rr_warnings : list string;
}.
Arguments MkRotationResult {View} _ _ _ _.
Arguments rr_new_ca {View} _.
Arguments rr_previous_active {View} _.
Arguments rr_rollout {View} _.
Arguments rr_warnings {View} _.

(** [format!("{:.1}", x)] for a finite double that is not negative: the exact value times
    ten, rounded half to even. *)
Definition format_tenths (x : spec_float) : string :=
  let n := match x with
           | S754_finite false m e =>
               if (0 <=? e)%Z then (Z.pos m * 2 ^ e * 10)%Z
               else
                 let d := (2 ^ (- e))%Z in
                 let q := (Z.pos m * 10 `div` d)%Z in
                 let r := (Z.pos m * 10 `mod` d)%Z in
                 if (d <? 2 * r)%Z || ((2 * r =? d)%Z && Z.odd q) then (q + 1)%Z else q
           | _ => 0%Z
           end in
  display_int (n `div` 10)%Z +:+ "." +:+ display_int (n `mod` 10)%Z.

Section ca_routes.
Context `{Sha256, HexEncode, Chrono, SerdeJson, SshKey, DebugStrings}.
Context {S View Stats : Type}.
(** [now.format(..)] with the pattern of the generated key ids, [CaView::from_record] and
    [CaStats::from_records]. *)
Context (format_stamp : Z → string).
Context (CaView_from_record : CaRecord → Z → Z → View).
Context (CaStats_from_records : list CaRecord → Z → string → Stats).

Implicit Types (st : CaAppState S) (q : CaCall) (ca : CaOperations S).

(** ** Helpers *)
Definition require_ca_manager st : result (CaOperations S) ApiError :=
  ok_or (Internal (CauseMessage "certificate authority is not configured")) (as_ca st).

(** The bundle service over the manager as it stands. *)
Definition ca_bundle_service st (s : S) : option BundleService :=
  ca ← as_ca st;
  signer ← as_signer st;
  Some (BundleService_new (op_snapshot ca s) signer (as_bundle_ttl st)).

Definition require_bundle_service st : M (Host S) ApiError BundleService := λ h,
  (ok_or (Internal (CauseMessage
     "bundle distribution is not configured (missing CA manager or signing key)"))
     (ca_bundle_service st (ho_ca h)), h).

Definition ca_generation ca (h : Host S) : Z := cm_generation (op_snapshot ca (ho_ca h)).

Definition view st q (record : CaRecord) : M (Host S) ApiError View :=
  gets (λ h, CaView_from_record record (default 0%Z ((λ ca, ca_generation ca h) <$> as_ca st))
               (cq_view_now q)).

Definition get_ca ca (i : string) : M (Host S) ApiError CaRecord := λ h,
  (ok_or (NotFound ("ca '" +:+ i +:+ "' was not found"))
     (cm_get (op_snapshot ca (ho_ca h)) i), h).

Definition authorize_ca st q (action : string) : M (Host S) ApiError Identity :=
  in_world (ca_authorize_admin (as_app st) (cq_call q) action).

(** The metadata of a lifecycle entry; [extra] is merged into it. *)
Definition ca_event (identity : Identity) (c : Call) (action : string) (record : CaRecord)
    (extra : list (string * Value)) : NewAuditEntry :=
  with_metadata (json_object ([("id", VString (ca_id record));
                               ("fingerprint", VString (ca_fingerprint record));
                               ("enabled", VBool (ca_enabled record));
                               ("provider", VString (id_provider identity));
                               ("subject", VString (id_subject identity));
                               ("client", client_context identity c)] ++ extra))
    (with_subject (ca_key_id record) (NewAuditEntry_new action (id_username identity))).

Definition audit_ca (identity : Identity) (c : Call) (action : string) (record : CaRecord)
    (extra : list (string * Value)) : M (Host S) ApiError unit :=
  _ ← in_world (with_err ApiError_of_audit (append_audit_event (cl_audit_now c)
        (ca_event identity c action record extra)));
  ret tt.

Definition json_opt_number (o : option Z) : Value :=
  match o with Some n => VNumber n | None => VNull end.

Definition retirement_event (identity : Identity) (c : Call) (action : string)
    (a : RetirementAssessment) (forced : bool) : NewAuditEntry :=
  with_metadata (json_object [("id", VString (ra_id a));
                              ("affected_machines", VNumber (ra_affected_machines a));
                              ("oldest_generation", json_opt_number (ra_oldest_generation a));
                              ("latest_generation", json_opt_number (ra_latest_generation a));
                              ("forced", VBool forced);
                              ("reason", VString (ra_reason a));
                              ("provider", VString (id_provider identity));
                              ("subject", VString (id_subject identity));
                              ("client", client_context identity c)])
    (with_subject (ra_key_id a) (NewAuditEntry_new action (id_username identity))).

Definition audit_retirement (identity : Identity) (c : Call) (action : string)
    (a : RetirementAssessment) (forced : bool) : M (Host S) ApiError unit :=
  _ ← in_world (with_err ApiError_of_audit (append_audit_event (cl_audit_now c)
        (retirement_event identity c action a forced)));
  ret tt.

(** [CaError] of the bundle service, as the routes answer it. *)
Definition ApiError_of_assessment (e : BundleService.CaError) : ApiError :=
  match e with
  | BundleService.CaNotFound i => ApiError_of_ca (Certificates.CaNotFound i)
  | CaRepository err => Internal (CauseSqlx err)
  end.

Definition assess (service : BundleService) (i : string) : M (Host S) ApiError RetirementAssessment :=
  in_world (with_err ApiError_of_assessment (assess_retirement service i)).

(** ** Lifecycle *)
Definition created (v : View) : Z * View := (201%Z, v).

Definition ca_generate st q (request : GenerateCaRequest) : M (Host S) ApiError (Z * View) :=
  identity ← authorize_ca st q "ca.generate";
  ca ← lift (require_ca_manager st);
  record ← with_err ApiError_of_ca (op_generate ca (trim (gr_key_id request)) (gr_passphrase request));
  _ ← audit_ca identity (cq_call q) "ca.generated" record [];
  v ← view st q record;
  ret (created v).

Definition ca_import st q (request : ImportCaRequest) : M (Host S) ApiError (Z * View) :=
  identity ← authorize_ca st q "ca.import";
  ca ← lift (require_ca_manager st);
  record ← with_err ApiError_of_ca
             (op_import ca (trim (im_key_id request)) (im_private_key request) (im_passphrase request));
  _ ← audit_ca identity (cq_call q) "ca.imported" record [];
  v ← view st q record;
  ret (created v).

(** The renaming half of [patch]. *)
Definition patch_rename st q ca (identity : Identity) (i : string) (request : PatchCaRequest)
    (record : CaRecord) : M (Host S) ApiError CaRecord :=
  match trim <$> pt_key_id request with
  | Some new_key_id =>
      if negb (bool_decide (new_key_id = ca_key_id record)) then
        record ← with_err ApiError_of_ca (op_rename ca i new_key_id);
        _ ← audit_ca identity (cq_call q) "ca.renamed" record [];
        ret record
      else ret record
  | None => ret record
  end.

Definition toggle_action (enabled : bool) : string := if enabled then "ca.enabled" else "ca.disabled".

(** The enabling half. *)
Definition patch_toggle st q ca (identity : Identity) (i : string) (request : PatchCaRequest)
    (record : CaRecord) : M (Host S) ApiError CaRecord :=
  match pt_enabled request with
  | Some enabled =>
      let changed := negb (bool_decide (enabled = ca_enabled record)) in
      record ← with_err ApiError_of_ca (if enabled : bool then op_enable ca i else op_disable ca i);
      if changed then
        _ ← audit_ca identity (cq_second q) (toggle_action enabled) record [];
        ret record
      else ret record
  | None => ret record
  end.

Definition patch st q (i : string) (request : PatchCaRequest) : M (Host S) ApiError View :=
  identity ← authorize_ca st q "ca.patch";
  ca ← lift (require_ca_manager st);
  _ ← ensure (negb (bool_decide (pt_enabled request = None) && bool_decide (pt_key_id request = None)))
        (BadRequest "patch must set at least one of 'enabled' or 'key_id'");
  record ← get_ca ca i;
  record ← patch_rename st q ca identity i request record;
  record ← patch_toggle st q ca identity i request record;
  view st q record.

Definition ca_enable st q (i : string) : M (Host S) ApiError View :=
  identity ← authorize_ca st q "ca.enable";
  ca ← lift (require_ca_manager st);
  before ← get_ca ca i;
  record ← with_err ApiError_of_ca (op_enable ca i);
  _ ← (if negb (ca_enabled before) then audit_ca identity (cq_call q) "ca.enabled" record []
       else ret tt);
  view st q record.

Definition ca_disable st q (i : string) : M (Host S) ApiError View :=
  identity ← authorize_ca st q "ca.disable";
  ca ← lift (require_ca_manager st);
  before ← get_ca ca i;
  record ← with_err ApiError_of_ca (op_disable ca i);
  _ ← (if ca_enabled before then audit_ca identity (cq_call q) "ca.disabled" record []
       else ret tt);
  view st q record.

(** ** Rotation *)
Definition rotation_key_id q (request : RotateCaRequest) : string :=
  match non_empty (rt_key_id request) with
  | Some k => k
  | None => "mayfly-ca-" +:+ format_stamp (cl_now (cq_call q))
  end.

Definition machines_on_latest (f : FleetStatus) : Z :=
  foldr Z.add 0%Z (gc_count <$> List.filter (λ g, (gc_generation g =? fs_latest_generation f)%Z)
                                   (fs_generations f)).

Definition rotation_warnings (new_record : CaRecord) (generation : Z)
    (previous_active : list CaRecord) (rollout : FleetStatus) : list string :=
  let behind := Z.max (fs_total_machines rollout - machines_on_latest rollout) 0 in
  ["New CA '" +:+ ca_key_id new_record +:+ "' is active at generation " +:+ display_int generation
   +:+ ". The previous CA(s) remain active during rollout."] ++
  (if bool_decide (previous_active = []) then [] else
     ["Do NOT disable or retire the previous CA(s) until the fleet reaches 100% on the new generation — hosts that have not yet synced would lose trust."]) ++
  (if (0 <? behind)%Z then
     [display_int behind +:+ " machine(s) are not yet on generation " +:+ display_int generation
      +:+ " (" +:+ format_tenths (fs_rollout_percentage rollout) +:+ "% converged)."]
   else []).

Definition rotate st q (request : RotateCaRequest) : M (Host S) ApiError (Z * RotationResult View) :=
  identity ← authorize_ca st q "ca.rotate";
  ca ← lift (require_ca_manager st);
  _ ← require_bundle_service st;
  previous_active ← gets (λ h, op_active_keys ca (ho_ca h));
  new_record ← with_err ApiError_of_ca
                 (op_generate ca (rotation_key_id q request) (rt_passphrase request));
  generation ← gets (ca_generation ca);
  _ ← audit_ca identity (cq_call q) "ca.rotated" new_record
        [("generation", VNumber generation);
         ("previous_active", VArray (VString <$> (ca_key_id <$> previous_active)))];
  service ← require_bundle_service st;
  rollout ← in_world (with_err ApiError_of_sqlx (fleet_status service (cl_now (cq_call q))));
  new_ca ← view st q new_record;
  ret (201%Z, MkRotationResult new_ca
         ((λ r, CaView_from_record r generation (cl_now (cq_call q))) <$> previous_active)
         rollout (rotation_warnings new_record generation previous_active rollout)).

(** ** Retirement and deletion *)

(** Both act only on a safe assessment or by force: an unsafe attempt without force is
    recorded and refused, a forced one recorded before it acts. *)
Definition refuse_or_force q (identity : Identity) (a : RetirementAssessment) (force : bool)
    (denied forced refusal : string) : M (Host S) ApiError unit :=
  if negb (ra_safe a) && negb force then
    _ ← audit_retirement identity (cq_call q) denied a false;
    throw (Conflict (refusal +:+ ra_reason a))
  else if negb (ra_safe a) then audit_retirement identity (cq_call q) forced a true
  else ret tt.

Definition retire st q (i : string) (request : option bool) : M (Host S) ApiError View :=
  identity ← authorize_ca st q "ca.retire";
  ca ← lift (require_ca_manager st);
  service ← require_bundle_service st;
  let force := default false request in
  a ← assess service i;
  _ ← refuse_or_force q identity a force "ca.retirement.denied" "ca.retirement.forced"
        "retirement unsafe: ";
  record ← with_err ApiError_of_ca (op_retire ca i);
  _ ← audit_ca identity (cq_second q) "ca.retired" record
        [("forced", VBool (negb (ra_safe a)));
         ("affected_machines", VNumber (ra_affected_machines a))];
  view st q record.

Definition delete_ca st q (i : string) (force : bool) : M (Host S) ApiError DeleteCaResponse :=
  identity ← authorize_ca st q "ca.delete";
  ca ← lift (require_ca_manager st);
  service ← require_bundle_service st;
  record ← get_ca ca i;
  _ ← ensure (negb (ca_enabled record))
        (Conflict ("cannot delete ca '" +:+ ca_key_id record +:+
                   "': it is still active (disable it first)"));
  a ← assess service i;
  _ ← refuse_or_force q identity a force "ca.delete.denied" "ca.delete.forced" "delete unsafe: ";
  deleted ← with_err ApiError_of_ca (op_delete ca i);
  _ ← audit_ca identity (cq_second q) "ca.deleted" deleted [("forced", VBool (negb (ra_safe a)))];
  ret (MkDeleteCaResponse true (ca_id deleted) (ca_key_id deleted)).

(** ** Reads *)
Definition list_cas st q : M (Host S) ApiError (list View) :=
  _ ← authorize_ca st q "ca.list";
  ca ← lift (require_ca_manager st);
  gets (λ h, (λ r, CaView_from_record r (ca_generation ca h) (cl_now (cq_call q)))
             <$> op_list ca (ho_ca h)).

Definition ca_stats st q : M (Host S) ApiError Stats :=
  _ ← authorize_ca st q "ca.stats";
  ca ← lift (require_ca_manager st);
  gets (λ h, CaStats_from_records (op_list ca (ho_ca h)) (ca_generation ca h)
               (cm_bundle_fingerprint (op_snapshot ca (ho_ca h)))).

Definition public_bundle st q : M (Host S) ApiError PublicBundle :=
  _ ← authorize_ca st q "ca.bundle";
  ca ← lift (require_ca_manager st);
  gets (λ h, cm_public_bundle (op_snapshot ca (ho_ca h))).

Definition get_one st q (i : string) : M (Host S) ApiError View :=
  _ ← authorize_ca st q "ca.get";
  ca ← lift (require_ca_manager st);
  record ← get_ca ca i;
  view st q record.

Definition export_public_key st q (i : string) : M (Host S) ApiError CaPublicKeyEntry :=
  _ ← authorize_ca st q "ca.export";
  ca ← lift (require_ca_manager st);
  r ← get_ca ca i;
  ret (MkCaPublicKeyEntry (ca_key_id r) (ca_public_key r) (ca_fingerprint r)).

Definition retirement st q (i : string) : M (Host S) ApiError RetirementAssessment :=
  _ ← authorize_ca st q "ca.retirement";
  service ← require_bundle_service st;
  assess service i.

Definition bundle_status st q : M (Host S) ApiError FleetStatus :=
  _ ← authorize_ca st q "bundle.status";
  service ← require_bundle_service st;
  in_world (with_err ApiError_of_sqlx (fleet_status service (cl_now (cq_call q)))).

(** ** Changes *)
Inductive CaAction : Type :=
| Generate (request : GenerateCaRequest)
| Import (request : ImportCaRequest)
| Patch (i : string) (request : PatchCaRequest)
| EnableCa (i : string)
| DisableCa (i : string)
| Rotate (request : RotateCaRequest)
| Retire (i : string) (force : option bool)
| DeleteCa (i : string) (force : bool).

Definition perform_ca st q (a : CaAction) : M (Host S) ApiError unit :=
  match a with
  | Generate request => _ ← ca_generate st q request; ret tt
  | Import request => _ ← ca_import st q request; ret tt
  | Patch i request => _ ← patch st q i request; ret tt
  | EnableCa i => _ ← ca_enable st q i; ret tt
  | DisableCa i => _ ← ca_disable st q i; ret tt
  | Rotate request => _ ← rotate st q request; ret tt
  | Retire i force => _ ← retire st q i force; ret tt
  | DeleteCa i force => _ ← delete_ca st q i force; ret tt
  end.

(** The event types a permitted operator's change may leave in the log, in order, when it
    succeeds and when it fails. *)
Definition success_traces (a : CaAction) : list (list string) :=
  match a with
  | Generate _ => [["ca.generated"]]
  | Import _ => [["ca.imported"]]
  | Patch _ _ => [[]; ["ca.renamed"]; ["ca.enabled"]; ["ca.disabled"];
                  ["ca.renamed"; "ca.enabled"]; ["ca.renamed"; "ca.disabled"]]
  | EnableCa _ => [["ca.enabled"]; []]
  | DisableCa _ => [["ca.disabled"]; []]
  | Rotate _ => [["ca.rotated"]]
  | Retire _ _ => [["ca.retired"]; ["ca.retirement.forced"; "ca.retired"]]
  | DeleteCa _ _ => [["ca.deleted"]; ["ca.delete.forced"; "ca.deleted"]]
  end.

Definition failure_traces (a : CaAction) : list (list string) :=
  match a with
  | Patch _ _ => [[]; ["ca.renamed"]]
  | Rotate _ => [[]; ["ca.rotated"]]
  | Retire _ _ => [[]; ["ca.retirement.denied"]; ["ca.retirement.forced"]]
  | DeleteCa _ _ => [[]; ["ca.delete.denied"]; ["ca.delete.forced"]]
  | _ => [[]]
  end.

(** The log has grown by entries of these types, all under one name. *)
Definition logged (actor : string) (tys : list string) (d d' : Db) : Prop :=
  ∃ rows es, audit_log d' = audit_log d ++ rows ∧ Forall2 decodes rows es ∧
    ae_event_type <$> es = tys ∧ Forall (λ e, ae_actor e = actor) es.

(** *** Traces *)

(** From a good log, the computation leaves a good log, grown by one of these traces. *)
Definition writes {A} (actor : string) (ok err : list (list string)) (m : M (Host S) ApiError A)
  : Prop := ∀ h r h', audit_ok (h_db h) → m h = (r, h') →
  audit_ok (h_db h') ∧ ∃ tys, logged actor tys (h_db h) (h_db h') ∧
    tys ∈ match r with Ok _ => ok | Err _ => err end.

Definition cross (l1 l2 : list (list string)) : list (list string) :=
  flat_map (λ t1, (λ t2, t1 ++ t2) <$> l2) l1.

Lemma elem_of_cross t1 t2 l1 l2 : t1 ∈ l1 → t2 ∈ l2 → t1 ++ t2 ∈ cross l1 l2.
Proof.
  intros Hx1 Hx2. apply list_elem_of_In, in_flat_map. exists t1. split; [by apply list_elem_of_In|].
  apply list_elem_of_In, list_elem_of_fmap. eauto.
Qed.

Lemma logged_nil actor d d' : audit_log d' = audit_log d → logged actor [] d d'.
Proof. intros He. exists [], []. rewrite He, app_nil_r. by repeat constructor. Qed.

Lemma logged_app actor t1 t2 d d1 d' :
  logged actor t1 d d1 → logged actor t2 d1 d' → logged actor (t1 ++ t2) d d'.
Proof.
  intros (r1 & e1 & Hx1 & Hd1 & <- & Ha1) (r2 & e2 & Hx2 & Hd2 & <- & Ha2).
  exists (r1 ++ r2), (e1 ++ e2). rewrite Hx2, Hx1, app_assoc, fmap_app.
  split_and!; [done|by apply Forall2_app|done|by apply Forall_app].
Qed.

Lemma writes_bind {A B} actor ok1 err1 ok2 err2 (m : M (Host S) ApiError A)
    (f : A → M (Host S) ApiError B) :
  writes actor ok1 err1 m → (∀ a, writes actor ok2 err2 (f a)) →
  writes actor (cross ok1 ok2) (err1 ++ cross ok1 err2) (m ≫= f).
Proof.
  intros Hm Hf h r h' Hok. unfold mbind, M_bind. destruct (m h) as [x h1] eqn:Hr.
  apply Hm in Hr as (Hok1 & t1 & Hl1 & Ht1); [|done]. destruct x as [a|e].
  - intros Hr2. apply Hf in Hr2 as (Hok2 & t2 & Hl2 & Ht2); [|done]. split; [done|].
    exists (t1 ++ t2). split; [by eapply logged_app|].
    destruct r; [by apply elem_of_cross|]. apply elem_of_app. right. by apply elem_of_cross.
  - intros [= <- <-]. split; [done|]. exists t1. split; [done|]. apply elem_of_app. by left.
Qed.

Lemma writes_silent {A} actor (m : M (Host S) ApiError A) :
  (∀ h r h', m h = (r, h') → audit_log (h_db h') = audit_log (h_db h)) → writes actor [[]] [[]] m.
Proof.
  intros Hm h r h' Hok Hr. apply Hm in Hr. split; [unfold audit_ok; by rewrite Hr|].
  exists []. split; [by apply logged_nil|]. destruct r; apply list_elem_of_here.
Qed.

Lemma writes_weaken {A} actor ok err ok' err' (m : M (Host S) ApiError A) :
  writes actor ok err m → ok ⊆ ok' → err ⊆ err' → writes actor ok' err' m.
Proof.
  intros Hm Ho He h r h' Hok Hr. apply Hm in Hr as (Hok' & t & Hl & Ht); [|done].
  split; [done|]. exists t. split; [done|]. destruct r; [by apply Ho|by apply He].
Qed.

(** Inclusion of concrete lists of traces, by computation. *)
Definition included (l l' : list (list string)) : bool := forallb (λ t, bool_decide (t ∈ l')) l.

Lemma included_sub l l' : included l l' = true → l ⊆ l'.
Proof.
  unfold included. rewrite forallb_forall. intros Hi t Ht.
  apply list_elem_of_In, Hi in Ht. by bool_prop.
Qed.

Lemma writes_op {A} actor (m : M (Host S) Certificates.CaError A) :
  own_tables m → writes actor [[]] [[]] (with_err ApiError_of_ca m).
Proof.
  intros Hm. apply writes_silent. intros h r h'. unfold with_err.
  destruct (m h) as [x h1] eqn:Hr. apply Hm in Hr.
  destruct x; intros [= _ <-]; by rewrite Hr.
Qed.

Lemma writes_pure {A} actor (f : Host S → result A ApiError) :
  writes actor [[]] [[]] (λ h, (f h, h)).
Proof. apply writes_silent. by intros h r h' [= _ <-]. Qed.

Lemma writes_gets {A} actor (f : Host S → A) : writes actor [[]] [] (gets f).
Proof.
  intros h r h' Hok [= <- <-]. split; [done|]. exists []. split; [by apply logged_nil|].
  apply list_elem_of_here.
Qed.
Lemma writes_ret {A} actor (a : A) : writes actor [[]] [] (ret a).
Proof. apply (writes_gets actor (λ _, a)). Qed.
Lemma writes_throw {A} actor e : writes (A := A) actor [] [[]] (throw e).
Proof.
  intros h r h' Hok [= <- <-]. split; [done|]. exists []. split; [by apply logged_nil|].
  apply list_elem_of_here.
Qed.

Lemma writes_ensure actor b e : writes actor [[]] [[]] (ensure b e).
Proof. apply writes_silent. unfold ensure. destruct b; by intros h r h' [= _ <-]. Qed.

Lemma writes_if {A} actor ok1 err1 ok2 err2 (b : bool) (m1 m2 : M (Host S) ApiError A) :
  writes actor ok1 err1 m1 → writes actor ok2 err2 m2 →
  writes actor (ok1 ++ ok2) (err1 ++ err2) (if b then m1 else m2).
Proof.
  intros Hm1 Hm2 h r h' Hok Hr. destruct b; [apply Hm1 in Hr|apply Hm2 in Hr]; try done;
    destruct Hr as (Hok' & t & Hl & Ht); (split; [done|]); exists t; (split; [done|]);
    destruct r; apply elem_of_app; auto.
Qed.

Lemma writes_option {A B} actor ok1 err1 ok2 err2 (o : option B)
    (f : B → M (Host S) ApiError A) (m : M (Host S) ApiError A) :
  (∀ b, writes actor ok1 err1 (f b)) → writes actor ok2 err2 m →
  writes actor (ok1 ++ ok2) (err1 ++ err2) (match o with Some b => f b | None => m end).
Proof.
  intros Hm1 Hm2 h r h' Hok Hr. destruct o as [b|]; [apply Hm1 in Hr|apply Hm2 in Hr]; try done;
    destruct Hr as (Hok' & t & Hl & Ht); (split; [done|]); exists t; (split; [done|]);
    destruct r; apply elem_of_app; auto.
Qed.

Lemma writes_read {A} actor (m : M World ApiError A) :
  frame same_log m → writes actor [[]] [[]] (in_world m).
Proof.
  intros Hm. apply writes_silent. intros h r h'. unfold in_world.
  destruct (m (ho_world h)) as [x w] eqn:Hr. apply Hm in Hr. by intros [= _ <-].
Qed.

Lemma assess_frame service i : frame same_log (with_err ApiError_of_assessment (assess_retirement service i)).
Proof.
  unfold assess_retirement. apply frame_with_err, frame_bind; [typeclasses eauto|eauto with frame|].
  intros record. destruct (ca_enabled record); eauto 10 with frame.
Qed.

Lemma fleet_frame service now : frame same_log (with_err ApiError_of_sqlx (fleet_status service now)).
Proof. unfold fleet_status. eauto 10 with frame. Qed.

Lemma wf_strings l : forallb wf_value (VString <$> l) = true.
Proof. by induction l. Qed.

Lemma ca_event_ok now identity c action record extra :
  rfc3339_range now = true → forallb (λ kv, wf_value kv.2) extra = true →
  event_ok now (ca_event identity c action record extra) = true.
Proof.
  intros. apply event_ok_object; [done|]. cbn -[to_value client_context].
  by rewrite client_context_wf.
Qed.

Lemma retirement_event_ok now identity c action a forced :
  rfc3339_range now = true → event_ok now (retirement_event identity c action a forced) = true.
Proof.
  intros. apply event_ok_object; [done|]. cbn -[to_value client_context].
  rewrite client_context_wf.
  by destruct (ra_oldest_generation a), (ra_latest_generation a).
Qed.

(** The readings of the clock that reach the log. *)
Definition call_in_range q : Prop :=
  rfc3339_range (cl_audit_now (cq_call q)) = true ∧
  rfc3339_range (cl_audit_now (cq_second q)) = true.

Section with_laws.
Context `{!ChronoLaws, !SerdeJsonLaws}.

Lemma writes_append actor now event :
  event_ok now event = true → ne_actor event = actor →
  writes actor [[ne_event_type event]] [[]]
    (in_world (with_err ApiError_of_audit (append_audit_event now event))).
Proof.
  intros Hev <- h r h' Hok. unfold in_world.
  destruct (with_err _ _ _) as [x w] eqn:Hr. apply append_outcome in Hr; [|done|done].
  intros [= <- <-]. unfold h_db in *. simpl. destruct x as [e|e].
  - destruct Hr as (row & e' & Hl & Hd & Hty & Hac & _ & _ & _ & _ & Hok'). split; [done|].
    exists [ne_event_type event]. split; [|apply list_elem_of_here].
    exists [row], [e']. simpl. rewrite Hty. repeat constructor; done.
  - rewrite Hr. split; [done|]. exists []. split; [by apply logged_nil|apply list_elem_of_here].
Qed.

Lemma writes_audit_ca identity c action record extra :
  rfc3339_range (cl_audit_now c) = true → forallb (λ kv, wf_value kv.2) extra = true →
  writes (id_username identity) [[action]] [[]] (audit_ca identity c action record extra).
Proof.
  intros Hn He. eapply writes_weaken.
  - apply writes_bind; [by apply writes_append, eq_refl; apply ca_event_ok|].
    intros ?. apply writes_ret.
  - by apply (reflexivity (R := (⊆)) [[action]]).
  - by apply (reflexivity (R := (⊆)) [[]]).
Qed.

Lemma writes_toggle identity c enabled record :
  rfc3339_range (cl_audit_now c) = true →
  writes (id_username identity) [["ca.enabled"]; ["ca.disabled"]] [[]]
    (audit_ca identity c (toggle_action enabled) record []).
Proof.
  intros Hn. eapply writes_weaken; [by apply writes_audit_ca| |done].
  destruct enabled; set_solver.
Qed.

Lemma writes_audit_retirement identity c action a forced :
  rfc3339_range (cl_audit_now c) = true →
  writes (id_username identity) [[action]] [[]] (audit_retirement identity c action a forced).
Proof.
  intros Hn. eapply writes_weaken.
  - apply writes_bind; [by apply writes_append, eq_refl; apply retirement_event_ok|].
    intros ?. apply writes_ret.
  - by apply (reflexivity (R := (⊆)) [[action]]).
  - by apply (reflexivity (R := (⊆)) [[]]).
Qed.

Definition manager_laws st : Prop := ∀ ca, as_ca st = Some ca → CaOperationsLaws ca.

Lemma writes_manager {A} actor ok err st (f : CaOperations S → M (Host S) ApiError A) :
  manager_laws st → (∀ ca, CaOperationsLaws ca → writes actor ok err (f ca)) →
  writes actor ok ([] :: err) (lift (require_ca_manager st) ≫= f).
Proof.
  intros Hl Hf h r h' Hok. unfold mbind, M_bind, lift, require_ca_manager.
  destruct (as_ca st) as [ca|] eqn:Hca; simpl.
  - intros Hr. apply Hf in Hr as (Hok' & t & Hlog & Ht); [|by apply Hl|done].
    split; [done|]. exists t. split; [done|]. destruct r; [done|by right].
  - intros [= <- <-]. split; [done|]. exists []. split; [by apply logged_nil|].
    apply list_elem_of_here.
Qed.

Lemma writes_refuse_or_force q identity a force denied forced refusal :
  call_in_range q →
  writes (id_username identity) [[]; [forced]] [[]; [denied]]
    (refuse_or_force q identity a force denied forced refusal).
Proof.
  intros [Hn _]. unfold refuse_or_force.
  destruct (ra_safe a), force; simpl.
  1,2: eapply writes_weaken; [apply writes_ret|set_solver|set_solver].
  - eapply writes_weaken; [by apply writes_audit_retirement|set_solver|set_solver].
  - eapply writes_weaken; [eapply writes_bind|..].
    + by apply writes_audit_retirement.
    + intros ?. apply writes_throw.
    + set_solver.
    + set_solver.
Qed.

(** What each operation after the check writes. *)
Ltac writes_auto :=
  lazymatch goal with
  | |- writes _ _ _ (lift (require_ca_manager _) ≫= _) =>
      eapply writes_manager; [done|intros ? ?; writes_auto]
  | |- writes _ _ _ (@mbind _ _ _ _ _ _) => eapply writes_bind; [writes_auto|intros ?; writes_auto]
  | |- writes _ _ _ (lift ?r) => apply (writes_pure _ (λ _, r))
  | |- writes _ _ _ (require_bundle_service _) => apply writes_pure
  | |- writes _ _ _ (get_ca _ _) => apply writes_pure
  | |- writes _ _ _ (ensure _ _) => apply writes_ensure
  | |- writes _ _ _ (audit_ca _ _ (toggle_action _) _ _) => by apply writes_toggle
  | |- writes _ _ _ (view _ _ _) => apply writes_gets
  | |- writes _ _ _ (gets _) => apply writes_gets
  | |- writes _ _ _ (ret _) => apply writes_ret
  | |- writes _ _ _ (throw _) => apply writes_throw
  | |- writes _ _ _ (assess _ _) => apply writes_read, assess_frame
  | |- writes _ _ _ (in_world (with_err _ (fleet_status _ _))) => apply writes_read, fleet_frame
  | |- writes _ _ _ (audit_ca _ _ _ _ _) => apply writes_audit_ca; [done|cbn; rewrite ?wf_strings; done]
  | |- writes _ _ _ (refuse_or_force _ _ _ _ _ _ _) => by apply writes_refuse_or_force
  | |- writes _ _ _ (audit_retirement _ _ _ _ _) => by apply writes_audit_retirement
  | |- writes _ _ _ (with_err ApiError_of_ca (if _ then _ else _)) =>
      apply writes_op; case_match; eauto with ca_ops
  | |- writes _ _ _ (with_err ApiError_of_ca _) => apply writes_op; eauto with ca_ops
  | |- writes _ _ _ (if _ then _ else _) => eapply writes_if; writes_auto
  | |- writes _ _ _ (match _ with Some _ => _ | None => _ end) =>
      eapply writes_option; [intros ?|]; writes_auto
  end.
Ltac writes_route :=
  eapply writes_weaken;
    [writes_auto|apply included_sub; vm_compute; reflexivity|apply included_sub; vm_compute; reflexivity].


(** *** Accountability *)
Definition accountable_ca {A} st q (ok err : list (list string)) (m : M (Host S) ApiError A) : Prop :=
  ∀ h r h', audit_ok (h_db h) → m h = (r, h') →
  match r with
  | Ok _ => ∃ identity tys, caller (as_app st) (cq_call q) identity ∧
      permitted (st_access (as_app st)) identity ∧ tys ∈ ok ∧
      logged (id_username identity) tys (h_db h) (h_db h')
  | Err _ => (ho_ca h' = ho_ca h ∧ same_but_audit (h_db h) (h_db h')) ∨
      ∃ identity tys, caller (as_app st) (cq_call q) identity ∧
        permitted (st_access (as_app st)) identity ∧ tys ∈ err ∧
        logged (id_username identity) tys (h_db h) (h_db h')
  end.

(** The check lets a permitted caller through and otherwise writes only to the log. *)
Lemma authorize_ca_outcome st q action h r h' :
  call_in_range q → audit_ok (h_db h) → authorize_ca st q action h = (r, h') →
  ho_ca h' = ho_ca h ∧
  match r with
  | Ok identity => h_db h' = h_db h ∧ caller (as_app st) (cq_call q) identity ∧
      permitted (st_access (as_app st)) identity
  | Err _ => same_but_audit (h_db h) (h_db h')
  end.
Proof.
  intros [Hn _] Hok. unfold authorize_ca, in_world.
  destruct (ca_authorize_admin _ _ _ _) as [x w] eqn:Hr.
  apply (ca_authorize_authorizes _ _ _ Hn) in Hr; [|done].
  intros [= <- <-]. by split.
Qed.

Lemma accountable_ca_bind {A} st q action ok err (f : Identity → M (Host S) ApiError A) :
  call_in_range q → (∀ identity, writes (id_username identity) ok err (f identity)) →
  accountable_ca st q ok err (authorize_ca st q action ≫= f).
Proof.
  intros Hq Hf h r h' Hok. unfold mbind, M_bind. destruct (authorize_ca _ _ _ h) as [x h1] eqn:Ha.
  apply authorize_ca_outcome in Ha as (Hca & Ha); [|done..].
  destruct x as [identity|e]; [|intros [= <- <-]; by left].
  destruct Ha as (Hdb & Hc & Hp). intros Hr. rewrite <-Hdb in Hok |- *.
  apply Hf in Hr as (_ & tys & Hl & Ht); [|done]. destruct r; [|right]; by exists identity, tys.
Qed.

Lemma accountable_ca_ret {A B} st q ok err (m : M (Host S) ApiError A) (b : B) :
  accountable_ca st q ok err m → accountable_ca st q ok err (m ≫= λ _, ret b).
Proof.
  intros Hm h r h' Hok. unfold mbind, M_bind, ret. destruct (m h) as [x h1] eqn:Hr.
  apply Hm in Hr; [|done]. destruct x; by intros [= <- <-].
Qed.

Lemma perform_ca_accountable st q a :
  manager_laws st → call_in_range q →
  accountable_ca st q (success_traces a) (failure_traces a) (perform_ca st q a).
Proof.
  intros Hl Hq. pose proof Hq as [Hn1 Hn2].
  destruct a; apply accountable_ca_ret, accountable_ca_bind; try done; intros identity;
    unfold patch_rename, patch_toggle; writes_route.
Qed.

(** *** What reaches the manager *)

(** [m] never gets as far as changing the manager's state. *)
Definition keeps_ca {A} (m : M (Host S) ApiError A) : Prop := ∀ h r h',
  m h = (r, h') → ho_ca h' = ho_ca h.

Lemma keeps_on_world {A} (m : M World ApiError A) : keeps_ca (in_world m).
Proof. intros h r h'. unfold in_world. destruct (m _) as [x w]. by intros [= _ <-]. Qed.
Lemma keeps_pure {A} (f : Host S → result A ApiError) : keeps_ca (λ h, (f h, h)).
Proof. by intros h r h' [= _ <-]. Qed.
Lemma keeps_bind {A B} (m : M (Host S) ApiError A) (f : A → M (Host S) ApiError B) :
  keeps_ca m → (∀ a, keeps_ca (f a)) → keeps_ca (m ≫= f).
Proof.
  intros Hm Hf h r h'. unfold mbind, M_bind. destruct (m h) as [x h1] eqn:Hr. apply Hm in Hr.
  destruct x; [intros Hr2%Hf; congruence|by intros [= _ <-]].
Qed.
Lemma keeps_audit_ca identity c action record extra :
  keeps_ca (audit_ca identity c action record extra).
Proof. apply keeps_bind; [apply keeps_on_world|]. intros ? h r h' [= _ <-]. done. Qed.
Lemma keeps_refuse_or_force q identity a force denied forced refusal :
  keeps_ca (refuse_or_force q identity a force denied forced refusal).
Proof.
  assert (∀ act b, keeps_ca (audit_retirement identity (cq_call q) act a b)) as Hk.
  { intros. apply keeps_bind; [apply keeps_on_world|]. intros ? h r h' [= _ <-]. done. }
  unfold refuse_or_force. destruct (negb _ && _); [|destruct (negb _)].
  - apply keeps_bind; [done|]. intros ? h r h' [= _ <-]. done.
  - done.
  - intros h r h' [= _ <-]. done.
Qed.

(** A change in a chain happened after its first step succeeded, if that step changes
    nothing. *)
Lemma changed_bind {A B} (m : M (Host S) ApiError A) (f : A → M (Host S) ApiError B) h r h' :
  keeps_ca m → (m ≫= f) h = (r, h') → ho_ca h' ≠ ho_ca h →
  ∃ a h1, m h = (Ok a, h1) ∧ ho_ca h1 = ho_ca h ∧ f a h1 = (r, h') ∧ ho_ca h' ≠ ho_ca h1.
Proof.
  intros Hm. unfold mbind, M_bind. destruct (m h) as [x h1] eqn:Hr. pose proof (Hm _ _ _ Hr) as Hca.
  destruct x as [a|e]; [|intros [= _ <-]; done].
  intros Hr2 Hne. exists a, h1. split_and!; try done. by rewrite Hca.
Qed.

Lemma refuse_or_force_ok_inv q identity a force denied forced refusal h u h' :
  refuse_or_force q identity a force denied forced refusal h = (Ok u, h') →
  ra_safe a = true ∨ force = true.
Proof.
  unfold refuse_or_force. destruct (ra_safe a), force; simpl; [auto..|].
  intros Hr. ok_step. discriminate.
Qed.

Lemma assess_ok_host st h i service a h1 h2 :
  require_bundle_service st h = (Ok service, h1) → assess service i h1 = (Ok a, h2) →
  ∃ ca record, as_ca st = Some ca ∧ cm_get (op_snapshot ca (ho_ca h)) i = Some record ∧
    h_db h2 = h_db h ∧
    (ra_safe a = true → ca_enabled record = false ∧ ∀ r, r ∈ machines (h_db h) →
       ∃ g, mr_synced_generation r = Some g ∧
         (default (ca_generation ca h) (ca_disabled_generation record) <= g)%Z).
Proof.
  unfold require_bundle_service, ca_bundle_service, assess, in_world. intros [= Hb <-].
  destruct (as_ca st) as [ca|]; [|done]. simpl in Hb. destruct (as_signer st); [|done].
  injection Hb as <-. destruct (with_err _ _ _) as [x w] eqn:Ha. intros [= -> <-]. ok_step.
  apply assess_ok_inv in Ha as (Hdb & record & Hg & Hs). by exists ca, record.
Qed.

(** The CA a change would destroy, and whether it is forced. *)
Definition destroys (a : CaAction) : option (string * bool) :=
  match a with
  | Retire i force => Some (i, default false force)
  | DeleteCa i force => Some (i, force)
  | _ => None
  end.

(** Every machine has applied a bundle without the key. *)
Definition fleet_moved_on ca (record : CaRecord) (h : Host S) : Prop :=
  ca_enabled record = false ∧ ∀ r, r ∈ machines (h_db h) →
    ∃ g, mr_synced_generation r = Some g ∧
      (default (ca_generation ca h) (ca_disabled_generation record) <= g)%Z.

Lemma retire_changed st q i force h r h' :
  call_in_range q → audit_ok (h_db h) → retire st q i force h = (r, h') → ho_ca h' ≠ ho_ca h →
  ∃ identity ca record, caller (as_app st) (cq_call q) identity ∧
    permitted (st_access (as_app st)) identity ∧
    as_ca st = Some ca ∧ cm_get (op_snapshot ca (ho_ca h)) i = Some record ∧
    (default false force = false → fleet_moved_on ca record h) ∧
    (ca_enabled record = true → force = Some true).
Proof.
  intros Hq Hok Hr Hne. unfold retire in Hr.
  apply changed_bind in Hr as (identity & h1 & Ha & Hca1 & Hr & Hne1); [|apply keeps_on_world|done].
  apply authorize_ca_outcome in Ha as (_ & Hdb1 & Hc & Hp); [|done..].
  apply changed_bind in Hr as (ca' & h2 & Hreq & Hca2 & Hr & Hne2);
    [|apply (keeps_pure (λ _, _))|done].
  ok_step. apply changed_bind in Hr as (service & h3 & Hb & Hca3 & Hr & Hne3);
    [|apply keeps_pure|done].
  apply changed_bind in Hr as (a & h4 & Has & Hca4 & Hr & Hne4); [|apply keeps_on_world|done].
  apply changed_bind in Hr as (u & h5 & Hf & _ & _ & _); [|apply keeps_refuse_or_force|done].
  apply refuse_or_force_ok_inv in Hf.
  destruct (assess_ok_host _ _ _ _ _ _ _ Hb Has) as (ca & record & Hca & Hget & Hdb & Hsafe).
  unfold ca_generation in Hsafe. rewrite Hca1, Hdb1 in *.
  exists identity, ca, record. unfold fleet_moved_on, ca_generation. split_and!; try done.
  - intros Hd. apply Hsafe. destruct Hf as [|Hf]; [done|congruence].
  - intros Hen. destruct Hf as [Hf|Hf]; [apply Hsafe in Hf as [? _]; congruence|].
    destruct force as [[]|]; done.
Qed.

Lemma delete_changed st q i force h r h' :
  call_in_range q → audit_ok (h_db h) → delete_ca st q i force h = (r, h') → ho_ca h' ≠ ho_ca h →
  ∃ identity ca record, caller (as_app st) (cq_call q) identity ∧
    permitted (st_access (as_app st)) identity ∧
    as_ca st = Some ca ∧ cm_get (op_snapshot ca (ho_ca h)) i = Some record ∧
    (force = false → fleet_moved_on ca record h) ∧ ca_enabled record = false.
Proof.
  intros Hq Hok Hr Hne. unfold delete_ca in Hr.
  apply changed_bind in Hr as (identity & h1 & Ha & Hca1 & Hr & Hne1); [|apply keeps_on_world|done].
  apply authorize_ca_outcome in Ha as (_ & Hdb1 & Hc & Hp); [|done..].
  apply changed_bind in Hr as (ca' & h2 & Hreq & Hca2 & Hr & Hne2);
    [|apply (keeps_pure (λ _, _))|done].
  ok_step. apply changed_bind in Hr as (service & h3 & Hb & Hca3 & Hr & Hne3);
    [|apply keeps_pure|done].
  apply changed_bind in Hr as (before & h4 & Hget' & Hca4 & Hr & Hne4); [|apply keeps_pure|done].
  apply changed_bind in Hr as (u & h5 & He & Hca5 & Hr & Hne5);
    [|unfold ensure; intros ? ? ?; case_match; by intros [= _ <-]|done].
  apply ensure_ok_inv in He as [He ->].
  apply changed_bind in Hr as (a & h6 & Has & Hca6 & Hr & Hne6); [|apply keeps_on_world|done].
  apply changed_bind in Hr as (u' & h7 & Hf & _ & _ & _); [|apply keeps_refuse_or_force|done].
  apply refuse_or_force_ok_inv in Hf.
  unfold get_ca in Hget'. injection Hget' as Hget' <-. pose proof Hb as [_ <-]%pair_equal_spec.
  destruct (assess_ok_host _ _ _ _ _ _ _ Hb Has) as (ca & record & Hca & Hget & Hdb & Hsafe).
  unfold require_ca_manager in Hl. rewrite Hca in Hl. injection Hl as <-.
  rewrite Hget in Hget'. injection Hget' as <-.
  unfold ca_generation in Hsafe. rewrite Hca1, Hdb1 in *.
  exists identity, ca, record. unfold fleet_moved_on, ca_generation.
  split_and!; try done; [|by apply negb_true_iff].
  intros ->. apply Hsafe. by destruct Hf.
Qed.

(** What an unsafe attempt without force comes to. *)
Lemma refuse_runs q identity a denied forced refusal h :
  ra_safe a = false → audit_ok (h_db h) → no_faults (ho_world h) → call_in_range q →
  ∃ h', refuse_or_force q identity a false denied forced refusal h =
          (Err (Conflict (refusal +:+ ra_reason a)), h') ∧ ho_ca h' = ho_ca h ∧
    appended (cl_audit_now (cq_call q)) (retirement_event identity (cq_call q) denied a false)
      (h_db h) (h_db h').
Proof.
  intros Hs Hok Hf [Hn _].
  destruct (append_runs ApiError_of_audit _ _ (ho_world h) Hok
    (retirement_event_ok _ identity (cq_call q) denied a false Hn) Hf) as (e & w & Happ & Hd).
  exists (MkHost (ho_ca h) w). split_and!; [|done|done].
  unfold refuse_or_force, audit_retirement, in_world. rewrite Hs. cbn -[append_audit_event].
  unfold mbind, M_bind. by rewrite Happ.
Qed.

Lemma authorize_ca_allow st q action token identity h :
  BearerToken_from_request (cl_headers (cq_call q)) = Ok token →
  resolve_identity (st_providers (as_app st)) (st_access (as_app st)) None token = Ok identity →
  authorize (st_access (as_app st)) identity = Allow →
  authorize_ca st q action h = (Ok identity, h).
Proof.
  intros Ht Hi Ha. unfold authorize_ca, in_world, ca_authorize_admin, mbind, M_bind, lift.
  rewrite Ht, Hi, Ha. by destruct h.
Qed.

Lemma authorize_ca_ok_inv st q action h identity h' :
  authorize_ca st q action h = (Ok identity, h') → h' = h.
Proof.
  unfold authorize_ca, in_world. destruct (ca_authorize_admin _ _ _ _) as [x w] eqn:Ha.
  intros [= -> <-]. assert (w = ho_world h) as ->; [|by destruct h].
  unfold ca_authorize_admin in Ha. ok_steps. destruct (authorize _ _); by ok_steps.
Qed.

(** The machines a rotation still waits for. *)
Lemma machines_on_latest_exact service now w f w' :
  fleet_status service now w = (Ok f, w') →
  machines_on_latest f =
  rows_where (λ r, bool_decide (mr_synced_generation r = Some (cm_generation (bs_ca service))))
    (machines (db w)).
Proof.
  intros Hf. apply fleet_status_ok_inv in Hf as (_ & Hlat & _ & _ & Hs & Hg).
  unfold machines_on_latest. rewrite Hlat. set (g := cm_generation (bs_ca service)).
  set (n := rows_where _ _). assert (0 <= n)%Z by (unfold n, rows_where; lia).
  assert (NoDup (gc_generation <$> fs_generations f)) as Hnd.
  { clear -Hs. induction Hs as [|x l Hs IH Hx]; csimpl; constructor; [|done].
    intros (y & Hy & Hin)%list_elem_of_fmap. rewrite Forall_forall in Hx. specialize (Hx _ Hin). lia. }
  destruct (decide (n = 0%Z)) as [Hz|Hz].
  - rewrite (List.filter_ext_in _ (λ _, false)).
    { rewrite Hz. clear. by induction (fs_generations f). }
    intros [g' c] Hin%list_elem_of_In. apply Z.eqb_neq. simpl. intros ->.
    apply Hg in Hin as [-> Hpos]. fold n in Hpos. lia.
  - assert (MkGenerationCount g n ∈ fs_generations f) as Hin by (apply Hg; split; [done|lia]).
    rewrite (List.filter_ext _ (λ y, bool_decide (gc_generation y = g) && true)).
    + rewrite (filter_key gc_generation g (λ _, true) _ _ Hnd Hin) by done. simpl. lia.
    + intros y. rewrite andb_true_r. destruct (decide (gc_generation y = g)) as [->|Hne].
      * by rewrite Z.eqb_refl, bool_decide_true.
      * rewrite bool_decide_false by done. by apply Z.eqb_neq.
Qed.

Lemma rows_where_split (p : MachineRow → bool) rows :
  (rows_where p rows + rows_where (λ r, negb (p r)) rows = Z.of_nat (length rows))%Z.
Proof.
  unfold rows_where. induction rows as [|r rows IH]; simpl; [done|]. destruct (p r); simpl; lia.
Qed.

(** The machines that have not applied the generation. *)
Definition waiting (generation : Z) (d : Db) : Z :=
  rows_where (λ r, negb (bool_decide (mr_synced_generation r = Some generation))) (machines d).

Lemma rotation_warnings_exact service now w f w' record generation previous :
  fleet_status service now w = (Ok f, w') → cm_generation (bs_ca service) = generation →
  rotation_warnings record generation previous f =
  ["New CA '" +:+ ca_key_id record +:+ "' is active at generation " +:+ display_int generation
   +:+ ". The previous CA(s) remain active during rollout."] ++
  (if bool_decide (previous = []) then [] else
     ["Do NOT disable or retire the previous CA(s) until the fleet reaches 100% on the new generation — hosts that have not yet synced would lose trust."]) ++
  (if (0 <? waiting generation (db w))%Z then
     [display_int (waiting generation (db w)) +:+ " machine(s) are not yet on generation "
      +:+ display_int generation +:+ " (" +:+ format_tenths (fs_rollout_percentage f)
      +:+ "% converged)."]
   else []).
Proof.
  intros Hf <-. unfold rotation_warnings. erewrite machines_on_latest_exact by done.
  apply fleet_status_ok_inv in Hf as (_ & _ & _ & -> & _).
  assert (Z.max (Z.of_nat (length (machines (db w))) - rows_where
     (λ r, bool_decide (mr_synced_generation r = Some (cm_generation (bs_ca service))))
     (machines (db w))) 0 = waiting (cm_generation (bs_ca service)) (db w))%Z as ->; [|done].
  pose proof (rows_where_split
    (λ r, bool_decide (mr_synced_generation r = Some (cm_generation (bs_ca service))))
    (machines (db w))) as Hs. cbv beta in Hs.
    fold (waiting (cm_generation (bs_ca service)) (db w)) in Hs.
  assert (0 <= waiting (cm_generation (bs_ca service)) (db w))%Z
    by (unfold waiting, rows_where; lia).
  lia.
Qed.

(** ** Theorems *)


(** C10: no key is destroyed under the fleet's feet.  When a retirement or a deletion has
    touched the manager at all, its caller was permitted, the CA existed, and unless the
    request forced it the CA was disabled and every enrolled machine had applied a bundle
    published without it; only a forced retirement reaches the manager with an enabled CA. *)
Theorem destruction_guarded st q a i force h r h' :
  call_in_range q → audit_ok (h_db h) → destroys a = Some (i, force) →
  perform_ca st q a h = (r, h') → ho_ca h' ≠ ho_ca h →
  ∃ identity ca record, caller (as_app st) (cq_call q) identity ∧
    permitted (st_access (as_app st)) identity ∧
    as_ca st = Some ca ∧ cm_get (op_snapshot ca (ho_ca h)) i = Some record ∧
    (force = false → fleet_moved_on ca record h) ∧
    (ca_enabled record = true → a = Retire i (Some true)).
Proof.
  intros Hq Hok Hd Hr Hne.
  assert (∀ A (m : M (Host S) ApiError A), (m ≫= λ _, ret tt) h = (r, h') →
    ∃ r0, m h = (r0, h')) as Hunit.
  { intros A m. unfold mbind, M_bind, ret. destruct (m h) as [[x|e] h1]; intros [= _ <-]; eauto. }
  destruct a as [| | | | | |i' f|i' f]; simplify_eq/=; apply Hunit in Hr as [r0 Hr].
  - apply retire_changed in Hr as (identity & ca & record & Hc & Hp & Hca & Hg & Hm & He); [|done..].
    exists identity, ca, record. split_and!; try done. intros Hen. by rewrite (He Hen).
  - apply delete_changed in Hr as (identity & ca & record & Hc & Hp & Hca & Hg & Hm & He); [|done..].
    exists identity, ca, record. split_and!; try done. by rewrite He.
Qed.

(** An unsafe retirement is refused and recorded.  With a working database, a permitted
    caller who asks, without force, to retire a CA that an assessment finds unsafe gets a
    conflict with its reason; the manager is untouched, and the log has grown by exactly
    the denial, under his name and about that key. *)
Theorem unsafe_retirement_refused st q i token identity h service a :
  call_in_range q → audit_ok (h_db h) → no_faults (ho_world h) →
  BearerToken_from_request (cl_headers (cq_call q)) = Ok token →
  resolve_identity (st_providers (as_app st)) (st_access (as_app st)) None token = Ok identity →
  authorize (st_access (as_app st)) identity = Allow →
  ca_bundle_service st (ho_ca h) = Some service →
  assess_retirement service i (ho_world h) = (Ok a, ho_world h) → ra_safe a = false →
  ∃ h', perform_ca st q (Retire i None) h =
          (Err (Conflict ("retirement unsafe: " +:+ ra_reason a)), h') ∧
    ho_ca h' = ho_ca h ∧
    appended (cl_audit_now (cq_call q))
      (retirement_event identity (cq_call q) "ca.retirement.denied" a false) (h_db h) (h_db h').
Proof.
  intros Hq Hok Hf Ht Hi Hau Hb Ha Hs.
  destruct (refuse_runs q identity a "ca.retirement.denied" "ca.retirement.forced"
    "retirement unsafe: " h Hs Hok Hf Hq) as (h' & Hr & Hca & Happ).
  exists h'. split_and!; [|done|done]. unfold perform_ca, retire.
  assert (∃ ca, as_ca st = Some ca) as [ca Hsome].
  { unfold ca_bundle_service in Hb. destruct (as_ca st); [eauto|done]. }
  unfold mbind, M_bind. rewrite (authorize_ca_allow _ _ _ _ _ _ Ht Hi Hau).
  unfold require_ca_manager, lift. rewrite Hsome. cbn -[refuse_or_force assess].
  unfold require_bundle_service. rewrite Hb. cbn -[refuse_or_force assess].
  unfold assess, in_world. rewrite (with_err_ok _ _ _ _ _ Ha). destruct h as [s w].
  cbn -[refuse_or_force] in *. by rewrite Hr.
Qed.

(** Rotation only adds.  A rotation that answers has changed the manager exactly by
    generating the new CA; it reports the CAs that were active before, and its warnings
    name the machines that have not applied the new generation, counted exactly, and none
    when there are none. *)
Theorem rotation_only_adds st q request h status resp h' :
  rotate st q request h = (Ok (status, resp), h') →
  ∃ ca record h1, as_ca st = Some ca ∧
    op_generate ca (rotation_key_id q request) (rt_passphrase request) h =
      (Ok record, h1) ∧
    ho_ca h' = ho_ca h1 ∧ status = 201%Z ∧
    let generation := ca_generation ca h' in
    let previous := op_active_keys ca (ho_ca h) in
    rr_previous_active resp =
      (λ r, CaView_from_record r generation (cl_now (cq_call q))) <$> previous ∧
    length (rr_warnings resp) =
      1 + (if bool_decide (previous = []) then 0 else 1) +
      (if (0 <? waiting generation (h_db h'))%Z then 1 else 0) ∧
    ((0 < waiting generation (h_db h'))%Z → ∃ pct,
      last (rr_warnings resp) = Some (display_int (waiting generation (h_db h')) +:+
        " machine(s) are not yet on generation " +:+ display_int generation +:+ pct)).
Proof.
  unfold rotate. intros Hr. ok_steps.
  apply authorize_ca_ok_inv in Hm. subst w.
  unfold require_bundle_service in Hm1. injection Hm1 as Hb1 <-.
  destruct (as_ca st) as [ca|] eqn:Hca; [|by unfold require_ca_manager in Hl; rewrite Hca in Hl].
  unfold require_ca_manager in Hl. rewrite Hca in Hl. injection Hl as <-.
  pose proof (keeps_audit_ca _ _ _ _ _ _ _ _ Hm5) as Hk5.
  unfold require_bundle_service, ca_bundle_service in Hm6. rewrite Hca in Hm6. simpl in Hm6.
  destruct (as_signer st) as [signer|]; [|done]. injection Hm6 as Hsv <-.
  pose proof (keeps_on_world _ _ _ _ Hm7) as Hk7.
  unfold in_world in Hm7. destruct (with_err _ _ _) as [x w'] eqn:Hfl.
  injection Hm7 as -> <-. ok_step. injection Hm8 as _ <-.
  assert (db w' = h_db w5) as Hdb by (by apply fleet_status_ok_inv in Hfl as [? _]).
  assert (ca_generation ca (MkHost (ho_ca w5) w') = ca_generation ca w3) as Hgen
    by (unfold ca_generation; simpl; by rewrite Hk5).
  exists ca, a3, w3. rewrite Hgen. unfold h_db at 1 2 3.
  cbn [ho_ca ho_world rr_warnings rr_previous_active]. rewrite Hdb.
  assert (cm_generation (bs_ca a6) = ca_generation ca w3) as Hg6.
  { rewrite <-Hsv. unfold ca_generation. simpl. by rewrite Hk5. }
  rewrite (rotation_warnings_exact _ _ _ _ _ a3 _ _ Hfl Hg6).
  split_and!; try done.
  - fold (h_db w5). rewrite !length_app. simpl. destruct (bool_decide _), (0 <? _)%Z; simpl; lia.
  - fold (h_db w5). intros Hpos. apply Z.ltb_lt in Hpos. rewrite Hpos. eexists.
    rewrite !app_assoc, last_snoc. reflexivity.
Qed.

(** The reads. *)
Inductive CaRead : Type :=
| ListCas | ReadStats | ReadBundle | GetOne (i : string) | ExportPublicKey (i : string)
| Retirement (i : string) | BundleStatus.

Definition serve_ca st q (rd : CaRead) : M (Host S) ApiError unit :=
  match rd with
  | ListCas => _ ← list_cas st q; ret tt
  | ReadStats => _ ← ca_stats st q; ret tt
  | ReadBundle => _ ← public_bundle st q; ret tt
  | GetOne i => _ ← get_one st q i; ret tt
  | ExportPublicKey i => _ ← export_public_key st q i; ret tt
  | Retirement i => _ ← retirement st q i; ret tt
  | BundleStatus => _ ← bundle_status st q; ret tt
  end.

(** A computation that changes nothing. *)
Definition reads {A} (m : M (Host S) ApiError A) : Prop := ∀ h r h',
  m h = (r, h') → ho_ca h' = ho_ca h ∧ h_db h' = h_db h.

Lemma reads_pure {A} (f : Host S → result A ApiError) : reads (λ h, (f h, h)).
Proof. by intros h r h' [= _ <-]. Qed.
Lemma reads_on_world {A} (m : M World ApiError A) : frame eq m → reads (in_world m).
Proof.
  intros Hm h r h'. unfold in_world. destruct (m (ho_world h)) as [x w] eqn:Hr. apply Hm in Hr.
  by intros [= _ <-].
Qed.
Lemma reads_bind {A B} (m : M (Host S) ApiError A) (f : A → M (Host S) ApiError B) :
  reads m → (∀ a, reads (f a)) → reads (m ≫= f).
Proof.
  intros Hm Hf h r h'. unfold mbind, M_bind. destruct (m h) as [x h1] eqn:Hr.
  apply Hm in Hr as [Hc Hd]. destruct x; [|by intros [= _ <-]].
  intros [Hc2 Hd2]%Hf. split; congruence.
Qed.

Lemma gated_ca {A} st q action (f : Identity → M (Host S) ApiError A) h r h' :
  call_in_range q → audit_ok (h_db h) → (∀ identity, reads (f identity)) →
  (authorize_ca st q action ≫= f) h = (r, h') →
  ho_ca h' = ho_ca h ∧ same_but_audit (h_db h) (h_db h') ∧
  (is_ok r = true → h_db h' = h_db h ∧ ∃ identity,
     caller (as_app st) (cq_call q) identity ∧ permitted (st_access (as_app st)) identity).
Proof.
  intros Hq Hok Hf. unfold mbind, M_bind. destruct (authorize_ca _ _ _ _) as [x h1] eqn:Ha.
  apply authorize_ca_outcome in Ha as (Hca & Ha); [|done..].
  destruct x as [identity|e]; [|by intros [= <- <-]].
  destruct Ha as (Hdb & Hc & Hp). intros Hr. apply Hf in Hr as [Hca2 Hdb2].
  assert (h_db h' = h_db h) as Hd by congruence. rewrite Hd. split; [congruence|].
  split; [by repeat split|]. eauto.
Qed.

(** The reads of CA state (list, statistics, bundle, one CA, its public key, the
    retirement assessment, fleet status) never touch the manager and, whichever database
    calls fail, leave every table but the audit log as it was; one that answers has left
    the log alone too, and its caller was permitted. *)
Theorem ca_reads_gated st q rd h r h' :
  call_in_range q → audit_ok (h_db h) → serve_ca st q rd h = (r, h') →
  ho_ca h' = ho_ca h ∧ same_but_audit (h_db h) (h_db h') ∧
  (is_ok r = true → h_db h' = h_db h ∧ ∃ identity,
     caller (as_app st) (cq_call q) identity ∧ permitted (st_access (as_app st)) identity).
Proof.
  intros Hq Hok Hr.
  assert (∃ A action (f : Identity → M (Host S) ApiError A) r0,
    (authorize_ca st q action ≫= f) h = (r0, h') ∧ (∀ identity, reads (f identity)) ∧
    is_ok r0 = is_ok r) as (A & action & f & r0 & Hrun & Hf & <-); [|by eapply gated_ca].
  assert (∀ A (m : M (Host S) ApiError A), (m ≫= λ _, ret tt) h = (r, h') →
    ∃ r0, m h = (r0, h') ∧ is_ok r0 = is_ok r) as Hunit.
  { intros A m. unfold mbind, M_bind, ret. destruct (m h) as [[x|e] h1]; intros [= <- <-]; eauto. }
  destruct rd; simpl in Hr; apply Hunit in Hr as (r0 & Hr & Hi);
    eexists _, _, _, r0; (split; [exact Hr|split; [|done]]); intros identity;
    repeat (apply reads_bind; [|intros ?]);
    first [apply (reads_pure (λ _, _))|apply reads_pure
          |apply reads_on_world; unfold assess_retirement, fleet_status; eauto 10 with frame|idtac].
  all: apply frame_with_err, frame_bind; [typeclasses eauto|eauto with frame|].
  all: intros record; destruct (ca_enabled record); eauto 10 with frame.
Qed.
End with_laws.
End ca_routes.

(** ** Witnesses *)
#[local] Existing Instances toy_sha256 toy_hex toy_chrono toy_serde_json toy_ssh_key toy_debug.
#[local] Existing Instances toy_sha256_laws toy_hex_laws toy_chrono_laws toy_serde_json_laws.

(** A manager that keeps a list of records and changes it at once. *)
Definition toy_snapshot (s : list CaRecord) : BundleService.CaManager :=
  MkCaManager 3 "fp" (MkPublicBundle 3 "fp" []) (λ i, find (λ r, bool_decide (ca_id r = i)) s).

Definition toy_new_ca (key_id : string) : CaRecord :=
  MkCaRecord ("id-" +:+ key_id) key_id "ssh-ed25519 BBBB" "SHA256:b" true 0 None None None 0 None.

Definition toy_add (key_id : string) : M (Host (list CaRecord)) Certificates.CaError CaRecord := λ h,
  (Ok (toy_new_ca key_id), MkHost (ho_ca h ++ [toy_new_ca key_id]) (ho_world h)).

Definition toy_drop (i : string) : M (Host (list CaRecord)) Certificates.CaError CaRecord := λ h,
  match find (λ r, bool_decide (ca_id r = i)) (ho_ca h) with
  | Some r => (Ok r, MkHost (List.filter (λ r, negb (bool_decide (ca_id r = i))) (ho_ca h)) (ho_world h))
  | None => (Err (Certificates.CaNotFound i), h)
  end.

Definition toy_manager : CaOperations (list CaRecord) :=
  MkCaOperations _ toy_snapshot id (List.filter ca_enabled) (λ k _, toy_add k) (λ k _ _, toy_add k)
    (λ _ k, toy_add k) toy_drop toy_drop toy_drop toy_drop.

Lemma toy_manager_laws : CaOperationsLaws toy_manager.
Proof.
  assert (∀ k, own_tables (toy_add k)) as Hadd by (by intros k h r h' [= _ <-]).
  assert (∀ i, own_tables (toy_drop i)) as Hdrop.
  { intros i h r h'. unfold toy_drop. destruct (find _ _); by intros [= _ <-]. }
  constructor; intros; simpl; auto.
Qed.

Definition ca_demo_state : CaAppState (list CaRecord) :=
  MkCaAppState _ demo_state (Some toy_manager) (Some (bs_signer demo_bundle_service)) 3600.
Definition ca_demo_call : CaCall := MkCaCall demo_call demo_call (seconds 21).
Definition ca_demo_host (w : World) : Host (list CaRecord) := MkHost [retired_ca] w.

Definition demo_stamp (_ : Z) : string := "19700101T000020Z".
Definition toy_view (r : CaRecord) (_ _ : Z) : string := ca_key_id r.
Definition demo_perform (a : CaAction) (w : World) : result unit ApiError * Host (list CaRecord) :=
  perform_ca demo_stamp toy_view ca_demo_state ca_demo_call a (ca_demo_host w).

Definition ca_demo_generate := demo_perform (Generate (MkGenerateCaRequest " east " "pw")) machine_world.


(** With no machines at all, a disabled CA is retired without force. *)
Definition ca_demo_retire := demo_perform (Retire "id-1" None) empty_world.

Lemma destruction_guarded_witness :
  ho_ca ca_demo_retire.2 = [] ∧ ∃ ca record, as_ca ca_demo_state = Some ca ∧
    fleet_moved_on ca record (ca_demo_host empty_world).
Proof.
  split; [vm_compute; reflexivity|].
  destruct (is_ok_run ca_demo_retire) as [u Hr]; [vm_compute; reflexivity|].
  unfold ca_demo_retire at 1, demo_perform at 1 in Hr.
  destruct (destruction_guarded demo_stamp toy_view ca_demo_state ca_demo_call (Retire "id-1" None) "id-1" false
    (ca_demo_host empty_world) (Ok u) ca_demo_retire.2)
    as (identity & ca & record & _ & _ & Hca & _ & Hm & _);
    [by repeat constructor|exact (empty_audit_ok [])|reflexivity|exact Hr
    |vm_compute; discriminate|].
  exists ca, record. split; [exact Hca|exact (Hm eq_refl)].
Defined.

Definition ca_demo_service : BundleService :=
  BundleService_new (toy_snapshot [retired_ca]) (bs_signer demo_bundle_service) 3600.

Lemma unsafe_retirement_refused_witness :
  ∃ h', demo_perform (Retire "id-1" None) machine_world =
    (Err (Conflict "retirement unsafe: 1 machine(s) synced a generation older than 3 and may still trust this key"), h')
    ∧ ho_ca h' = [retired_ca].
Proof.
  destruct (unsafe_retirement_refused demo_stamp toy_view ca_demo_state ca_demo_call
    "id-1" "gho_1" (MkIdentity "github" "7" "octo" None None None [] [] [] [] [])
    (ca_demo_host machine_world) ca_demo_service
    (match (assess_retirement ca_demo_service "id-1" machine_world).1 with
     | Ok a => a | Err _ => MkRetirementAssessment "" "" "" true 0 None None "" end))
    as (h' & Hr & Hca & _);
    [by repeat constructor|exact (empty_audit_ok [])|vm_compute; reflexivity..|].
  exists h'. split; [|exact Hca]. unfold demo_perform. rewrite Hr. vm_compute. reflexivity.
Defined.

Definition ca_demo_rotate :=
  rotate demo_stamp toy_view ca_demo_state ca_demo_call
    (MkRotateCaRequest (Some " ") "pw") (ca_demo_host machine_world).

Lemma rotation_only_adds_witness :
  ∃ status resp, ca_demo_rotate.1 = Ok (status, resp) ∧ status = 201%Z ∧
    length (rr_warnings resp) = 2 ∧ rr_previous_active resp = [].
Proof.
  destruct (is_ok_run ca_demo_rotate) as [[status resp] Hr]; [vm_compute; reflexivity|].
  unfold ca_demo_rotate at 1 in Hr.
  destruct (rotation_only_adds demo_stamp toy_view ca_demo_state ca_demo_call _ _ _ _ _ Hr)
    as (ca & record & h1 & Hca & _ & _ & Hst & Hprev & Hlen & _).
  injection Hca as <-.
  exists status, resp. split_and!; [by unfold ca_demo_rotate; rewrite Hr|exact Hst| |].
  - rewrite Hlen. vm_compute. reflexivity.
  - rewrite Hprev. vm_compute. reflexivity.
Defined.

Definition ca_demo_read :=
  serve_ca toy_view (λ _ _ _, tt) ca_demo_state ca_demo_call (Retirement "id-1") (ca_demo_host machine_world).

Lemma ca_reads_gated_witness :
  is_ok ca_demo_read.1 = true ∧ ho_ca ca_demo_read.2 = [retired_ca] ∧
  h_db ca_demo_read.2 = db machine_world.
Proof.
  split; [vm_compute; reflexivity|].
  destruct (is_ok_run ca_demo_read) as [u Hr]; [vm_compute; reflexivity|].
  unfold ca_demo_read at 1 in Hr.
  destruct (ca_reads_gated toy_view (λ _ _ _, tt) ca_demo_state ca_demo_call
    (Retirement "id-1") (ca_demo_host machine_world) _ _ ltac:(by repeat constructor)
    (empty_audit_ok []) Hr) as (Hca & _ & Hd).
  split; [exact Hca|]. apply (Hd eq_refl).
Defined.
