(* ===== verification/Migrations.v ===== *)
(** * Schema migrations ([src/src/db/mod.rs], [src/src/db/migrations/])

    The schema as SQLite keeps it (tables with their columns and row counts, indexes and
    triggers with the table they belong to), the statements the migration files use, and
    the code that applies the files at start-up.  SQLite commits each statement of a file
    on its own, so an interruption leaves the statements before it in force. *)
From stdpp Require Import gmap strings.
From S2P Require Import Prelude.

(** ** The schema *)
Record Table : Type := MkTable { tb_columns : list string; tb_rows : N }.

Record Schema : Type := MkSchema {
  sc_tables : gmap string Table;
  sc_indexes : gmap string string;
  sc_triggers : gmap string string;
}.
Definition empty_schema : Schema := MkSchema ∅ ∅ ∅.

(** [CREATE .. IF NOT EXISTS], [ALTER TABLE .. ADD COLUMN], [DROP TABLE IF EXISTS]. *)
Inductive Stmt : Type :=
| CreateTable (name : string) (columns : list string)
| CreateIndex (name table column : string)
| CreateTrigger (name table : string)
| AddColumn (table column : string)
| DropTable (name : string).

Inductive SqlFailure : Type :=
| Interrupted
| NoSuchTable (table : string)
| NoSuchColumn (column : string)
| DuplicateColumn (column : string).

Definition exec_stmt (st : Stmt) (s : Schema) : result Schema SqlFailure :=
  match st with
  | CreateTable n cols =>
      match sc_tables s !! n with
      | Some _ => Ok s
      | None => Ok (MkSchema (<[n := MkTable cols 0%N]> (sc_tables s)) (sc_indexes s) (sc_triggers s))
      end
  | CreateIndex i t c =>
      match sc_indexes s !! i, sc_tables s !! t with
      | Some _, _ => Ok s
      | None, None => Err (NoSuchTable t)
      | None, Some tb =>
          if bool_decide (c ∈ tb_columns tb)
          then Ok (MkSchema (sc_tables s) (<[i := t]> (sc_indexes s)) (sc_triggers s))
          else Err (NoSuchColumn c)
      end
  | CreateTrigger tr t =>
      match sc_triggers s !! tr, sc_tables s !! t with
      | Some _, _ => Ok s
      | None, None => Err (NoSuchTable t)
      | None, Some _ => Ok (MkSchema (sc_tables s) (sc_indexes s) (<[tr := t]> (sc_triggers s)))
      end
  | AddColumn t c =>
      match sc_tables s !! t with
      | None => Err (NoSuchTable t)
      | Some tb =>
          if bool_decide (c ∈ tb_columns tb) then Err (DuplicateColumn c)
          else Ok (MkSchema (<[t := MkTable (tb_columns tb ++ [c]) (tb_rows tb)]> (sc_tables s))
                     (sc_indexes s) (sc_triggers s))
      end
  | DropTable n =>
      Ok (MkSchema (delete n (sc_tables s))
            (filter (λ it, it.2 ≠ n) (sc_indexes s)) (filter (λ it, it.2 ≠ n) (sc_triggers s)))
  end.

(** A database file, and which of the next statements and queries are interrupted. *)
Record Store : Type := MkStore { so_schema : Schema; so_faults : list bool }.

Definition so_call : M Store SqlFailure unit := λ so,
  match so_faults so with
  | true :: fs => (Err Interrupted, MkStore (so_schema so) fs)
  | false :: fs => (Ok tt, MkStore (so_schema so) fs)
  | [] => (Ok tt, so)
  end.

Definition commit_stmt (st : Stmt) : M Store SqlFailure unit := λ so,
  match exec_stmt st (so_schema so) with
  | Ok s => (Ok tt, MkStore s (so_faults so))
  | Err e => (Err e, so)
  end.

Definition run_stmt (st : Stmt) : M Store SqlFailure unit := _ ← so_call; commit_stmt st.

(** [sqlx::raw_sql(..).execute(pool)]: every statement, until one fails. *)
Fixpoint raw_sql (l : list Stmt) : M Store SqlFailure unit :=
  match l with
  | [] => ret tt
  | st :: l => _ ← run_stmt st; raw_sql l
  end.

(** ** The files *)
Definition AUDIT_LOG_MIGRATION : list Stmt := [
  CreateTable "audit_log" ["id"; "chain_position"; "event_type"; "actor"; "subject"; "metadata";
                           "recorded_at"; "previous_hash"; "canonical_json"; "entry_hash"];
  CreateIndex "idx_audit_log_chain_position" "audit_log" "chain_position";
  CreateTrigger "audit_log_no_update" "audit_log";
  CreateTrigger "audit_log_no_delete" "audit_log"].

Definition MACHINES_MIGRATION : list Stmt := [
  CreateTable "machines" ["machine_id"; "hostname"; "public_key"; "os"; "arch"; "agent_version";
                          "status"; "last_seen"; "enrolled_at"; "created_at"; "updated_at"];
  CreateIndex "idx_machines_status" "machines" "status";
  CreateTable "machine_enrollment_tokens" ["id"; "token_hash"; "created_at"; "expires_at";
                                           "used_at"; "created_by"; "single_use"];
  CreateIndex "idx_enrollment_tokens_hash" "machine_enrollment_tokens" "token_hash"].

Definition MACHINE_PROTOCOL_MIGRATION : list Stmt := [
  AddColumn "machines" "ip";
  AddColumn "machines" "current_generation";
  CreateIndex "idx_machines_last_seen" "machines" "last_seen"].

Definition CA_BUNDLE_MIGRATION : list Stmt := [
  CreateTable "ca_keys" ["key_id"; "public_key"; "created_at"; "generation"; "enabled"];
  CreateTable "ca_bundle_state" ["id"; "generation"];
  CreateIndex "idx_ca_keys_enabled" "ca_keys" "enabled";
  AddColumn "machines" "synced_generation";
  AddColumn "machines" "bundle_fingerprint";
  AddColumn "machines" "last_sync"].

Definition CA_MANAGEMENT_MIGRATION : list Stmt := [
  CreateTable "ca_authorities" ["id"; "key_id"; "public_key"; "fingerprint"; "key_path"; "enabled";
                                "created_at"; "enabled_at"; "disabled_at"; "last_used_at";
                                "issued_certificates"];
  CreateIndex "idx_ca_authorities_enabled" "ca_authorities" "enabled";
  CreateTable "ca_manager_state" ["id"; "generation"]].

Definition CA_RETIREMENT_MIGRATION : list Stmt := [
  AddColumn "ca_authorities" "disabled_generation";
  AddColumn "ca_authorities" "retired";
  AddColumn "ca_authorities" "retired_at"].

Definition AUDIT_INDEXES_MIGRATION : list Stmt := [
  CreateIndex "idx_audit_log_event_type" "audit_log" "event_type";
  CreateIndex "idx_audit_log_actor" "audit_log" "actor";
  CreateIndex "idx_audit_log_subject" "audit_log" "subject";
  CreateIndex "idx_audit_log_recorded_at" "audit_log" "recorded_at"].

(** ** Applying them *)
Inductive MigrationError : Type :=
| Sql (err : SqlFailure)
| Protocol (what : string) (err : SqlFailure)
| LegacyAuditLog (rows : N).

Definition so_query {A} (f : Schema → A) : M Store SqlFailure A :=
  _ ← so_call;
  gets (λ so, f (so_schema so)).

Definition has_column (table column : string) (s : Schema) : bool :=
  match sc_tables s !! table with
  | Some tb => bool_decide (column ∈ tb_columns tb)
  | None => false
  end.

Definition column_exists (table column : string) : M Store SqlFailure bool :=
  so_query (has_column table column).

Definition table_exists (name : string) : M Store SqlFailure bool :=
  so_query (λ s, bool_decide (is_Some (sc_tables s !! name))).

(** All three of the columns the current design has. *)
Definition audit_log_is_current : M Store SqlFailure bool :=
  so_query (λ s, has_column "audit_log" "chain_position" s && has_column "audit_log" "event_type" s
                 && has_column "audit_log" "canonical_json" s).

Definition audit_log_row_count : M Store SqlFailure N :=
  so_query (λ s, match sc_tables s !! "audit_log" with Some tb => tb_rows tb | None => 0%N end).

(** The second query runs only when the table is there. *)
Definition reconcile_legacy_audit_log : M Store MigrationError unit :=
  there ← with_err Sql (table_exists "audit_log");
  fine ← (if negb there then ret true else with_err Sql audit_log_is_current);
  if fine : bool then ret tt
  else
    rows ← with_err Sql audit_log_row_count;
    if (0 <? rows)%N then throw (LegacyAuditLog rows)
    else with_err Sql (raw_sql [DropTable "audit_log"]).

Definition apply_migration (what : string) (l : list Stmt) : M Store MigrationError unit :=
  with_err (Protocol ("failed to apply " +:+ what)) (raw_sql l).

(** A file with [ALTER TABLE] runs only while its column is missing. *)
Definition gated_migration (table column what : string) (l : list Stmt)
  : M Store MigrationError unit :=
  there ← with_err Sql (column_exists table column);
  if negb there then apply_migration what l else ret tt.

Definition migrate : M Store MigrationError unit :=
  _ ← reconcile_legacy_audit_log;
  _ ← apply_migration "audit_log schema migration" AUDIT_LOG_MIGRATION;
  _ ← apply_migration "machines schema migration" MACHINES_MIGRATION;
  _ ← gated_migration "machines" "ip" "machine protocol schema migration" MACHINE_PROTOCOL_MIGRATION;
  _ ← gated_migration "machines" "synced_generation" "CA bundle schema migration" CA_BUNDLE_MIGRATION;
  _ ← apply_migration "CA management schema migration" CA_MANAGEMENT_MIGRATION;
  _ ← gated_migration "ca_authorities" "retired" "CA retirement schema migration" CA_RETIREMENT_MIGRATION;
  apply_migration "audit indexes migration" AUDIT_INDEXES_MIGRATION.

(** ** Released schemas *)
Definition exec_all (l : list Stmt) (s : Schema) : result Schema SqlFailure :=
  foldl (λ r st, let? s := r in exec_stmt st s) (Ok s) l.

Definition FILES : list (list Stmt) :=
  [AUDIT_LOG_MIGRATION; MACHINES_MIGRATION; MACHINE_PROTOCOL_MIGRATION; CA_BUNDLE_MIGRATION;
   CA_MANAGEMENT_MIGRATION; CA_RETIREMENT_MIGRATION; AUDIT_INDEXES_MIGRATION].

(** The schema after the first [n] files, with [rows t] rows in table [t]. *)
Definition released (n : nat) (rows : string → N) : Schema :=
  match exec_all (concat (take n FILES)) empty_schema with
  | Ok s => MkSchema (map_imap (λ t tb, Some (MkTable (tb_columns tb) (rows t))) (sc_tables s))
              (sc_indexes s) (sc_triggers s)
  | Err _ => empty_schema
  end.

(** The tables a released schema has. *)
Definition has_table (n : nat) (t : string) : bool :=
  match exec_all (concat (take n FILES)) empty_schema with
  | Ok s => bool_decide (is_Some (sc_tables s !! t))
  | Err _ => false
  end.

(** ** What a migration may do to the data *)

(** Every table that holds rows is still there, with its rows and at least its columns. *)
Definition data_kept (s s' : Schema) : Prop := ∀ t tb,
  sc_tables s !! t = Some tb → tb_rows tb ≠ 0%N →
  ∃ tb', sc_tables s' !! t = Some tb' ∧ tb_rows tb' = tb_rows tb ∧
    tb_columns tb `prefix_of` tb_columns tb'.

#[export] Instance data_kept_preorder : PreOrder data_kept.
Proof.
  split.
  - intros s t tb Ht Hr. by exists tb.
  - intros s1 s2 s3 H12 H23 t tb Ht Hr. destruct (H12 _ _ Ht Hr) as (tb2 & Ht2 & Hr2 & Hp2).
    destruct (H23 _ _ Ht2) as (tb3 & Ht3 & Hr3 & Hp3); [congruence|].
    exists tb3. split_and!; [done|congruence|by etrans].
Qed.

Definition kept {E A} (m : M Store E A) : Prop := ∀ so r so',
  m so = (r, so') → data_kept (so_schema so) (so_schema so').

Lemma kept_ret {E A} (a : A) : kept (E := E) (ret a).
Proof. by intros so r so' [= _ <-]. Qed.
Lemma kept_throw {E A} (e : E) : kept (A := A) (throw e).
Proof. by intros so r so' [= _ <-]. Qed.
Lemma kept_gets {E A} (f : Store → A) : kept (E := E) (gets f).
Proof. by intros so r so' [= _ <-]. Qed.
Lemma kept_call : kept so_call.
Proof.
  intros so r so'. unfold so_call. destruct (so_faults so) as [|[] fs]; by intros [= _ <-].
Qed.
Lemma kept_bind {E A B} (m : M Store E A) (f : A → M Store E B) :
  kept m → (∀ a, kept (f a)) → kept (m ≫= f).
Proof.
  intros Hm Hf so r so'. unfold mbind, M_bind. destruct (m so) as [x so1] eqn:Hr. apply Hm in Hr.
  destruct x as [a|e]; [intros Hr2%Hf; by etrans|by intros [= _ <-]].
Qed.
Lemma kept_with_err {E F A} (f : E → F) (m : M Store E A) : kept m → kept (with_err f m).
Proof.
  intros Hm so r so'. unfold with_err. destruct (m so) as [x so1] eqn:Hr. apply Hm in Hr.
  destruct x; by intros [= _ <-].
Qed.
Lemma kept_query {A} (f : Schema → A) : kept (so_query f).
Proof. apply kept_bind; [apply kept_call|intros; apply kept_gets]. Qed.

(** No statement but [DROP TABLE] loses anything. *)
Definition is_drop (st : Stmt) : bool := match st with DropTable _ => true | _ => false end.

Lemma exec_stmt_kept st s s' : is_drop st = false → exec_stmt st s = Ok s' → data_kept s s'.
Proof.
  destruct st as [n cols|i t c|tr t|t c|n]; simpl; try done; intros _ He.
  - destruct (sc_tables s !! n) as [tb0|] eqn:Hn; simplify_eq; [done|].
    intros t tb Ht Hr. exists tb. simpl. by rewrite lookup_insert_ne by congruence.
  - destruct (sc_indexes s !! i), (sc_tables s !! t); simplify_eq; try done.
    case_bool_decide; simplify_eq. intros t' tb Ht Hr. by exists tb.
  - destruct (sc_triggers s !! tr), (sc_tables s !! t); simplify_eq; try done.
    intros t' tb Ht Hr. by exists tb.
  - destruct (sc_tables s !! t) as [tb0|] eqn:Hn; [|done]. case_bool_decide; [done|]. simplify_eq.
    intros t' tb Ht Hr. simpl. destruct (decide (t' = t)) as [->|Hne].
    + rewrite Ht in Hn. simplify_eq. rewrite lookup_insert_eq. eexists. split_and!; [done..|].
      by apply prefix_app_r.
    + rewrite lookup_insert_ne by congruence. by exists tb.
Qed.

Lemma commit_kept st : is_drop st = false → kept (commit_stmt st).
Proof.
  intros Hd so r so'. unfold commit_stmt. destruct (exec_stmt _ _) eqn:He; intros [= _ <-]; [|done].
  by apply exec_stmt_kept in He.
Qed.

Lemma raw_sql_kept l : forallb (λ st, negb (is_drop st)) l = true → kept (raw_sql l).
Proof.
  induction l as [|st l IH]; simpl; [intros _; apply kept_ret|]. intros [Hd Hl]%andb_true_iff.
  apply kept_bind; [|auto]. apply kept_bind; [apply kept_call|]. intros ?.
  apply commit_kept. by apply negb_true_iff.
Qed.

Lemma apply_kept what l : forallb (λ st, negb (is_drop st)) l = true → kept (apply_migration what l).
Proof. intros. by apply kept_with_err, raw_sql_kept. Qed.
Lemma gated_kept t c what l :
  forallb (λ st, negb (is_drop st)) l = true → kept (gated_migration t c what l).
Proof.
  intros Hl. apply kept_bind; [apply kept_with_err, kept_query|]. intros b.
  destruct (negb b); [by apply apply_kept|apply kept_ret].
Qed.

(** The one [DROP] is of a table that has just been seen empty. *)
Lemma reconcile_kept : kept reconcile_legacy_audit_log.
Proof.
  apply kept_bind; [apply kept_with_err, kept_query|]. intros there.
  apply kept_bind; [destruct (negb there); [apply kept_ret|apply kept_with_err, kept_query]|].
  intros [|]; [apply kept_ret|].
  intros so r so'. unfold mbind, M_bind, with_err at 1, audit_log_row_count, so_query.
  unfold mbind, M_bind, gets. destruct (so_call so) as [x so1] eqn:Hc.
  pose proof (kept_call _ _ _ Hc) as Hk. destruct x as [[]|e]; [|by intros [= _ <-]].
  set (rows := match sc_tables (so_schema so1) !! "audit_log" with
               | Some tb => tb_rows tb | None => 0%N end).
  destruct (0 <? rows)%N eqn:Hrows; [intros [= _ <-]; done|].
  intros Hr. transitivity (so_schema so1); [done|]. revert Hr.
  unfold with_err, raw_sql, run_stmt, mbind, M_bind.
  destruct (so_call so1) as [y so2] eqn:Hc2. pose proof (kept_call _ _ _ Hc2) as Hk2.
  assert (so_schema so2 = so_schema so1) as He.
  { revert Hc2. unfold so_call. destruct (so_faults so1) as [|[] fs]; by intros [= _ <-]. }
  destruct y as [[]|e]; [|by intros [= _ <-]].
  unfold commit_stmt, ret. simpl. intros [= _ <-]. simpl. rewrite He.
  intros t tb Ht Hne. exists tb. simpl. rewrite lookup_delete_ne; [done|].
  intros <-. unfold rows in Hrows. rewrite Ht in Hrows. apply N.ltb_ge in Hrows. lia.
Qed.

Lemma migrate_kept : kept migrate.
Proof.
  apply kept_bind; [apply reconcile_kept|intros _].
  repeat (apply kept_bind; [by (apply apply_kept || apply gated_kept)|intros _]).
  by apply apply_kept.
Qed.

(** ** Theorems *)

(** C16: start-up brings every released schema to the current one.  From the database as any
    number of the seven files left it, with any number of rows in its tables, [migrate]
    succeeds; the tables, columns, indexes and triggers are then those of all seven files,
    the old tables have their rows and the new ones none.  Started on the current schema
    (seven files) it changes nothing. *)
Theorem migrate_upgrades (n : nat) (rows : string → N) :
  n ≤ 7 →
  migrate (MkStore (released n rows) []) =
  (Ok tt, MkStore (released 7 (λ t, if has_table n t then rows t else 0%N)) []).
Proof.
  intros Hn. do 8 (destruct n as [|n]; [vm_compute; reflexivity|]). lia.
Qed.

(** Start-up loses no data.  Whatever schema it finds and wherever it fails or is
    interrupted, every table with rows is still there afterwards, with its rows and its
    columns in place; in particular a legacy audit log with entries is never dropped. *)
Theorem migrate_loses_nothing so r so' t tb :
  migrate so = (r, so') → sc_tables (so_schema so) !! t = Some tb → tb_rows tb ≠ 0%N →
  ∃ tb', sc_tables (so_schema so') !! t = Some tb' ∧ tb_rows tb' = tb_rows tb ∧
    tb_columns tb `prefix_of` tb_columns tb'.
Proof.
  intros Hm Ht Hr. exact (migrate_kept _ _ _ Hm t tb Ht Hr).
Qed.

(** ** Witnesses *)
Lemma migrate_upgrades_witness :
  migrate (MkStore (released 3 (λ _, 5%N)) []) =
  (Ok tt, MkStore (released 7 (λ t, if has_table 3 t then 5%N else 0%N)) []).
Proof. apply (migrate_upgrades 3 (λ _, 5%N)). lia. Defined.

Definition legacy_schema : Schema :=
  MkSchema {["audit_log" := MkTable ["id"; "serial"] 2]} ∅ ∅.

Lemma migrate_loses_nothing_witness :
  let out := migrate (MkStore legacy_schema []) in
  out.1 = Err (LegacyAuditLog 2) ∧ ∃ tb', sc_tables (so_schema out.2) !! "audit_log" = Some tb' ∧
    tb_rows tb' = 2%N.
Proof.
  split; [vm_compute; reflexivity|].
  destruct (migrate_loses_nothing (MkStore legacy_schema []) _ _ "audit_log"
    (MkTable ["id"; "serial"] 2) (surjective_pairing _)) as (tb' & Ht & Hr & _);
    [vm_compute; reflexivity|discriminate|].
  exists tb'. split; [exact Ht|exact Hr].
Defined.

(** An interruption between the two [ALTER TABLE]s of the third file is not repaired: the
    next start finds [ip], skips the file, and reports success without
    [current_generation]. *)
Definition call_fails (k : nat) : list bool := replicate k false ++ [true].

Example interrupted_file_skipped :
  let first := migrate (MkStore empty_schema (call_fails 11)) in
  let second := migrate (MkStore (so_schema first.2) []) in
  first.1 = Err (Protocol "failed to apply machine protocol schema migration" Interrupted) ∧
  second.1 = Ok tt ∧
  has_column "machines" "ip" (so_schema second.2) = true ∧
  has_column "machines" "current_generation" (so_schema second.2) = false.
Proof. vm_compute. split_and!; reflexivity. Qed.

(** After an interruption between the first two of the sixth file no later start succeeds. *)
Example interrupted_file_blocks :
  let first := migrate (MkStore (released 5 (λ _, 0%N)) (call_fails 17)) in
  let second := migrate (MkStore (so_schema first.2) []) in
  first.1 = Err (Protocol "failed to apply CA retirement schema migration" Interrupted) ∧
  second = (Err (Protocol "failed to apply CA retirement schema migration"
                   (DuplicateColumn "disabled_generation")), second.2) ∧
  so_schema second.2 = so_schema first.2.
Proof. vm_compute. split_and!; reflexivity. Qed.
