(* ===== verification/TestsStartup.v ===== *)
(** * The unit tests of the configuration, the migrations and the request identifiers, run
      on the definitions ([src/src/config.rs], [src/src/db/mod.rs],
      [src/src/request_id.rs], the [tests] modules)

    A YAML text is given by the configuration it denotes: the defaults with the fields it
    sets, which is what Figment's merge yields.  The tests of Figment's own layers (an
    unknown key, environment variables) and of tracing are left out. *)
From S2P Require Import Prelude External Errors Providers Testing Config Migrations Metrics.

(** ** [config.rs] *)

(** [EnvFilter] refuses the one level the tests misspell; there are no files. *)
Definition test_outside : Outside :=
  MkOutside (λ level, if bool_decide (level = "mayfly=notalevel") then Some "invalid filter directive"
                      else None)
    (λ _, None) (λ _, false) (λ c _, Ok c) Some.

(** [Config::from_figment(figment_from_yaml(..))]. *)
Definition from_figment (c : Config) : result Config ConfigError :=
  let? _ := validate_config test_outside c in Ok c.

Definition valid_with (r : result Config ConfigError) (p : Config → bool) : bool :=
  match r with Ok c => p c | Err _ => false end.
Definition invalid_with (texts : list string) (r : result Config ConfigError) : bool :=
  match r with Err (Validation msg) => forallb (λ t, contains t msg) texts | _ => false end.

(** The sections the texts set. *)
Definition yaml (environment : Environment) (server : ServerConfig) (database : DatabaseConfig)
    (logging : LoggingConfig) (github : GithubConfig) (ca : CaConfig) : Config :=
  MkConfig environment server database logging github None None ca BundleConfig_default
    AccessConfig_default.
Definition server_with (port : Z) (tls : TlsConfig) : ServerConfig :=
  MkServerConfig (sv_host ServerConfig_default) port tls.
Definition tls_off : ServerConfig :=
  server_with (sv_port ServerConfig_default) (MkTlsConfig false None None).
Definition github_with (client_id : string) (secret : option string) : GithubConfig :=
  MkGithubConfig client_id (Secret_new <$> secret) (gh_scopes GithubConfig_default)
    (gh_device_base_url GithubConfig_default) (gh_api_base_url GithubConfig_default).
Definition github : GithubConfig := github_with "Iv1.test" (Some "shh").
#[export] Instance Environment_eq_dec : EqDecision Environment.
Proof. solve_decision. Defined.
#[export] Instance LogFormat_eq_dec : EqDecision LogFormat.
Proof. solve_decision. Defined.

Definition defaults_require_tls_material : bool :=
  match validate_config test_outside Config_default with Err (Validation _) => true | _ => false end.

Definition yaml_overrides_defaults : bool :=
  valid_with (from_figment (yaml Production (MkServerConfig "0.0.0.0" 9443 (MkTlsConfig false None None))
      (MkDatabaseConfig "sqlite::memory:" 10) (MkLoggingConfig Json "debug") github CaConfig_default))
    (λ c, bool_decide (sv_host (cfg_server c) = "0.0.0.0") && (sv_port (cfg_server c) =? 9443)%Z &&
          negb (tls_enabled (sv_tls (cfg_server c))) &&
          (dc_max_connections (cfg_database c) =? 10)%Z &&
          bool_decide (lg_format (cfg_logging c) = Json)).

Definition tls_enabled_without_cert_is_rejected : bool :=
  invalid_with ["cert_path"]
    (from_figment (yaml Production (server_with 8443 (MkTlsConfig true None (Some "/etc/mayfly/key.pem")))
      DatabaseConfig_default LoggingConfig_default GithubConfig_default CaConfig_default)).

Definition development_allows_missing_tls_material : bool :=
  valid_with (from_figment (yaml Development (server_with 8443 (MkTlsConfig true None None))
      DatabaseConfig_default LoggingConfig_default github CaConfig_default))
    (λ c, bool_decide (cfg_environment c = Development) && tls_enabled (sv_tls (cfg_server c)) &&
          bool_decide (tls_cert_path (sv_tls (cfg_server c)) = None)).

Definition production_requires_tls_material : bool :=
  invalid_with ["cert_path"]
    (from_figment (yaml Production (server_with 8443 (MkTlsConfig true None None))
      DatabaseConfig_default LoggingConfig_default GithubConfig_default CaConfig_default)).

Definition zero_port_is_rejected : bool :=
  invalid_with ["port"]
    (from_figment (yaml Production (server_with 0 (MkTlsConfig false None None))
      DatabaseConfig_default LoggingConfig_default GithubConfig_default CaConfig_default)).

Definition invalid_log_level_is_rejected : bool :=
  invalid_with ["logging.level"]
    (from_figment (yaml Production tls_off DatabaseConfig_default
      (MkLoggingConfig (lg_format LoggingConfig_default) "mayfly=notalevel") GithubConfig_default
      CaConfig_default)).

Definition zero_max_connections_is_rejected : bool :=
  invalid_with ["max_connections"]
    (from_figment (yaml Production tls_off (MkDatabaseConfig (dc_url DatabaseConfig_default) 0)
      LoggingConfig_default GithubConfig_default CaConfig_default)).

Definition missing_required_file_is_rejected : bool :=
  invalid_with ["does not exist"] (load_config test_outside "definitely-missing.yaml" true).

(** A configuration that sets only the provider and the CA sections. *)
Definition with_sections (github : GithubConfig) (ca : CaConfig) : Config :=
  yaml Production tls_off DatabaseConfig_default LoggingConfig_default github ca.

Definition github_credentials_are_required : bool :=
  invalid_with ["github.client_id"]
    (from_figment (with_sections GithubConfig_default CaConfig_default)).

Definition github_secret_required_when_only_id_present : bool :=
  invalid_with ["github.client_secret"]
    (from_figment (with_sections (github_with "Iv1.test" None) CaConfig_default)).

Definition ca_defaults_are_applied : bool :=
  valid_with (from_figment (with_sections github CaConfig_default))
    (λ c, bool_decide (cc_storage_directory (cfg_ca c) = "./ca") &&
          match cc_selection_strategy (cfg_ca c) with Random => true end &&
          cc_auto_load (cfg_ca c) &&
          bool_decide (cc_passphrase_env (cfg_ca c) = "CA_STORAGE_PASSPHRASE")).

Definition ca_storage_config_is_parsed : bool :=
  valid_with (from_figment (with_sections github
      (MkCaConfig "/var/lib/mayfly/ca" Random false "CA_STORAGE_PASSPHRASE")))
    (λ c, bool_decide (cc_storage_directory (cfg_ca c) = "/var/lib/mayfly/ca") &&
          negb (cc_auto_load (cfg_ca c))).

Definition mayfly_prefixed_passphrase_env_is_rejected : bool :=
  invalid_with ["passphrase_env"; "MAYFLY_"]
    (from_figment (with_sections github (MkCaConfig "./ca" Random true "MAYFLY_CA_PASSPHRASE"))).

Definition blank_storage_directory_is_rejected : bool :=
  invalid_with ["storage_directory"]
    (from_figment (with_sections github (MkCaConfig "   " Random true "CA_STORAGE_PASSPHRASE"))).

Theorem config_tests_pass :
  defaults_require_tls_material && yaml_overrides_defaults && tls_enabled_without_cert_is_rejected &&
  development_allows_missing_tls_material && production_requires_tls_material &&
  zero_port_is_rejected && invalid_log_level_is_rejected && zero_max_connections_is_rejected &&
  missing_required_file_is_rejected && github_credentials_are_required &&
  github_secret_required_when_only_id_present && ca_defaults_are_applied &&
  ca_storage_config_is_parsed && mayfly_prefixed_passphrase_env_is_rejected &&
  blank_storage_directory_is_rejected = true.
Proof. vm_compute. reflexivity. Qed.

(** ** [db/mod.rs] *)

(** [connect(":memory:")]: an empty database, migrated; [None] is the panic of [expect]. *)
Definition migrated (s : Schema) : option Schema :=
  match migrate (MkStore s []) with (Ok _, so) => Some (so_schema so) | (Err _, _) => None end.
Definition connected (p : Schema → bool) : bool :=
  match migrated empty_schema with Some s => p s | None => false end.

(** The counts the tests take in [sqlite_master] and [pragma_table_info]. *)
Definition tables_among (names : list string) (s : Schema) : nat :=
  length (List.filter (λ n, bool_decide (is_Some (sc_tables s !! n))) names).
Definition columns_among (table : string) (names : list string) (s : Schema) : nat :=
  length (List.filter (λ c, has_column table c s) names).
Definition triggers_with (prefix : string) (s : Schema) : nat :=
  length (List.filter (λ t, starts_with prefix t.1) (map_to_list (sc_triggers s))).

Definition migrate_creates_audit_log_table : bool :=
  connected (λ s, (tables_among ["audit_log"] s =? 1)%nat).
Definition migrate_creates_machine_tables : bool :=
  connected (λ s, (tables_among ["machines"; "machine_enrollment_tokens"] s =? 2)%nat).
Definition migrate_creates_append_only_triggers : bool :=
  connected (λ s, (triggers_with "audit_log_no_" s =? 2)%nat).

Definition migrate_recreates_empty_legacy_table : bool :=
  let legacy := MkSchema {["audit_log" := MkTable ["id"; "chain_position"; "github_login";
    "cert_fingerprint"; "previous_hash"; "entry_hash"] 0]} ∅ ∅ in
  match migrated legacy with
  | Some s => (columns_among "audit_log" ["event_type"; "canonical_json"] s =? 2)%nat
  | None => false
  end.

Definition migrate_refuses_to_drop_legacy_table_with_data : bool :=
  let legacy := MkSchema {["audit_log" := MkTable ["id"; "chain_position"; "github_login"] 1]} ∅ ∅ in
  match migrate (MkStore legacy []) with (Err (LegacyAuditLog _), _) => true | _ => false end.

Definition migrate_creates_ca_bundle_tables_and_columns : bool :=
  connected (λ s, (tables_among ["ca_keys"; "ca_bundle_state"] s =? 2)%nat &&
    (columns_among "machines" ["synced_generation"; "bundle_fingerprint"; "last_sync"] s =? 3)%nat).
Definition migrate_creates_ca_management_tables : bool :=
  connected (λ s, (tables_among ["ca_authorities"; "ca_manager_state"] s =? 2)%nat).
Definition migrate_adds_ca_retirement_columns : bool :=
  connected (λ s,
    (columns_among "ca_authorities" ["disabled_generation"; "retired"; "retired_at"] s =? 3)%nat).
Definition migrate_is_idempotent_on_current_schema : bool :=
  connected (λ s, bool_decide (is_Some (migrated s))).

Theorem migration_tests_pass :
  migrate_creates_audit_log_table && migrate_creates_machine_tables &&
  migrate_creates_append_only_triggers && migrate_recreates_empty_legacy_table &&
  migrate_refuses_to_drop_legacy_table_with_data && migrate_creates_ca_bundle_tables_and_columns &&
  migrate_creates_ca_management_tables && migrate_adds_ca_retirement_columns &&
  migrate_is_idempotent_on_current_schema = true.
Proof. vm_compute. reflexivity. Qed.

(** ** [request_id.rs]

    [uuid] is the identifier the server drew.  The test application answers with the
    identifier of its extension; [answer] carries that body in a header of its own. *)
Section request_id.
Context (uuid : string).

Definition rejects_unsafe_ids : bool :=
  negb (is_acceptable_id "") && negb (is_acceptable_id "has space") &&
  negb (is_acceptable_id ("inject" +:+ String (byte_of 13) (String (byte_of 10) "LOG"))) &&
  negb (is_acceptable_id (str_concat (replicate (Z.to_nat (MAX_REQUEST_ID_LEN + 1)) "a"))).

Definition accepts_safe_ids : bool := is_acceptable_id "abc-123" && is_acceptable_id uuid.

Definition upstream_extraction_sanitizes : bool :=
  let with_header v := upstream_request_id [(REQUEST_ID_HEADER, v)] in
  bool_decide (with_header "trace-abc-1" = Some "trace-abc-1") &&
  bool_decide (with_header "unsafe id" = None) &&
  bool_decide (upstream_request_id [] = None).

(** The body and the header of the answer to a request with these headers. *)
Definition answer (headers : list (string * string)) : string * option string :=
  let '(_, response) := propagate_request_id uuid headers (λ id, [("x-body", id)]) in
  (default "" (AgentAuth.header_get "x-body" response), AgentAuth.header_get REQUEST_ID_HEADER response).

Definition generates_uuidv7_when_header_absent : bool :=
  bool_decide (answer [] = (uuid, Some uuid)).

Definition does_not_adopt_client_supplied_id : bool :=
  let '(body, header) := answer [(REQUEST_ID_HEADER, "client-correlation-42")] in
  bool_decide (header ≠ Some "client-correlation-42") && bool_decide (header = Some body) &&
  bool_decide (body = uuid).

Definition ignores_unsafe_client_supplied_id : bool :=
  let '(body, _) := answer [(REQUEST_ID_HEADER, "unsafe id with spaces")] in
  bool_decide (body ≠ "unsafe id with spaces") && bool_decide (body = uuid).

End request_id.

Theorem request_id_tests_pass :
  let uuid := "0190a5b2-7c3d-7e4f-8a1b-2c3d4e5f6071" in
  rejects_unsafe_ids && accepts_safe_ids uuid && upstream_extraction_sanitizes &&
  generates_uuidv7_when_header_absent uuid && does_not_adopt_client_supplied_id uuid &&
  ignores_unsafe_client_supplied_id uuid = true.
Proof. vm_compute. reflexivity. Qed.
