(* ===== verification/Startup.v ===== *)
(** * Files at start-up
      ([load_or_create] of [src/src/bundle/signer.rs], [src/src/dev_certs.rs],
      [src/src/tls.rs], and the TLS part of [src/src/server.rs])

    The bundle signing key and the development certificate live in files.  A disk is its
    files, with contents and permission bits; every call may fail, and a failing write may
    leave any part of its contents behind. *)
From stdpp Require Import gmap strings.
From S2P Require Import Prelude External Bundle Config Toy.

(** ** Files *)
Record File : Type := MkFile { fl_contents : string; fl_mode : option Z }.

(** What happens to the next calls: nothing, a failure, or (for a write) a failure after
    these contents reached the file. *)
Inductive fault : Type := NoFault | Fails | FailsPartly (written : string).

Record Disk : Type := MkDisk {
  dk_files : gmap string File;
  dk_dirs : gmap string (option Z);
  dk_faults : list fault;
}.

Definition io_error : string := "i/o error".

Definition next_fault (d : Disk) : fault * Disk :=
  match dk_faults d with
  | [] => (NoFault, d)
  | f :: fs => (f, MkDisk (dk_files d) (dk_dirs d) fs)
  end.

Definition set_file (path : string) (f : File) (d : Disk) : Disk :=
  MkDisk (<[path := f]> (dk_files d)) (dk_dirs d) (dk_faults d).

(** [Path::is_file] and [Path::exists]. *)
Definition is_file (path : string) (d : Disk) : bool := bool_decide (is_Some (dk_files d !! path)).
Definition exists_path (path : string) (d : Disk) : bool :=
  is_file path d || bool_decide (is_Some (dk_dirs d !! path)).

Definition fs_read (path : string) : M Disk string string := λ d,
  let '(f, d) := next_fault d in
  match f, dk_files d !! path with
  | NoFault, Some file => (Ok (fl_contents file), d)
  | _, _ => (Err io_error, d)
  end.

(** [std::fs::write] truncates before it writes; the mode of an old file stays. *)
Definition fs_write (path contents : string) : M Disk string unit := λ d,
  let '(f, d) := next_fault d in
  let mode := dk_files d !! path ≫= fl_mode in
  match f with
  | NoFault => (Ok tt, set_file path (MkFile contents mode) d)
  | Fails => (Err io_error, d)
  | FailsPartly written => (Err io_error, set_file path (MkFile written mode) d)
  end.

Definition create_dir_all (dir : string) : M Disk string unit := λ d,
  let '(f, d) := next_fault d in
  match f with
  | NoFault =>
      match dk_dirs d !! dir with
      | Some _ => (Ok tt, d)
      | None => (Ok tt, MkDisk (dk_files d) (<[dir := None]> (dk_dirs d)) (dk_faults d))
      end
  | _ => (Err io_error, d)
  end.

Definition set_dir_permissions (dir : string) (mode : Z) : M Disk string unit := λ d,
  let '(f, d) := next_fault d in
  match f with
  | NoFault => (Ok tt, MkDisk (dk_files d) (<[dir := Some mode]> (dk_dirs d)) (dk_faults d))
  | _ => (Err io_error, d)
  end.

Definition set_permissions (path : string) (mode : Z) : M Disk string unit := λ d,
  let '(f, d) := next_fault d in
  match f, dk_files d !! path with
  | NoFault, Some file => (Ok tt, set_file path (MkFile (fl_contents file) (Some mode)) d)
  | _, _ => (Err io_error, d)
  end.

(** [dir.join(name)]. *)
Definition path_join (dir name : string) : string :=
  if ends_with_byte "/" dir then dir +:+ name else dir +:+ "/" +:+ name.

(** ** The bundle signing key *)
Section signer.
Context `{Base64, Ed25519}.

Definition seed_path (storage_dir : string) : string := path_join storage_dir "bundle_signing.seed".

(** [seed.iter().. restrict_permissions]: best effort, a failure is ignored. *)
Definition restrict_permissions (path : string) : M Disk BundleError unit := λ d,
  (Ok tt, (set_permissions path 384 d).2).

(** The file, or a fresh key in it. *)
Definition load_file (storage_dir random : string) : M Disk BundleError BundleSigner :=
  let path := seed_path storage_dir in
  there ← gets (exists_path path);
  if there : bool then
    contents ← with_err (λ e, Crypto ("read bundle signing key: " +:+ e)) (fs_read path);
    lift (from_seed_b64 (trim contents))
  else
    let signer := Ed25519BundleSigner_from_seed random in
    _ ← with_err (λ e, Crypto ("create storage dir: " +:+ e)) (create_dir_all storage_dir);
    _ ← with_err (λ e, Crypto ("write bundle signing key: " +:+ e)) (fs_write path (b64_encode random));
    _ ← restrict_permissions path;
    ret signer.

(** [env] is what the configured variable holds; [random] what the generator would draw. *)
Definition load_or_create (env : option string) (storage_dir random : string)
  : M Disk BundleError BundleSigner :=
  match trim <$> env with
  | Some value => if negb (str_is_empty value) then lift (from_seed_b64 value)
                  else load_file storage_dir random
  | None => load_file storage_dir random
  end.

Lemma set_permissions_contents path mode d p :
  fl_contents <$> dk_files (set_permissions path mode d).2 !! p = fl_contents <$> dk_files d !! p.
Proof.
  unfold set_permissions, next_fault. destruct (dk_faults d) as [|f fs]; simpl.
  - destruct (dk_files d !! path) as [file|] eqn:Hf; simpl; [|done].
    destruct (decide (p = path)) as [->|Hp].
    + by rewrite lookup_insert_eq, Hf.
    + by rewrite lookup_insert_ne by congruence.
  - destruct f; simpl; try done. destruct (dk_files d !! path) as [file|] eqn:Hf; simpl; [|done].
    destruct (decide (p = path)) as [->|Hp].
    + by rewrite lookup_insert_eq, Hf.
    + by rewrite lookup_insert_ne by congruence.
Qed.

Lemma fs_write_ok_inv path contents d u d' :
  fs_write path contents d = (Ok u, d') →
  fl_contents <$> dk_files d' !! path = Some contents.
Proof.
  unfold fs_write. destruct (next_fault d) as [[| |w] d1]; intros [= _ <-].
  simpl. by rewrite lookup_insert_eq.
Qed.

Lemma fs_read_ok_inv path d c d' :
  fs_read path d = (Ok c, d') →
  fl_contents <$> dk_files d !! path = Some c ∧ dk_files d' = dk_files d.
Proof.
  unfold fs_read, next_fault. destruct (dk_faults d) as [|f fs]; simpl.
  - destruct (dk_files d !! path); by intros [= <- <-].
  - destruct f; try done. simpl. destruct (dk_files d !! path); by intros [= <- <-].
Qed.

Lemma from_seed_b64_encode `{!Base64Laws} random :
  String.length random = 32 →
  from_seed_b64 (b64_encode random) = Ok (Ed25519BundleSigner_from_seed random).
Proof.
  intros Hl. unfold from_seed_b64. rewrite b64_roundtrip. simpl. unfold str_len. by rewrite Hl.
Qed.

(** A file with a readable seed is what a start without the variable uses. *)
Lemma load_file_reads dir random d contents signer :
  fl_contents <$> dk_files d !! seed_path dir = Some contents →
  from_seed_b64 (trim contents) = Ok signer → dk_faults d = [] →
  load_file dir random d = (Ok signer, d).
Proof.
  intros Hc Hs Hf. unfold load_file, mbind, M_bind, gets, exists_path, is_file.
  destruct (dk_files d !! seed_path dir) as [file|] eqn:Hl; [|done]. injection Hc as <-.
  rewrite bool_decide_true by eauto. cbn [orb]. unfold with_err, fs_read, next_fault.
  rewrite Hf, Hl. unfold lift. by rewrite Hs.
Qed.

(** C37: the bundle signing key survives restarts.  When a start without the environment
    variable has produced a key (drawing 32 random bytes if there was no file), every later
    start from that disk, whatever the generator would draw then, produces the same key and
    leaves the disk alone; with a key in the variable, neither the disk nor the generator
    matters. *)
Theorem signing_key_stable `{!Base64Laws} dir random d signer d' random' env :
  String.length random = 32 → trim (b64_encode random) = b64_encode random →
  load_or_create None dir random d = (Ok signer, d') → dk_faults d' = [] →
  load_or_create None dir random' d' = (Ok signer, d') ∧
  (trim env ≠ "" → ∀ dir' random1 random2 d1 d2,
     (load_or_create (Some env) dir' random1 d1).1 = (load_or_create (Some env) dir random2 d2).1).
Proof.
  intros Hlen Htrim Hload Hfs. split.
  - unfold load_or_create in *. simpl in *. unfold load_file in Hload.
    do 2 ok_step.
    destruct (exists_path (seed_path dir) d); ok_steps.
    + apply fs_read_ok_inv in Hm as [Hc Hfiles]. eapply load_file_reads; [|done|done].
      by rewrite Hfiles.
    + apply fs_write_ok_inv in Hm0. unfold restrict_permissions in Hm1. injection Hm1 as _ <-.
      eapply load_file_reads; [by rewrite set_permissions_contents| |done].
      rewrite Htrim. by apply from_seed_b64_encode.
  - intros Hne dir' random1 random2 d1 d2. unfold load_or_create. simpl.
    unfold str_is_empty. by rewrite bool_decide_false.
Qed.
End signer.

(** ** The development certificate *)
Inductive TlsError : Type :=
| TlsIo (message : string)
| TlsPem (message : string)
| TlsNoPrivateKey (path : string)
| TlsRustls (message : string)
| TlsGenerate (message : string).

Definition TlsError_display (e : TlsError) : string :=
  match e with
  | TlsIo m => "tls io error: " +:+ m
  | TlsPem m => "failed to parse PEM data: " +:+ m
  | TlsNoPrivateKey p => "no private key found in '" +:+ p +:+ "'"
  | TlsRustls m => "invalid certificate material: " +:+ m
  | TlsGenerate m => "failed to generate development certificate: " +:+ m
  end.

Definition DEV_CERT_DIR : string := ".mayfly/dev-certs".
Definition CERT_FILE : string := "cert.pem".
Definition KEY_FILE : string := "key.pem".

Record DevCertPaths : Type := MkDevCertPaths { dp_cert : string; dp_key : string }.

(** [rcgen]: the key and the self-signed certificate of this call, as PEM, or its error. *)
Definition write_private_key (path pem : string) : M Disk TlsError unit :=
  _ ← with_err TlsIo (fs_write path pem);
  with_err TlsIo (set_permissions path 384).

Definition restrict_dir_permissions (dir : string) : M Disk TlsError unit :=
  with_err TlsIo (set_dir_permissions dir 448).

Definition generate_dev_cert (rcgen : result (string * string) string) (dir cert_path key_path : string)
  : M Disk TlsError unit :=
  _ ← with_err TlsIo (create_dir_all dir);
  _ ← restrict_dir_permissions dir;
  pair ← lift (map_err TlsGenerate rcgen);
  _ ← write_private_key key_path pair.1;
  with_err TlsIo (fs_write cert_path pair.2).

Definition ensure_dev_cert (rcgen : result (string * string) string) (dir : string)
  : M Disk TlsError DevCertPaths :=
  let cert := path_join dir CERT_FILE in
  let key := path_join dir KEY_FILE in
  complete ← gets (λ d, is_file cert d && is_file key d);
  if complete : bool then ret (MkDevCertPaths cert key)
  else
    _ ← generate_dev_cert rcgen dir cert key;
    ret (MkDevCertPaths cert key).

(** ** Loading TLS material *)

(** [rustls-pemfile] and [rustls]: certificates and keys of a PEM text, and whether they
    make a server configuration (TLS 1.3 only). *)
Record Rustls : Type := MkRustls {
  rl_certs : string → result (list string) string;
  rl_private_key : string → result (option string) string;
  rl_single_cert : list string → string → option string;
}.

Definition load_pem (rl : Rustls) (cert_path key_path : string)
  : M Disk TlsError (list string * string) :=
  cert_bytes ← with_err TlsIo (fs_read cert_path);
  certs ← lift (map_err TlsPem (rl_certs rl cert_bytes));
  _ ← ensure (negb (bool_decide (certs = [])))
        (TlsPem ("no certificates found in '" +:+ cert_path +:+ "'"));
  key_bytes ← with_err TlsIo (fs_read key_path);
  key ← lift (map_err TlsPem (rl_private_key rl key_bytes));
  key ← lift (ok_or (TlsNoPrivateKey key_path) key);
  ret (certs, key).

Definition ALPN_H2 : string := "h2".
Definition ALPN_HTTP11 : string := "http/1.1".

Record TlsServerConfig : Type := MkTlsServerConfig {
  ts_certs : list string;
  ts_key : string;
  ts_alpn_protocols : list string;
}.

Definition server_config (rl : Rustls) (certs : list string) (key : string)
  : result TlsServerConfig TlsError :=
  match rl_single_cert rl certs key with
  | Some err => Err (TlsRustls err)
  | None => Ok (MkTlsServerConfig certs key [ALPN_H2; ALPN_HTTP11])
  end.

Definition resolve_tls_config (rl : Rustls) (rcgen : result (string * string) string) (c : Config)
  : M Disk TlsError TlsServerConfig :=
  pair ← match tls_source c with
         | TlsFiles cert key => load_pem rl cert key
         | DevCertificate =>
             paths ← ensure_dev_cert rcgen DEV_CERT_DIR;
             load_pem rl (dp_cert paths) (dp_key paths)
         end;
  lift (server_config rl pair.1 pair.2).

Lemma fs_write_ok_files path contents d u d' :
  fs_write path contents d = (Ok u, d') →
  dk_files d' = <[path := MkFile contents (dk_files d !! path ≫= fl_mode)]> (dk_files d).
Proof.
  unfold fs_write, next_fault. destruct (dk_faults d) as [|[| |w] fs]; by intros [= _ <-].
Qed.

Lemma set_permissions_ok_files path mode d u d' :
  set_permissions path mode d = (Ok u, d') → ∃ file, dk_files d !! path = Some file ∧
  dk_files d' = <[path := MkFile (fl_contents file) (Some mode)]> (dk_files d).
Proof.
  unfold set_permissions, next_fault.
  destruct (dk_faults d) as [|[| |w] fs]; simpl; try done;
    (destruct (dk_files d !! path) as [file|] eqn:Hf; [|done]); intros [= _ <-]; by exists file.
Qed.

Lemma create_dir_all_files dir d r d' :
  create_dir_all dir d = (r, d') → dk_files d' = dk_files d.
Proof.
  unfold create_dir_all, next_fault.
  destruct (dk_faults d) as [|[| |w] fs]; simpl; try (by intros [= _ <-]);
    destruct (dk_dirs d !! dir); by intros [= _ <-].
Qed.

Lemma set_dir_permissions_files dir mode d r d' :
  set_dir_permissions dir mode d = (r, d') → dk_files d' = dk_files d.
Proof.
  unfold set_dir_permissions, next_fault.
  destruct (dk_faults d) as [|[| |w] fs]; by intros [= _ <-].
Qed.

Lemma path_join_files dir : path_join dir CERT_FILE ≠ path_join dir KEY_FILE.
Proof.
  unfold path_join. destruct (ends_with_byte _ _); intros He.
  - by apply app_string_inj_l in He.
  - by apply app_string_inj_l, app_string_inj_l in He.
Qed.

(** The development certificate is ready when it is handed out.  Whenever [ensure]
    answers, both files exist under the paths it names; a complete pair was left as it was,
    and otherwise the files hold the generated key, readable by the owner only, and the
    certificate generated with it, and no other file has changed. *)
Theorem dev_certificate_ready rcgen dir d paths d' :
  ensure_dev_cert rcgen dir d = (Ok paths, d') →
  is_file (dp_cert paths) d' = true ∧ is_file (dp_key paths) d' = true ∧
  (d' = d ∨ ∃ key_pem cert_pem mode, rcgen = Ok (key_pem, cert_pem) ∧
     dk_files d' = <[dp_cert paths := MkFile cert_pem mode]>
                     (<[dp_key paths := MkFile key_pem (Some 384%Z)]> (dk_files d))).
Proof.
  unfold ensure_dev_cert. intros He. do 2 ok_step.
  destruct (is_file _ d && is_file _ d) eqn:Hc.
  - ok_step. simpl. apply andb_true_iff in Hc as [-> ->]. auto.
  - unfold generate_dev_cert, restrict_dir_permissions, write_private_key in *. ok_steps. simpl.
    destruct rcgen as [[key_pem cert_pem]|]; [|done]. injection Hl as <-.
    apply create_dir_all_files in Hm0. apply set_dir_permissions_files in Hm.
    apply fs_write_ok_files in Hm3, Hk1. apply set_permissions_ok_files in Hk as (file & Hf & Hk).
    rewrite Hm3, lookup_insert_eq in Hf. injection Hf as <-.
    assert (dk_files w = <[path_join dir CERT_FILE := MkFile cert_pem
      (dk_files w3 !! path_join dir CERT_FILE ≫= fl_mode)]>
      (<[path_join dir KEY_FILE := MkFile key_pem (Some 384%Z)]> (dk_files d))) as Hw.
    { rewrite Hk1, Hk, Hm3, insert_insert_eq, Hm, Hm0. done. }
    unfold is_file. rewrite Hw, lookup_insert_eq, lookup_insert_ne, lookup_insert_eq
      by apply path_join_files.
    split_and!; [by apply bool_decide_eq_true; eauto..|]. right. by eexists _, _, _.
Qed.

(** ** Witnesses *)
#[local] Existing Instances toy_base64 toy_ed25519 toy_base64_laws.

Definition empty_disk : Disk := MkDisk ∅ ∅ [].
Definition demo_seed_text : string := "0123456789abcdef0123456789abcdef".
Definition demo_first_start := load_or_create None "./ca" demo_seed_text empty_disk.

Lemma signing_key_stable_witness :
  ∃ signer, demo_first_start.1 = Ok signer ∧
    load_or_create None "./ca" "another draw" demo_first_start.2 = (Ok signer, demo_first_start.2).
Proof.
  exists (Ed25519BundleSigner_from_seed demo_seed_text). split; [reflexivity|].
  apply (signing_key_stable "./ca" demo_seed_text empty_disk
    (Ed25519BundleSigner_from_seed demo_seed_text) demo_first_start.2 "another draw" "");
    reflexivity.
Defined.

Definition demo_dev_cert := ensure_dev_cert (Ok ("KEY", "CERT")) DEV_CERT_DIR empty_disk.

Lemma dev_certificate_ready_witness :
  is_file ".mayfly/dev-certs/key.pem" demo_dev_cert.2 = true.
Proof.
  destruct (dev_certificate_ready (Ok ("KEY", "CERT")) DEV_CERT_DIR empty_disk
    (MkDevCertPaths ".mayfly/dev-certs/cert.pem" ".mayfly/dev-certs/key.pem") demo_dev_cert.2
    eq_refl) as (_ & Hk & _).
  exact Hk.
Defined.

(** A certificate without its key is replaced key first; interrupted before the
    certificate, the old certificate and the new key then pass for a complete pair. *)
Example interrupted_pair_kept :
  let lone := MkDisk {[".mayfly/dev-certs/cert.pem" := MkFile "OLD CERT" None]} ∅
                [NoFault; NoFault; NoFault; NoFault; Fails] in
  let first := ensure_dev_cert (Ok ("NEW KEY", "NEW CERT")) DEV_CERT_DIR lone in
  let second := ensure_dev_cert (Ok ("LATER KEY", "LATER CERT")) DEV_CERT_DIR first.2 in
  is_ok first.1 = false ∧ is_ok second.1 = true ∧
  fl_contents <$> dk_files second.2 !! ".mayfly/dev-certs/cert.pem" = Some "OLD CERT" ∧
  fl_contents <$> dk_files second.2 !! ".mayfly/dev-certs/key.pem" = Some "NEW KEY".
Proof. vm_compute. split_and!; reflexivity. Qed.
