(* ===== verification/GithubClient.v ===== *)
(** * The GitHub client ([src/src/github/client.rs], [errors.rs], [models.rs])

    The requests of the production client and how each answer of GitHub becomes an outcome.
    The network is a parameter: what a request (its address, form and bearer token) is
    answered with. *)
From S2P Require Import Prelude External Errors AgentAuth Authz Providers Keycloak Config Toy.

(** ** Wire types *)
Record GitHubOrg : Type := MkGitHubOrg { og_login : string }.
Record GitHubOrgRef : Type := MkGitHubOrgRef { or_login : string }.
Record GitHubTeam : Type := MkGitHubTeam { tm_slug : string; tm_organization : GitHubOrgRef }.

Inductive Method : Type := POST | GET.

Record GhRequest : Type := MkGhRequest {
  rq_method : Method;
  rq_url : string;
  rq_accept : string;
  rq_form : list (string * string);
  rq_bearer : option string;
}.

(** An answer: no answer at all, or a status, headers, and a body that decodes or not. *)
Inductive gh_answer (A : Type) : Type :=
| GhFailed (message : string)
| GhAnswer (status : Z) (headers : list (string * string)) (body : result A string).
Arguments GhFailed {A} message.
Arguments GhAnswer {A} status headers body.

Record GithubNetwork : Type := MkGithubNetwork {
  gn_device : GhRequest → gh_answer DeviceAuthorization;
  gn_json : GhRequest → gh_answer Value;
  gn_user : GhRequest → gh_answer GitHubUser;
  gn_orgs : GhRequest → gh_answer (list GitHubOrg);
  gn_teams : GhRequest → gh_answer (list GitHubTeam);
}.

(** ** The client *)
Record RealGitHubClient : Type := MkRealGitHubClient {
  gc_client_id : string;
  gc_client_secret : string;
  gc_scope : string;
  gc_device_base_url : string;
  gc_api_base_url : string;
}.

Definition RealGitHubClient_new (client_id client_secret scope device_base_url api_base_url : string)
  : RealGitHubClient :=
  MkRealGitHubClient client_id client_secret scope (trim_end_slash device_base_url)
    (trim_end_slash api_base_url).

Definition RealGitHubClient_from_config (c : GithubConfig) : RealGitHubClient :=
  RealGitHubClient_new (gh_client_id c) (github_client_secret_value c) (gh_scopes c)
    (gh_device_base_url c) (gh_api_base_url c).

(** A non-success status of a token-authenticated call. *)
Definition auth_status_error (status : Z) (headers : list (string * string)) : GitHubError :=
  if (status =? 401)%Z then GhUnauthorized
  else if (status =? 429)%Z then GhRateLimited
  else if (status =? 403)%Z then
    let exhausted :=
      match header_get "x-ratelimit-remaining" headers ≫= header_to_str with
      | Some v => bool_decide (trim v = "0")
      | None => false
      end in
    if exhausted then GhRateLimited else GhUnexpectedStatus 403
  else GhUnexpectedStatus status.

Definition device_request (c : RealGitHubClient) : GhRequest :=
  MkGhRequest POST (gc_device_base_url c +:+ "/login/device/code") "application/json"
    [("client_id", gc_client_id c); ("scope", gc_scope c)] None.

Definition github_start_device_flow (c : RealGitHubClient) (net : GithubNetwork)
  : result DeviceAuthorization GitHubError :=
  match gn_device net (device_request c) with
  | GhFailed m => Err (GhTransport m)
  | GhAnswer status _ body =>
      guard? status_is_success status else GhUnexpectedStatus status in
      map_err GhDecode body
  end.

Definition token_request (c : RealGitHubClient) (device_code : string) : GhRequest :=
  MkGhRequest POST (gc_device_base_url c +:+ "/login/oauth/access_token") "application/json"
    [("client_id", gc_client_id c); ("client_secret", gc_client_secret c);
     ("device_code", device_code); ("grant_type", DEVICE_GRANT_TYPE)] None.

(** The body of the token endpoint; its status is not looked at. *)
Definition github_token_outcome (body : Value) : result DeviceTokenOutcome GitHubError :=
  match value_get "access_token" body ≫= value_as_str with
  | Some token => Ok (Approved token (default "" (value_get "scope" body ≫= value_as_str)))
  | None =>
      match value_get "error" body ≫= value_as_str with
      | Some "authorization_pending" => Ok Pending
      | Some "slow_down" => Ok SlowDown
      | Some "expired_token" => Ok Expired
      | Some "access_denied" => Ok OutcomeDenied
      | Some "incorrect_device_code" | Some "invalid_grant" | Some "unsupported_grant_type" =>
          Err GhInvalidDeviceCode
      | _ => Err (GhDecode "token response had neither access_token nor a known error")
      end
  end.

Definition github_poll_device_flow (c : RealGitHubClient) (net : GithubNetwork) (device_code : string)
  : result DeviceTokenOutcome GitHubError :=
  match gn_json net (token_request c device_code) with
  | GhFailed m => Err (GhTransport m)
  | GhAnswer _ _ body =>
      let? body := map_err GhDecode body in
      github_token_outcome body
  end.

Definition api_request (c : RealGitHubClient) (path access_token : string) : GhRequest :=
  MkGhRequest GET (gc_api_base_url c +:+ path) "application/vnd.github+json" [] (Some access_token).

(** The three token-authenticated calls. *)
Definition api_call {A} (send : GhRequest → gh_answer A) (request : GhRequest)
  : result A GitHubError :=
  match send request with
  | GhFailed m => Err (GhTransport m)
  | GhAnswer status headers body =>
      guard? (status =? 200)%Z else auth_status_error status headers in
      map_err GhDecode body
  end.

Definition github_get_user (c : RealGitHubClient) (net : GithubNetwork) (access_token : string)
  : result GitHubUser GitHubError :=
  api_call (gn_user net) (api_request c "/user" access_token).

Definition github_get_user_orgs (c : RealGitHubClient) (net : GithubNetwork) (access_token : string)
  : result (list string) GitHubError :=
  let? orgs := api_call (gn_orgs net) (api_request c "/user/orgs" access_token) in
  Ok (og_login <$> orgs).

Definition github_get_user_teams (c : RealGitHubClient) (net : GithubNetwork) (access_token : string)
  : result (list string) GitHubError :=
  let? teams := api_call (gn_teams net) (api_request c "/user/teams" access_token) in
  Ok ((λ t, or_login (tm_organization t) +:+ "/" +:+ tm_slug t) <$> teams).

(** [impl GitHubClient for RealGitHubClient]. *)
Definition real_client (c : RealGitHubClient) (net : GithubNetwork) : GitHubClient :=
  MkGitHubClient (github_start_device_flow c net) (github_poll_device_flow c net)
    (github_get_user c net) (github_get_user_orgs c net) (github_get_user_teams c net).

(** [impl GitHubClient for UnconfiguredGitHubClient]. *)
Definition UnconfiguredGitHubClient : GitHubClient :=
  let err := GhTransport "github client is not configured" in
  MkGitHubClient (Err err) (λ _, Err err) (λ _, Err err) (λ _, Err err) (λ _, Err err).

(** ** What reaches a caller *)

Definition rate_limit_exhausted (headers : list (string * string)) : Prop :=
  ∃ v, header_get "x-ratelimit-remaining" headers ≫= header_to_str = Some v ∧ trim v = "0".

Lemma exhausted_iff headers :
  match header_get "x-ratelimit-remaining" headers ≫= header_to_str with
  | Some v => bool_decide (trim v = "0")
  | None => false
  end = true ↔ rate_limit_exhausted headers.
Proof.
  unfold rate_limit_exhausted. destruct (_ ≫= _) as [v|]; [|naive_solver].
  rewrite bool_decide_eq_true. naive_solver.
Qed.

(** A rejected token, a rate limit and any other trouble with GitHub are kept apart.  A
    [/user] answer other than 200 makes the identity lookup fail, and the caller is told 401
    exactly when GitHub said 401, 429 exactly when GitHub said 429 or said 403 with its
    rate limit used up, and 500 otherwise, with a text that says nothing of GitHub's answer. *)
Theorem upstream_failures_told_apart c net token status headers body :
  gn_user net (api_request c "/user" token) = GhAnswer status headers body → status ≠ 200%Z →
  ∃ err, fetch_identity (GitHubProvider (real_client c net)) token = Err err ∧
    let e := ApiError_of_provider err in
    (ApiError_status e = 401%Z ↔ status = 401%Z) ∧
    (ApiError_status e = 429%Z ↔
       status = 429%Z ∨ status = 403%Z ∧ rate_limit_exhausted headers) ∧
    (ApiError_status e ≠ 401%Z → ApiError_status e ≠ 429%Z →
       ApiError_client_message e = "internal server error").
Proof.
  intros Hnet Hs. exists (AuthProviderError_of_github (auth_status_error status headers)).
  split.
  { simpl. unfold github_fetch_identity, github_get_user, api_call. simpl.
    unfold github_get_user, api_call. rewrite Hnet. by rewrite (proj2 (Z.eqb_neq _ _) Hs). }
  cbv zeta. rewrite <-exhausted_iff. unfold auth_status_error.
  destruct (Z.eqb_spec status 401) as [->|H1]; [simpl; split_and!; try done; split; [done|];
    intros [|[? _]]; lia|].
  destruct (Z.eqb_spec status 429) as [->|H2]; [simpl; split_and!; try done; split; auto; lia|].
  destruct (Z.eqb_spec status 403) as [->|H3].
  - destruct (match _ with Some _ => _ | None => _ end); simpl; split_and!; try done; split; try lia;
      intros; try (by auto); destruct_or?; destruct_and?; done || lia.
  - simpl. split_and!; try done; split; lia.
Qed.

(** The client secret goes to the token endpoint only: two clients that differ in
    nothing but the secret behave the same, on any network, in every call but the poll; and
    the poll sends it in the form of one request to the token endpoint. *)
Lemma secret_confined client_id s1 s2 scope device api net :
  let c s := RealGitHubClient_new client_id s scope device api in
  let g s := real_client (c s) net in
  start_device_flow (g s1) = start_device_flow (g s2) ∧
  (∀ t, get_user (g s1) t = get_user (g s2) t) ∧
  (∀ t, get_user_orgs (g s1) t = get_user_orgs (g s2) t) ∧
  (∀ t, get_user_teams (g s1) t = get_user_teams (g s2) t) ∧
  (∀ code, gn_json net (token_request (c s1) code) = gn_json net (token_request (c s2) code) →
     poll_device_flow (g s1) code = poll_device_flow (g s2) code).
Proof.
  split_and!; try done. intros code Hq. simpl. unfold github_poll_device_flow. by rewrite Hq.
Qed.

(** ** Witnesses *)
Definition demo_github_client : RealGitHubClient :=
  RealGitHubClient_from_config (cfg_github demo_app_config).
Definition limited_network : GithubNetwork :=
  MkGithubNetwork (λ _, GhFailed "") (λ _, GhFailed "")
    (λ _, GhAnswer 403 [("x-ratelimit-remaining", " 0")] (Err "not json")) (λ _, GhFailed "")
    (λ _, GhFailed "").

Lemma upstream_failures_told_apart_witness :
  ∃ err, fetch_identity (GitHubProvider (real_client demo_github_client limited_network)) "gho_1"
      = Err err ∧ ApiError_status (ApiError_of_provider err) = 429%Z.
Proof.
  destruct (upstream_failures_told_apart demo_github_client limited_network "gho_1" 403
    [("x-ratelimit-remaining", " 0")] (Err "not json") eq_refl) as (err & He & _ & H429 & _);
    [discriminate|].
  exists err. split; [exact He|]. apply H429. right. split; [reflexivity|].
  exists " 0". split; reflexivity.
Defined.
