(* ===== verification/Paths.v ===== *)
(** * Paths, templates and routers
      (the part of [axum] and [matchit] that [src/src/routes/mod.rs] uses)

    What a route template matches, the choice among several that match as an interface
    with its documented laws, and the combinators a router is built with: [route],
    [merge], [route_layer] and [layer] over services on a shared state. *)
From S2P Require Import Prelude External Errors Database AgentAuth Toy.

(** ** Templates *)

(** A segment in braces is a parameter and takes one segment that is not empty; any
    other segment is literal. *)
Definition slash : ascii := byte_of 47.
Definition open_brace : ascii := byte_of 123.
Definition close_brace : ascii := byte_of 125.
Definition is_param (segment : string) : bool :=
  starts_with_byte open_brace segment && ends_with_byte close_brace segment.

Fixpoint match_segments (template path : list string) : option (list string) :=
  match template, path with
  | [], [] => Some []
  | t :: template, p :: path =>
      rest ← match_segments template path;
      if is_param t then if str_is_empty p then None else Some (p :: rest)
      else if bool_decide (t = p) then Some rest else None
  | _, _ => None
  end.
Definition match_template (template path : string) : option (list string) :=
  match_segments (split_on slash template) (split_on slash path).

(** Static segments have priority: at the first place where two templates differ, the
    preferred one is literal, or both are parameters. *)
Fixpoint preferred (t t' : list string) : bool :=
  match t, t' with
  | a :: t, b :: t' => if bool_decide (a = b) then preferred t t' else negb (is_param a) || is_param b
  | _, _ => true
  end.

(** The template chosen for a path, and what its parameters stand for. *)
Class PathMatcher : Type :=
  find_route : list string → string → option (string * list string).

Class PathMatcherLaws `{PathMatcher} : Prop := {
  find_sound ts path t ps :
    find_route ts path = Some (t, ps) → t ∈ ts ∧ match_template t path = Some ps;
  find_complete ts path t ps :
    t ∈ ts → match_template t path = Some ps → is_Some (find_route ts path);
  find_preferred ts path t ps t' ps' :
    find_route ts path = Some (t, ps) → t' ∈ ts → match_template t' path = Some ps' →
    preferred (split_on slash t) (split_on slash t') = true;
}.

(** ** Requests and responses *)

(** A request on its way through the stack, with the extensions the middleware adds. *)
Record Incoming (X : Type) : Type := MkIncoming {
  iq_request : Request;
  iq_query : string;
  iq_matched : option string;
  iq_params : list string;
  iq_request_id : option string;
  iq_machine : option X;
}.
Arguments MkIncoming {X} _ _ _ _ _ _.
Arguments iq_request {X} _.
Arguments iq_query {X} _.
Arguments iq_matched {X} _.
Arguments iq_params {X} _.
Arguments iq_request_id {X} _.
Arguments iq_machine {X} _.

(** A response: [B] is what a body can be. *)
Record Response (B : Type) : Type := MkResponse {
  rs_status : Z;
  rs_headers : list (string * string);
  rs_body : option B;
}.
Arguments MkResponse {B} _ _ _.
Arguments rs_status {B} _.
Arguments rs_headers {B} _.
Arguments rs_body {B} _.

(** ** Routers *)
Section routers.
Context {S X B : Type}.

Definition Service : Type := Incoming X → S → Response B * S.

(** The handlers of one path by method, and the answer to any other method. *)
Record MethodRouter : Type := MkMethodRouter {
  mr_handlers : list (string * Service);
  mr_fallback : Service;
}.

(** The [Allow] header: [GET] also admits [HEAD]. *)
Definition allow_header (methods : list string) : string :=
  foldr (λ m rest, if str_is_empty rest then m else m +:+ "," +:+ rest) ""
    (flat_map (λ m, if bool_decide (m = "GET") then ["GET"; "HEAD"] else [m]) methods).

(** [405 Method Not Allowed]. *)
Definition method_not_allowed (methods : list string) : Service := λ _ s,
  (MkResponse 405 [("allow", allow_header methods)] None, s).

Definition method_router (handlers : list (string * Service)) : MethodRouter :=
  MkMethodRouter handlers (method_not_allowed (fst <$> handlers)).
Definition get (h : Service) : MethodRouter := method_router [("GET", h)].
Definition post (h : Service) : MethodRouter := method_router [("POST", h)].
Definition on_method (method : string) (h : Service) (r : MethodRouter) : MethodRouter :=
  method_router (mr_handlers r ++ [(method, h)]).

Definition find_handler (method : string) (handlers : list (string * Service)) : option Service :=
  snd <$> find (λ h, bool_decide (h.1 = method)) handlers.

(** A [HEAD] request runs the [GET] handler and drops the body. *)
Definition without_body (h : Service) : Service := λ q s,
  let '(r, s) := h q s in (MkResponse (rs_status r) (rs_headers r) None, s).

Definition call_method (r : MethodRouter) : Service := λ q,
  let method := rq_method (iq_request q) in
  match find_handler method (mr_handlers r) with
  | Some h => h q
  | None =>
      if bool_decide (method = "HEAD") then
        match find_handler "GET" (mr_handlers r) with
        | Some h => without_body h q
        | None => mr_fallback r q
        end
      else mr_fallback r q
  end.

Record Router : Type := MkRouter {
  ro_routes : list (string * Service);
  ro_fallback : Service;
}.

(** [404 Not Found]. *)
Definition not_found : Service := λ _ s, (MkResponse 404 [] None, s).

Definition Router_new : Router := MkRouter [] not_found.
Definition route (path : string) (r : MethodRouter) (router : Router) : Router :=
  MkRouter (ro_routes router ++ [(path, call_method r)]) (ro_fallback router).
Definition merge (other : Router) (router : Router) : Router :=
  MkRouter (ro_routes router ++ ro_routes other) (ro_fallback router).
(** Around every route added so far, and around nothing else. *)
Definition route_layer (f : Service → Service) (router : Router) : Router :=
  MkRouter ((λ pr, (pr.1, f pr.2)) <$> ro_routes router) (ro_fallback router).
(** Around the fallback as well. *)
Definition layer (f : Service → Service) (router : Router) : Router :=
  MkRouter ((λ pr, (pr.1, f pr.2)) <$> ro_routes router) (f (ro_fallback router)).

Definition templates (router : Router) : list string := fst <$> ro_routes router.

Definition set_match (t : string) (ps : list string) (q : Incoming X) : Incoming X :=
  MkIncoming (iq_request q) (iq_query q) (Some t) ps (iq_request_id q) (iq_machine q).

Definition call_router `{PathMatcher} (router : Router) : Service := λ q,
  match find_route (templates router) (rq_path (iq_request q)) with
  | Some (t, ps) =>
      match snd <$> find (λ pr, bool_decide (pr.1 = t)) (ro_routes router) with
      | Some service => service (set_match t ps q)
      | None => ro_fallback router q
      end
  | None => ro_fallback router q
  end.
End routers.
(** Method chaining, as in [Router::new().route(..).merge(..)]. *)
Declare Scope router_scope.
Delimit Scope router_scope with router.
Notation "r '.>' f" := (f r) (at level 62, left associativity, only parsing) : router_scope.

Arguments Service : clear implicits.
Arguments MethodRouter : clear implicits.
Arguments Router : clear implicits.

(** ** Lemmas *)
Lemma split_on_nonempty c s : split_on c s ≠ [].
Proof. destruct s as [|d s]; [done|]. simpl. case_bool_decide; [done|]. by destruct (split_on c s). Qed.

Lemma split_on_app_sep c s t : split_on c (s +:+ String c t) = split_on c s ++ split_on c t.
Proof.
  induction s as [|d s IH]; [simpl; by rewrite bool_decide_true|]. rewrite app_String. simpl.
  rewrite IH. case_bool_decide; [done|]. pose proof (split_on_nonempty c s).
  by destruct (split_on c s).
Qed.

(** Segments joined by slashes, and back. *)
Fixpoint join_path (segments : list string) : string :=
  match segments with
  | [] => ""
  | [s] => s
  | s :: segments => s +:+ String slash (join_path segments)
  end.

Lemma join_split s : join_path (split_on slash s) = s.
Proof.
  induction s as [|c s IH]; [done|]. simpl. case_bool_decide as Hc.
  - subst c. pose proof (split_on_nonempty slash s).
    destruct (split_on slash s) as [|p ps]; [done|]. by rewrite <-IH.
  - destruct (split_on slash s) as [|p [|p' ps]]; simpl in *; rewrite <-IH; [done|done|].
    by rewrite app_String.
Qed.

Lemma split_join l :
  l ≠ [] → forallb (λ s, negb (str_mem slash s)) l = true → split_on slash (join_path l) = l.
Proof.
  induction l as [|s l IH]; [done|]. intros _ Hl. simpl in Hl. bool_prop.
  destruct l as [|s' l]; [by apply split_on_none|].
  change (join_path (s :: s' :: l)) with (s +:+ String slash (join_path (s' :: l))).
  rewrite split_on_app_sep, IH by done. by rewrite split_on_none.
Qed.

(** A literal segment matches itself only. *)
Lemma match_cons t ts p ps xs :
  match_segments (t :: ts) (p :: ps) = Some xs →
  (is_param t = true ∧ p ≠ "" ∧ ∃ ys, xs = p :: ys ∧ match_segments ts ps = Some ys) ∨
  (is_param t = false ∧ t = p ∧ match_segments ts ps = Some xs).
Proof.
  simpl. destruct (match_segments ts ps) as [ys|]; [|done]. simpl.
  destruct (is_param t); unfold str_is_empty; case_bool_decide; intros [= <-].
  - left. split_and!; [done|done|]. by exists ys.
  - by right.
Qed.

(** A template filled with one value for each parameter. *)
Fixpoint fill_segments (template values : list string) : list string :=
  match template with
  | [] => []
  | t :: template =>
      if is_param t then
        match values with
        | v :: values => v :: fill_segments template values
        | [] => t :: fill_segments template []
        end
      else t :: fill_segments template values
  end.
Definition url_for (template : string) (values : list string) : string :=
  join_path (fill_segments (split_on slash template) values).

Definition param_count (template : string) : nat :=
  length (List.filter is_param (split_on slash template)).

Lemma match_fill template values :
  length values = length (List.filter is_param template) →
  Forall (λ v, v ≠ "") values →
  match_segments template (fill_segments template values) = Some values.
Proof.
  revert values. induction template as [|t template IH]; intros values Hlen Hne.
  { by destruct values. }
  simpl in *. destruct (is_param t) eqn:Ht.
  - destruct values as [|v values]; [done|]. apply Forall_cons in Hne as [Hv Hne].
    simpl in *. rewrite IH by (done || lia). simpl. rewrite ?Ht. unfold str_is_empty.
    by rewrite bool_decide_false.
  - simpl. rewrite IH by done. simpl. rewrite ?Ht. by rewrite bool_decide_true.
Qed.

Section router_lemmas.
Context {S X B : Type} `{PathMatcher, !PathMatcherLaws}.
Implicit Types (router : Router S X B) (q : Incoming X).

(** A call runs the service of a template that matches, or the fallback. *)
Lemma call_router_inv router q s r s' :
  call_router router q s = (r, s') →
  (∃ t ps service, find_route (templates router) (rq_path (iq_request q)) = Some (t, ps) ∧
     (t, service) ∈ ro_routes router ∧ match_template t (rq_path (iq_request q)) = Some ps ∧
     service (set_match t ps q) s = (r, s')) ∨
  (find_route (templates router) (rq_path (iq_request q)) = None ∧
   ro_fallback router q s = (r, s')).
Proof.
  unfold call_router. destruct (find_route _ _) as [[t ps]|] eqn:Hf; [|by right].
  destruct (find_sound _ _ _ _ Hf) as [Ht Hm].
  destruct (find _ _) as [[t' service]|] eqn:Hfind; simpl.
  - apply find_some in Hfind as [Hin Heq]. simpl in Heq. apply bool_decide_eq_true in Heq as ->.
    intros Hs. left. exists t, ps, service. split_and!; [done|by apply list_elem_of_In|done..].
  - apply list_elem_of_fmap in Ht as ([t' service] & -> & Hin).
    apply list_elem_of_In in Hin. apply (find_none _ _ Hfind) in Hin. simpl in Hin.
    by apply bool_decide_eq_false in Hin.
Qed.

(** A method router runs one of its handlers, or answers that the method is not allowed. *)
Lemma call_method_inv (r : MethodRouter S X B) q s x s' :
  call_method r q s = (x, s') →
  (∃ m h, (m, h) ∈ mr_handlers r ∧ (rq_method (iq_request q) = m ∧ h q s = (x, s') ∨
     rq_method (iq_request q) = "HEAD" ∧ m = "GET" ∧ without_body h q s = (x, s'))) ∨
  mr_fallback r q s = (x, s').
Proof.
  assert (∀ m h, find_handler m (mr_handlers r) = Some h → (m, h) ∈ mr_handlers r) as Hfind.
  { intros m h. unfold find_handler. destruct (find _ _) as [[m' h']|] eqn:Hf; [|done].
    apply find_some in Hf as [Hin Heq]. simpl in Heq. apply bool_decide_eq_true in Heq as ->.
    intros [= <-]. by apply list_elem_of_In. }
  unfold call_method. destruct (find_handler _ _) as [h|] eqn:Hh; [left; eauto 10|].
  case_bool_decide as Hm; [|by right].
  destruct (find_handler "GET" _) as [h|] eqn:Hg; [|by right]. left. eauto 10.
Qed.
End router_lemmas.

(** What holds of every route of a router, by how it was built. *)
Section every_route.
Context {S X B : Type} (P : string → Service S X B → Prop).
Implicit Types (router : Router S X B).

Definition every_route router : Prop := Forall (λ tr, P tr.1 tr.2) (ro_routes router).

Lemma every_new : every_route Router_new.
Proof. constructor. Qed.
Lemma every_add path r router :
  every_route router → P path (call_method r) → every_route (route path r router).
Proof. intros Hr Hp. apply Forall_app. split; [done|]. by repeat constructor. Qed.
Lemma every_merge other router :
  every_route router → every_route other → every_route (merge other router).
Proof. intros Hr Ho. by apply Forall_app. Qed.
End every_route.

Lemma every_route_layer {S X B} (P P' : string → Service S X B → Prop) f router :
  (∀ t h, P' t h → P t (f h)) → every_route P' router → every_route P (route_layer f router).
Proof. intros Hf Hr. apply Forall_fmap. eapply Forall_impl; [exact Hr|]. intros [t h]. apply Hf. Qed.
Lemma every_layer {S X B} (P P' : string → Service S X B → Prop) f router :
  (∀ t h, P' t h → P t (f h)) → every_route P' router → every_route P (layer f router).
Proof. apply every_route_layer. Qed.

(** ** Two templates that match one path *)
Fixpoint overlap (t t' : list string) : bool :=
  match t, t' with
  | [], [] => true
  | a :: t, b :: t' =>
      (is_param a || is_param b || bool_decide (a = b)) && overlap t t'
  | _, _ => false
  end.

Lemma match_overlap t t' p xs ys :
  match_segments t p = Some xs → match_segments t' p = Some ys → overlap t t' = true.
Proof.
  revert t' p xs ys. induction t as [|a t IH]; intros [|b t'] [|c p] xs ys Hx Hy; try done.
  apply match_cons in Hx as [(Ha & _ & xs' & _ & Hx)|(Ha & <- & Hx)];
    apply match_cons in Hy as [(Hb & _ & ys' & _ & Hy)|(Hb & Hbc & Hy)];
    simpl; rewrite ?Ha, ?Hb, (IH _ _ _ _ Hx Hy); simpl; try done.
  subst. by rewrite bool_decide_true.
Qed.

(** ** A matcher

    The templates that match, the one with the earliest literal segments first. *)
Fixpoint lex_leb (a b : list bool) : bool :=
  match a, b with
  | [], _ => true
  | x :: a, y :: b => if Bool.eqb x y then lex_leb a b else negb x
  | _ :: _, [] => false
  end.

Lemma lex_leb_total a b : lex_leb a b = true ∨ lex_leb b a = true.
Proof.
  revert b. induction a as [|x a IH]; intros [|y b]; simpl; auto.
  destruct x, y; simpl; auto.
Qed.
Lemma lex_leb_trans a b c : lex_leb a b = true → lex_leb b c = true → lex_leb a c = true.
Proof.
  revert b c. induction a as [|x a IH]; intros [|y b] [|z c]; simpl; try done.
  destruct x, y, z; simpl; try done; eauto.
Qed.

Definition shape (t : string) : list bool := is_param <$> split_on slash t.

#[local] Instance toy_matcher : PathMatcher := λ ts path,
  head (sort_by (λ a b, lex_leb (shape a.1) (shape b.1))
    (omap (λ t, (λ ps, (t, ps)) <$> match_template t path) ts)).

Lemma shape_preferred t t' path ps ps' :
  match_segments t path = Some ps → match_segments t' path = Some ps' →
  lex_leb (is_param <$> t) (is_param <$> t') = true → preferred t t' = true.
Proof.
  revert t' path ps ps'. induction t as [|a t IH]; intros [|b t'] [|p path] ps ps' Hm Hm' Hl; try done.
  simpl. case_bool_decide as Hab.
  - subst b. simpl in Hl. rewrite Bool.eqb_reflx in Hl.
    apply match_cons in Hm as [(_ & _ & ? & _ & Hm)|(_ & _ & Hm)];
      apply match_cons in Hm' as [(_ & _ & ? & _ & Hm')|(_ & _ & Hm')]; by eapply IH.
  - simpl in Hl. destruct (is_param a) eqn:Ha, (is_param b) eqn:Hb; simpl in *; done.
Qed.

#[local] Instance toy_matcher_laws : PathMatcherLaws.
Proof.
  assert (∀ ts path t ps, find_route ts path = Some (t, ps) →
    (t, ps) ∈ omap (λ t, (λ ps, (t, ps)) <$> match_template t path) ts ∧
    ∀ t' ps', (t', ps') ∈ omap (λ t, (λ ps, (t, ps)) <$> match_template t path) ts →
      lex_leb (shape t) (shape t') = true) as Hfind.
  { intros ts path t ps. unfold find_route, toy_matcher. set (l := omap _ _).
    pose proof (sort_by_perm (λ a b : string * list string, lex_leb (shape a.1) (shape b.1)) l) as Hp.
    pose proof (sort_by_sorted (λ a b : string * list string, lex_leb (shape a.1) (shape b.1))
      (λ a b, lex_leb_total _ _) (λ a b c, lex_leb_trans _ _ _) l) as Hs.
    destruct (sort_by _ l) as [|[t0 ps0] rest]; [done|]. intros [= -> ->].
    split; [rewrite <-Hp; apply list_elem_of_here|]. intros t' ps'. rewrite <-Hp.
    intros [[= -> ->]|Hin]%elem_of_cons; [by destruct (lex_leb_total (shape t) (shape t))|].
    inversion Hs as [|? ? _ Hall]; subst. rewrite Forall_forall in Hall. by apply (Hall _ Hin). }
  assert (∀ (ts : list string) path t ps,
    (t, ps) ∈ omap (λ t, (λ ps, (t, ps)) <$> match_template t path) ts ↔
    t ∈ ts ∧ match_template t path = Some ps) as Hin.
  { intros ts path t ps. rewrite list_elem_of_omap. split.
    - intros (t0 & Ht0 & Hf). destruct (match_template t0 path) as [ps0|] eqn:Hm; [|done].
      by simplify_eq/=.
    - intros [Ht Hm]. exists t. by rewrite Hm. }
  split.
  - intros ts path t ps [Hf _]%Hfind. by apply Hin.
  - intros ts path t ps Ht Hm. unfold find_route, toy_matcher. set (l := omap _ _).
    assert ((t, ps) ∈ l) as Hl by by apply Hin.
    rewrite <-(sort_by_perm (λ a b : string * list string, lex_leb (shape a.1) (shape b.1)) l) in Hl.
    destruct (sort_by _ l) as [|x rest]; [by apply elem_of_nil in Hl|]. by exists x.
  - intros ts path t ps t' ps' Hf Ht' Hm'. apply Hfind in Hf as [Hf Hmin].
    apply Hin in Hf as [_ Hm]. eapply shape_preferred; [exact Hm|exact Hm'|].
    apply (Hmin t' ps'). by apply Hin.
Qed.
