(* ===== verification/Router.v ===== *)
(** * The routes of the server ([src/src/routes/mod.rs])

    Every handler behind its extractors, the two middlewares and the request identifier
    around them, and the table [build_router] makes of them.  The handlers are those of the
    components; what [axum] and [serde] take out of a request is a parameter. *)
From S2P Require Import Prelude External Errors Database AuditChain AuditRepo Machines Enrollment.
From S2P Require Import AgentAuth Registry MachineAdmin ClientContext Authz Providers Certificates.
From S2P Require Import Bundle BundleService Rollout Metrics AdminRoutes Console CaRoutes Paths Toy.

Definition API_V1 : string := "/api/v1".

(** ** Extractors *)

(** The bodies and query strings the handlers take, and their types. *)
Inductive JsonKind : Type :=
| KDevicePoll | KIssue | KValidate | KEnroll | KGenerate | KImport | KPatch | KRotate | KRetire
| KMint | KHeartbeat | KAck.

Definition json_payload (k : JsonKind) : Type :=
  match k with
  | KDevicePoll => DevicePollBody
  | KIssue => IssueCertificateRequest
  | KValidate => string
  | KEnroll => EnrollRequest
  | KGenerate => GenerateCaRequest
  | KImport => ImportCaRequest
  | KPatch => PatchCaRequest
  | KRotate => RotateCaRequest
  | KRetire => bool
  | KMint => MintEnrollmentTokenRequest
  | KHeartbeat => HeartbeatRequest
  | KAck => BundleAckRequest
  end.

Inductive QueryKind : Type :=
| KProvider | KDeleteCa | KMachineList | KAudit | KRolloutMachines | KTimeline.

Definition query_payload (k : QueryKind) : Type :=
  match k with
  | KProvider => option string
  | KDeleteCa => bool
  | KMachineList => MachineListQuery
  | KAudit => AuditSearchParams
  | KRolloutMachines => option string * option Z
  | KTimeline => option Z
  end%type.

(** The answer of an extractor that refuses a request. *)
Record Rejection : Type := MkRejection { rj_status : Z; rj_text : string }.

(** [Json<T>], [Option<Json<T>>], [Query<T>] and [Path<String>]. *)
Class Extractors : Type := {
  json : ∀ k, Request → result (json_payload k) Rejection;
  json_opt : ∀ k, Request → result (option (json_payload k)) Rejection;
  query_string : ∀ k, string → result (query_payload k) Rejection;
  path_param : list string → result string Rejection;
}.

(** A refusal is an error answer. *)
Class ExtractorsLaws `{Extractors} : Prop := {
  json_refusal k q rj : json k q = Err rj → (400 <= rj_status rj)%Z;
  json_opt_refusal k q rj : json_opt k q = Err rj → (400 <= rj_status rj)%Z;
  query_refusal k s rj : query_string k s = Err rj → (400 <= rj_status rj)%Z;
  path_refusal ps rj : path_param ps = Err rj → (400 <= rj_status rj)%Z;
}.

(** [Extension<T>] of something no layer inserted. *)
Definition missing_extension : Rejection :=
  MkRejection 500 "Missing request extension".

(** ** Failures and bodies *)
Inductive Failure : Type :=
| FailApi (e : ApiError)
| FailEnrollment (e : EnrollmentError)
| FailRejection (rj : Rejection).

Section router.
Context `{Sha256, HexEncode, Chrono, SerdeJson, SshCert, Base64, Ed25519, DebugStrings, ToLowercase}.
Context `{Extractors, NonceCache C}.
Context {S View Stats : Type}.
Context (format_stamp : Z → string).
Context (CaView_from_record : CaRecord → Z → Z → View).
Context (CaStats_from_records : list CaRecord → Z → string → Stats).
Context (VERSION : string) (parse_error : string → string).

Inductive Body : Type :=
| BError (e : ErrorResponse)
| BRejection (text : string)
| BHealth (x : HealthResponse)
| BReady (x : ReadyResponse)
| BDevice (x : DeviceAuthorization)
| BPoll (x : PollResponse)
| BWhoami (x : WhoamiResponse)
| BCertificate (x : CertificateResponse)
| BValidation (x : CertificateValidation)
| BEnrolled (x : EnrollResponse)
| BServers (x : list ServerSummary)
| BCa (x : View)
| BCas (x : list View)
| BCaStats (x : Stats)
| BPublicBundle (x : PublicBundle)
| BPublicKey (x : CaPublicKeyEntry)
| BCaDeleted (x : DeleteCaResponse)
| BRotation (x : RotationResult View)
| BRetirement (x : RetirementAssessment)
| BFleet (x : FleetStatus)
| BMinted (x : MintEnrollmentTokenResponse)
| BMachines (x : list MachineView)
| BMachine (x : MachineView)
| BMachineDeleted (x : DeleteMachineResponse)
| BAudit (x : AuditSearchResponse)
| BHealthReport (x : HealthReport)
| BStatus (x : StatusReport)
| BMetrics (x : ApiMetricsSnapshot)
| BRollout (x : RolloutStatus)
| BGenerations (x : GenerationsResponse)
| BRolloutMachines (x : MachinesResponse)
| BStuck (x : StuckReport)
| BRolloutHealth (x : RolloutHealth)
| BExplanation (x : RolloutExplanation)
| BTimeline (x : RolloutTimeline)
| BHistory (x : RolloutHistory)
| BHeartbeat (x : HeartbeatResponse)
| BSignedBundle (x : SignedBundle)
| BAcked (x : BundleAckResponse).

Definition error_response (e : ErrorResponse) : Response Body :=
  MkResponse (er_status e)
    (match er_www_authenticate e with Some v => [("www-authenticate", v)] | None => [] end)
    (Some (BError e)).

Definition failure_response (f : Failure) : Response Body :=
  match f with
  | FailApi e => error_response (ApiError_into_response e)
  | FailEnrollment e => error_response (EnrollmentError_into_response e)
  | FailRejection rj => MkResponse (rj_status rj) [] (Some (BRejection (rj_text rj)))
  end.

(** ** The shared state *)

(** The CA manager: its operations, its primary key, and signing with a reading of the clock
    and of the generator. *)
Record Manager : Type := MkManager {
  mg_operations : CaOperations S;
  mg_primary_public_key : S → result string Certificates.CaError;
  mg_authority : S → Z → string → CertificateAuthority;
}.

(** What start-up fixes ([AppState]). *)
Record Shared : Type := MkShared {
  sh_providers : ProviderRegistry;
  sh_access : AccessConfig;
  sh_ca : option Manager;
  sh_signer : option BundleSigner;
  sh_bundle_ttl : Z;
  sh_poll : PollConfig;
  sh_started_at : Z;
}.

(** What requests share and change. *)
Record Process : Type := MkProcess {
  ps_host : Host S;
  ps_nonces : C;
  ps_metrics : ApiMetrics;
}.

Definition ps_db (p : Process) : Db := h_db (ps_host p).

(** What a request draws from its surroundings: readings of the clock, random bytes and
    identifiers, the index the jitter picks, and the time it took. *)
Record Draws : Type := MkDraws {
  dw_request_id : string;
  dw_checked_at : Z;
  dw_now : Z;
  dw_token_now : Z;
  dw_context_now : Z;
  dw_audit_now : Z;
  dw_second_context_now : Z;
  dw_second_audit_now : Z;
  dw_view_now : Z;
  dw_random : string;
  dw_uuid : string;
  dw_index : Z → Z;
  dw_latency : Z;
}.

Context (st : Shared) (dw : Draws).

(** The views of it that the components take, with the manager as it stands. *)
Definition app_state (s : S) : AppState :=
  MkAppState (sh_providers st) (sh_access st)
    ((λ m, MkCaFacts (cm_generation (op_snapshot (mg_operations m) s)) (mg_primary_public_key m s))
       <$> sh_ca st).

Definition ca_app_state (s : S) : CaAppState S :=
  MkCaAppState _ (app_state s) (mg_operations <$> sh_ca st) (sh_signer st) (sh_bundle_ttl st).

Definition console_state (p : Process) : ConsoleState :=
  let s := ho_ca (ps_host p) in
  {| cs_app := app_state s;
     cs_ca := (λ m, op_snapshot (mg_operations m) s) <$> sh_ca st;
     cs_ca_list := default [] ((λ m, op_list (mg_operations m) s) <$> sh_ca st);
     cs_signer := sh_signer st;
     cs_bundle_ttl := sh_bundle_ttl st;
     cs_metrics := ps_metrics p;
     cs_started_at := sh_started_at st |}.

Definition agent_bundle_service (s : S) : option BundleService :=
  ca_bundle_service (ca_app_state s) s.

Definition authority (s : S) : option CertificateAuthority :=
  (λ m, mg_authority m s (dw_now dw) (dw_random dw)) <$> sh_ca st.

(** ** Running a component's handler *)
Definition Act (A : Type) : Type := M Process Failure A.

Definition on_host {A} (m : M (Host S) ApiError A) : Act A := λ p,
  let '(r, h) := m (ps_host p) in
  (map_err FailApi r, MkProcess h (ps_nonces p) (ps_metrics p)).
Definition on_db {E A} (fail : E → Failure) (m : M World E A) : Act A := λ p,
  let '(r, h) := in_world m (ps_host p) in
  (map_err fail r, MkProcess h (ps_nonces p) (ps_metrics p)).

Definition extract {A} (r : result A Rejection) : Act A := lift (map_err FailRejection r).
Definition api {A} (r : result A ApiError) : Act A := lift (map_err FailApi r).

#[local] Abbreviation Handler := (Service Process Machine Body).
#[local] Abbreviation Req := (Incoming Machine).

(** [Result<_, E>] as a response. *)
Definition into_response (m : Act (Response Body)) : Process → Response Body * Process := λ p,
  match m p with
  | (Ok r, p) => (r, p)
  | (Err f, p) => (failure_response f, p)
  end.

Definition ok (b : Body) : Act (Response Body) := ret (MkResponse 200 [] (Some b)).
Definition created_with (b : Body) : Act (Response Body) := ret (MkResponse 201 [] (Some b)).

Definition headers_of (q : Req) : list (string * string) := rq_headers (iq_request q).

Definition request_id (q : Req) : Act string :=
  extract (ok_or missing_extension (iq_request_id q)).
Definition authenticated (q : Req) : Act Machine :=
  extract (ok_or missing_extension (iq_machine q)).
Definition bearer (q : Req) : Act string := api (BearerToken_from_request (headers_of q)).
Definition path_id (q : Req) : Act string := extract (path_param (iq_params q)).
Definition body (k : JsonKind) (q : Req) : Act (json_payload k) := extract (json k (iq_request q)).
Definition body_opt (k : JsonKind) (q : Req) : Act (option (json_payload k)) :=
  extract (json_opt k (iq_request q)).
Definition params (k : QueryKind) (q : Req) : Act (query_payload k) :=
  extract (query_string k (iq_query q)).

Definition call_of (q : Req) (rid : string) : Call :=
  MkCall (headers_of q) rid (dw_now dw) (dw_token_now dw) (dw_context_now dw) (dw_audit_now dw).
Definition ca_call_of (q : Req) (rid : string) : CaCall :=
  MkCaCall (call_of q rid)
    (MkCall (headers_of q) rid (dw_now dw) (dw_token_now dw) (dw_second_context_now dw)
       (dw_second_audit_now dw))
    (dw_view_now dw).

Definition manager_state : Act S := gets (λ p, ho_ca (ps_host p)).

(** ** Handlers behind their extractors, in the order the handlers declare them *)

(** [routes/health.rs], [ready.rs]. *)
Definition health_handler : Handler := λ q, into_response (
  p ← gets id; ok (BHealth (health_probe VERSION (console_state p) (dw_now dw)))).
Definition ready_handler : Handler := λ q, into_response (ok (BReady ready)).

(** [routes/auth.rs]. *)
Definition device_start_handler : Handler := λ q, into_response (
  provider ← params KProvider q;
  x ← api (device_start (sh_providers st) provider);
  ok (BDevice x)).
Definition device_poll_handler : Handler := λ q, into_response (
  rid ← request_id q;
  request ← body KDevicePoll q;
  x ← on_db FailApi (device_poll (sh_providers st) (headers_of q) rid (dw_context_now dw)
        (dw_audit_now dw) request);
  ok (BPoll x)).
Definition whoami_handler : Handler := λ q, into_response (
  rid ← request_id q;
  provider ← params KProvider q;
  _ ← bearer q;
  x ← on_db FailApi (whoami (sh_providers st) (headers_of q) rid (dw_context_now dw)
        (dw_audit_now dw) provider);
  ok (BWhoami x)).

(** [routes/certificates.rs]. *)
Definition issue_handler : Handler := λ q, into_response (
  rid ← request_id q;
  _ ← bearer q;
  request ← body KIssue q;
  s ← manager_state;
  x ← on_db FailApi (issue (authority s) (sh_providers st) (sh_access st) (headers_of q) rid
        (dw_context_now dw) (dw_audit_now dw) request);
  ok (BCertificate x)).
Definition validate_handler : Handler := λ q, into_response (
  certificate ← body KValidate q;
  s ← manager_state;
  x ← api (validate (authority s) (dw_now dw) certificate);
  ok (BValidation x)).

(** [routes/machines.rs], [servers.rs]. *)
Definition enroll_handler : Handler := λ q, into_response (
  request ← body KEnroll q;
  s ← manager_state;
  x ← on_db FailEnrollment (enroll_route (app_state s) (sh_poll st) (dw_index dw) (sh_signer st)
        (dw_uuid dw) (dw_now dw) (dw_audit_now dw) request);
  ok (BEnrolled x)).
Definition list_servers_handler : Handler := λ q, into_response (
  provider ← params KProvider q;
  _ ← bearer q;
  s ← manager_state;
  x ← on_db FailApi (list_servers_route (app_state s) (call_of q "") provider);
  ok (BServers x)).

(** [routes/admin.rs]. *)
Definition generate_handler : Handler := λ q, into_response (
  rid ← request_id q;
  _ ← bearer q;
  request ← body KGenerate q;
  s ← manager_state;
  x ← on_host (ca_generate CaView_from_record (ca_app_state s) (ca_call_of q rid) request);
  created_with (BCa x.2)).
Definition import_handler : Handler := λ q, into_response (
  rid ← request_id q;
  _ ← bearer q;
  request ← body KImport q;
  s ← manager_state;
  x ← on_host (ca_import CaView_from_record (ca_app_state s) (ca_call_of q rid) request);
  created_with (BCa x.2)).
Definition rotate_handler : Handler := λ q, into_response (
  rid ← request_id q;
  _ ← bearer q;
  request ← body KRotate q;
  s ← manager_state;
  x ← on_host (rotate format_stamp CaView_from_record (ca_app_state s) (ca_call_of q rid) request);
  created_with (BRotation x.2)).
Definition list_handler : Handler := λ q, into_response (
  rid ← request_id q;
  _ ← bearer q;
  s ← manager_state;
  x ← on_host (list_cas CaView_from_record (ca_app_state s) (ca_call_of q rid));
  ok (BCas x)).
Definition stats_handler : Handler := λ q, into_response (
  rid ← request_id q;
  _ ← bearer q;
  s ← manager_state;
  x ← on_host (ca_stats CaStats_from_records (ca_app_state s) (ca_call_of q rid));
  ok (BCaStats x)).
Definition public_bundle_handler : Handler := λ q, into_response (
  rid ← request_id q;
  _ ← bearer q;
  s ← manager_state;
  x ← on_host (public_bundle (ca_app_state s) (ca_call_of q rid));
  ok (BPublicBundle x)).
Definition get_one_handler : Handler := λ q, into_response (
  i ← path_id q;
  rid ← request_id q;
  _ ← bearer q;
  s ← manager_state;
  x ← on_host (get_one CaView_from_record (ca_app_state s) (ca_call_of q rid) i);
  ok (BCa x)).
Definition export_public_key_handler : Handler := λ q, into_response (
  i ← path_id q;
  rid ← request_id q;
  _ ← bearer q;
  s ← manager_state;
  x ← on_host (export_public_key (ca_app_state s) (ca_call_of q rid) i);
  ok (BPublicKey x)).
Definition patch_handler : Handler := λ q, into_response (
  i ← path_id q;
  rid ← request_id q;
  _ ← bearer q;
  request ← body KPatch q;
  s ← manager_state;
  x ← on_host (patch CaView_from_record (ca_app_state s) (ca_call_of q rid) i request);
  ok (BCa x)).
Definition ca_enable_handler : Handler := λ q, into_response (
  i ← path_id q;
  rid ← request_id q;
  _ ← bearer q;
  s ← manager_state;
  x ← on_host (ca_enable CaView_from_record (ca_app_state s) (ca_call_of q rid) i);
  ok (BCa x)).
Definition ca_disable_handler : Handler := λ q, into_response (
  i ← path_id q;
  rid ← request_id q;
  _ ← bearer q;
  s ← manager_state;
  x ← on_host (ca_disable CaView_from_record (ca_app_state s) (ca_call_of q rid) i);
  ok (BCa x)).
Definition delete_ca_handler : Handler := λ q, into_response (
  i ← path_id q;
  force ← params KDeleteCa q;
  rid ← request_id q;
  _ ← bearer q;
  s ← manager_state;
  x ← on_host (delete_ca (ca_app_state s) (ca_call_of q rid) i force);
  ok (BCaDeleted x)).
Definition retirement_handler : Handler := λ q, into_response (
  i ← path_id q;
  rid ← request_id q;
  _ ← bearer q;
  s ← manager_state;
  x ← on_host (retirement (ca_app_state s) (ca_call_of q rid) i);
  ok (BRetirement x)).
Definition retire_handler : Handler := λ q, into_response (
  i ← path_id q;
  rid ← request_id q;
  _ ← bearer q;
  force ← body_opt KRetire q;
  s ← manager_state;
  x ← on_host (retire CaView_from_record (ca_app_state s) (ca_call_of q rid) i force);
  ok (BCa x)).
Definition bundle_status_handler : Handler := λ q, into_response (
  rid ← request_id q;
  _ ← bearer q;
  s ← manager_state;
  x ← on_host (bundle_status (ca_app_state s) (ca_call_of q rid));
  ok (BFleet x)).
Definition mint_handler : Handler := λ q, into_response (
  rid ← request_id q;
  _ ← bearer q;
  request ← body_opt KMint q;
  s ← manager_state;
  x ← on_db FailApi (mint_enrollment_token (app_state s) (call_of q rid) (dw_random dw)
        (dw_uuid dw) request);
  created_with (BMinted x)).

(** [routes/admin_machines.rs]. *)
Definition list_machines_handler : Handler := λ q, into_response (
  query ← params KMachineList q;
  _ ← bearer q;
  s ← manager_state;
  x ← on_db FailApi (list_machines (app_state s) (call_of q "") query);
  ok (BMachines x)).
Definition get_machine_handler : Handler := λ q, into_response (
  i ← path_id q;
  _ ← bearer q;
  s ← manager_state;
  x ← on_db FailApi (get_machine (app_state s) (call_of q "") i);
  ok (BMachine x)).

Definition lifecycle_handler (operation : AppState → Call → string → M World ApiError MachineView)
  : Handler := λ q, into_response (
  i ← path_id q;
  rid ← request_id q;
  _ ← bearer q;
  s ← manager_state;
  x ← on_db FailApi (operation (app_state s) (call_of q rid) i);
  ok (BMachine x)).
Definition approve_handler : Handler := lifecycle_handler approve.
Definition disable_handler : Handler := lifecycle_handler disable.
Definition enable_handler : Handler := lifecycle_handler enable.
Definition revoke_handler : Handler := lifecycle_handler revoke.

Definition delete_machine_handler : Handler := λ q, into_response (
  i ← path_id q;
  rid ← request_id q;
  _ ← bearer q;
  s ← manager_state;
  x ← on_db FailApi (delete_machine (app_state s) (call_of q rid) i);
  ok (BMachineDeleted x)).

Definition reissue_handler
    (operation : AppState → Call → string → string → string → M World ApiError
       MintEnrollmentTokenResponse) : Handler := λ q, into_response (
  i ← path_id q;
  rid ← request_id q;
  _ ← bearer q;
  s ← manager_state;
  x ← on_db FailApi (operation (app_state s) (call_of q rid) (dw_random dw) (dw_uuid dw) i);
  created_with (BMinted x)).
Definition reenroll_handler : Handler := reissue_handler reenroll.
Definition rotate_identity_handler : Handler := reissue_handler rotate_identity.

(** [routes/ops.rs], [rollout.rs]: a read of the console, without or with parameters. *)
Definition console_handler {A} (f : A → Body) (read : ConsoleState → Call → M World ApiError A)
  : Handler := λ q, into_response (
  rid ← request_id q;
  _ ← bearer q;
  p ← gets id;
  x ← on_db FailApi (read (console_state p) (call_of q rid));
  ok (f x)).
Definition console_query_handler {A} (k : QueryKind) (f : A → Body)
    (read : ConsoleState → Call → query_payload k → M World ApiError A) : Handler := λ q,
  into_response (
  rid ← request_id q;
  ps ← params k q;
  _ ← bearer q;
  p ← gets id;
  x ← on_db FailApi (read (console_state p) (call_of q rid) ps);
  ok (f x)).

Definition audit_search_handler : Handler :=
  console_query_handler KAudit BAudit (audit_search parse_error).
Definition audit_stream_handler : Handler :=
  console_query_handler KAudit BAudit (audit_stream parse_error).
Definition ops_health_handler : Handler := console_handler BHealthReport (health VERSION).
Definition ops_status_handler : Handler := console_handler BStatus (ops_status VERSION).
Definition ops_metrics_handler : Handler := console_handler BMetrics ops_metrics.
Definition rollout_status_handler : Handler := console_handler BRollout route_status.
Definition generations_handler : Handler := console_handler BGenerations route_generations.
Definition rollout_machines_handler : Handler :=
  console_query_handler KRolloutMachines BRolloutMachines
    (λ cs c ps, route_machines cs c ps.1 ps.2).
Definition stuck_handler : Handler := console_handler BStuck route_stuck.
Definition rollout_health_handler : Handler := console_handler BRolloutHealth route_health.
Definition explain_handler : Handler := console_handler BExplanation route_explain.
Definition timeline_handler : Handler :=
  console_query_handler KTimeline BTimeline route_timeline.
Definition history_handler : Handler := console_handler BHistory route_history.

(** [routes/agent.rs], [ca_bundle.rs]. *)
Definition heartbeat_handler : Handler := λ q, into_response (
  machine ← authenticated q;
  request ← body KHeartbeat q;
  x ← on_db FailApi (heartbeat machine (dw_now dw) request);
  ok (BHeartbeat x)).

(** [insert_etag]: set if it is a valid header value. *)
Definition insert_etag (etag : string) : list (string * string) :=
  if header_value_ok etag then [("etag", etag)] else [].
Definition bundle_response (b : BundleResponse) : Response Body :=
  match b with
  | NotModified etag => MkResponse 304 (insert_etag etag) None
  | Served etag bundle => MkResponse 200 (insert_etag etag) (Some (BSignedBundle bundle))
  end.
Definition get_ca_bundle_handler : Handler := λ q, into_response (
  machine ← authenticated q;
  s ← manager_state;
  x ← on_db FailApi (get_ca_bundle (agent_bundle_service s) (dw_now dw) (dw_audit_now dw) machine
        (headers_of q));
  ret (bundle_response x)).
Definition ack_handler : Handler := λ q, into_response (
  machine ← authenticated q;
  ack ← body KAck q;
  s ← manager_state;
  x ← on_db FailApi (ack_ca_bundle (agent_bundle_service s) (dw_now dw) (dw_audit_now dw) machine
        ack);
  ok (BAcked x)).

(** ** Middleware *)
Definition on_server {A} (m : M (Server C) ApiError A) : Act A := λ p,
  let '(r, sv) := m (MkServer (ho_world (ps_host p)) (ps_nonces p)) in
  (map_err FailApi r, MkProcess (MkHost (ho_ca (ps_host p)) (sv_world sv)) (sv_nonces sv)
                        (ps_metrics p)).

Definition run_next (next : Handler) (q : Req) : Act (Response Body) := λ p,
  let '(r, p) := next q p in (Ok r, p).

Definition set_machine (machine : Machine) (q : Req) : Req :=
  MkIncoming (iq_request q) (iq_query q) (iq_matched q) (iq_params q) (iq_request_id q)
    (Some machine).
Definition set_request_id (rid : string) (q : Req) : Req :=
  MkIncoming (iq_request q) (iq_query q) (iq_matched q) (iq_params q) (Some rid) (iq_machine q).

(** [agentauth::verify_machine_signature]. *)
Definition signature_layer (next : Handler) : Handler := λ q, into_response (
  checked ← on_server (verify_machine_signature (dw_checked_at dw) (iq_request q));
  run_next next (set_machine checked.1 q)).

(** [ops::record_metrics]. *)
Definition metrics_layer (next : Handler) : Handler := λ q p,
  let '(r, p) := next q p in
  (r, MkProcess (ps_host p) (ps_nonces p)
        (record_metrics (ps_metrics p) (rq_method (iq_request q)) (rq_path (iq_request q))
           (iq_matched q) (rs_status r) (dw_latency dw))).

(** [propagate_request_id]. *)
Definition request_id_layer (next : Handler) : Handler := λ q p,
  let '(r, p) := next (set_request_id (dw_request_id dw) q) p in
  (MkResponse (rs_status r)
     (propagate_request_id (dw_request_id dw) (headers_of q) (λ _, rs_headers r)).2 (rs_body r), p).

(** ** The table *)
Definition v1 (path : string) : string := API_V1 +:+ path.

Open Scope router_scope.

Definition signed_agent_routes : Router Process Machine Body :=
  Router_new
  .> route (v1 "/agent/heartbeat") (post heartbeat_handler)
  .> route (v1 "/agent/ca-bundle") (get get_ca_bundle_handler)
  .> route (v1 "/agent/ca-bundle/ack") (post ack_handler)
  .> route_layer signature_layer.

Definition build_router : Router Process Machine Body :=
  Router_new
  .> route (v1 "/health") (get health_handler)
  .> route (v1 "/ready") (get ready_handler)
  .> route (v1 "/auth/device/start") (post device_start_handler)
  .> route (v1 "/auth/device/poll") (post device_poll_handler)
  .> route (v1 "/auth/whoami") (get whoami_handler)
  .> route (v1 "/certificates/issue") (post issue_handler)
  .> route (v1 "/certificates/validate") (get validate_handler)
  .> route (v1 "/machines/enroll") (post enroll_handler)
  .> route (v1 "/servers") (get list_servers_handler)
  .> route (v1 "/admin/ca/generate") (post generate_handler)
  .> route (v1 "/admin/ca/import") (post import_handler)
  .> route (v1 "/admin/ca/rotate") (post rotate_handler)
  .> route (v1 "/admin/ca") (get list_handler)
  .> route (v1 "/admin/ca/stats") (get stats_handler)
  .> route (v1 "/admin/ca/bundle") (get public_bundle_handler)
  .> route (v1 "/admin/ca/{id}")
      (get get_one_handler .> on_method "PATCH" patch_handler
       .> on_method "DELETE" delete_ca_handler)
  .> route (v1 "/admin/ca/{id}/public-key") (get export_public_key_handler)
  .> route (v1 "/admin/ca/{id}/enable") (post ca_enable_handler)
  .> route (v1 "/admin/ca/{id}/disable") (post ca_disable_handler)
  .> route (v1 "/admin/ca/{id}/retirement") (get retirement_handler)
  .> route (v1 "/admin/ca/{id}/retire") (post retire_handler)
  .> route (v1 "/admin/bundle/status") (get bundle_status_handler)
  .> route (v1 "/admin/machines/enrollment-tokens") (post mint_handler)
  .> route (v1 "/admin/machines") (get list_machines_handler)
  .> route (v1 "/admin/machines/{id}")
      (get get_machine_handler .> on_method "DELETE" delete_machine_handler)
  .> route (v1 "/admin/machines/{id}/approve") (post approve_handler)
  .> route (v1 "/admin/machines/{id}/disable") (post disable_handler)
  .> route (v1 "/admin/machines/{id}/enable") (post enable_handler)
  .> route (v1 "/admin/machines/{id}/revoke") (post revoke_handler)
  .> route (v1 "/admin/machines/{id}/reenroll") (post reenroll_handler)
  .> route (v1 "/admin/machines/{id}/rotate-identity") (post rotate_identity_handler)
  .> route (v1 "/admin/audit") (get audit_search_handler)
  .> route (v1 "/admin/audit/stream") (get audit_stream_handler)
  .> route (v1 "/admin/health") (get ops_health_handler)
  .> route (v1 "/admin/status") (get ops_status_handler)
  .> route (v1 "/admin/metrics") (get ops_metrics_handler)
  .> route (v1 "/admin/rollout") (get rollout_status_handler)
  .> route (v1 "/admin/rollout/generations") (get generations_handler)
  .> route (v1 "/admin/rollout/machines") (get rollout_machines_handler)
  .> route (v1 "/admin/rollout/stuck") (get stuck_handler)
  .> route (v1 "/admin/rollout/health") (get rollout_health_handler)
  .> route (v1 "/admin/rollout/explain") (get explain_handler)
  .> route (v1 "/admin/rollout/timeline") (get timeline_handler)
  .> route (v1 "/admin/rollout/history") (get history_handler)
  .> merge signed_agent_routes
  .> route_layer metrics_layer
  .> layer request_id_layer.

(** One request, from the wire to its answer. *)
Definition handle `{PathMatcher} (request : Request) (query : string)
  : Process → Response Body * Process :=
  call_router build_router (MkIncoming request query None [] None None).
End router.
