(* ===== verification/System.v ===== *)
(** * The server as a whole

    Every write the routes make to the database, as one step relation.  A step is one
    statement or transaction, with any of its database calls failing; a handler is a
    sequence of steps, and handlers that run at once interleave theirs.  The invariant
    says that the audit log verifies, that machines and tokens have unique keys and
    decode, and a spent single-use token stays spent. *)
From S2P Require Import Prelude External Errors Database AuditChain AuditRepo Machines Enrollment.
From S2P Require Import Registry AgentAuth MachineAdmin CaBundle Bundle BundleService.
From S2P Require Import ClientContext Authz Providers Certificates AdminRoutes Rollout Console.
From S2P Require Import CaRoutes Toy.

Section system.
Context `{Sha256, HexEncode, Chrono, SerdeJson, SshCert, Base64, Ed25519, DebugStrings}.
Context `{ToLowercase}.

(** The times a step may use: RFC 3339 can write them. *)
Definition times_ok (ts : list Z) : Prop := Forall (λ t, rfc3339_range t = true) ts.

(** One write: an autocommitted statement, or a transaction.  Whichever of its database
    calls fail is up to [fs]. *)
Inductive step : Db → Db → Prop :=
| step_audit fs now event d r w' :
    event_ok now event = true →
    append_audit_event now event (MkWorld d fs) = (r, w') → step d (db w')
| step_create_token fs new d r w' :
    times_ok [nt_created_at new; nt_expires_at new] →
    token_create new (MkWorld d fs) = (r, w') → step d (db w')
| step_admit fs request pk h uuid now d r w' :
    times_ok [now] →
    transaction EnrollmentError_of_sqlx (enroll_body request pk h uuid now) (MkWorld d fs)
      = (r, w') → step d (db w')
| step_heartbeat fs u d r w' :
    times_ok [hu_now u] → update_last_seen u (MkWorld d fs) = (r, w') → step d (db w')
| step_set_status fs i st now d r w' :
    times_ok [now] → update_status i st now (MkWorld d fs) = (r, w') → step d (db w')
| step_delete fs i d r w' : machine_delete i (MkWorld d fs) = (r, w') → step d (db w')
| step_applied fs i generation fingerprint now d r w' :
    times_ok [now] →
    record_applied i generation fingerprint now (MkWorld d fs) = (r, w') → step d (db w').

Definition reachable : Db → Db → Prop := rtc step.

Definition server_ok (d : Db) : Prop := audit_ok d ∧ machines_ok d ∧ tokens_ok d.

(** ** What each step leaves alone *)

(** Changes to [machines] that keep the invariant: row updates, and deletions. *)
Definition machines_change (d d' : Db) : Prop :=
  audit_log d' = audit_log d ∧ enrollment_tokens d' = enrollment_tokens d ∧
  (machines_ok d → machines_ok d').

Lemma machines_change_refl d : machines_change d d.
Proof. done. Qed.

Lemma machines_change_update d p g :
  keeps_keys g → machines_change d (set_machines (λ l, (update_where p g l).2) d).
Proof. intros Hg. split_and!; [done|done|]. by apply machine_rows_ok_update. Qed.

Lemma update_machine_change i g w r w' :
  keeps_keys g → update_machine i g w = (r, w') → machines_change (db w) (db w').
Proof.
  intros Hg Hu. apply update_machine_inv in Hu as [(e & _ & ->)|(b & _ & _ & ->)]; [done|].
  by apply machines_change_update.
Qed.

Lemma applied_keeps_keys `{!ChronoLaws} g fp now :
  rfc3339_range now = true → keeps_keys (applied_row g fp now).
Proof.
  intros Hn r. split_and!; try done. intros [m Hm].
  unfold machine_row_ok, machine_try_from, parse_dt in *. simpl.
  rewrite (parse_millis _ Hn). simpl. cases; eauto.
Qed.

Lemma delete_change i w r w' : machine_delete i w = (r, w') → machines_change (db w) (db w').
Proof.
  unfold machine_delete, mbind, M_bind, ret. destruct (execute _ w) as [z w1] eqn:He. intros Hr.
  assert (db w' = db w1) as -> by (destruct z; by simplify_eq).
  apply execute_inv in He as [(e & _ & ->)|(n & _ & [= _ <-])]; [done|].
  split_and!; [done|done|]. by apply machine_rows_ok_filter.
Qed.

(** ** What each step does to the invariant and to spent tokens *)
Definition single_use_token (h : string) (d : Db) : Prop :=
  ∃ r, r ∈ enrollment_tokens d ∧ tr_token_hash r = h ∧ tr_single_use r ≠ 0%Z.

(** What is never undone: a spent token, a token made for one use, an audit entry. *)
Definition only_grows (d d' : Db) : Prop :=
  (∀ h, token_spent h d → token_spent h d') ∧
  (∀ h, single_use_token h d → single_use_token h d') ∧
  audit_log d `prefix_of` audit_log d'.

Global Instance only_grows_preorder : PreOrder only_grows.
Proof.
  split; [by intros d|]. intros d1 d2 d3 (Hs & Hu & Hl) (Hs' & Hu' & Hl').
  split_and!; auto. by trans (audit_log d2).
Qed.

Lemma only_grows_same d d' :
  enrollment_tokens d' = enrollment_tokens d → audit_log d `prefix_of` audit_log d' →
  only_grows d d'.
Proof.
  intros Ht Hl. unfold only_grows, token_spent, single_use_token. by rewrite Ht.
Qed.

Definition preserves (d d' : Db) : Prop := server_ok d' ∧ only_grows d d'.

Lemma preserves_machines d d' : server_ok d → machines_change d d' → preserves d d'.
Proof.
  intros (Ha & Hm & Ht) (Hlog & Htok & Hmach). split.
  - split_and!; [|auto|]; unfold audit_ok, tokens_ok; by rewrite ?Hlog, ?Htok.
  - apply only_grows_same; [done|]. by rewrite Hlog.
Qed.

Lemma preserves_append `{!ChronoLaws, !SerdeJsonLaws} now event w r w' :
  server_ok (db w) → event_ok now event = true →
  append_audit_event now event w = (r, w') → preserves (db w) (db w').
Proof.
  intros (Ha & Hm & Ht) Hev Happ. destruct r as [e|e].
  - destruct (append_entry_ok _ _ _ _ _ Ha Hev Happ) as (row & Hlog & _ & (Hmach & Htok & _) & Ha').
    split.
    + split_and!; [done|..]; unfold machines_ok, tokens_ok; by rewrite ?Hmach, ?Htok.
    + apply only_grows_same; [done|]. rewrite Hlog. by apply prefix_app_r.
  - apply append_entry_err in Happ. rewrite Happ. by split.
Qed.

Lemma preserves_create `{!ChronoLaws} new w r w' :
  server_ok (db w) → times_ok [nt_created_at new; nt_expires_at new] →
  token_create new w = (r, w') → preserves (db w) (db w').
Proof.
  intros (Ha & Hm & Ht) [Hn [He _]%Forall_cons]%Forall_cons Hc. unfold token_create in Hc.
  unfold mbind, M_bind, ret in Hc. destruct (execute _ w) as [z w1] eqn:Hx.
  assert (w' = w1) as -> by (destruct z; by simplify_eq).
  apply execute_inv in Hx as [(e & _ & ->)|(u & _ & Hins)]; [by split|].
  apply insert_token_row_inv in Hins as (-> & Hid & Hh). split.
  - split_and!; [done|done|]. apply token_rows_ok_snoc; try done.
    eexists. by apply new_token_row_reads.
  - split_and!; [intros h (row & Hin & Hrest)..|done]; exists row; (split; [|done]);
      simpl; set_solver.
Qed.

Lemma admitted_keeps_single request pk uuid now d t h :
  single_use_token h d → single_use_token h (admitted request t pk uuid now d).
Proof.
  intros (r & Hin & Hh & Hsu).
  exists (if consumable (et_id t) (et_single_use t) r then used_row now r else r).
  split_and!; [|by case_match..]. unfold admitted, update_where. simpl.
  apply list_elem_of_fmap. by exists r.
Qed.

Lemma preserves_admitted `{!ChronoLaws} request pk h uuid now d t :
  server_ok d → rfc3339_range now = true → admission request pk h now d = Ok t →
  generate_machine_id uuid ∉ mr_machine_id <$> machines d →
  preserves d (admitted request t pk uuid now d).
Proof.
  intros (Ha & Hm & Ht) Hn Hadm Hid.
  split; [|split_and!; [intros h'; apply admitted_keeps_spent|apply admitted_keeps_single|done]].
  split_and!; [done|by eapply admitted_machines_ok|]. by apply consume_tokens_ok.
Qed.

Lemma verdict_admission request now d t pk :
  verdict request now d = Ok (t, pk) →
  admission request pk (hash_token (eq_enrollment_token request)) now d = Ok t.
Proof. unfold verdict. intros Hv. by cases. Qed.

(** The transaction of an enrollment admits the machine or leaves the tables alone. *)
Lemma admit_inv request pk h uuid now w r w' :
  transaction EnrollmentError_of_sqlx (enroll_body request pk h uuid now) w = (r, w') →
  match r with
  | Ok m => ∃ t, admission request pk h now (db w) = Ok t ∧
      m = inserted (enrolled_machine request pk uuid now) ∧
      (generate_machine_id uuid ∉ mr_machine_id <$> machines (db w)) ∧
      db w' = admitted request t pk uuid now (db w)
  | Err _ => db w' = db w
  end.
Proof.
  intros Htx. destruct r as [m|e]; [|by eapply transaction_err].
  apply transaction_ok in Htx as (w1 & w2 & <- & Hb & ->). by apply enroll_body_ok_inv.
Qed.

Lemma preserves_admit `{!ChronoLaws} request pk h uuid now w r w' :
  server_ok (db w) → times_ok [now] →
  transaction EnrollmentError_of_sqlx (enroll_body request pk h uuid now) w = (r, w') →
  preserves (db w) (db w').
Proof.
  intros Hok [Hn _]%Forall_cons Htx%admit_inv. destruct r as [m|e]; [|rewrite Htx; by split].
  destruct Htx as (t & Hadm & _ & Hid & ->). by eapply preserves_admitted.
Qed.

Lemma step_preserves `{!ChronoLaws, !SerdeJsonLaws} d d' :
  step d d' → server_ok d → preserves d d'.
Proof.
  destruct 1 as [fs now ev d r w' Hev Hs|fs new d r w' Ht Hs|fs ? ? ? ? now d r w' Ht Hs
    |fs u d r w' Ht Hs|fs ? ? now d r w' Ht Hs|fs i d r w' Hs|fs ? ? ? now d r w' Ht Hs];
    intros Hok; change d with (db (MkWorld d fs)) in Hok |- *.
  - by eapply preserves_append.
  - by eapply preserves_create.
  - by eapply preserves_admit.
  - apply Forall_cons in Ht as [Ht _]. apply preserves_machines; [done|].
    by eapply update_machine_change; [apply heartbeat_keeps_keys|].
  - apply Forall_cons in Ht as [Ht _]. apply preserves_machines; [done|].
    by eapply update_machine_change; [apply status_keeps_keys|].
  - apply preserves_machines; [done|]. by eapply delete_change.
  - apply Forall_cons in Ht as [Ht _]. apply preserves_machines; [done|].
    by eapply update_machine_change; [apply applied_keeps_keys|].
Qed.

Lemma reachable_preserves `{!ChronoLaws, !SerdeJsonLaws} d d' :
  reachable d d' → server_ok d → preserves d d'.
Proof.
  induction 1 as [d|d1 d2 d3 Hstep _ IH]; intros Hok; [by split|].
  destruct (step_preserves _ _ Hstep Hok) as [Hok2 Hsp2].
  destruct (IH Hok2) as [Hok3 Hsp3]. split; [done|]. by etrans.
Qed.

(** ** The handlers are sequences of steps *)
Lemma frame_append {E} (conv : AuditError → E) now event :
  event_ok now event = true →
  frame reachable (with_err conv (append_audit_event now event)).
Proof.
  intros Hev. apply (frame_with_err reachable). intros [d fs] r w' Hw.
  by eapply rtc_once, step_audit.
Qed.
Lemma frame_update_status i s now : times_ok [now] → frame reachable (update_status i s now).
Proof. intros Ht [d fs] r w' Hw. by eapply rtc_once, step_set_status. Qed.
Lemma frame_machine_delete i : frame reachable (machine_delete i).
Proof. intros [d fs] r w' Hw. by eapply rtc_once, step_delete. Qed.
Lemma frame_token_create new :
  times_ok [nt_created_at new; nt_expires_at new] → frame reachable (token_create new).
Proof. intros Ht [d fs] r w' Hw. by eapply rtc_once, step_create_token. Qed.
Lemma frame_admit request pk h uuid now :
  times_ok [now] →
  frame reachable (transaction EnrollmentError_of_sqlx (enroll_body request pk h uuid now)).
Proof. intros Ht [d fs] r w' Hw. by eapply rtc_once, step_admit. Qed.
Lemma frame_last_seen u : times_ok [hu_now u] → frame reachable (update_last_seen u).
Proof. intros Ht [d fs] r w' Hw. by eapply rtc_once, step_heartbeat. Qed.
Lemma frame_applied i g fp now : times_ok [now] → frame reachable (record_applied i g fp now).
Proof. intros Ht [d fs] r w' Hw. by eapply rtc_once, step_applied. Qed.
#[local] Hint Resolve frame_append frame_update_status frame_machine_delete frame_token_create
  frame_admit frame_last_seen frame_applied : frame.

Lemma frame_fetch p : frame reachable (fetch_machine p).
Proof. unfold fetch_machine. eauto with frame. Qed.
#[local] Hint Resolve frame_fetch : frame.

Lemma frame_set_status i s now : times_ok [now] → frame reachable (set_status i s now).
Proof. unfold set_status, find_by_id. eauto 20 with frame. Qed.
Lemma frame_delete i : frame reachable (admin_delete i).
Proof. unfold admin_delete, find_by_id. eauto 20 with frame. Qed.
Lemma frame_create random uuid now by_ ttl su :
  times_ok [now; (now + ttl)%Z] →
  frame reachable (create_enrollment_token random uuid now by_ ttl su).
Proof. unfold create_enrollment_token. eauto 20 with frame. Qed.
Lemma frame_enroll sv uuid now audit_now request :
  times_ok [now; audit_now] → frame reachable (enroll sv uuid now audit_now request).
Proof.
  intros [Hn [Ha _]%Forall_cons]%Forall_cons. assert (times_ok [now]) by by repeat constructor.
  unfold enroll. eauto 20 using enrolled_event_ok with frame.
Qed.
Lemma frame_heartbeat authenticated now request :
  times_ok [now] → frame reachable (heartbeat authenticated now request).
Proof. unfold heartbeat, record_heartbeat. eauto 20 with frame. Qed.
Lemma ack_event_ok now outcome i ack :
  rfc3339_range now = true → event_ok now (ack_event outcome i ack) = true.
Proof. intros Hn. unfold event_ok, ack_event. rewrite Hn. by destruct (ba_reason ack). Qed.
Lemma frame_ack s now audit_now authenticated ack :
  times_ok [now; audit_now] → frame reachable (ack_ca_bundle s now audit_now authenticated ack).
Proof.
  intros [Hn [Ha _]%Forall_cons]%Forall_cons. assert (times_ok [now]) by by repeat constructor.
  unfold ack_ca_bundle, machine_exists.
  repeat (apply (frame_bind reachable); [|intros ?]); eauto using ack_event_ok with frame.
  case_match; eauto with frame.
Qed.
#[local] Hint Resolve frame_set_status frame_delete frame_create : frame.
#[local] Hint Resolve admin_denied_ok ca_denied_ok machine_event_ok minted_event_ok : frame.

(** The readings of the clock a request uses, with the expiry of any token it mints. *)
Definition call_ok (c : Call) : Prop :=
  times_ok [cl_now c; cl_audit_now c; cl_token_now c] ∧
  ∀ ttl, (60 <= ttl <= 86400)%Z → rfc3339_range (cl_token_now c + seconds ttl) = true.

Lemma call_ok_times c :
  call_ok c → times_ok [cl_now c] ∧ rfc3339_range (cl_audit_now c) = true ∧
  ∀ ttl, (60 <= ttl <= 86400)%Z → times_ok [cl_token_now c; (cl_token_now c + seconds ttl)%Z].
Proof.
  unfold call_ok, times_ok. rewrite !Forall_cons. intros ((? & ? & ? & _) & Ht).
  split_and!; try done. intros. repeat constructor; auto.
Qed.

Lemma frame_authorize st c action :
  rfc3339_range (cl_audit_now c) = true → frame reachable (authorize_admin st c action).
Proof.
  intros Hn. unfold authorize_admin. do 2 (apply (frame_bind reachable); [apply (frame_lift reachable)|intros ?]).
  destruct (authorize _ _); eauto 10 with frame.
Qed.
Lemma frame_ca_authorize st c action :
  rfc3339_range (cl_audit_now c) = true → frame reachable (ca_authorize_admin st c action).
Proof.
  intros Hn. unfold ca_authorize_admin.
  do 2 (apply (frame_bind reachable); [apply (frame_lift reachable)|intros ?]).
  destruct (authorize _ _); eauto 10 with frame.
Qed.
Lemma frame_ops_authorize st c action :
  rfc3339_range (cl_audit_now c) = true → frame reachable (ops_authorize_admin st c action).
Proof.
  intros Hn. unfold ops_authorize_admin.
  do 2 (apply (frame_bind reachable); [apply (frame_lift reachable)|intros ?]).
  destruct (authorize _ _); eauto 10 using ops_denied_ok with frame.
Qed.
#[local] Hint Resolve frame_authorize frame_ca_authorize : frame.

(** ** Theorems *)


Lemma frame_perform st c a : call_ok c → frame reachable (perform st c a).
Proof.
  intros (Hn & Han & Httl)%call_ok_times.
  assert (∀ identity m action extra, forallb (λ kv, wf_value kv.2) extra = true →
    frame reachable (audit_machine identity c action m extra)) as Ham
    by (unfold audit_machine; eauto 10 with frame).
  assert (times_ok [cl_token_now c; (cl_token_now c + seconds REENROLL_TOKEN_TTL_SECONDS)%Z]) as Hre
    by by apply Httl.
  pose proof (λ q, Httl _ (clamp_range q)) as Hcl.
  destruct a; simpl; unfold approve, disable, enable, revoke, set_lifecycle, delete_machine,
    reenroll, rotate_identity, reissue_identity, mint_enrollment_token; eauto 40 with frame.
Qed.

(** *** The CA routes, over any manager that keeps to its tables *)
Section operators.
Context {S View Stats : Type} (format_stamp : Z → string).
Context (CaView_from_record : CaRecord → Z → Z → View).
Context (CaStats_from_records : list CaRecord → Z → string → Stats).
Context (VERSION : string) (parse_error : string → string).

Definition hframe {A} (m : M (Host S) ApiError A) : Prop := ∀ h r h',
  m h = (r, h') → reachable (h_db h) (h_db h').

Lemma hframe_bind {A B} (m : M (Host S) ApiError A) (f : A → M (Host S) ApiError B) :
  hframe m → (∀ a, hframe (f a)) → hframe (m ≫= f).
Proof.
  intros Hm Hf h r h'. unfold mbind, M_bind. destruct (m h) as [x h1] eqn:Hr. apply Hm in Hr.
  destruct x; [intros Hr2%Hf; by etrans|by intros [= _ <-]].
Qed.
Lemma hframe_same {A} (m : M (Host S) ApiError A) :
  (∀ h r h', m h = (r, h') → h_db h' = h_db h) → hframe m.
Proof. intros Hm h r h' Hr%Hm. rewrite Hr. apply rtc_refl. Qed.
Lemma hframe_pure {A} (f : Host S → result A ApiError) : hframe (λ h, (f h, h)).
Proof. apply hframe_same. by intros h r h' [= _ <-]. Qed.
Lemma hframe_lift {A} (x : result A ApiError) : hframe (lift x).
Proof. apply (hframe_pure (λ _, x)). Qed.
Lemma hframe_ret {A} (a : A) : hframe (ret a).
Proof. apply (hframe_pure (λ _, Ok a)). Qed.
Lemma hframe_gets {A} (f : Host S → A) : hframe (gets f).
Proof. apply (hframe_pure (λ h, Ok (f h))). Qed.
Lemma hframe_throw {A} e : hframe (A := A) (throw e).
Proof. apply (hframe_pure (λ _, Err e)). Qed.
Lemma hframe_ensure b e : hframe (ensure b e).
Proof. unfold ensure. destruct b; [apply hframe_ret|apply hframe_throw]. Qed.
Lemma hframe_world {A} (m : M World ApiError A) : frame reachable m → hframe (in_world m).
Proof.
  intros Hm h r h'. unfold in_world. destruct (m _) as [x w] eqn:Hr. apply Hm in Hr.
  by intros [= _ <-].
Qed.
Lemma hframe_op {A} (m : M (Host S) Certificates.CaError A) :
  own_tables m → hframe (with_err ApiError_of_ca m).
Proof.
  intros Hm. apply hframe_same. intros h r h'. unfold with_err.
  destruct (m h) as [x h1] eqn:Hr. apply Hm in Hr. destruct x; by intros [= _ <-].
Qed.
(** The answer does not matter. *)
Lemma hframe_answer {A} (m : M (Host S) ApiError A) : hframe (_ ← m; ret tt) → hframe m.
Proof.
  intros Hm h r h' Hr. apply (Hm h (map_ok (λ _, tt) r)). unfold mbind, M_bind, ret. rewrite Hr.
  by destruct r.
Qed.
Lemma frame_answer {A} (m : M World ApiError A) :
  frame reachable (_ ← m; ret tt) → frame reachable m.
Proof.
  intros Hm w r w' Hr. apply (Hm w (map_ok (λ _, tt) r)). unfold mbind, M_bind, ret. rewrite Hr.
  by destruct r.
Qed.
Lemma hframe_if {A} (b : bool) (m1 m2 : M (Host S) ApiError A) :
  hframe m1 → hframe m2 → hframe (if b then m1 else m2).
Proof. by destruct b. Qed.

Lemma hframe_manager {A} (st : CaAppState S) (f : CaOperations S → M (Host S) ApiError A) :
  manager_laws st → (∀ ca, CaOperationsLaws ca → hframe (f ca)) →
  hframe (lift (require_ca_manager st) ≫= f).
Proof.
  intros Hl Hf. unfold require_ca_manager. destruct (as_ca st) as [ca|] eqn:Hca; simpl.
  - intros h r h' Hr. by apply (Hf ca (Hl ca Hca)) in Hr.
  - by intros h r h' [= _ <-].
Qed.

(** Requests of operators, over the manager and the database. *)
Inductive OperatorRequest : Type :=
| OnMachines (a : AdminAction)
| OnCas (a : CaAction)
| ReadCas (rd : CaRead)
| OnConsole (route : ConsoleRoute).

Definition operate (st : CaAppState S) (cst : ConsoleState) (q : CaCall) (o : OperatorRequest)
  : M (Host S) ApiError unit :=
  match o with
  | OnMachines a => in_world (perform (as_app st) (cq_call q) a)
  | OnCas a => perform_ca format_stamp CaView_from_record st q a
  | ReadCas rd => serve_ca CaView_from_record CaStats_from_records st q rd
  | OnConsole route => in_world (serve VERSION parse_error cst (cq_call q) route)
  end.

Lemma hframe_audit_ca identity c action record extra :
  rfc3339_range (cl_audit_now c) = true → forallb (λ kv, wf_value kv.2) extra = true →
  hframe (audit_ca identity c action record extra).
Proof.
  intros Hn He. apply hframe_bind; [|intros; apply hframe_ret].
  by apply hframe_world, frame_append, ca_event_ok.
Qed.
Lemma hframe_audit_retirement identity c action a forced :
  rfc3339_range (cl_audit_now c) = true → hframe (audit_retirement identity c action a forced).
Proof.
  intros Hn. apply hframe_bind; [|intros; apply hframe_ret].
  by apply hframe_world, frame_append, retirement_event_ok.
Qed.
Lemma hframe_authorize st q action :
  call_in_range q → hframe (authorize_ca (S := S) st q action).
Proof. intros [Hn _]. by apply hframe_world, frame_ca_authorize. Qed.
Lemma hframe_assess service i : hframe (assess (S := S) service i).
Proof.
  apply hframe_world, (frame_with_err reachable), (frame_bind reachable);
    [eauto with frame|]. intros record. destruct (ca_enabled record); eauto 10 with frame.
Qed.
Lemma hframe_fleet service now :
  hframe (in_world (with_err ApiError_of_sqlx (fleet_status service now))).
Proof. apply hframe_world. unfold fleet_status. eauto 10 with frame. Qed.

Ltac hframe_auto :=
  lazymatch goal with
  | |- hframe (lift (require_ca_manager _) ≫= _) => apply hframe_manager; [done|intros ? ?; hframe_auto]
  | |- hframe (@mbind _ _ _ _ _ _) => apply hframe_bind; [hframe_auto|intros ?; hframe_auto]
  | |- hframe (authorize_ca _ _ _) => by apply hframe_authorize
  | |- hframe (lift _) => apply hframe_lift
  | |- hframe (require_bundle_service _) => apply hframe_pure
  | |- hframe (get_ca _ _) => apply hframe_pure
  | |- hframe (view _ _ _ _) => apply hframe_gets
  | |- hframe (gets _) => apply hframe_gets
  | |- hframe (ret _) => apply hframe_ret
  | |- hframe (throw _) => apply hframe_throw
  | |- hframe (ensure _ _) => apply hframe_ensure
  | |- hframe (assess _ _) => apply hframe_assess
  | |- hframe (in_world (with_err _ (fleet_status _ _))) => apply hframe_fleet
  | |- hframe (audit_ca _ _ _ _ _) => apply hframe_audit_ca; [done|cbn; rewrite ?wf_strings; done]
  | |- hframe (audit_retirement _ _ _ _ _) => by apply hframe_audit_retirement
  | |- hframe (with_err ApiError_of_ca (if _ then _ else _)) =>
      apply hframe_op; case_match; eauto with ca_ops
  | |- hframe (with_err ApiError_of_ca _) => apply hframe_op; eauto with ca_ops
  | |- hframe (if _ then _ else _) => apply hframe_if; hframe_auto
  | |- hframe (match ?o with Some _ => _ | None => _ end) => destruct o; hframe_auto
  end.

(** The operator API adds no behaviour of its own: whatever a request over machines,
    tokens, CAs or the console answers, whichever of its database calls fail, and whatever
    the CA manager does in its own tables, what the request did to the database is a
    sequence of steps of the system. *)
Lemma hframe_operate st cst q o :
  call_ok (cq_call q) → call_in_range q → manager_laws st → hframe (operate st cst q o).
Proof.
  intros Hc Hq Hl. pose proof Hq as [Hn1 Hn2].
  destruct o as [a|a|rd|route]; simpl.
  - by apply hframe_world, frame_perform.
  - destruct a; simpl; unfold ca_generate, ca_import, patch, patch_rename, patch_toggle, ca_enable,
      ca_disable, rotate, retire, delete_ca, refuse_or_force; hframe_auto.
  - destruct rd; simpl; unfold list_cas, ca_stats, public_bundle, get_one, export_public_key,
      retirement, bundle_status; hframe_auto.
  - apply hframe_world, (serve_frame _ _ reachable). intros action. by apply frame_ops_authorize.
Qed.
End operators.

(** So is the enrollment endpoint, which builds its service from the shared state. *)
Lemma enroll_route_refines_steps st cfg next_index signer uuid now audit_now request :
  times_ok [now; audit_now] →
  frame reachable (enroll_route st cfg next_index signer uuid now audit_now request).
Proof. unfold enroll_route. eauto 10 using frame_enroll with frame. Qed.

(** The reads of an operator write nothing but a denial. *)
Lemma list_machines_refines_steps st c q :
  rfc3339_range (cl_audit_now c) = true → frame reachable (list_machines st c q).
Proof. unfold list_machines, admin_list, list_all. eauto 20 with frame. Qed.
Lemma get_machine_refines_steps st c i :
  rfc3339_range (cl_audit_now c) = true → frame reachable (get_machine st c i).
Proof.
  unfold get_machine, admin_get, admin_find, find_by_id, fetch_machine. eauto 20 with frame.
Qed.

Lemma list_servers_refines_steps st c provider : frame reachable (list_servers_route st c provider).
Proof.
  unfold list_servers_route. do 2 (apply (frame_bind reachable); [apply (frame_lift reachable)|intros ?]).
  destruct (authorize _ _); [|eauto with frame]. unfold list_servers, list_recent. eauto 20 with frame.
Qed.

(** The other routes write one audit entry at most. *)
Lemma frame_get_bundle s now audit_now authenticated headers :
  rfc3339_range audit_now = true →
  frame reachable (get_ca_bundle s now audit_now authenticated headers).
Proof.
  intros Hn. unfold get_ca_bundle. apply (frame_bind reachable); [eauto with frame|]. intros service.
  destruct (if_none_match_matches _ _); [eauto with frame|].
  apply (frame_bind reachable); [eauto with frame|]. intros bundle.
  apply (frame_bind reachable); [|eauto with frame].
  apply frame_append, event_ok_object; done.
Qed.
Lemma frame_device_poll providers headers rid now audit_now request :
  rfc3339_range audit_now = true →
  frame reachable (device_poll providers headers rid now audit_now request).
Proof.
  intros Hn. unfold device_poll. do 3 (apply (frame_bind reachable); [eauto with frame|intros ?]).
  case_match; eauto 10 using device_event_ok with frame.
Qed.
Lemma frame_whoami providers headers rid now audit_now selector :
  rfc3339_range audit_now = true →
  frame reachable (whoami providers headers rid now audit_now selector).
Proof. intros Hn. unfold whoami. eauto 20 using lookup_event_ok with frame. Qed.
Lemma frame_issue ca providers access headers rid now audit_now request :
  (∀ c, ca = Some c → CertificateAuthorityLaws c) → rfc3339_range audit_now = true →
  frame reachable (issue ca providers access headers rid now audit_now request).
Proof.
  intros Hca Hn. unfold issue. apply (frame_bind reachable); [eauto with frame|]. intros token.
  destruct ca as [ca|]; [|by intros w r w' [= _ <-]]. specialize (Hca ca eq_refl).
  match goal with |- frame _ (_ ≫= ?f) => change (frame reachable (f ca)) end.
  apply (frame_bind reachable); [eauto with frame|]. intros identity.
  destruct (authorize _ _) as [|reason]; [|eauto 10 using denied_event_ok with frame].
  apply (frame_bind reachable); [|eauto 10 using issued_event_ok with frame].
  apply (frame_with_err reachable). intros w r w' Hs. by rewrite (ca_own_tables _ _ _ _ Hs).
Qed.

(** A single-use token enrolls one machine.  Once an enrollment with a single-use
    token has succeeded, no later enrollment with that token succeeds or changes
    anything, whatever handlers ran in between. *)
Theorem single_use_token_enrolls_once `{!ChronoLaws, !SerdeJsonLaws}
    sv uuid now audit_now request resp t pk w0 w1 sv' uuid' now' audit_now' request' w2 r w3 :
  server_ok (db w0) → times_ok [now; audit_now; audit_now'] →
  verdict request now (db w0) = Ok (t, pk) → et_single_use t = true →
  enroll sv uuid now audit_now request w0 = (Ok resp, w1) →
  reachable (db w1) (db w2) →
  eq_enrollment_token request' = eq_enrollment_token request →
  enroll sv' uuid' now' audit_now' request' w2 = (r, w3) →
  is_ok r = false ∧ db w3 = db w2.
Proof.
  intros Hok Htimes Hv Hsu He1 Hreach Htok He2. unfold times_ok in Htimes.
  rewrite !Forall_cons in Htimes. destruct Htimes as (Hn & Han & Han' & _).
  assert (times_ok [now; audit_now]) as Ht by (unfold times_ok; by rewrite !Forall_cons).
  destruct (reachable_preserves _ _ (frame_enroll _ _ _ _ _ Ht _ _ _ He1) Hok) as [Hok1 _].
  destruct (enroll_effect _ _ _ _ _ _ _ _ (proj1 Hok) Han He1)
    as [[_ [e [=]]]|(t' & pk' & Hv' & _ & Hsame & _)]. rewrite Hv in Hv'. simplify_eq.
  assert (token_spent (hash_token (eq_enrollment_token request)) (db w1)) as Hsp.
  { pose proof (admitted_spends _ _ _ uuid _ _ _ (verdict_admission _ _ _ _ _ Hv) Hsu) as Hsp.
    destruct Hsame as (_ & Htk & _). revert Hsp. unfold token_spent. by rewrite Htk. }
  destruct (reachable_preserves _ _ Hreach Hok1) as [Hok2 [Hsp2 _]]. apply Hsp2 in Hsp.
  destruct (enroll_effect _ _ _ _ _ _ _ _ (proj1 Hok2) Han' He2)
    as [[-> [e ->]]|(t'' & pk'' & Hv'' & _)]; [done|].
  apply verdict_admission in Hv''. rewrite Htok in Hv''.
  by destruct (spent_not_admitted _ _ _ _ _ _ (proj2 (proj2 Hok2)) Hsp Hv'').
Qed.
End system.

(** ** Witnesses *)
#[local] Existing Instances toy_sha256 toy_hex toy_chrono toy_serde_json toy_ssh_key toy_base64
  toy_ed25519 toy_ssh_cert toy_debug toy_lowercase.
#[local] Existing Instances toy_chrono_laws toy_serde_json_laws.

Definition enrolled_world : World :=
  (enroll demo_service "u1" (seconds 9) (seconds 9) demo_request token_world).2.


Lemma single_use_token_enrolls_once_witness :
  let r := enroll demo_service "u2" (seconds 10) (seconds 10) demo_request enrolled_world in
  is_ok r.1 = false ∧ db r.2 = db enrolled_world.
Proof.
  destruct (is_ok_run (enroll demo_service "u1" (seconds 9) (seconds 9) demo_request token_world))
    as [resp Hr]; [vm_compute; reflexivity|].
  destruct (verdict demo_request (seconds 9) (db token_world)) as [[t pk]|e] eqn:Hv;
    [|vm_compute in Hv; discriminate Hv].
  assert (match verdict demo_request (seconds 9) (db token_world) with
          | Ok (t, _) => et_single_use t | Err _ => false end = true) as Hsu
    by (vm_compute; reflexivity).
  rewrite Hv in Hsu.
  eapply (single_use_token_enrolls_once demo_service "u1" (seconds 9) (seconds 9) demo_request
    resp t pk token_world enrolled_world demo_service "u2" (seconds 10) (seconds 10) demo_request
    enrolled_world _ _); [|by repeat constructor|exact Hv|exact Hsu|exact Hr|apply rtc_refl
    |reflexivity|apply surjective_pairing].
  exact (conj token_world_audit_ok (conj token_world_machines_ok token_world_tokens_ok)).
Defined.
