(* ===== verification/Service.v ===== *)
(** * Requests to the server as a whole

    What one request can do, whatever its path, method, headers and body: who may cause
    which change, that its writes are steps of the system, that its answer carries the
    server's identifier, and that the table sends every path to its handler. *)
From S2P Require Import Prelude External Errors Database AuditChain AuditRepo Machines Enrollment.
From S2P Require Import AgentAuth Registry MachineAdmin ClientContext Authz Providers Certificates.
From S2P Require Import Bundle BundleService Rollout Metrics AdminRoutes Console CaRoutes Paths.
From S2P Require Import Router System Toy.

Open Scope router_scope.

(** ** Tables other than the log *)
#[export] Instance same_but_audit_preorder : PreOrder same_but_audit.
Proof.
  split; [done|]. intros d1 d2 d3 (?&?&?&?) (?&?&?&?). unfold same_but_audit. by split_and!; etrans.
Qed.

Section service.
Context `{Sha256, HexEncode, Chrono, SerdeJson, SshCert, Base64, Ed25519, DebugStrings, ToLowercase}.
Context `{Extractors, !ExtractorsLaws, NonceCache C, !NonceCacheLaws C}.
Context {S View Stats : Type}.
Context (format_stamp : Z → string).
Context (CaView_from_record : CaRecord → Z → Z → View).
Context (CaStats_from_records : list CaRecord → Z → string → Stats).
Context (VERSION : string) (parse_error : string → string).
Context (st : Shared (S := S)) (dw : Draws).

#[local] Abbreviation Body := (@Body View Stats).
#[local] Abbreviation Process := (@Process C S).
#[local] Abbreviation Handler := (Service Process Machine Body).
#[local] Abbreviation Req := (Incoming Machine).
#[local] Abbreviation Act := (@Act C S).

(** ** What a service ensures *)

(** Of the state before, the status of the answer and the state after. *)
Definition ensures (Q : Process → Z → Process → Prop) (h : Handler) (q : Req) : Prop :=
  ∀ p r p', h q p = (r, p') → Q p (rs_status r) p'.

Definition set_metrics (m : ApiMetrics) (p : Process) : Process :=
  MkProcess (ps_host p) (ps_nonces p) m.

Section ensures.
Context (Q : Process → Z → Process → Prop).
Context (HQ : ∀ p status p' m, Q p status p' → Q p status (set_metrics m p')).

Lemma ensures_request_id h q :
  ensures Q h (set_request_id (dw_request_id dw) q) → ensures Q (request_id_layer dw h) q.
Proof.
  intros Hh p r p'. unfold request_id_layer. destruct (h _ p) as [r1 p1] eqn:Hr.
  intros [= <- <-]. by apply Hh in Hr.
Qed.
Lemma ensures_metrics h q : ensures Q h q → ensures Q (metrics_layer dw h) q.
Proof.
  intros Hh p r p'. unfold metrics_layer. destruct (h q p) as [r1 p1] eqn:Hr.
  intros [= <- <-]. by apply HQ, Hh.
Qed.
Lemma ensures_method (r : MethodRouter Process Machine Body) q :
  Forall (λ mh, ensures Q mh.2 q) (mr_handlers r) → ensures Q (mr_fallback r) q →
  ensures Q (call_method r) q.
Proof.
  intros Hh Hf p x p' Hr. rewrite Forall_forall in Hh.
  apply call_method_inv in Hr as [(m & h & Hin%Hh & [[_ Hr]|(_ & _ & Hr)])|Hr].
  - by apply Hin in Hr.
  - unfold without_body in Hr. destruct (h q p) as [r1 p1] eqn:Hr1. simplify_eq.
    by apply Hin in Hr1.
  - by apply Hf in Hr.
Qed.
End ensures.

(** ** Checks *)

(** [P] is what a check establishes: when it does not hold, the computation fails and has
    written nothing but the log. *)
Section checks.
Context (P : Prop).

Definition checks {A} (m : M World ApiError A) : Prop := ∀ w r w', m w = (r, w') →
  P ∨ (is_ok r = false ∧ same_but_audit (db w) (db w')).
Definition checks_host {A} (m : M (Host S) ApiError A) : Prop := ∀ h r h', m h = (r, h') →
  P ∨ (is_ok r = false ∧ ho_ca h' = ho_ca h ∧ same_but_audit (h_db h) (h_db h')).

(** Nothing has changed but the log and the metrics. *)
Definition untouched (p p' : Process) : Prop :=
  ho_ca (ps_host p') = ho_ca (ps_host p) ∧ ps_nonces p' = ps_nonces p ∧
  same_but_audit (ps_db p) (ps_db p').
Definition failure_status (f : Failure) : Z := rs_status (failure_response (View := View) (Stats := Stats) f).

Definition gated {A} (m : Act A) : Prop := ∀ p r p', m p = (r, p') →
  P ∨ ((∃ f, r = Err f ∧ (400 <= failure_status f)%Z) ∧ untouched p p').
Definition guarded (h : Handler) (q : Req) : Prop :=
  ensures (λ p status p', P ∨ ((400 <= status)%Z ∧ untouched p p')) h q.

Lemma checks_bind {A B} (m : M World ApiError A) (f : A → M World ApiError B) :
  checks m → checks (m ≫= f).
Proof.
  intros Hm w r w'. unfold mbind, M_bind. destruct (m w) as [x w1] eqn:Hw.
  apply Hm in Hw as [?|[Hx Hs]]; [by left|]. destruct x; [done|]. intros [= <- <-]. by right.
Qed.
Lemma checks_host_bind {A B} (m : M (Host S) ApiError A) (f : A → M (Host S) ApiError B) :
  checks_host m → checks_host (m ≫= f).
Proof.
  intros Hm w r w'. unfold mbind, M_bind. destruct (m w) as [x w1] eqn:Hw.
  apply Hm in Hw as [?|[Hx Hs]]; [by left|]. destruct x; [done|]. intros [= <- <-]. by right.
Qed.
Lemma checks_in_world {A} (m : M World ApiError A) : checks m → checks_host (in_world m).
Proof.
  intros Hm h r h'. unfold in_world. destruct (m _) as [x w] eqn:Hw. intros [= <- <-].
  by apply Hm in Hw as [?|[? ?]]; [left|right].
Qed.

Lemma untouched_refl p : untouched p p.
Proof. done. Qed.
Lemma api_status e : (400 <= failure_status (FailApi e))%Z.
Proof. by destruct e. Qed.

Lemma gated_extract {A B} (x : result A Rejection) (f : A → Act B) :
  (∀ rj, x = Err rj → (400 <= rj_status rj)%Z) → (∀ a, x = Ok a → gated (f a)) →
  gated (extract x ≫= f).
Proof.
  intros Hx Hf p r p'. unfold extract, mbind, M_bind, lift.
  destruct x as [a|rj]; simpl; [by apply Hf|]. intros [= <- <-]. right.
  split; [|done]. eexists. split; [done|]. by apply Hx.
Qed.
Lemma gated_api {A B} (x : result A ApiError) (f : A → Act B) :
  (∀ a, x = Ok a → gated (f a)) → gated (api x ≫= f).
Proof.
  intros Hf p r p'. unfold api, mbind, M_bind, lift.
  destruct x as [a|e]; simpl; [by apply Hf|]. intros [= <- <-]. right.
  split; [|done]. eexists. split; [done|]. apply api_status.
Qed.
Lemma gated_gets {A B} (g : Process → A) (f : A → Act B) :
  (∀ a, gated (f a)) → gated (gets g ≫= f).
Proof. intros Hf p r p' Hr. exact (Hf (g p) p r p' Hr). Qed.
Lemma gated_on_host {A B} (m : M (Host S) ApiError A) (f : A → Act B) :
  checks_host m → gated (on_host m ≫= f).
Proof.
  intros Hm p r p'. unfold mbind, M_bind, on_host. destruct (m _) as [x h] eqn:Hr.
  apply Hm in Hr as [?|[Hx Hs]]; [by left|]. destruct x as [|e]; [done|]. intros [= <- <-].
  right. split; [|destruct Hs; by split_and!]. eexists. split; [done|]. apply api_status.
Qed.
Lemma gated_on_db {A B} (m : M World ApiError A) (f : A → Act B) :
  checks m → gated (on_db FailApi m ≫= f).
Proof. intros Hm. apply (gated_on_host (in_world m)). by apply checks_in_world. Qed.

Lemma guarded_into (m : Act (Response Body)) (h : Handler) q :
  gated m → (∀ p, h q p = into_response m p) → guarded h q.
Proof.
  intros Hm Hh p r p'. rewrite Hh. unfold into_response. destruct (m p) as [x p1] eqn:Hr.
  apply Hm in Hr as [?|[(f & -> & Hs) Hu]]; [by left|]. intros [= <- <-]. right. by split.
Qed.
End checks.

(** ** Operators *)

(** The request carries a bearer token whose identity the access lists admit. *)
Definition operator (headers : list (string * string)) : Prop := ∃ token identity,
  BearerToken_from_request headers = Ok token ∧
  resolve_identity (sh_providers st) (sh_access st) None token = Ok identity ∧
  permitted (sh_access st) identity.

(** The check at the head of every operator route, whatever it records of a denial. *)
Lemma checks_authorized headers now (event : Identity → string → NewAuditEntry) :
  checks (operator headers)
    (token ← lift (BearerToken_from_request headers);
     identity ← lift (resolve_identity (sh_providers st) (sh_access st) None token);
     match authorize (sh_access st) identity with
     | Deny reason =>
         _ ← with_err ApiError_of_audit (append_audit_event now (event identity reason));
         throw (ApiError_of_authz (Denied reason))
     | Allow => ret identity
     end).
Proof.
  intros w r w'. unfold mbind at 1, M_bind at 1, lift at 1.
  destruct (BearerToken_from_request _) as [token|] eqn:Ht; [|intros [= <- <-]; by right].
  unfold mbind at 1, M_bind at 1, lift at 1.
  destruct (resolve_identity _ _ _ _) as [identity|] eqn:Hi; [|intros [= <- <-]; by right].
  destruct (authorize _ _) as [|reason] eqn:Ha.
  - intros [= <- <-]. left. exists token, identity. split_and!; [done|done|].
    apply authorize_sound. by rewrite Ha.
  - unfold mbind, M_bind. destruct (with_err _ _ w) as [x w1] eqn:Hr. apply append_tables in Hr.
    destruct x; intros [= <- <-]; by right.
Qed.

Lemma checks_admin s c action :
  checks (operator (cl_headers c)) (authorize_admin (app_state st s) c action).
Proof. apply checks_authorized. Qed.
Lemma checks_ca s c action :
  checks (operator (cl_headers c)) (ca_authorize_admin (app_state st s) c action).
Proof. apply checks_authorized. Qed.
Lemma checks_ops (p : Process) c action :
  checks (operator (cl_headers c)) (ops_authorize_admin (console_state st p) c action).
Proof. apply checks_authorized. Qed.
Lemma checks_ca_host s q action :
  checks_host (operator (cl_headers (cq_call q))) (authorize_ca (ca_app_state st s) q action).
Proof. apply checks_in_world, checks_ca. Qed.

Lemma missing_refusal {A} (o : option A) rj :
  ok_or missing_extension o = Err rj → (400 <= rj_status rj)%Z.
Proof. destruct o; [done|]. by intros [= <-]. Qed.

(** Walk through the extractors of a handler. *)
Ltac refusal := intros ? ?;
  first [by eapply json_refusal|by eapply json_opt_refusal|by eapply query_refusal
        |by eapply path_refusal|by eapply missing_refusal].
Ltac gate :=
  lazymatch goal with
  | |- gated _ (extract _ ≫= _) => apply gated_extract; [refusal|intros ? ?; gate]
  | |- gated _ (api _ ≫= _) => apply gated_api; intros ? ?; gate
  | |- gated _ (gets _ ≫= _) => apply gated_gets; intros ?; gate
  | |- gated _ (on_host _ ≫= _) => apply gated_on_host
  | |- gated _ (on_db _ _ ≫= _) => apply gated_on_db
  end.
Ltac gate_handler :=
  eapply guarded_into; [|intros; reflexivity];
  unfold request_id, bearer, path_id, body, body_opt, params, manager_state; gate.

Lemma console_guarded {A} (f : A → Body) read q :
  (∀ (p : Process) c, checks (operator (cl_headers c)) (read (console_state st p) c)) →
  guarded (operator (headers_of q)) (console_handler st dw f read) q.
Proof. intros Hr. gate_handler. apply Hr. Qed.
Lemma console_query_guarded {A} k (f : A → Body) read q :
  (∀ (p : Process) c ps, checks (operator (cl_headers c)) (read (console_state st p) c ps)) →
  guarded (operator (headers_of q)) (console_query_handler st dw k f read) q.
Proof. intros Hr. gate_handler. apply Hr. Qed.
Lemma lifecycle_guarded operation q :
  (∀ s c i, checks (operator (cl_headers c)) (operation (app_state st s) c i)) →
  guarded (operator (headers_of q)) (lifecycle_handler st dw operation) q.
Proof. intros Hr. gate_handler. apply Hr. Qed.
Lemma reissue_guarded operation q :
  (∀ s c random uuid i, checks (operator (cl_headers c)) (operation (app_state st s) c random uuid i)) →
  guarded (operator (headers_of q)) (reissue_handler st dw operation) q.
Proof. intros Hr. gate_handler. apply Hr. Qed.

(** ** Where a path leads *)

(** The segment after the version: [Some "admin"] for [/api/v1/admin/..]. *)
Definition area (path : string) : option string := split_on slash path !! 3%nat.

Lemma match_lookup template path xs i t :
  match_segments template path = Some xs → template !! i = Some t → is_param t = false →
  path !! i = Some t.
Proof.
  revert path xs i. induction template as [|a template IH]; intros [|b path] xs i Hm Hi Ht; try done.
  apply match_cons in Hm as [(Ha & _ & ys & _ & Hm)|(_ & <- & Hm)];
    destruct i as [|i]; simpl in *; simplify_eq; by eauto || congruence.
Qed.

Definition api_router : Router Process Machine Body :=
  build_router format_stamp CaView_from_record CaStats_from_records VERSION parse_error st dw.

(** The segment is literal in every template. *)
Lemma area_literal t :
  t ∈ templates api_router → ∃ a, area t = Some a ∧ is_param a = false.
Proof.
  intros Ht. apply (Forall_forall (λ t, ∃ a, area t = Some a ∧ is_param a = false)
    (templates api_router)); [|done].
  clear. repeat constructor; eexists; by split; [vm_compute|].
Qed.

Lemma area_match t path ps :
  t ∈ templates api_router → match_template t path = Some ps → area t = area path.
Proof.
  intros (a & Ha & Hp)%area_literal Hm. rewrite Ha. symmetry. by eapply match_lookup.
Qed.

(** ** Every route of the table *)

(** [tac] on each route, behind the layers that every route has. *)
Ltac each_route tac :=
  lazymatch goal with
  | |- every_route _ (merge _ _) => apply every_merge; [each_route tac|each_route tac]
  | |- every_route _ (route _ _ _) =>
      apply every_add;
      [each_route tac
      |intros Harea; first [exfalso; vm_compute in Harea; discriminate Harea|tac]]
  | |- every_route _ Router_new => apply every_new
  | |- _ => idtac
  end.

Lemma untouched_metrics P p status p' m :
  P ∨ ((400 <= status)%Z ∧ untouched p p') → P ∨ ((400 <= status)%Z ∧ untouched p (set_metrics m p')).
Proof. done. Qed.

Lemma not_allowed_guarded P methods q : guarded P (method_not_allowed methods) q.
Proof. intros p r p' [= <- <-]. by right. Qed.

Ltac every_method tac :=
  lazymatch goal with
  | |- Forall _ (_ :: _) => apply Forall_cons; split; [cbn [snd]; tac|every_method tac]
  | |- Forall _ [] => constructor
  end.
Ltac methods tac :=
  apply ensures_method; [|apply not_allowed_guarded];
  cbn [mr_handlers method_router get post on_method app]; every_method tac.

(** The check is the first thing an operator route does. *)
Ltac checks_head :=
  lazymatch goal with
  | |- checks _ (authorize_admin _ _ _) => apply checks_admin
  | |- checks _ (ca_authorize_admin _ _ _) => apply checks_ca
  | |- checks _ (ops_authorize_admin _ _ _) => apply checks_ops
  | |- checks_host _ (authorize_ca _ _ _) => apply checks_ca_host
  | |- checks _ (_ ≫= _) => apply checks_bind; checks_head
  | |- checks_host _ (_ ≫= _) => apply checks_host_bind; checks_head
  end.
Ltac check_route :=
  unfold audit_search_handler, audit_stream_handler, ops_health_handler, ops_status_handler,
    ops_metrics_handler, rollout_status_handler, generations_handler, rollout_machines_handler,
    stuck_handler, rollout_health_handler, explain_handler, timeline_handler, history_handler,
    approve_handler, disable_handler, enable_handler, revoke_handler, reenroll_handler,
    rotate_identity_handler;
  lazymatch goal with
  | |- ensures _ (console_handler _ _ _ _) _ => apply console_guarded
  | |- ensures _ (console_query_handler _ _ _ _ _) _ => apply console_query_guarded
  | |- ensures _ (lifecycle_handler _ _ _) _ => apply lifecycle_guarded
  | |- ensures _ (reissue_handler _ _ _) _ => apply reissue_guarded
  | |- ensures _ _ _ => gate_handler
  end; intros;
  unfold list_machines, get_machine, approve, disable, enable, revoke, set_lifecycle,
    delete_machine, reenroll, rotate_identity, reissue_identity, mint_enrollment_token,
    audit_search, audit_stream, health, ops_status, ops_metrics, route_status,
    route_generations, route_machines, route_stuck, route_health, route_explain, route_timeline,
    route_history, route_load, ca_generate, ca_import, rotate, list_cas, ca_stats, public_bundle,
    get_one, export_public_key, patch, ca_enable, ca_disable, delete_ca, retirement, retire,
    bundle_status;
  checks_head.

(** The layers around every route keep what the routes ensure. *)
Lemma every_behind_layers (A : string → Prop) (Q : Req → Process → Z → Process → Prop) router :
  (∀ q p status p' m, Q q p status p' → Q q p status (set_metrics m p')) →
  (∀ q rid, Q (set_request_id rid q) = Q q) →
  every_route (λ t h, A t → ∀ q, ensures (Q q) h q) router →
  every_route (λ t h, A t → ∀ q, ensures (Q q) h q)
    (router .> route_layer (metrics_layer dw) .> layer (request_id_layer dw)).
Proof.
  intros Hm Hrid Hr. set (P := λ t h, A t → ∀ q, ensures (Q q) h q) in *.
  apply (every_layer P P); [|apply (every_route_layer P P); [|exact Hr]]; unfold P.
  - intros t h Hh Ha q. apply ensures_request_id. rewrite <-(Hrid q (dw_request_id dw)).
    by apply Hh.
  - intros t h Hh Ha q. apply ensures_metrics; [apply Hm|]. by apply Hh.
Qed.

Lemma admin_routes_guarded :
  every_route (λ t h, area t = Some "admin" → ∀ q, guarded (operator (headers_of q)) h q) api_router.
Proof.
  apply every_behind_layers; [intros; by apply untouched_metrics|done|].
  each_route ltac:(intros q; methods ltac:(check_route)).
  apply (every_route_layer _ (λ t _, area t = Some "agent")).
  { intros t h -> Ha. discriminate Ha. }
  by repeat apply every_add; [apply every_new|..].
Qed.

(** ** Agents *)

(** The request is authentic for an active machine of the table, and its nonce is fresh. *)
Definition accepted (p : Process) (request : Request) : Prop := ∃ machine nonce ts body,
  authentic (ps_db p) (dw_checked_at dw) request nonce ts machine body ∧
  refuses (ps_nonces p) (machine_id machine) nonce (dw_checked_at dw) = false.

(** Whatever runs behind the signature check, an unaccepted request fails and writes
    nothing to the tables. *)
Definition agent_only (q : Req) (p : Process) (status : Z) (p' : Process) : Prop :=
  accepted p (iq_request q) ∨
  ((400 <= status)%Z ∧ ho_ca (ps_host p') = ho_ca (ps_host p) ∧ ps_db p' = ps_db p).

Lemma verify_tables now request (s : Server C) r s' :
  verify_machine_signature now request s = (r, s') → db (sv_world s') = db (sv_world s).
Proof.
  unfold verify_machine_signature, mbind at 1, M_bind at 1.
  destruct (check_request _ _ _) as [[[[[m mid] nonce] bd]|e1] s1] eqn:Hc;
    pose proof (check_request_reads_only _ _ _ _ _ Hc) as [_ <-]; [|by intros [= _ <-]].
  unfold mbind, M_bind, consume_nonce, ensure, ret, throw.
  destruct (check_and_record _ _ _ _) as [[] c]; by intros [= _ <-].
Qed.

Lemma signature_guards next q : ensures (agent_only q) (signature_layer dw next) q.
Proof.
  intros p r p'. unfold signature_layer, into_response, mbind at 1, M_bind at 1, on_server.
  destruct (verify_machine_signature _ _ _) as [x sv] eqn:Hv.
  destruct x as [[machine bd]|e]; cbn [map_err].
  - intros _. left. apply verify_ok_inv in Hv as (nonce & ts & Hauth & _ & Hc).
    exists machine, nonce, ts, bd. split; [done|].
    pose proof (check_decides (ps_nonces p) (machine_id machine) nonce (dw_checked_at dw)) as Hd.
    simpl in Hc. rewrite Hc in Hd. simpl in Hd. by destruct (refuses _ _ _ _).
  - intros [= <- <-]. right. split; [apply api_status|]. split; [done|].
    by apply verify_tables in Hv.
Qed.

Lemma agent_routes_guarded :
  every_route (λ t h, area t = Some "agent" → ∀ q, ensures (agent_only q) h q) api_router.
Proof.
  apply every_behind_layers; [done|done|].
  each_route ltac:(fail).
  apply (every_route_layer _ (λ _ _, True)).
  { intros t h _ _ q. apply signature_guards. }
  by repeat apply every_add; [apply every_new|..].
Qed.

(** ** Everyone else *)

(** An effect on the shared state that computations compose. *)
Section within.
Context (R : Process → Process → Prop) `{!PreOrder R}.

Definition within {A} (m : Act A) : Prop := ∀ p r p', m p = (r, p') → R p p'.

Lemma within_bind {A B} (m : Act A) (f : A → Act B) :
  within m → (∀ a, within (f a)) → within (m ≫= f).
Proof.
  intros Hm Hf p r p'. unfold mbind, M_bind. destruct (m p) as [x p1] eqn:Hr. apply Hm in Hr.
  destruct x; [intros Hr2%Hf; by etrans|by intros [= _ <-]].
Qed.
Lemma within_lift {A} (x : result A Failure) : within (lift x).
Proof. by intros p r p' [= _ <-]. Qed.
Lemma within_gets {A} (g : Process → A) : within (gets g).
Proof. by intros p r p' [= _ <-]. Qed.
Lemma within_ret {A} (a : A) : within (ret a).
Proof. by intros p r p' [= _ <-]. Qed.
Lemma within_into (m : Act (Response Body)) (h : Handler) q :
  within m → (∀ p, h q p = into_response m p) → ensures (λ p _ p', R p p') h q.
Proof.
  intros Hm Hh p r p'. rewrite Hh. unfold into_response. destruct (m p) as [x p1] eqn:Hr.
  apply Hm in Hr. destruct x; by intros [= _ <-].
Qed.
Lemma within_not_allowed methods q : ensures (λ p _ p', R p p') (method_not_allowed methods) q.
Proof. by intros p r p' [= _ <-]. Qed.
End within.

(** From a good log, nothing changes but the log, which stays good. *)
Definition quiet (p p' : Process) : Prop :=
  audit_ok (ps_db p) → audit_ok (ps_db p') ∧ untouched p p'.

#[local] Instance quiet_preorder : PreOrder quiet.
Proof.
  split; [by intros p Hp|]. intros p1 p2 p3 H12 H23 Hp. destruct (H12 Hp) as [Hp2 (? & ? & Hs)].
  destruct (H23 Hp2) as [Hp3 (? & ? & Hs')]. split; [done|]. split_and!; [by etrans..|by etrans].
Qed.

Lemma quiet_on_db {E A} fail now (m : M World E A) : log_only now m → within quiet (on_db fail m).
Proof.
  intros Hm p r p'. unfold on_db, in_world. destruct (m _) as [x w] eqn:Hr. intros [= _ <-] Hok.
  destruct (Hm _ _ _ Hok Hr) as [Hdb|[ev Happ]].
  - split; [unfold ps_db, h_db; simpl; by rewrite Hdb|]. split_and!; try done.
    unfold ps_db, h_db. simpl. by rewrite Hdb.
  - destruct Happ as (row & e & _ & _ & _ & _ & _ & _ & _ & Hsame & Ha). done.
Qed.

Context `{!ChronoLaws, !SerdeJsonLaws}.

(** The manager keeps its promises, if there is one. *)
Definition manager_ok : Prop := ∀ m, sh_ca st = Some m →
  CaOperationsLaws (mg_operations m) ∧
  ∀ s now rng, CertificateAuthorityLaws (mg_authority m s now rng).

Lemma authority_laws s c : manager_ok → authority st dw s = Some c → CertificateAuthorityLaws c.
Proof.
  intros Hst. unfold authority. destruct (sh_ca st) as [m|] eqn:Hm; [|done]. intros [= <-].
  by apply (Hst m).
Qed.

Section public.
Context (Hst : manager_ok) (Haudit_now : rfc3339_range (dw_audit_now dw) = true).

Lemma issue_quiet s headers rid now request :
  log_only (dw_audit_now dw) (issue (authority st dw s) (sh_providers st) (sh_access st) headers rid
    now (dw_audit_now dw) request).
Proof.
  destruct (authority st dw s) as [ca|] eqn:Hca.
  { apply issue_log_only; [by eapply authority_laws|done]. }
  apply log_only_bind; [apply (frame_lift eq)|]. intros token w r w' _ [= _ <-]. by left.
Qed.
Lemma list_servers_quiet s c provider :
  log_only (dw_audit_now dw) (list_servers_route (app_state st s) c provider).
Proof.
  unfold list_servers_route. do 2 (apply log_only_bind; [apply (frame_lift eq)|]; intros ?).
  apply log_only_reads. destruct (authorize _ _); [|apply (frame_throw eq)].
  unfold list_servers, list_recent. eauto 20 with frame.
Qed.

(** The enrollment a body asks for, when the admission rule grants it. *)
Definition enrolls (q : Req) (p p' : Process) : Prop := ∃ request t pk,
  json KEnroll (iq_request q) = Ok request ∧ verdict request (dw_now dw) (ps_db p) = Ok (t, pk) ∧
  same_but_audit (admitted request t pk (dw_uuid dw) (dw_now dw) (ps_db p)) (ps_db p').

Definition public_only (q : Req) (p : Process) (status : Z) (p' : Process) : Prop :=
  audit_ok (ps_db p) → ho_ca (ps_host p') = ho_ca (ps_host p) ∧ ps_nonces p' = ps_nonces p ∧
  (same_but_audit (ps_db p) (ps_db p') ∨ enrolls q p p').

Lemma quiet_public h q : ensures (λ p _ p', quiet p p') h q → ensures (public_only q) h q.
Proof. intros Hh p r p' Hr Hok. destruct (Hh _ _ _ Hr Hok) as [_ (? & ? & ?)]. auto. Qed.

Lemma enroll_public q : ensures (public_only q) (enroll_handler st dw) q.
Proof.
  intros p r p' Hr Hok. revert Hr. unfold enroll_handler, into_response, body, extract, manager_state.
  unfold mbind at 1, M_bind at 1, lift. destruct (json KEnroll _) as [request|rj] eqn:Hj; simpl.
  2:{ intros [= _ <-]. split_and!; [done|done|]. by left. }
  unfold gets, mbind, M_bind, on_db, in_world, ok, ret.
  destruct (enroll_route _ _ _ _ _ _ _ _ _) as [x w] eqn:He. intros Hr.
  assert (p' = MkProcess (MkHost (ho_ca (ps_host p)) w) (ps_nonces p) (ps_metrics p)) as ->
    by (destruct x; simpl in Hr; congruence). clear Hr. split_and!; [done|done|].
  unfold enroll_route, mbind, M_bind, lift in He. cases; try by left.
  destruct (enroll_effect _ _ _ _ _ _ _ _ Hok Haudit_now He) as [[Hdb _]|(t & pk & Hv & _ & Hs & _)].
  - left. unfold ps_db, h_db. simpl. by rewrite Hdb.
  - right. by exists request, t, pk.
Qed.

Ltac quiet_leaf :=
  lazymatch goal with
  | |- within _ (_ ≫= _) => apply (within_bind quiet); [quiet_leaf|intros ?; quiet_leaf]
  | |- within _ (on_db _ _) =>
      eapply quiet_on_db;
      first [by apply device_poll_log_only|by apply whoami_log_only|apply issue_quiet
            |apply list_servers_quiet]
  | |- within _ (gets _) => apply (within_gets quiet)
  | |- within _ (ret _) => apply (within_ret quiet)
  | |- within _ _ => apply (within_lift quiet)
  end.
Ltac quiet_handler :=
  apply quiet_public; eapply within_into; [|intros; reflexivity];
  unfold request_id, bearer, path_id, body, body_opt, params, manager_state, extract, api, ok;
  quiet_leaf.

Lemma not_allowed_public methods q : ensures (public_only q) (method_not_allowed methods) q.
Proof. apply quiet_public, (within_not_allowed quiet). Qed.

Lemma public_routes :
  every_route (λ t h, bool_decide (area t = Some "admin" ∨ area t = Some "agent") = false →
    ∀ q, ensures (public_only q) h q) api_router.
Proof.
  apply every_behind_layers; [done|done|].
  each_route ltac:(intros q; apply ensures_method; [|apply not_allowed_public];
    cbn [mr_handlers method_router get post on_method app];
    every_method ltac:(first [apply enroll_public|quiet_handler])).
  apply (every_route_layer _ (λ t _, area t = Some "agent")).
  { intros t h Ht Ha. rewrite bool_decide_true in Ha by auto. done. }
  by repeat apply every_add; [apply every_new|..].
Qed.
End public.

(** ** Every write is a step *)

(** The readings of the clock can be written, and so can the expiry of a token. *)
Definition draws_ok : Prop :=
  times_ok [dw_now dw; dw_audit_now dw; dw_second_audit_now dw; dw_token_now dw] ∧
  ∀ ttl, (60 <= ttl <= 86400)%Z → rfc3339_range (dw_token_now dw + seconds ttl) = true.

Definition steps (p p' : Process) : Prop := reachable (ps_db p) (ps_db p').

#[local] Instance steps_preorder : PreOrder steps.
Proof. split; unfold steps; [by intros p|]. intros p1 p2 p3 ? ?. by etrans. Qed.

Section steps.
Context (Hst : manager_ok) (Hdraws : draws_ok).

Lemma draws_times :
  times_ok [dw_now dw] ∧ times_ok [dw_now dw; dw_audit_now dw] ∧
  rfc3339_range (dw_audit_now dw) = true ∧
  (∀ q rid, call_ok (call_of dw q rid)) ∧ (∀ q rid, call_in_range (ca_call_of dw q rid)).
Proof.
  destruct Hdraws as [Ht Httl]. unfold times_ok in *. rewrite !Forall_cons in Ht.
  destruct Ht as (? & ? & ? & ? & _). split_and!; [by repeat constructor..|done| |]; intros q rid.
  - split; [by repeat constructor|exact Httl].
  - by split.
Qed.

Lemma steps_on_db {E A} fail (m : M World E A) :
  frame reachable m → within steps (on_db fail m).
Proof.
  intros Hm p r p'. unfold on_db, in_world. destruct (m _) as [x w] eqn:Hr. apply Hm in Hr.
  by intros [= _ <-].
Qed.
Lemma steps_on_host {A} (m : M (Host S) ApiError A) : hframe m → within steps (on_host m).
Proof.
  intros Hm p r p'. unfold on_host. destruct (m _) as [x h] eqn:Hr. apply Hm in Hr.
  by intros [= _ <-].
Qed.

Lemma ca_manager_laws s : manager_laws (ca_app_state st s).
Proof.
  intros ca. simpl. destruct (sh_ca st) as [m|] eqn:Hm; [|done]. intros [= <-]. by apply Hst.
Qed.

(** Each operator handler is one of the requests of [System.v]. *)
Lemma steps_operate s q rid o :
  hframe (operate format_stamp CaView_from_record CaStats_from_records VERSION parse_error
            (ca_app_state st s) (MkConsoleState (app_state st s) None [] None 0 ApiMetrics_new 0)
            (ca_call_of dw q rid) o).
Proof.
  destruct draws_times as (_ & _ & _ & Hc & Hq).
  apply hframe_operate; [apply Hc|apply Hq|apply ca_manager_laws].
Qed.
Lemma steps_ca s q rid a :
  hframe (perform_ca format_stamp CaView_from_record (ca_app_state st s) (ca_call_of dw q rid) a).
Proof. apply (steps_operate s q rid (OnCas a)). Qed.
Lemma steps_ca_read s q rid rd :
  hframe (serve_ca CaView_from_record CaStats_from_records (ca_app_state st s) (ca_call_of dw q rid) rd).
Proof. apply (steps_operate s q rid (ReadCas rd)). Qed.
Lemma steps_console cst q rid route :
  frame reachable (serve VERSION parse_error cst (call_of dw q rid) route).
Proof.
  destruct draws_times as (_ & _ & _ & Hc & _). destruct (call_ok_times _ (Hc q rid)) as (_ & Hn & _).
  apply (serve_frame _ _ reachable). intros action. by apply frame_ops_authorize.
Qed.
Lemma steps_perform s q rid a : frame reachable (perform (app_state st s) (call_of dw q rid) a).
Proof. destruct draws_times as (_ & _ & _ & Hc & _). by apply frame_perform. Qed.

(** The request of the components that a handler makes. *)
Ltac host_request :=
  lazymatch goal with
  | |- hframe (ca_generate _ _ _ ?x) => apply hframe_answer, (steps_ca _ _ _ (Generate x))
  | |- hframe (ca_import _ _ _ ?x) => apply hframe_answer, (steps_ca _ _ _ (Import x))
  | |- hframe (patch _ _ _ ?i ?x) => apply hframe_answer, (steps_ca _ _ _ (Patch i x))
  | |- hframe (ca_enable _ _ _ ?i) => apply hframe_answer, (steps_ca _ _ _ (EnableCa i))
  | |- hframe (ca_disable _ _ _ ?i) => apply hframe_answer, (steps_ca _ _ _ (DisableCa i))
  | |- hframe (rotate _ _ _ _ ?x) => apply hframe_answer, (steps_ca _ _ _ (Rotate x))
  | |- hframe (retire _ _ _ ?i ?x) => apply hframe_answer, (steps_ca _ _ _ (Retire i x))
  | |- hframe (delete_ca _ _ ?i ?x) => apply hframe_answer, (steps_ca _ _ _ (DeleteCa i x))
  | |- hframe (list_cas _ _ _) => apply hframe_answer, (steps_ca_read _ _ _ ListCas)
  | |- hframe (ca_stats _ _ _) => apply hframe_answer, (steps_ca_read _ _ _ ReadStats)
  | |- hframe (public_bundle _ _) => apply hframe_answer, (steps_ca_read _ _ _ ReadBundle)
  | |- hframe (get_one _ _ _ ?i) => apply hframe_answer, (steps_ca_read _ _ _ (GetOne i))
  | |- hframe (export_public_key _ _ ?i) =>
      apply hframe_answer, (steps_ca_read _ _ _ (ExportPublicKey i))
  | |- hframe (retirement _ _ ?i) => apply hframe_answer, (steps_ca_read _ _ _ (Retirement i))
  | |- hframe (bundle_status _ _) => apply hframe_answer, (steps_ca_read _ _ _ BundleStatus)
  end.
Ltac db_request :=
  let console r := (apply frame_answer, (steps_console _ _ _ r)) in
  let operator a := (apply frame_answer, (steps_perform _ _ _ a)) in
  lazymatch goal with
  | |- frame _ (approve _ _ ?i) => operator (Approve i)
  | |- frame _ (disable _ _ ?i) => operator (Disable i)
  | |- frame _ (enable _ _ ?i) => operator (Enable i)
  | |- frame _ (revoke _ _ ?i) => operator (Revoke i)
  | |- frame _ (delete_machine _ _ ?i) => operator (DeleteMachine i)
  | |- frame _ (reenroll _ _ ?x ?y ?i) => operator (Reenroll x y i)
  | |- frame _ (rotate_identity _ _ ?x ?y ?i) => operator (RotateIdentity x y i)
  | |- frame _ (mint_enrollment_token _ _ ?x ?y ?z) => operator (MintToken x y z)
  | |- frame _ (audit_search _ _ _ ?p) => console (OpsAudit p)
  | |- frame _ (audit_stream _ _ _ ?p) => console (OpsAuditStream p)
  | |- frame _ (health _ _ _) => console OpsHealth
  | |- frame _ (ops_status _ _ _) => console OpsStatus
  | |- frame _ (ops_metrics _ _) => console OpsMetrics
  | |- frame _ (route_status _ _) => console RolloutStatusRoute
  | |- frame _ (route_generations _ _) => console RolloutGenerations
  | |- frame _ (route_machines _ _ ?a ?b) => console (RolloutMachines a b)
  | |- frame _ (route_stuck _ _) => console RolloutStuck
  | |- frame _ (route_health _ _) => console RolloutHealthRoute
  | |- frame _ (route_explain _ _) => console RolloutExplain
  | |- frame _ (route_timeline _ _ ?l) => console (RolloutTimelineRoute l)
  | |- frame _ (route_history _ _) => console RolloutHistoryRoute
  | |- frame _ (list_machines _ _ _) => by apply list_machines_refines_steps
  | |- frame _ (get_machine _ _ _) => by apply get_machine_refines_steps
  | |- frame _ (list_servers_route _ _ _) => apply list_servers_refines_steps
  | |- frame _ (enroll_route _ _ _ _ _ _ _ _) => by apply enroll_route_refines_steps
  | |- frame _ (device_poll _ _ _ _ _ _) => by apply frame_device_poll
  | |- frame _ (whoami _ _ _ _ _ _) => by apply frame_whoami
  | |- frame _ (issue _ _ _ _ _ _ _ _) => apply frame_issue; [intros ?; by apply authority_laws|done]
  | |- frame _ (heartbeat _ _ _) => by apply frame_heartbeat
  | |- frame _ (get_ca_bundle _ _ _ _ _) => by apply frame_get_bundle
  | |- frame _ (ack_ca_bundle _ _ _ _ _) => by apply frame_ack
  end.
Ltac steps_leaf :=
  lazymatch goal with
  | |- within _ (_ ≫= _) => apply (within_bind steps); [steps_leaf|intros ?; steps_leaf]
  | |- within _ (on_db _ _) => apply steps_on_db; cbv beta; db_request
  | |- within _ (on_host _) => apply steps_on_host; host_request
  | |- within _ (gets _) => apply (within_gets steps)
  | |- within _ (ret _) => apply (within_ret steps)
  | |- within _ _ => apply (within_lift steps)
  end.
Ltac steps_handler :=
  eapply within_into; [|intros; reflexivity];
  unfold request_id, bearer, path_id, body, body_opt, params, manager_state, authenticated, extract,
    api, ok, created_with; steps_leaf.

Lemma signature_steps next q :
  (∀ q, ensures (λ p _ p', steps p p') next q) →
  ensures (λ p _ p', steps p p') (signature_layer dw next) q.
Proof.
  intros Hnext p r p'. unfold signature_layer, into_response, mbind, M_bind, on_server, run_next.
  destruct (verify_machine_signature _ _ _) as [x sv] eqn:Hv. apply verify_tables in Hv.
  destruct x as [[machine bd]|e]; cbn [map_err].
  - destruct (next _ _) as [r1 p1] eqn:Hr. apply Hnext in Hr. intros [= _ <-].
    unfold steps, ps_db, h_db in *. simpl in *. by rewrite Hv in Hr.
  - intros [= _ <-]. unfold steps, ps_db, h_db. simpl. by rewrite Hv.
Qed.

Lemma every_route_steps :
  every_route (λ t h, True → ∀ q, ensures (λ p _ p', steps p p') h q) api_router.
Proof.
  destruct draws_times as (Hn & Hna & Ha & _ & _).
  apply every_behind_layers; [done|done|].
  each_route ltac:(clear Harea; intros q; apply ensures_method; [|apply (within_not_allowed steps)];
    cbn [mr_handlers method_router get post on_method app]; every_method ltac:(steps_handler)).
  apply (every_route_layer _ (λ _ h, ∀ q, ensures (λ p _ p', steps p p') h q)).
  { intros t h Hh _ q. by apply signature_steps. }
  repeat apply every_add; [apply every_new|..]; intros q; (apply ensures_method;
    [|apply (within_not_allowed steps)]; cbn [mr_handlers method_router get post on_method app];
    every_method ltac:(steps_handler)).
Qed.
End steps.

(** ** The whole request *)
Context `{PathMatcher, !PathMatcherLaws}.

Definition serve_request (request : Request) (query : string) : Process → Response Body * Process :=
  handle format_stamp CaView_from_record CaStats_from_records VERSION parse_error st dw request query.

(** A request runs the service of a template that matches its path and lies in the same
    area, or is answered [404] and changes nothing. *)
Lemma request_inv request query p r p' :
  serve_request request query p = (r, p') →
  (∃ t ps h, (t, h) ∈ ro_routes api_router ∧
     find_route (templates api_router) (rq_path request) = Some (t, ps) ∧
     match_template t (rq_path request) = Some ps ∧ area t = area (rq_path request) ∧
     h (MkIncoming request query (Some t) ps None None) p = (r, p')) ∨
  (find_route (templates api_router) (rq_path request) = None ∧ rs_status r = 404%Z ∧ p' = p).
Proof.
  intros Hr. apply call_router_inv in Hr as [(t & ps & h & Hf & Hin & Hm & Hh)|[Hn Hr]].
  - left. exists t, ps, h. split_and!; try done. apply (area_match _ _ ps); [|done].
    apply (list_elem_of_fmap_2 fst) in Hin. exact Hin.
  - right. split; [exact Hn|]. revert Hr.
    change (ro_fallback _) with (request_id_layer (View := View) (Stats := Stats) (S := S) (C := C) dw not_found).
    unfold request_id_layer, not_found. by intros [= <- <-].
Qed.

(** What every route of an area ensures, the request ensures. *)
Lemma request_ensures (A : string → Prop) (Q : Req → Process → Z → Process → Prop)
    request query p r p' :
  every_route (λ t h, A t → ∀ q, ensures (Q q) h q) api_router →
  (∀ t, area t = area (rq_path request) → A t) →
  (∀ t ps, Q (MkIncoming request query t ps None None) = Q (MkIncoming request query None [] None None)) →
  Q (MkIncoming request query None [] None None) p 404%Z p →
  serve_request request query p = (r, p') →
  Q (MkIncoming request query None [] None None) p (rs_status r) p'.
Proof.
  intros He HA HQ H404 Hr.
  apply request_inv in Hr as [(t & ps & h & Hin & _ & _ & Ha & Hr)|(_ & Hs & ->)]; [|by rewrite Hs].
  unfold every_route in He. rewrite Forall_forall in He. specialize (He _ Hin (HA _ Ha) _ _ _ _ Hr).
  by rewrite HQ in He.
Qed.



(** ** Identifiers and counts *)

(** Behind the collector nothing touches it. *)
Definition same_metrics (p p' : Process) : Prop := ps_metrics p' = ps_metrics p.

#[local] Instance same_metrics_preorder : PreOrder same_metrics.
Proof. split; [done|]. intros p1 p2 p3 ? ?. unfold same_metrics in *. congruence. Qed.

Lemma metrics_on_db {E A} fail (m : M World E A) : within same_metrics (on_db fail m).
Proof. intros p r p'. unfold on_db. destruct (in_world _ _). by intros [= _ <-]. Qed.
Lemma metrics_on_host {A} (m : M (Host S) ApiError A) : within same_metrics (on_host m).
Proof. intros p r p'. unfold on_host. destruct (m _). by intros [= _ <-]. Qed.

Ltac metrics_leaf :=
  lazymatch goal with
  | |- within _ (_ ≫= _) => apply (within_bind same_metrics); [metrics_leaf|intros ?; metrics_leaf]
  | |- within _ (on_db _ _) => apply metrics_on_db
  | |- within _ (on_host _) => apply metrics_on_host
  | |- within _ (gets _) => apply (within_gets same_metrics)
  | |- within _ (ret _) => apply (within_ret same_metrics)
  | |- within _ _ => apply (within_lift same_metrics)
  end.
Ltac metrics_route :=
  intros q; apply ensures_method; [|apply (within_not_allowed same_metrics)];
  cbn [mr_handlers method_router get post on_method app];
  every_method ltac:(eapply within_into; [|intros; reflexivity];
    unfold request_id, bearer, path_id, body, body_opt, params, manager_state, authenticated, extract,
      api, ok, created_with; metrics_leaf).

Lemma signature_metrics next q :
  (∀ q, ensures (λ p _ p', same_metrics p p') next q) →
  ensures (λ p _ p', same_metrics p p') (signature_layer dw next) q.
Proof.
  intros Hnext p r p'. unfold signature_layer, into_response, mbind, M_bind, on_server, run_next.
  destruct (verify_machine_signature _ _ _) as [x sv]. destruct x as [[machine bd]|e]; cbn [map_err].
  - destruct (next _ _) as [r1 p1] eqn:Hr. apply Hnext in Hr. by intros [= _ <-].
  - by intros [= _ <-].
Qed.

(** Every route is some service that keeps the collector, inside the two outer layers. *)
Definition layered (h : Handler) : Prop := ∃ inner,
  h = request_id_layer dw (metrics_layer dw inner) ∧
  ∀ q, ensures (λ p _ p', same_metrics p p') inner q.

Lemma every_route_layered : every_route (λ _ h, layered h) api_router.
Proof.
  apply (every_layer _ (λ _ h, ∃ inner, h = metrics_layer dw inner ∧
    ∀ q, ensures (λ p _ p', same_metrics p p') inner q)).
  { intros t h (inner & -> & Hi). by exists inner. }
  apply (every_route_layer _ (λ _ h, ∀ q, ensures (λ p _ p', same_metrics p p') h q)).
  { intros t h Hh. by exists h. }
  repeat lazymatch goal with
  | |- every_route _ (merge _ _) => apply every_merge
  | |- every_route _ (route _ _ _) => apply every_add
  | |- every_route _ Router_new => apply every_new
  | |- every_route _ _ =>
      apply (every_route_layer _ (λ _ h, ∀ q, ensures (λ p _ p', same_metrics p p') h q));
        [by intros t h Hh q; apply signature_metrics|]
  | |- ∀ q, _ => metrics_route
  end.
Qed.

Lemma header_get_insert name value headers :
  header_get name (header_insert name value headers) = Some value.
Proof.
  unfold header_get, header_insert. induction headers as [|[n v] headers IH]; simpl.
  - by rewrite bool_decide_true.
  - case_bool_decide as Hn; simpl; [done|]. by rewrite bool_decide_false.
Qed.

(** Every request is identified and counted.  Every answer, to whatever path and method,
    refusals and errors included, carries the identifier the server generated under
    [x-request-id] and no other; the collector gains exactly one observation when the path
    is a route, under the method and the template and with the status of the answer, and is
    untouched otherwise. *)
Theorem requests_identified_and_counted request query p r p' :
  header_value_ok (dw_request_id dw) = true → serve_request request query p = (r, p') →
  header_get REQUEST_ID_HEADER (rs_headers r) = Some (dw_request_id dw) ∧
  length (List.filter (λ h, bool_decide (h.1 = REQUEST_ID_HEADER)) (rs_headers r)) = 1%nat ∧
  ps_metrics p' =
    match find_route (templates api_router) (rq_path request) with
    | Some (t, _) =>
        record (ps_metrics p) (rq_method request +:+ " " +:+ t) (rs_status r) (dw_latency dw)
    | None => ps_metrics p
    end.
Proof.
  intros Hid Hr.
  assert (∀ headers, length (List.filter (λ h, bool_decide (h.1 = REQUEST_ID_HEADER))
    (header_insert REQUEST_ID_HEADER (dw_request_id dw) headers)) = 1%nat) as Hone.
  { intros headers. unfold header_insert. rewrite List.filter_app, length_app.
    induction headers as [|[n v] headers IH]; [done|]. simpl in *.
    case_bool_decide as Hn; simpl; [done|]. by rewrite bool_decide_false. }
  apply call_router_inv in Hr as [(t & ps & h & Hf & Hin & _ & Hr)|[Hn Hr]].
  - pose proof every_route_layered as Hl. unfold every_route in Hl. rewrite Forall_forall in Hl.
    destruct (Hl _ Hin) as (inner & Heq & Hi). simpl in Heq. subst h. revert Hr. fold api_router in Hf. simpl in Hf. rewrite Hf.
    unfold request_id_layer, metrics_layer. destruct (inner _ p) as [r1 p1] eqn:Hr1.
    apply Hi in Hr1. intros [= <- <-]. simpl. rewrite Hid. split_and!;
      [apply header_get_insert|apply Hone|]. by rewrite Hr1.
  - fold api_router in Hn. simpl in Hn. rewrite Hn. revert Hr.
    change (ro_fallback _) with (request_id_layer (View := View) (Stats := Stats) (S := S) (C := C) dw not_found).
    unfold request_id_layer, not_found. intros [= <- <-]. simpl. rewrite Hid. done.
Qed.

(** ** The table is unambiguous *)

(** Names that a literal sibling takes from a parameter. *)
Definition reserved (t : string) : list string :=
  if bool_decide (t = v1 "/admin/ca/{id}") then ["generate"; "import"; "rotate"; "stats"; "bundle"]
  else if bool_decide (t = v1 "/admin/machines/{id}") then ["enrollment-tokens"]
  else [].

(** Of two templates that match one path, the one chosen is the same one, or the literal
    sibling of a parameter. *)
Definition sibling (t t' : string) : bool :=
  bool_decide (t = t') ||
  existsb (λ v, bool_decide (match_template t t' = Some [v]) &&
                bool_decide (param_count t' = 0%nat)) (reserved t).

Lemma table_unambiguous t t' :
  t ∈ templates api_router → t' ∈ templates api_router →
  overlap (split_on slash t) (split_on slash t') = true →
  preferred (split_on slash t') (split_on slash t) = true → sibling t t' = true.
Proof.
  assert (forallb (λ t, forallb (λ t', implb (overlap (split_on slash t) (split_on slash t') &&
    preferred (split_on slash t') (split_on slash t)) (sibling t t')) (templates api_router))
    (templates api_router) = true) as Hall by (vm_compute; reflexivity).
  intros Ht%list_elem_of_In Ht'%list_elem_of_In Ho Hp.
  rewrite forallb_forall in Hall. specialize (Hall _ Ht). rewrite forallb_forall in Hall.
  specialize (Hall _ Ht'). by rewrite Ho, Hp in Hall.
Qed.

(** A template without parameters matches itself only. *)
Lemma match_literal template path ps :
  List.filter is_param template = [] → match_segments template path = Some ps → path = template.
Proof.
  revert path ps. induction template as [|t template IH]; intros [|p path] ps Hf Hm; try done.
  simpl in Hf. apply match_cons in Hm as [(Hp & _)|(Hp & <- & Hm)]; rewrite Hp in Hf; [done|].
  f_equal. by eapply IH.
Qed.

Lemma fill_no_slash template values :
  forallb (λ s, negb (str_mem slash s)) template = true →
  forallb (λ s, negb (str_mem slash s)) values = true →
  forallb (λ s, negb (str_mem slash s)) (fill_segments template values) = true.
Proof.
  revert values. induction template as [|t template IH]; intros values Ht Hv; [done|].
  simpl in *. bool_prop. destruct (is_param t); [destruct values as [|v values]|]; simpl in *;
    bool_prop; rewrite ?IH by done; rewrite ?andb_true_r; by apply negb_true_iff.
Qed.

Lemma fill_nonempty template values : template ≠ [] → fill_segments template values ≠ [].
Proof. destruct template; [done|]. simpl. by repeat case_match. Qed.

Lemma url_segments t values :
  t ∈ templates api_router → forallb (λ s, negb (str_mem slash s)) values = true →
  split_on slash (url_for t values) = fill_segments (split_on slash t) values.
Proof.
  intros Ht Hv. apply split_join; [apply fill_nonempty, split_on_nonempty|].
  apply fill_no_slash; [|done].
  assert (forallb (λ t, forallb (λ s, negb (str_mem slash s)) (split_on slash t))
    (templates api_router) = true) as Hall by (vm_compute; reflexivity).
  apply list_elem_of_In in Ht. by rewrite forallb_forall in Hall; apply Hall.
Qed.

(** C24: routing is a round trip.  The path built from a template of the table and values for
    its parameters is sent back to that template with those values, whatever the matcher
    does beyond its documentation, unless a value is the name of a literal sibling, as a CA
    called [stats] would be. *)
Theorem routing_roundtrip t values :
  t ∈ templates api_router → length values = param_count t →
  Forall (λ v, v ≠ "" ∧ str_mem slash v = false ∧ v ∉ reserved t) values →
  find_route (templates api_router) (url_for t values) = Some (t, values).
Proof.
  intros Ht Hlen Hv.
  assert (forallb (λ s, negb (str_mem slash s)) values = true) as Hslash.
  { apply forallb_forall. intros v Hin%list_elem_of_In. rewrite Forall_forall in Hv.
    destruct (Hv _ Hin) as (_ & -> & _). done. }
  assert (match_template t (url_for t values) = Some values) as Hm.
  { unfold match_template. rewrite url_segments by done. apply match_fill; [done|].
    eapply Forall_impl; [exact Hv|]. by intros v [? _]. }
  destruct (find_complete _ _ _ _ Ht Hm) as [[t' ps'] Hf].
  destruct (find_sound _ _ _ _ Hf) as [Ht' Hm'].
  pose proof (find_preferred _ _ _ _ _ _ Hf Ht Hm) as Hp.
  pose proof (table_unambiguous t t' Ht Ht' (match_overlap _ _ _ _ _ Hm Hm') Hp) as Hs.
  unfold sibling in Hs. apply orb_true_iff in Hs as [Heq%bool_decide_eq_true|Hs].
  { subst t'. rewrite Hf. congruence. }
  exfalso. apply existsb_exists in Hs as (v & Hin & Hs). bool_prop.
  apply match_literal in Hm'; [|by apply length_zero_iff_nil].
  unfold match_template in *. rewrite Hm' in Hm. simplify_eq.
  apply Forall_cons in Hv as [(_ & _ & Hn) _]. by apply Hn, list_elem_of_In.
Qed.
End service.

(** ** Witnesses *)
#[local] Existing Instances toy_sha256 toy_hex toy_chrono toy_serde_json toy_ssh_key toy_base64
  toy_ed25519 toy_ssh_cert toy_debug toy_lowercase toy_matcher.
#[local] Existing Instances toy_sha256_laws toy_chrono_laws toy_serde_json_laws toy_matcher_laws.

(** Bodies and queries as constants: an enrollment, a heartbeat, a deletion without force. *)
#[local] Instance toy_extractors : Extractors := {|
  json k _ := match k with
              | KEnroll => Ok demo_request
              | KHeartbeat => Ok demo_heartbeat
              | _ => Err (MkRejection 422 "unexpected body")
              end;
  json_opt k _ := Ok None;
  query_string k _ := match k with
                      | KProvider => Ok None
                      | KDeleteCa => Ok false
                      | KAudit => Ok no_params
                      | _ => Err (MkRejection 400 "unexpected query")
                      end;
  path_param ps := match ps with
                   | [i] => Ok i
                   | _ => Err (MkRejection 500 "wrong number of parameters")
                   end;
|}.
#[local] Instance toy_extractors_laws : ExtractorsLaws.
Proof.
  split; simpl.
  - intros [] q rj; by intros [= <-].
  - by intros k q rj [=].
  - intros [] s rj; by intros [= <-].
  - intros [|i [|j ps]] rj; by intros [= <-].
Qed.

Definition demo_shared : Shared (S := list CaRecord) :=
  MkShared demo_providers (st_access demo_state)
    (Some (MkManager toy_manager (λ _, Ok "ssh-ed25519 CA") (λ _ now _, demo_signing now)))
    (Some (bs_signer demo_bundle_service)) 3600 (MkPollConfig 300 10) (seconds 1).
Definition demo_draws : Draws :=
  MkDraws "0197-req" (seconds 1000) (seconds 20) (seconds 20) (seconds 20) (seconds 20) (seconds 20)
    (seconds 20) (seconds 21) demo_random "u7" (λ n, 0%Z) 5.
Definition demo_process (w : World) : Process (C := InMemoryNonceCache) :=
  MkProcess (ca_demo_host w) InMemoryNonceCache_new ApiMetrics_new.

Definition demo_serve (request : Request) (w : World) :=
  serve_request (Stats := unit) demo_stamp toy_view (λ _ _ _, tt) demo_version no_detail demo_shared
    demo_draws request "" (demo_process w).

Definition revoke_request (headers : list (string * string)) : Request :=
  MkRequest headers "POST" "/api/v1/admin/machines/srv_1/revoke" (Some "").

Lemma demo_manager_ok : manager_ok demo_shared.
Proof.
  intros m Hm. injection Hm as <-. split; [exact toy_manager_laws|].
  intros s now rng. apply demo_signing_laws.
Qed.



Definition lost_request : Request :=
  MkRequest [("x-request-id", "mine")] "GET" "/api/v1/nothing" None.

Lemma requests_identified_and_counted_witness :
  let out := demo_serve lost_request machine_world in
  header_get REQUEST_ID_HEADER (rs_headers out.1) = Some "0197-req" ∧ rs_status out.1 = 404%Z ∧
  ps_metrics out.2 = ApiMetrics_new.
Proof.
  destruct (requests_identified_and_counted demo_stamp toy_view (λ _ _ _, tt) demo_version no_detail
    demo_shared demo_draws lost_request "" (demo_process machine_world) _ _ eq_refl
    (surjective_pairing _)) as (Hid & _ & Hm).
  split; [exact Hid|]. split; [vm_compute; reflexivity|]. exact Hm.
Defined.

Lemma routing_roundtrip_witness :
  find_route (templates (api_router (S := list CaRecord) (C := InMemoryNonceCache) (Stats := unit)
    demo_stamp toy_view (λ _ _ _, tt) demo_version no_detail demo_shared demo_draws))
    "/api/v1/admin/machines/srv_1/revoke" = Some (v1 "/admin/machines/{id}/revoke", ["srv_1"]).
Proof.
  apply (routing_roundtrip demo_stamp toy_view (λ _ _ _, tt) demo_version no_detail demo_shared
    demo_draws (v1 "/admin/machines/{id}/revoke") ["srv_1"]).
  - apply (bool_decide_unpack _). vm_compute. exact I.
  - reflexivity.
  - repeat constructor; try done. by intros []%elem_of_nil.
Defined.

(** A CA named after a literal sibling cannot be reached: [GET /api/v1/admin/ca/stats] is the
    statistics. *)
Example reserved_name_shadowed :
  match find_route (templates (api_router (S := list CaRecord) (C := InMemoryNonceCache)
    (Stats := unit) demo_stamp toy_view (λ _ _ _, tt) demo_version no_detail demo_shared demo_draws))
    "/api/v1/admin/ca/stats" with Some (t, _) => t | None => "" end = v1 "/admin/ca/stats".
Proof. vm_compute. reflexivity. Qed.

(** The layers of the agent routes run before the method is looked at: a signed request with a
    method the path does not have spends its nonce and gets [405], an unsigned one [401]. *)
Example wrong_method_spends_nonce :
  let request sign := if (sign : bool) then
      agent_request demo_seed "srv_1" 1000 "n1" "DELETE" "/api/v1/agent/heartbeat" "{}"
    else MkRequest [] "DELETE" "/api/v1/agent/heartbeat" (Some "{}") in
  let out sign := demo_serve (request sign) (sv_world agent_server) in
  rs_status (out true).1 = 405%Z ∧ size (ps_nonces (out true).2) = 1%nat ∧
  rs_status (out false).1 = 401%Z.
Proof. vm_compute. split_and!; reflexivity. Qed.
