(* ===== verification/Interleave.v ===== *)
(** * Handlers that run at once

    An [async fn] gives up control at every [await].  A program is the handler cut at these
    points into atomic actions: one SQL statement, one transaction, one operation under a
    lock.  A pool of programs runs by a schedule that says whose action comes next; one that
    is never scheduled again is a request whose client went away.  The trace of a run names
    the actions in order, which is what properties of two handlers in one run speak of. *)
From S2P Require Import Prelude External Errors Database.

(** ** Programs *)
Inductive prog (S R : Type) : Type :=
| Return (r : R)
| Step {X : Type} (action : S → X * S) (next : X → prog S R).
Arguments Return {S R} r.
Arguments Step {S R X} action next.

(** A handler that may fail. *)
Definition P (S E A : Type) : Type := prog S (result A E).

Fixpoint prog_then {S E A B} (p : P S E A) (f : A → P S E B) : P S E B :=
  match p with
  | Return (Ok a) => f a
  | Return (Err e) => Return (Err e)
  | Step action next => Step action (λ x, prog_then (next x) f)
  end.
Global Instance P_bind S E : MBind (P S E) := λ A B f p, prog_then p f.

(** An atomic action; a computation that touches nothing shared. *)
Definition atom {S E A} (m : M S E A) : P S E A := Step m Return.
Definition pure {S E A} (r : result A E) : P S E A := Return r.
Definition ensure_p {S E} (b : bool) (e : E) : P S E unit :=
  pure (if b then Ok tt else Err e).

Fixpoint map_err_p {S E F A} (f : E → F) (p : P S E A) : P S F A :=
  match p with
  | Return r => Return (map_err f r)
  | Step action next => Step action (λ x, map_err_p f (next x))
  end.

(** Its success, whatever the answer. *)
Definition answered {S E A} (p : P S E A) : P S E unit := _ ← p; pure (Ok tt).

(** A program over a part of the state. *)
Fixpoint zoom {S T R} (get : T → S) (put : S → T → T) (p : prog S R) : prog T R :=
  match p with
  | Return r => Return r
  | Step action next =>
      Step (λ t, let '(x, s) := action (get t) in (x, put s t)) (λ x, zoom get put (next x))
  end.

(** All of it without interruption. *)
Fixpoint run {S R} (p : prog S R) (s : S) : R * S :=
  match p with
  | Return r => (r, s)
  | Step action next => let '(x, s) := action s in run (next x) s
  end.

(** ** Pools and schedules *)

(** Who acted, and the state before and after. *)
Record Event (S : Type) : Type := MkEvent { ev_who : nat; ev_before : S; ev_after : S }.
Arguments MkEvent {S} _ _ _.
Arguments ev_who {S} _.
Arguments ev_before {S} _.
Arguments ev_after {S} _.

(** The program that acts next, if it has anything left to do. *)
Definition act {S R} (i : nat) (pool : list (prog S R)) (s : S)
  : option (list (prog S R) * S) :=
  match pool !! i with
  | Some (Step action next) => let '(x, s) := action s in Some (<[i := next x]> pool, s)
  | _ => None
  end.

Fixpoint interleave {S R} (schedule : list nat) (pool : list (prog S R)) (s : S)
  : list (Event S) * list (prog S R) * S :=
  match schedule with
  | [] => ([], pool, s)
  | i :: schedule =>
      match act i pool s with
      | Some (pool', s') =>
          let '(events, pool'', s'') := interleave schedule pool' s' in
          (MkEvent i s s' :: events, pool'', s'')
      | None => interleave schedule pool s
      end
  end.

(** ** Lemmas *)
Section programs.
Context {S : Type}.

Lemma run_then {E A B} (p : P S E A) (f : A → P S E B) s :
  run (p ≫= f) s = ((run p : M S E A) ≫= λ a, run (f a)) s.
Proof.
  revert s. induction p as [[a|e]|X action next IH]; intros s; simpl; try done.
  unfold mbind, P_bind, M_bind in *. simpl. destruct (action s) as [x s']. apply IH.
Qed.

Lemma run_atom {E A} (m : M S E A) s : run (atom m) s = m s.
Proof. simpl. by destruct (m s). Qed.

Lemma run_map_err {E F A} (f : E → F) (p : P S E A) s :
  run (map_err_p f p) s = with_err f (run p) s.
Proof.
  revert s. induction p as [r|X action next IH]; intros s; unfold with_err; simpl.
  - by destruct r.
  - destruct (action s) as [x s']. rewrite IH. done.
Qed.

(** What every action of a program does to the state. *)
Fixpoint actions {R} (G : S → S → Prop) (p : prog S R) : Prop :=
  match p with
  | Return _ => True
  | Step action next => (∀ s, G s (action s).2) ∧ ∀ x, actions G (next x)
  end.

Lemma actions_atom {E A} (G : S → S → Prop) (m : M S E A) :
  (∀ s r s', m s = (r, s') → G s s') → actions G (atom m).
Proof. intros Hm. split; [|done]. intros s. by apply (Hm s (m s).1), surjective_pairing. Qed.
Lemma actions_then {E A B} (G : S → S → Prop) (p : P S E A) (f : A → P S E B) :
  actions G p → (∀ a, actions G (f a)) → actions G (p ≫= f).
Proof.
  intros Hp Hf. induction p as [[a|e]|X action next IH]; [apply Hf|done|].
  destruct Hp as [Ha Hn]. split; [exact Ha|]. intros x. by apply IH.
Qed.
Lemma actions_map_err {E F A} (G : S → S → Prop) (f : E → F) (p : P S E A) :
  actions G p → actions G (map_err_p f p).
Proof. induction p as [r|X action next IH]; [done|]. intros [Ha Hn]. split; [done|]. auto. Qed.

Lemma actions_mono {R} (G G' : S → S → Prop) (p : prog S R) :
  (∀ s s', G s s' → G' s s') → actions G p → actions G' p.
Proof.
  intros HG. induction p as [r|X action next IH]; [done|]. intros [Ha Hn]. split; [auto|].
  intros x. by apply IH.
Qed.

(** A program that is scheduled until it is done has run without interruption. *)
Lemma interleave_run {R} (pool : list (prog S R)) i p s :
  pool !! i = Some p →
  ∃ n events, interleave (replicate n i) pool s =
    (events, <[i := Return (run p s).1]> pool, (run p s).2).
Proof.
  revert pool s. induction p as [r|X action next IH]; intros pool s Hi.
  - exists 0, []. simpl. by rewrite list_insert_id.
  - simpl. destruct (action s) as [x s1] eqn:Ha.
    destruct (IH x (<[i := next x]> pool) s1) as (n & events & Hn).
    { apply list_lookup_insert_eq. by eapply lookup_lt_Some. }
    exists (Datatypes.S n), (MkEvent i s s1 :: events). simpl. unfold act. rewrite Hi, Ha, Hn.
    by rewrite list_insert_insert_eq.
Qed.

(** A run consists of actions of the programs in the pool. *)
Lemma interleave_events {R} (G : S → S → Prop) schedule (pool : list (prog S R)) s :
  Forall (actions G) pool →
  let '(events, pool', s') := interleave schedule pool s in
  Forall (λ e, G (ev_before e) (ev_after e)) events ∧ Forall (actions G) pool'.
Proof.
  revert pool s. induction schedule as [|i schedule IH]; intros pool s Hp; [done|]. simpl.
  unfold act. destruct (pool !! i) as [[r|X action next]|] eqn:Hi; try by apply IH.
  destruct (action s) as [x s1] eqn:Ha.
  pose proof (Forall_lookup_1 _ _ _ _ Hp Hi) as [Hg Hn].
  assert (Forall (actions G) (<[i := next x]> pool)) as Hp1 by by apply Forall_insert.
  specialize (IH _ s1 Hp1). destruct (interleave _ _ _) as [[events pool'] s'].
  destruct IH as [He Hp']. split; [|done]. constructor; [|done]. simpl.
  specialize (Hg s). by rewrite Ha in Hg.
Qed.

(** The events of a run follow each other. *)
Fixpoint chained (s : S) (events : list (Event S)) (s' : S) : Prop :=
  match events with
  | [] => s = s'
  | e :: events => ev_before e = s ∧ chained (ev_after e) events s'
  end.

Lemma interleave_chained {R} schedule (pool : list (prog S R)) s :
  let '(events, pool', s') := interleave schedule pool s in
  chained s events s' ∧ length pool' = length pool.
Proof.
  revert pool s. induction schedule as [|i schedule IH]; intros pool s; [done|]. simpl.
  unfold act. destruct (pool !! i) as [[r|X action next]|]; try by apply IH.
  destruct (action s) as [x s1]. specialize (IH (<[i := next x]> pool) s1).
  destruct (interleave _ _ _) as [[events pool'] s']. rewrite length_insert in IH.
  destruct IH. by split.
Qed.

Lemma chained_app s events1 events2 s' :
  chained s (events1 ++ events2) s' ↔ ∃ s1, chained s events1 s1 ∧ chained s1 events2 s'.
Proof.
  revert s. induction events1 as [|e events1 IH]; intros s; simpl.
  - split; [by exists s|]. by intros (s1 & -> & ?).
  - rewrite IH. naive_solver.
Qed.

Lemma chained_reachable (G : S → S → Prop) `{!PreOrder G} s events s' :
  Forall (λ e, G (ev_before e) (ev_after e)) events → chained s events s' → G s s'.
Proof.
  intros He. revert s. induction He as [|e events Hg He IH]; intros s; simpl; [by intros ->|].
  intros [<- Hc]. etrans; [exact Hg|]. by apply IH.
Qed.

(** The actions of one program, in order. *)
Inductive drives {R} : prog S R → list (S * S) → prog S R → Prop :=
| drives_none p : drives p [] p
| drives_step X (action : S → X * S) next s moves p' :
    drives (next (action s).1) moves p' → drives (Step action next) ((s, (action s).2) :: moves) p'.

Definition moves_of (i : nat) (events : list (Event S)) : list (S * S) :=
  (λ e, (ev_before e, ev_after e)) <$> List.filter (λ e, bool_decide (ev_who e = i)) events.

Lemma interleave_drives {R} schedule (pool : list (prog S R)) s i p :
  pool !! i = Some p →
  let '(events, pool', s') := interleave schedule pool s in
  ∃ p', pool' !! i = Some p' ∧ drives p (moves_of i events) p'.
Proof.
  revert pool s p. induction schedule as [|j schedule IH]; intros pool s p Hp;
    [exists p; split; [done|constructor]|]. simpl.
  unfold act. destruct (pool !! j) as [[r|X action next]|] eqn:Hj; try by apply IH.
  destruct (action s) as [x s1] eqn:Ha. destruct (decide (j = i)) as [->|Hne].
  - rewrite Hp in Hj. simplify_eq.
    specialize (IH (<[i := next x]> pool) s1 (next x)).
    destruct (interleave _ _ _) as [[events pool'] s'].
    destruct IH as (p' & Hp' & Hd).
    { apply list_lookup_insert_eq. by eapply lookup_lt_Some. }
    exists p'. split; [done|]. unfold moves_of. simpl. rewrite bool_decide_true by done. csimpl.
    pose proof (drives_step X action next s (moves_of i events) p') as Hds. rewrite Ha in Hds.
    by apply Hds.
  - specialize (IH (<[j := next x]> pool) s1 p).
    destruct (interleave _ _ _) as [[events pool'] s'].
    destruct IH as (p' & Hp' & Hd); [by rewrite list_lookup_insert_ne|].
    exists p'. split; [done|]. unfold moves_of. simpl. by rewrite bool_decide_false.
Qed.

(** A move of a program is an event of the run, between two parts of it. *)
Lemma move_event i events m :
  m ∈ moves_of i events →
  ∃ events1 e events2, events = events1 ++ e :: events2 ∧ ev_who e = i ∧
    m = (ev_before e, ev_after e).
Proof.
  unfold moves_of. intros (e & -> & He)%list_elem_of_fmap.
  apply list_elem_of_In, List.filter_In in He as [He Hi]. apply bool_decide_eq_true in Hi.
  apply list_elem_of_In, list_elem_of_split in He as (e1 & e2 & ->). by exists e1, e, e2.
Qed.

Lemma chained_invariant (G : S → S → Prop) (I : S → Prop) s events s' :
  (∀ a b, I a → G a b → I b) → I s →
  Forall (λ e, G (ev_before e) (ev_after e)) events → chained s events s' →
  Forall (λ e, I (ev_before e)) events ∧ I s'.
Proof.
  intros HI Hs He. revert s Hs. induction He as [|e events Hg He IH]; intros s Hs; simpl;
    [by intros <-|]. intros [<- Hc]. destruct (IH (ev_after e)) as [Hev Hs']; [eauto|done|].
  split; [by constructor|done].
Qed.

(** What comes before and after an action. *)
Lemma move_between (G : S → S → Prop) `{!PreOrder G} s events s' i m :
  Forall (λ e, G (ev_before e) (ev_after e)) events → chained s events s' →
  m ∈ moves_of i events → G s m.1 ∧ G m.1 m.2 ∧ G m.2 s'.
Proof.
  intros He Hc (l1 & e & l2 & -> & _ & ->)%move_event. simpl.
  apply Forall_app in He as [He1 [Hg He2]%Forall_cons].
  apply chained_app in Hc as (s1 & Hc1 & <- & Hc2).
  apply (chained_reachable G) in Hc1, Hc2; done.
Qed.

(** Of the actions of two programs, one came first, and what lies between them is a run. *)
Lemma moves_ordered (G : S → S → Prop) `{!PreOrder G} s events s' i j m1 m2 :
  Forall (λ e, G (ev_before e) (ev_after e)) events → chained s events s' → i ≠ j →
  m1 ∈ moves_of i events → m2 ∈ moves_of j events → G m1.2 m2.1 ∨ G m2.2 m1.1.
Proof.
  intros He Hc Hij (l1 & e1 & l2 & -> & H1 & ->)%move_event Hm2. simpl.
  apply move_event in Hm2 as (l3 & e2 & l4 & Heq & H2 & ->). simpl.
  assert (e2 ∈ l1 ++ e1 :: l2) as Hin by (rewrite Heq, elem_of_app, elem_of_cons; auto). clear Heq.
  apply Forall_app in He as [He1 [_ He2]%Forall_cons].
  apply chained_app in Hc as (s1 & Hc1 & <- & Hc2).
  apply elem_of_app in Hin as [Hin|[->|Hin]%elem_of_cons]; [right|congruence|left];
    apply list_elem_of_split in Hin as (l5 & l6 & ->).
  - apply chained_app in Hc1 as (s2 & _ & <- & Hc1). apply Forall_app in He1 as [_ He1].
    apply Forall_cons in He1 as [_ He1]. by apply (chained_reachable G) in Hc1.
  - apply chained_app in Hc2 as (s2 & Hc2 & <- & _). apply Forall_app in He2 as [He2 _].
    by apply (chained_reachable G) in Hc2.
Qed.

Lemma moves_of_Forall (I : S → S → Prop) i events :
  Forall (λ e, I (ev_before e) (ev_after e)) events → Forall (λ m, I m.1 m.2) (moves_of i events).
Proof.
  intros He. apply Forall_forall. intros m (l1 & e & l2 & -> & _ & ->)%move_event.
  apply Forall_app in He as [_ [He _]%Forall_cons]. exact He.
Qed.

(** ** What every run of a program comes to

    [Q] is asked of the actions so far, with the result if there is one, at every point
    where the program may have been left; other programs may have put the state into
    anything that satisfies [I] before each action. *)
Fixpoint wp {R} (I : S → Prop) (p : prog S R) (Q : list (S * S) → option R → Prop) : Prop :=
  match p with
  | Return r => Q [] (Some r)
  | Step action next =>
      Q [] None ∧
      ∀ s, I s → wp I (next (action s).1) (λ moves, Q ((s, (action s).2) :: moves))
  end.

Definition outcome {R} (p : prog S R) : option R :=
  match p with Return r => Some r | Step _ _ => None end.

Lemma wp_drives {R} I (p p' : prog S R) Q moves :
  wp I p Q → drives p moves p' → Forall (λ m, I m.1) moves → Q moves (outcome p').
Proof.
  intros Hw Hd. revert Q Hw. induction Hd as [p|X action next s moves p' _ IH]; intros Q Hw Hi.
  - destruct p as [r|X action next]; [exact Hw|]. by destruct Hw.
  - apply Forall_cons in Hi as [Hs Hi]. destruct Hw as [_ Hw]. exact (IH _ (Hw s Hs) Hi).
Qed.

Lemma wp_mono {R} I (p : prog S R) (Q Q' : list (S * S) → option R → Prop) :
  wp I p Q → (∀ moves o, Q moves o → Q' moves o) → wp I p Q'.
Proof.
  revert Q Q'. induction p as [r|X action next IH]; intros Q Q' Hw HQ; [by apply HQ|].
  destruct Hw as [Hn Hw]. split; [by apply HQ|]. intros s Hs. eapply IH; [by apply Hw|]. auto.
Qed.

Lemma wp_then {E A B} I (p : P S E A) (f : A → P S E B) Q :
  wp I p (λ moves o, match o with
    | None => Q moves None
    | Some (Err e) => Q moves (Some (Err e))
    | Some (Ok a) => wp I (f a) (λ moves', Q (moves ++ moves'))
    end) → wp I (p ≫= f) Q.
Proof.
  revert Q. induction p as [[a|e]|X action next IH]; intros Q Hw; [exact Hw|exact Hw|].
  destruct Hw as [Hn Hw]. split; [exact Hn|]. intros s Hs. apply IH, (Hw s Hs).
Qed.

Lemma wp_pure {E A} I (r : result A E) Q : Q [] (Some r) → wp I (pure r : P S E A) Q.
Proof. done. Qed.
Lemma wp_ensure {E} I b (e : E) Q :
  (b = true → Q [] (Some (Ok tt))) → (b = false → Q [] (Some (Err e))) →
  wp I (ensure_p b e : P S E unit) Q.
Proof. destruct b; simpl; auto. Qed.
Lemma wp_atom {E A} I (m : M S E A) Q :
  Q [] None → (∀ s r s', I s → m s = (r, s') → Q [(s, s')] (Some r)) → wp I (atom m) Q.
Proof. intros Hn Hm. split; [done|]. intros s Hs. apply (Hm s _ _ Hs), surjective_pairing. Qed.

Lemma wp_map_err {E F A} I (f : E → F) (p : P S E A) Q :
  wp I p (λ moves o, Q moves (map_err f <$> o)) → wp I (map_err_p f p) Q.
Proof.
  revert Q. induction p as [r|X action next IH]; intros Q Hw; [exact Hw|].
  destruct Hw as [Hn Hw]. split; [exact Hn|]. intros s Hs. apply IH, (Hw s Hs).
Qed.

(** Nothing is known of a program but what each of its actions does. *)
Lemma wp_actions {R} I G (p : prog S R) :
  actions G p → wp I p (λ moves _, Forall (λ m, G m.1 m.2) moves).
Proof.
  induction p as [r|X action next IH]; intros Ha; [by constructor|].
  destruct Ha as [Hg Ha]. split; [constructor|]. intros s _.
  eapply wp_mono; [apply IH, Ha|]. intros moves o Hm. by constructor.
Qed.

(** Whatever [p] does first. *)
Lemma wp_skip {E A B} I (p : P S E A) (f : A → P S E B) Q :
  (∀ moves, Q moves None) → (∀ moves e, Q moves (Some (Err e))) →
  (∀ moves a, wp I (f a) (λ moves', Q (moves ++ moves'))) → wp I (p ≫= f) Q.
Proof.
  intros Hn He Hf. apply wp_then. eapply wp_mono.
  - apply (wp_actions I (λ _ _, True)). clear. induction p; simpl; auto.
  - intros moves [[a|e]|] _; auto.
Qed.

(** ** Programs that are handlers *)
Definition realises {E A} (p : P S E A) (m : M S E A) : Prop := ∀ s, run p s = m s.

Lemma realises_then {E A B} (p : P S E A) (f : A → P S E B) m g :
  realises p m → (∀ a, realises (f a) (g a)) → realises (p ≫= f) (m ≫= g).
Proof.
  intros Hp Hf s. rewrite run_then. unfold mbind, M_bind. rewrite Hp.
  destruct (m s) as [[a|e] s']; [apply Hf|done].
Qed.
Lemma realises_atom {E A} (m : M S E A) : realises (atom m) m.
Proof. intros s. apply run_atom. Qed.
Lemma realises_pure {E A} (r : result A E) : realises (pure r) (lift r).
Proof. done. Qed.
Lemma realises_ret {E A} (a : A) : realises (E := E) (pure (Ok a)) (ret a).
Proof. done. Qed.
Lemma realises_throw {E A} (e : E) : realises (A := A) (pure (Err e)) (throw e).
Proof. done. Qed.
Lemma realises_ensure {E} b (e : E) : realises (ensure_p b e) (ensure b e).
Proof. by destruct b. Qed.
Lemma realises_map_err {E F A} (f : E → F) (p : P S E A) m :
  realises p m → realises (map_err_p f p) (with_err f m).
Proof. intros Hp s. rewrite run_map_err. unfold with_err. by rewrite Hp. Qed.
End programs.

Create HintDb realises discriminated.
#[export] Hint Constants Opaque : realises.
#[export] Hint Resolve realises_then realises_atom realises_pure realises_ret realises_throw
  realises_ensure realises_map_err : realises.

Section zoom.
Context {S T : Type} (get : T → S) (put : S → T → T).
Hypothesis get_put : ∀ s t, get (put s t) = s.
Hypothesis put_put : ∀ s s' t, put s' (put s t) = put s' t.
Hypothesis put_get : ∀ t, put (get t) t = t.

Lemma run_zoom {R} (p : prog S R) t :
  run (zoom get put p) t = (let '(r, s) := run p (get t) in (r, put s t)).
Proof.
  revert t. induction p as [r|X action next IH]; intros t; simpl; [by rewrite put_get|].
  destruct (action (get t)) as [x s]. rewrite IH, get_put. destruct (run _ s).
  by rewrite put_put.
Qed.

Lemma actions_zoom {R} (G : S → S → Prop) (p : prog S R) :
  actions G p → actions (λ t t', G (get t) (get t')) (zoom get put p).
Proof using get_put.
  clear put_put put_get. induction p as [r|X action next IH]; [done|]. intros [Ha Hn]. split.
  - intros t. specialize (Ha (get t)). destruct (action (get t)) as [x s]. simpl in *.
    by rewrite get_put.
  - intros x. apply IH, Hn.
Qed.

Lemma wp_zoom {R} I (p : prog S R) Q :
  wp I p (λ moves o, ∀ moves', (λ m, (get m.1, get m.2)) <$> moves' = moves → Q moves' o) →
  wp (λ t, I (get t)) (zoom get put p) Q.
Proof using get_put.
  clear put_put put_get. revert Q.
  induction p as [r|X action next IH]; intros Q Hw; [by apply Hw|].
  destruct Hw as [Hn Hw]. split; [by apply Hn|]. intros t Ht. simpl. specialize (Hw _ Ht).
  destruct (action (get t)) as [x s]. simpl in *. apply IH. eapply wp_mono; [exact Hw|].
  intros moves o HQ moves' <-. apply HQ. csimpl. by rewrite get_put.
Qed.
End zoom.

(** ** Programs over the database *)

(** Each action relates the tables before and after it. *)
Definition each {E A} (R : Db → Db → Prop) (p : P World E A) : Prop :=
  actions (λ w w', R (db w) (db w')) p.

Lemma each_atom {E A} (R : Db → Db → Prop) (m : M World E A) : frame R m → each R (atom m).
Proof. intros Hm. by apply actions_atom. Qed.
Lemma each_then {E A B} R (p : P World E A) (f : A → P World E B) :
  each R p → (∀ a, each R (f a)) → each R (p ≫= f).
Proof. apply actions_then. Qed.
Lemma each_map_err {E F A} R (f : E → F) (p : P World E A) : each R p → each R (map_err_p f p).
Proof. apply actions_map_err. Qed.

Ltac steps :=
  cbv zeta;
  lazymatch goal with
  | |- each _ (@mbind _ _ _ _ _ _) => apply each_then; [steps|intros ?; steps]
  | |- each _ (match ?x with _ => _ end) => destruct x; steps
  | |- each _ (answered _) => apply each_then; [steps|intros ?; steps]
  | |- each _ (map_err_p _ _) => apply each_map_err; steps
  | |- each _ (atom _) => apply each_atom; eauto 5 with steps nocore
  | |- each _ (pure _) => exact I
  | |- each _ (ensure_p _ _) => exact I
  | |- _ => eauto 4 with steps nocore
  end.
Create HintDb steps discriminated.
#[export] Hint Constants Opaque : steps.
#[export] Hint Extern 1 (forallb _ _ = true) => reflexivity : steps.
#[export] Hint Extern 1 (frame _ (if _ then _ else _)) => case_match : steps.
