(* ===== verification/Concurrent.v ===== *)
(** * Requests served at once

    The handlers that change the tables, cut at the points where they wait for the
    database ([enroll_p], [agent_p], [perform_p], ...), each shown to be its handler when
    nothing comes in between.  The pool of tasks runs by an arbitrary schedule; a task may
    be left at any point, as when the client disconnects and the server drops the future.

    What the sequential theorems promise is then asked again: the tables stay well formed,
    a single-use token enrolls one machine, a change that was reported is in the log, and a
    nonce is accepted once.  Where the promise needs more than the code does, an example
    gives the schedule. *)
From S2P Require Import Prelude External Errors Database AuditChain AuditRepo Machines Enrollment.
From S2P Require Import Registry AgentAuth MachineAdmin CaBundle Bundle BundleService.
From S2P Require Import ClientContext Authz Providers Certificates AdminRoutes.
From S2P Require Import CaRoutes Toy System Interleave.

(** ** The handlers as programs *)
Section handlers.
Context `{Sha256, HexEncode, Chrono, SerdeJson, SshCert, Base64, Ed25519, DebugStrings}.
Context `{ToLowercase, NonceCache C}.

(** [EnrollmentService::enroll]. *)
Definition enroll_p (sv : EnrollmentService) (uuid : string) (now audit_now : Z)
    (request : EnrollRequest) : P World EnrollmentError EnrollResponse :=
  _ ← ensure_p (is_well_formed (eq_enrollment_token request)) TokenInvalid;
  _ ← ensure_p (is_valid_hostname (eq_hostname request)) (InvalidRequest "invalid hostname");
  pk ← pure (map_err (λ _, PublicKeyInvalid)
               (validate_ed25519_public_key (eq_public_key request)));
  let token_hash := hash_token (eq_enrollment_token request) in
  machine ← atom (transaction EnrollmentError_of_sqlx
                    (enroll_body request pk token_hash uuid now));
  _ ← atom (with_err EnrollmentError_from_audit
              (append_audit_event audit_now (enrolled_event machine pk)));
  pure (Ok {| es_machine_id := machine_id machine;
              es_heartbeat_interval := sv_heartbeat_interval sv;
              es_sync_interval := sv_sync_interval sv;
              es_server_identity := sv_server_identity sv;
              es_bundle_signing_key := sv_bundle_signing_key sv |}).

(** [MachineAdminService]. *)
Definition set_status_p (i : string) (s : MachineStatus) (now : Z)
  : P World MachineAdminError Machine :=
  _ ← atom (with_err AdminDatabase db_call);
  updated ← atom (with_err AdminDatabase (update_status i s now));
  _ ← ensure_p updated (AdminNotFound i);
  found ← atom (with_err AdminDatabase (find_by_id i));
  pure (ok_or (AdminNotFound i) found).

Definition admin_delete_p (i : string) : P World MachineAdminError Machine :=
  _ ← atom (with_err AdminDatabase db_call);
  found ← atom (with_err AdminDatabase (find_by_id i));
  existing ← pure (ok_or (AdminNotFound i) found);
  deleted ← atom (with_err AdminDatabase (machine_delete i));
  _ ← ensure_p deleted (AdminNotFound i);
  pure (Ok existing).

Definition create_enrollment_token_p (random uuid : string) (now : Z) (created_by : string)
    (ttl : Z) (single_use : bool) : P World EnrollmentError IssuedEnrollmentToken :=
  let plaintext := generate_token random in
  let token_hash := hash_token plaintext in
  let new := {| nt_id := uuid;
                nt_token_hash := token_hash;
                nt_created_at := now;
                nt_expires_at := (now + ttl)%Z;
                nt_created_by := created_by;
                nt_single_use := single_use |} in
  _ ← atom (with_err EnrollmentError_of_sqlx db_call);
  record ← atom (with_err EnrollmentError_of_sqlx (token_create new));
  pure (Ok {| it_plaintext := plaintext; it_record := record |}).

(** [routes/machines.rs] and [routes/admin.rs]. *)
Definition authorize_admin_p (st : AppState) (c : Call) (action : string)
  : P World ApiError Identity :=
  token ← pure (BearerToken_from_request (cl_headers c));
  identity ← pure (resolve_identity (st_providers st) (st_access st) None token);
  match authorize (st_access st) identity with
  | Deny reason =>
      _ ← atom (with_err ApiError_of_audit (append_audit_event (cl_audit_now c)
                  (admin_denied_event identity action reason)));
      pure (Err (ApiError_of_authz (Denied reason)))
  | Allow => pure (Ok identity)
  end.

Definition ca_authorize_admin_p (st : AppState) (c : Call) (action : string)
  : P World ApiError Identity :=
  token ← pure (BearerToken_from_request (cl_headers c));
  identity ← pure (resolve_identity (st_providers st) (st_access st) None token);
  match authorize (st_access st) identity with
  | Deny reason =>
      _ ← atom (with_err ApiError_of_audit (append_audit_event (cl_audit_now c)
                  (ca_denied_event identity c action reason)));
      pure (Err (ApiError_of_authz (Denied reason)))
  | Allow => pure (Ok identity)
  end.

Definition audit_machine_p (identity : Identity) (c : Call) (action : string)
    (machine : Machine) (extra : list (string * Value)) : P World ApiError unit :=
  _ ← atom (with_err ApiError_of_audit (append_audit_event (cl_audit_now c)
              (machine_event identity c action machine extra)));
  pure (Ok tt).

Definition set_lifecycle_p (st : AppState) (c : Call) (i : string) (target : MachineStatus)
    (action : string) : P World ApiError MachineView :=
  identity ← authorize_admin_p st c action;
  machine ← map_err_p ApiError_of_admin (set_status_p i target (cl_now c));
  _ ← audit_machine_p identity c action machine [];
  pure (Ok (from_machine machine (cl_now c) (latest_generation st))).

Definition delete_machine_p (st : AppState) (c : Call) (i : string)
  : P World ApiError DeleteMachineResponse :=
  identity ← authorize_admin_p st c "machine.delete";
  machine ← map_err_p ApiError_of_admin (admin_delete_p i);
  _ ← audit_machine_p identity c "machine.deleted" machine [];
  pure (Ok (MkDeleteMachineResponse true (machine_id machine) (hostname machine))).

Definition reissue_identity_p (st : AppState) (c : Call) (random uuid i action : string)
  : P World ApiError MintEnrollmentTokenResponse :=
  identity ← authorize_admin_p st c action;
  ca ← pure (require_ca_facts st);
  _ ← pure (map_err internal_ca (cf_primary_public_key ca));
  old ← map_err_p ApiError_of_admin (admin_delete_p i);
  issued ← map_err_p internal_enrollment (create_enrollment_token_p random uuid
             (cl_token_now c) (id_username identity) (seconds REENROLL_TOKEN_TTL_SECONDS) true);
  _ ← audit_machine_p identity c action old
        [("enrollment_token_id", VString (et_id (it_record issued)));
         ("token_expires_at", VString (to_rfc3339 (et_expires_at (it_record issued))))];
  pure (Ok (mint_response issued)).

Definition mint_enrollment_token_p (st : AppState) (c : Call) (random uuid : string)
    (request : option MintEnrollmentTokenRequest) : P World ApiError MintEnrollmentTokenResponse :=
  identity ← ca_authorize_admin_p st c "machine.enrollment_token.mint";
  ca ← pure (require_ca_facts st);
  _ ← pure (map_err internal_ca (cf_primary_public_key ca));
  let request := default MintEnrollmentTokenRequest_default request in
  let ttl_seconds := clamp_enrollment_token_ttl (mr_ttl_seconds request) in
  issued ← map_err_p internal_enrollment (create_enrollment_token_p random uuid
             (cl_token_now c) (id_username identity) (seconds ttl_seconds)
             (mr_mint_single_use request));
  _ ← atom (with_err ApiError_of_audit (append_audit_event (cl_audit_now c)
              (minted_event identity c issued ttl_seconds)));
  pure (Ok (mint_response issued)).

Definition perform_p (st : AppState) (c : Call) (a : AdminAction) : P World ApiError unit :=
  match a with
  | Approve i => answered (set_lifecycle_p st c i Active "machine.approved")
  | Disable i => answered (set_lifecycle_p st c i Disabled "machine.disabled")
  | Enable i => answered (set_lifecycle_p st c i Active "machine.enabled")
  | Revoke i => answered (set_lifecycle_p st c i Revoked "machine.revoked")
  | DeleteMachine i => answered (delete_machine_p st c i)
  | Reenroll random uuid i =>
      answered (reissue_identity_p st c random uuid i "machine.reenroll_requested")
  | RotateIdentity random uuid i =>
      answered (reissue_identity_p st c random uuid i "machine.identity_rotation_requested")
  | MintToken random uuid request => answered (mint_enrollment_token_p st c random uuid request)
  end.

(** [routes/agent.rs], [routes/ca_bundle.rs]. *)
Definition heartbeat_p (authenticated : Machine) (now : Z) (request : HeartbeatRequest)
  : P World ApiError HeartbeatResponse :=
  map_err_p ApiError_of_registry (
    ip ← pure (validate_heartbeat request);
    let update := {| hu_machine_id := machine_id authenticated;
                     hu_now := now;
                     hu_agent_version := trim (hb_agent_version request);
                     hu_ip := ip;
                     hu_current_generation := hb_current_generation request |} in
    _ ← atom (with_err RegistryDatabase db_call);
    updated ← atom (with_err RegistryDatabase (update_last_seen update));
    _ ← ensure_p updated UnknownMachine;
    pure (Ok {| hr_status := "ok";
                hr_server_time := to_rfc3339_millis now;
                hr_next_heartbeat_seconds := DEFAULT_HEARTBEAT_INTERVAL |})).

Definition get_ca_bundle_p (s : option BundleService) (now audit_now : Z)
    (authenticated : Machine) (headers : list (string * string)) : P World ApiError BundleResponse :=
  service ← pure (require_bundle s);
  let fingerprint := current_fingerprint service in
  if if_none_match_matches headers fingerprint
  then pure (Ok (NotModified (etag_value fingerprint)))
  else
    bundle ← pure (map_err (λ _, Internal (CauseMessage "bundle error"))
                     (build_signed_bundle service now));
    _ ← atom (with_err ApiError_of_audit (append_audit_event audit_now
          (with_metadata (json_object
              [("machine_id", VString (machine_id authenticated));
               ("generation", VNumber (sb_generation bundle));
               ("fingerprint", VString (sb_fingerprint bundle));
               ("bundle_version", VNumber (sb_bundle_version bundle))])
            (with_subject (machine_id authenticated)
              (NewAuditEntry_new "bundle.downloaded" "agent")))));
    pure (Ok (Served (etag_value fingerprint) bundle)).

Definition ack_ca_bundle_p (s : option BundleService) (now audit_now : Z)
    (authenticated : Machine) (ack : BundleAckRequest) : P World ApiError BundleAckResponse :=
  _ ← pure (require_bundle s);
  let i := machine_id authenticated in
  outcome ← pure (ok_or (BadRequest ("unknown ack status '" +:+ ba_status ack +:+ "'"))
                    (AckOutcome_parse (ba_status ack)));
  _ ← ensure_p (negb (ba_generation ack <? 0)%Z) (BadRequest "generation must not be negative");
  let fingerprint := trim (ba_fingerprint ack) in
  _ ← ensure_p (negb (str_is_empty fingerprint || (MAX_FINGERPRINT_LEN <? str_len fingerprint)%Z))
        (BadRequest "invalid fingerprint");
  known ← atom (if AckOutcome_is_success outcome then
                  with_err ApiError_of_sqlx (record_applied i (ba_generation ack) fingerprint now)
                else with_err ApiError_of_sqlx (machine_exists i));
  _ ← ensure_p known (Unauthorized "request authentication failed");
  _ ← atom (with_err ApiError_of_audit (append_audit_event audit_now (ack_event outcome i ack)));
  pure (Ok (MkBundleAckResponse "recorded" (ba_generation ack))).

(** [routes/auth.rs]; what is awaited of a provider touches nothing shared. *)
Definition device_poll_p (providers : ProviderRegistry) (headers : list (string * string))
    (request_id : string) (now audit_now : Z) (request : DevicePollBody)
  : P World ApiError PollResponse :=
  provider ← pure (map_err ApiError_of_provider (resolve (dp_provider request) providers));
  let device_code := trim (dp_device_code request) in
  _ ← ensure_p (negb (str_is_empty device_code || (MAX_DEVICE_CODE_LEN <? str_len device_code)%Z))
        (BadRequest "device_code is required");
  outcome ← pure (map_err ApiError_of_provider (poll_device_authorization provider device_code));
  match outcome with
  | Pending => pure (Ok (PollResponse_status "pending"))
  | SlowDown => pure (Ok (PollResponse_status "slow_down"))
  | Expired => pure (Ok (PollResponse_status "expired"))
  | OutcomeDenied => pure (Ok (PollResponse_status "denied"))
  | Approved access_token scope =>
      let provider_id := pm_id (ap_metadata provider) in
      let identity := match fetch_identity provider access_token with
                      | Ok i => Some i
                      | Err _ => None
                      end in
      _ ← atom (with_err ApiError_of_audit (append_audit_event audit_now
            (device_authorized_event headers request_id now provider_id scope identity)));
      let poll_identity := (λ i, MkPollIdentity provider_id (ai_subject i) (ai_username i)
                                   (ai_email i) (ai_display_name i)) <$> identity in
      pure (Ok (PollResponse_approved_with access_token poll_identity))
  end.

Definition whoami_p (providers : ProviderRegistry) (headers : list (string * string))
    (request_id : string) (now audit_now : Z) (selector : option string)
  : P World ApiError WhoamiResponse :=
  access_token ← pure (BearerToken_from_request headers);
  provider ← pure (map_err ApiError_of_provider (resolve selector providers));
  let provider_id := pm_id (ap_metadata provider) in
  identity ← pure (map_err ApiError_of_provider (fetch_identity provider access_token));
  _ ← atom (with_err ApiError_of_audit (append_audit_event audit_now
        (identity_lookup_event headers request_id now provider_id identity)));
  pure (Ok (WhoamiResponse_from_identity identity)).

(** [routes/certificates.rs]; the manager's signature is one action. *)
Definition issue_p (ca : option CertificateAuthority) (providers : ProviderRegistry)
    (access : AccessConfig) (headers : list (string * string)) (request_id : string)
    (now audit_now : Z) (request : IssueCertificateRequest)
  : P World ApiError CertificateResponse :=
  token ← pure (BearerToken_from_request headers);
  ca ← pure (require_ca ca);
  identity ← pure (resolve_identity providers access (ir_provider request) token);
  match authorize access identity with
  | Deny reason =>
      _ ← atom (with_err ApiError_of_audit (append_audit_event audit_now
                  (denied_event identity (ir_hostname request) reason)));
      pure (Err (ApiError_of_authz (Denied reason)))
  | Allow =>
      response ← atom (with_err ApiError_of_ca
                         (ca_sign_certificate ca (certificate_request identity request)));
      let client := with_provider (id_provider identity)
                      (from_headers headers (Some request_id) now) in
      _ ← atom (with_err ApiError_of_audit (append_audit_event audit_now
                  (issued_event identity (ir_hostname request) response client)));
      pure (Ok response)
  end.

(** [verify_machine_signature]. *)
Definition check_request_p (now : Z) (request : Request)
  : P (Server C) ApiError (Machine * string * string * string) :=
  machine_id ← pure (header_value (rq_headers request) HEADER_MACHINE_ID);
  timestamp_raw ← pure (header_value (rq_headers request) HEADER_TIMESTAMP);
  nonce ← pure (header_value (rq_headers request) HEADER_NONCE);
  signature ← pure (header_value (rq_headers request) HEADER_SIGNATURE);
  timestamp ← pure (ok_or reject (parse_i64 timestamp_raw));
  _ ← ensure_p (negb (outside_window now timestamp)) reject;
  body ← pure (ok_or reject (rq_body request));
  _ ← ensure_p (str_len body <=? MAX_SIGNED_BODY_BYTES)%Z reject;
  let body_hash := body_sha256_hex body in
  _ ← atom (with_err ApiError_of_sqlx (on_world db_call));
  found ← atom (with_err ApiError_of_sqlx (on_world (find_by_id machine_id)));
  machine ← pure (ok_or reject found);
  let canonical := canonical_string machine_id timestamp nonce (rq_method request)
                     (rq_path request) body_hash in
  _ ← pure (map_err (λ _, reject) (verify_signature (public_key machine) canonical signature));
  _ ← ensure_p (bool_decide (status machine = Active)) reject;
  pure (Ok (machine, machine_id, nonce, body)).

Definition verify_machine_signature_p (now : Z) (request : Request)
  : P (Server C) ApiError (Machine * string) :=
  checked ← check_request_p now request;
  let '(machine, machine_id, nonce, body) := checked in
  fresh ← atom (consume_nonce machine_id nonce now);
  _ ← ensure_p fresh reject;
  pure (Ok (machine, body)).

(** A program over the database, as one over the server's state. *)
Definition on_world_p {E A} (p : P World E A) : P (Server C) E A :=
  zoom sv_world (λ w s, MkServer w (sv_nonces s)) p.

(** The handler behind the middleware, with its parsed body and the bundle service of that
    moment, if there is one. *)
Inductive AgentOp : Type :=
| Heartbeat (now : Z) (request : HeartbeatRequest)
| FetchBundle (service : option BundleService) (now audit_now : Z)
| Acknowledge (service : option BundleService) (now audit_now : Z) (ack : BundleAckRequest).

Definition agent_op_p (request : Request) (machine : Machine) (op : AgentOp)
  : P World ApiError unit :=
  match op with
  | Heartbeat now hb => answered (heartbeat_p machine now hb)
  | FetchBundle service now audit_now =>
      answered (get_ca_bundle_p service now audit_now machine (rq_headers request))
  | Acknowledge service now audit_now ack =>
      answered (ack_ca_bundle_p service now audit_now machine ack)
  end.

Definition agent_op (request : Request) (machine : Machine) (op : AgentOp)
  : M World ApiError unit :=
  match op with
  | Heartbeat now hb => _ ← heartbeat machine now hb; ret tt
  | FetchBundle service now audit_now =>
      _ ← get_ca_bundle service now audit_now machine (rq_headers request); ret tt
  | Acknowledge service now audit_now ack =>
      _ ← ack_ca_bundle service now audit_now machine ack; ret tt
  end.

Definition agent_p (checked_at : Z) (request : Request) (op : AgentOp)
  : P (Server C) ApiError unit :=
  verified ← verify_machine_signature_p checked_at request;
  on_world_p (agent_op_p request verified.1 op).

(** ** Tasks *)

(** What an operator's task knows of the certificate authority is what it saw when it
    looked: any value of [st_ca], and so any interleaving with the manager's changes. *)
Inductive Task : Type :=
| Enroll (sv : EnrollmentService) (uuid : string) (now audit_now : Z) (request : EnrollRequest)
| Agent (checked_at : Z) (request : Request) (op : AgentOp)
| Operate (st : AppState) (c : Call) (a : AdminAction)
| Issue (ca : option CertificateAuthority) (providers : ProviderRegistry) (access : AccessConfig)
    (headers : list (string * string)) (request_id : string) (now audit_now : Z)
    (request : IssueCertificateRequest)
| DevicePoll (providers : ProviderRegistry) (headers : list (string * string))
    (request_id : string) (now audit_now : Z) (request : DevicePollBody)
| Whoami (providers : ProviderRegistry) (headers : list (string * string))
    (request_id : string) (now audit_now : Z) (selector : option string).

Inductive TaskError : Type :=
| TaskEnrollment (e : EnrollmentError)
| TaskApi (e : ApiError).

Definition program (t : Task) : P (Server C) TaskError unit :=
  match t with
  | Enroll sv uuid now audit_now request =>
      map_err_p TaskEnrollment (on_world_p (answered (enroll_p sv uuid now audit_now request)))
  | Agent checked_at request op => map_err_p TaskApi (agent_p checked_at request op)
  | Operate st c a => map_err_p TaskApi (on_world_p (perform_p st c a))
  | Issue ca providers access headers request_id now audit_now request =>
      map_err_p TaskApi (on_world_p
        (answered (issue_p ca providers access headers request_id now audit_now request)))
  | DevicePoll providers headers request_id now audit_now request =>
      map_err_p TaskApi (on_world_p
        (answered (device_poll_p providers headers request_id now audit_now request)))
  | Whoami providers headers request_id now audit_now selector =>
      map_err_p TaskApi (on_world_p
        (answered (whoami_p providers headers request_id now audit_now selector)))
  end.

(** The handler the task runs. *)
Definition handler (t : Task) : M (Server C) TaskError unit :=
  match t with
  | Enroll sv uuid now audit_now request =>
      with_err TaskEnrollment (on_world (_ ← enroll sv uuid now audit_now request; ret tt))
  | Agent checked_at request op => with_err TaskApi (
      verified ← verify_machine_signature checked_at request;
      on_world (agent_op request verified.1 op))
  | Operate st c a => with_err TaskApi (on_world (perform st c a))
  | Issue ca providers access headers request_id now audit_now request =>
      with_err TaskApi (on_world (
        _ ← issue ca providers access headers request_id now audit_now request; ret tt))
  | DevicePoll providers headers request_id now audit_now request => with_err TaskApi (on_world (
      _ ← device_poll providers headers request_id now audit_now request; ret tt))
  | Whoami providers headers request_id now audit_now selector => with_err TaskApi (on_world (
      _ ← whoami providers headers request_id now audit_now selector; ret tt))
  end.

(** The readings of the clock a task carries. *)
Definition agent_times (op : AgentOp) : list Z :=
  match op with
  | Heartbeat now _ => [now]
  | FetchBundle _ _ audit_now => [audit_now]
  | Acknowledge _ now audit_now _ => [now; audit_now]
  end.
Definition task_ok (t : Task) : Prop :=
  match t with
  | Enroll _ _ now audit_now _ => times_ok [now; audit_now]
  | Agent _ _ op => times_ok (agent_times op)
  | Operate _ c _ => call_ok c
  | Issue ca _ _ _ _ _ audit_now _ =>
      (∀ a, ca = Some a → CertificateAuthorityLaws a) ∧ times_ok [audit_now]
  | DevicePoll _ _ _ _ audit_now _ | Whoami _ _ _ _ audit_now _ => times_ok [audit_now]
  end.

(** A run of the tasks: the events, what is left of each task, and the state. *)
Definition serve_tasks (schedule : list nat) (tasks : list Task) (s : Server C)
  : list (Event (Server C)) * list (prog (Server C) (result unit TaskError)) * Server C :=
  interleave schedule (program <$> tasks) s.

Definition sv_db (s : Server C) : Db := db (sv_world s).

(** ** Run alone, a task is its handler *)
Lemma realises_on_world {E A} (p : P World E A) m :
  realises p m → realises (on_world_p p) (on_world m).
Proof.
  intros Hp s. unfold on_world_p. rewrite run_zoom; [|done..|by intros []].
  unfold on_world. by rewrite Hp.
Qed.
Lemma realises_answered {S E A} (p : P S E A) m :
  realises p m → realises (answered p) (_ ← m; ret tt).
Proof. unfold answered. eauto with realises. Qed.
#[local] Hint Resolve realises_on_world realises_answered : realises.

(** Follows the two texts. *)
Ltac realise :=
  cbv zeta;
  lazymatch goal with
  | |- realises (@mbind _ _ _ _ _ _) _ => apply realises_then; [realise|intros ?; realise]
  | |- realises (match ?x with _ => _ end) _ => destruct x; realise
  | |- realises (answered _) _ => apply realises_answered; realise
  | |- realises (map_err_p _ _) _ => apply realises_map_err; realise
  | |- realises (on_world_p _) _ => apply realises_on_world; realise
  | |- _ => solve [eauto 2 with realises nocore]
  end.

Lemma enroll_runs sv uuid now audit_now request :
  realises (enroll_p sv uuid now audit_now request) (enroll sv uuid now audit_now request).
Proof. unfold enroll_p, enroll. realise. Qed.
Lemma set_status_runs i st now : realises (set_status_p i st now) (set_status i st now).
Proof. unfold set_status_p, set_status. realise. Qed.
Lemma admin_delete_runs i : realises (admin_delete_p i) (admin_delete i).
Proof. unfold admin_delete_p, admin_delete. realise. Qed.
Lemma create_runs random uuid now by_ ttl su :
  realises (create_enrollment_token_p random uuid now by_ ttl su)
    (create_enrollment_token random uuid now by_ ttl su).
Proof. unfold create_enrollment_token_p, create_enrollment_token. realise. Qed.
Lemma authorize_runs st c action :
  realises (authorize_admin_p st c action) (authorize_admin st c action).
Proof. unfold authorize_admin_p, authorize_admin. realise. Qed.
Lemma ca_authorize_runs st c action :
  realises (ca_authorize_admin_p st c action) (ca_authorize_admin st c action).
Proof. unfold ca_authorize_admin_p, ca_authorize_admin. realise. Qed.
Lemma audit_machine_runs identity c action m extra :
  realises (audit_machine_p identity c action m extra) (audit_machine identity c action m extra).
Proof. unfold audit_machine_p, audit_machine. realise. Qed.
#[local] Hint Resolve enroll_runs set_status_runs admin_delete_runs create_runs authorize_runs
  ca_authorize_runs audit_machine_runs : realises.

Lemma perform_runs st c a : realises (perform_p st c a) (perform st c a).
Proof.
  destruct a; unfold perform_p, perform, approve, disable, enable, revoke, reenroll,
    rotate_identity; apply realises_answered;
    unfold set_lifecycle_p, set_lifecycle, delete_machine_p, delete_machine, reissue_identity_p,
    reissue_identity, mint_enrollment_token_p, mint_enrollment_token; realise.
Qed.
Lemma agent_op_runs request m op : realises (agent_op_p request m op) (agent_op request m op).
Proof.
  destruct op; apply realises_answered; unfold heartbeat_p, heartbeat, record_heartbeat,
    get_ca_bundle_p, get_ca_bundle, ack_ca_bundle_p, ack_ca_bundle; realise.
Qed.
Lemma verify_runs now request :
  realises (verify_machine_signature_p now request) (verify_machine_signature now request).
Proof.
  unfold verify_machine_signature_p, verify_machine_signature, check_request_p, check_request.
  realise.
Qed.
Lemma device_poll_runs providers headers rid now audit_now request :
  realises (device_poll_p providers headers rid now audit_now request)
    (device_poll providers headers rid now audit_now request).
Proof. unfold device_poll_p, device_poll. realise. Qed.
Lemma whoami_runs providers headers rid now audit_now selector :
  realises (whoami_p providers headers rid now audit_now selector)
    (whoami providers headers rid now audit_now selector).
Proof. unfold whoami_p, whoami. realise. Qed.
Lemma issue_runs ca providers access headers rid now audit_now request :
  realises (issue_p ca providers access headers rid now audit_now request)
    (issue ca providers access headers rid now audit_now request).
Proof. unfold issue_p, issue. realise. Qed.
#[local] Hint Resolve perform_runs agent_op_runs verify_runs device_poll_runs whoami_runs
  issue_runs : realises.

Lemma program_runs t : realises (program t) (handler t).
Proof. destruct t; unfold program, agent_p, handler; realise. Qed.

(** ** Every action is a step *)

#[local] Hint Extern 2 (frame reachable _) => solve [eauto 6 using frame_update_status,
  frame_machine_delete, frame_token_create, frame_admit, frame_last_seen, frame_applied, frame_fetch
  with frame] : steps.
#[local] Hint Resolve frame_append enrolled_event_ok admin_denied_ok ca_denied_ok machine_event_ok
  minted_event_ok device_event_ok lookup_event_ok ack_event_ok event_ok_object issued_event_ok
  denied_event_ok : steps.

Lemma enroll_steps sv uuid now audit_now request :
  times_ok [now; audit_now] → each reachable (enroll_p sv uuid now audit_now request).
Proof.
  intros [Hn [Ha _]%Forall_cons]%Forall_cons. assert (times_ok [now]) by by repeat constructor.
  unfold enroll_p. steps.
Qed.
Lemma set_status_steps i st now : times_ok [now] → each reachable (set_status_p i st now).
Proof. intros. unfold set_status_p. steps. Qed.
Lemma admin_delete_steps i : each reachable (admin_delete_p i).
Proof. unfold admin_delete_p. steps. Qed.
Lemma create_steps random uuid now by_ ttl su :
  times_ok [now; (now + ttl)%Z] → each reachable (create_enrollment_token_p random uuid now by_ ttl su).
Proof. intros. unfold create_enrollment_token_p. steps. Qed.
Lemma authorize_steps st c action :
  rfc3339_range (cl_audit_now c) = true → each reachable (authorize_admin_p st c action).
Proof. intros. unfold authorize_admin_p. steps. Qed.
Lemma ca_authorize_steps st c action :
  rfc3339_range (cl_audit_now c) = true → each reachable (ca_authorize_admin_p st c action).
Proof. intros. unfold ca_authorize_admin_p. steps. Qed.
Lemma audit_machine_steps identity c action m extra :
  rfc3339_range (cl_audit_now c) = true → forallb (λ kv, wf_value kv.2) extra = true →
  each reachable (audit_machine_p identity c action m extra).
Proof. intros. unfold audit_machine_p. steps. Qed.
#[local] Hint Resolve set_status_steps admin_delete_steps create_steps authorize_steps
  ca_authorize_steps audit_machine_steps : steps.

Lemma perform_steps st c a : call_ok c → each reachable (perform_p st c a).
Proof.
  intros (Hn & Han & Httl)%call_ok_times.
  assert (times_ok [cl_token_now c; (cl_token_now c + seconds REENROLL_TOKEN_TTL_SECONDS)%Z]) as Hre
    by by apply Httl.
  pose proof (λ q, Httl _ (clamp_range q)) as Hcl.
  destruct a; unfold perform_p, set_lifecycle_p, delete_machine_p, reissue_identity_p,
    mint_enrollment_token_p; steps.
Qed.
Lemma agent_op_steps request m op :
  times_ok (agent_times op) → each reachable (agent_op_p request m op).
Proof.
  intros Ht. destruct op; [|apply Forall_cons in Ht as [Ha _]
    |apply Forall_cons in Ht as [Hn [Ha _]%Forall_cons]; assert (times_ok [now]) by by constructor];
    unfold agent_op_p, heartbeat_p, get_ca_bundle_p, ack_ca_bundle_p, machine_exists; steps.
Qed.
Lemma device_poll_steps providers headers rid now audit_now request :
  rfc3339_range audit_now = true →
  each reachable (device_poll_p providers headers rid now audit_now request).
Proof. intros. unfold device_poll_p. steps. Qed.
Lemma whoami_steps providers headers rid now audit_now selector :
  rfc3339_range audit_now = true →
  each reachable (whoami_p providers headers rid now audit_now selector).
Proof. intros. unfold whoami_p. steps. Qed.
Lemma issue_steps ca providers access headers rid now audit_now request :
  (∀ a, ca = Some a → CertificateAuthorityLaws a) → rfc3339_range audit_now = true →
  each reachable (issue_p ca providers access headers rid now audit_now request).
Proof.
  intros Hca Hn. unfold issue_p. apply each_then; [done|]. intros token.
  destruct ca as [ca|]; [|done].
  assert (∀ r, frame reachable (ca_sign_certificate ca r)) as Hsign.
  { intros r w x w' Hs. by rewrite (ca_own_tables (CertificateAuthorityLaws := Hca ca eq_refl) _ _ _ _ Hs). }
  match goal with |- each reachable (_ ≫= ?f) => change (each reachable (f ca)) end. cbv beta.
  steps.
Qed.

Definition moves_db (s s' : Server C) : Prop := reachable (sv_db s) (sv_db s').
Global Instance moves_db_preorder : PreOrder moves_db.
Proof.
  split; [intros a; apply rtc_refl|]. intros a b c Hab Hbc. unfold moves_db in *. by etrans.
Qed.

Lemma on_world_steps {E A} (p : P World E A) : each reachable p → actions moves_db (on_world_p p).
Proof.
  exact (actions_zoom sv_world (λ w s, MkServer w (sv_nonces s)) (λ _ _, eq_refl) _ p).
Qed.
Lemma on_world_same {E F A} (f : E → F) (m : M World E A) s r s' :
  (∀ w r w', m w = (r, w') → db w' = db w) → with_err f (on_world m) s = (r, s') →
  sv_db s' = sv_db s.
Proof.
  intros Hm. unfold with_err, on_world. destruct (m _) as [x w] eqn:Hr. apply Hm in Hr.
  destruct x; intros [= _ <-]; exact Hr.
Qed.

(** The middleware leaves the tables alone. *)
Lemma verify_reads now request :
  actions (λ s s', sv_db s' = sv_db s) (verify_machine_signature_p now request).
Proof.
  assert (∀ i n t, actions (λ s s', sv_db s' = sv_db s) (atom (consume_nonce i n t))) as Hc.
  { intros. apply actions_atom. intros s r s'. unfold consume_nonce.
    destruct (check_and_record _ _ _ _). by intros [= _ <-]. }
  unfold verify_machine_signature_p, check_request_p. cbv zeta.
  repeat first [apply actions_then; [|intros ?]|exact I|apply Hc|case_match];
    apply actions_atom; intros sv1 r1 sv2; apply on_world_same; intros w1 x1 w2;
    [apply db_call_db|apply fetch_machine_db].
Qed.

Lemma program_steps t : task_ok t → actions moves_db (program t).
Proof.
  destruct t; intros Ht; apply actions_map_err; try apply on_world_steps.
  - apply each_then; [by apply enroll_steps|done].
  - apply actions_then; [|intros; by apply on_world_steps, agent_op_steps].
    eapply actions_mono; [|apply verify_reads]. intros s s' Hs. unfold moves_db. by rewrite Hs.
  - by apply perform_steps.
  - destruct Ht as [Hca [Ht _]%Forall_cons]. apply each_then; [by apply issue_steps|done].
  - apply Forall_cons in Ht as [Ht _]. apply each_then; [by apply device_poll_steps|done].
  - apply Forall_cons in Ht as [Ht _]. apply each_then; [by apply whoami_steps|done].
Qed.

(** ** Runs *)
Definition grows (s s' : Server C) : Prop := only_grows (sv_db s) (sv_db s').
Global Instance grows_preorder : PreOrder grows.
Proof. split; [intros a|intros a b c]; unfold grows; [done|apply transitivity]. Qed.

Section runs.
Context `{!ChronoLaws, !SerdeJsonLaws}.
Context (tasks : list Task) (schedule : list nat) (s : Server C).
Context (events : list (Event (Server C))) (pool : list (prog (Server C) (result unit TaskError))).
Context (s' : Server C).
Hypothesis tasks_ok : Forall task_ok tasks.
Hypothesis start_ok : server_ok (sv_db s).
Hypothesis ran : serve_tasks schedule tasks s = (events, pool, s').

Lemma run_moves :
  Forall (λ e, moves_db (ev_before e) (ev_after e)) events ∧ chained s events s'.
Proof.
  assert (Forall (actions moves_db) (program <$> tasks)) as Hp.
  { apply Forall_fmap. eapply Forall_impl; [exact tasks_ok|]. apply program_steps. }
  pose proof (interleave_events moves_db schedule _ s Hp) as He.
  pose proof (interleave_chained schedule (program <$> tasks) s) as Hc.
  unfold serve_tasks in ran. rewrite ran in He, Hc. split; [apply He|apply Hc].
Qed.

Lemma run_ok :
  Forall (λ e, server_ok (sv_db (ev_before e)) ∧ server_ok (sv_db (ev_after e))) events ∧
  server_ok (sv_db s').
Proof.
  destruct run_moves as [He Hc].
  destruct (chained_invariant moves_db (λ s, server_ok (sv_db s)) s events s') as [Hok Hok'];
    try done.
  { intros a b Ha Hab. by apply (reachable_preserves _ _ Hab). }
  split; [|done]. rewrite Forall_forall in He, Hok |- *. intros e Hin.
  split; [by apply Hok|]. eapply reachable_preserves; [by apply He|by apply Hok].
Qed.

Lemma run_grows : Forall (λ e, grows (ev_before e) (ev_after e)) events.
Proof.
  destruct run_moves as [He _], run_ok as [Hok _]. rewrite Forall_forall in He, Hok |- *.
  intros e Hin. eapply reachable_preserves; [by apply He|by apply Hok].
Qed.

Lemma move_ok i m :
  m ∈ moves_of i events → server_ok (sv_db m.1) ∧ grows s m.1 ∧ grows m.1 m.2 ∧ grows m.2 s'.
Proof.
  intros Hm. destruct run_moves as [_ Hc], run_ok as [Hok _]. split.
  - apply (moves_of_Forall (λ a b, server_ok (sv_db a) ∧ server_ok (sv_db b)) i) in Hok.
    rewrite Forall_forall in Hok. by apply Hok.
  - exact (move_between grows s events s' i m run_grows Hc Hm).
Qed.

Lemma moves_serial i j m1 m2 :
  i ≠ j → m1 ∈ moves_of i events → m2 ∈ moves_of j events → grows m1.2 m2.1 ∨ grows m2.2 m1.1.
Proof. destruct run_moves as [_ Hc]. by apply (moves_ordered grows s events s'), Hc; apply run_grows. Qed.

(** What is known of every run of a task's program is known of its part of this one. *)
Lemma run_wp i t Q :
  tasks !! i = Some t → wp (λ s, server_ok (sv_db s)) (program t) Q →
  ∃ p, pool !! i = Some p ∧ Q (moves_of i events) (outcome p).
Proof.
  intros Hi Hw. destruct run_ok as [Hev _].
  pose proof (interleave_drives schedule (program <$> tasks) s i (program t)) as Hd.
  unfold serve_tasks in ran. rewrite ran in Hd.
  destruct Hd as (p & Hp & Hd); [by rewrite list_lookup_fmap, Hi|].
  exists p. split; [done|]. eapply wp_drives; [exact Hw|exact Hd|].
  apply (moves_of_Forall (λ a _, server_ok (sv_db a))).
  eapply Forall_impl; [exact Hev|]. by intros e [].
Qed.
End runs.

(** ** What a task does to the tables *)
Definition dbs (moves : list (World * World)) : list (Db * Db) :=
  (λ m, (db m.1, db m.2)) <$> moves.
Definition server_dbs (moves : list (Server C * Server C)) : list (Db * Db) :=
  (λ m, (sv_db m.1, sv_db m.2)) <$> moves.

Lemma wp_on_world {E F A} (I : Db → Prop) (f : E → F) (p : P World E A) Q :
  wp (λ w, I (db w)) p (λ moves o, Q (dbs moves) o) →
  wp (λ s, I (sv_db s)) (map_err_p f (on_world_p p))
    (λ moves o, ∃ o', o = map_err f <$> o' ∧ Q (server_dbs moves) o').
Proof.
  intros Hw. apply wp_map_err.
  apply (wp_zoom sv_world (λ w s, MkServer w (sv_nonces s)) (λ _ _, eq_refl) (λ w, I (db w))).
  eapply wp_mono; [exact Hw|]. intros moves o HQ moves' <-. exists o. split; [done|].
  unfold dbs in HQ. by rewrite <-list_fmap_compose in HQ.
Qed.

(** An enrollment with the token of hash [h] took place. *)
Definition admits (h : string) (d d' : Db) : Prop := ∃ request pk uuid now t,
  admission request pk h now d = Ok t ∧ d' = admitted request t pk uuid now d.

Definition enroll_post (h : string) (moves : list (Db * Db))
    (o : option (result unit EnrollmentError)) : Prop :=
  Forall (λ m, machines m.2 = machines m.1 ∨ admits h m.1 m.2) moves ∧
  (∀ x, o = Some (Ok x) → ∃ m, m ∈ moves ∧ admits h m.1 m.2).

Lemma enroll_wp `{!ChronoLaws, !SerdeJsonLaws} sv uuid now audit_now request :
  rfc3339_range audit_now = true →
  wp (λ w, server_ok (db w)) (answered (enroll_p sv uuid now audit_now request))
    (λ moves o, enroll_post (hash_token (eq_enrollment_token request)) (dbs moves) o).
Proof.
  intros Han. set (h := hash_token _). unfold answered, enroll_p, enroll_post. cbv zeta. do 2 apply wp_then.
  apply wp_ensure; intros _; [|done].
  apply wp_then, wp_ensure; intros _; [|done].
  apply wp_then, wp_pure. destruct (map_err _ _) as [pk|e]; [|done].
  apply wp_then, wp_atom; [done|]. intros w1 r w2 _ Htx. apply admit_inv in Htx.
  destruct r as [m|e]; [|split; [|done]; simpl; rewrite Htx; auto].
  destruct Htx as (t & Hadm & _ & _ & Hdb).
  assert (admits h (db w1) (db w2)) as Had by by exists request, pk, uuid, now, t.
  apply wp_then, wp_atom; [simpl; split; [auto|done]|].
  intros w3 r w4 (Hok & _) Happ. apply append_outcome in Happ; [|done|by apply enrolled_event_ok].
  assert (machines (db w4) = machines (db w3)) as Hm.
  { destruct r; [|by rewrite Happ]. by destruct Happ as (? & ? & _ & _ & _ & _ & _ & _ & _ & [] & _). }
  destruct r as [e|e]; simpl; (split; [auto|]); [|done].
  intros _ _. exists (db w1, db w2). split; [left|done].
Qed.

Lemma admits_spends h d d' :
  tokens_ok d → single_use_token h d → admits h d d' → token_spent h d'.
Proof.
  intros (_ & Hnd & _) (r & Hin & Hh & Hsu) (request & pk & uuid & now & t & Hadm & ->).
  apply (admitted_spends _ _ _ uuid _ _ _ Hadm).
  apply admission_row in Hadm as (r' & Hin' & Hh' & Ht & _).
  assert (r' = r) as ->.
  { apply (inj Some). by rewrite <-(proj2 (find_key _ _ _ _ Hnd) (conj Hin Hh)),
      <-(proj2 (find_key _ _ _ _ Hnd) (conj Hin' Hh')). }
  destruct (token_try_from_fields _ _ Ht) as (_ & _ & -> & _).
  by destruct (Z.eqb_spec (tr_single_use r) 0).
Qed.
Lemma admits_adds h d d' : admits h d d' → machines d' ≠ machines d.
Proof.
  intros (request & pk & uuid & now & t & _ & ->) Heq.
  apply (f_equal length) in Heq. revert Heq. simpl. rewrite length_app. simpl. lia.
Qed.
Lemma spent_admits h d d' : tokens_ok d → token_spent h d → ¬ admits h d d'.
Proof. intros Ht Hs (? & ? & ? & ? & t & Hadm & _). by eapply spent_not_admitted. Qed.

Definition presents (tasks : list Task) (token : string) (i : nat) : Prop :=
  ∃ sv uuid now audit_now request,
    tasks !! i = Some (Enroll sv uuid now audit_now request) ∧ eq_enrollment_token request = token.

(** The task came to its end, and reports success. *)
Definition succeeded (pool : list (prog (Server C) (result unit TaskError))) (i : nat) : Prop :=
  pool !! i = Some (Return (Ok tt)).

(** The task changed the table of machines. *)
Definition enrolled (events : list (Event (Server C))) (i : nat) : Prop :=
  ∃ m, m ∈ moves_of i events ∧ machines (sv_db m.2) ≠ machines (sv_db m.1).

(** *** Changes leave their entry *)
Section accountable.
Context `{!ChronoLaws, !SerdeJsonLaws}.

(** One of the moves adds an entry of that type and actor to the log. *)
Definition recorded_in (ty actor : string) (moves : list (Db * Db)) : Prop :=
  ∃ m, m ∈ moves ∧ recorded ty actor m.1 m.2.
Lemma recorded_in_app_l ty actor l1 l2 : recorded_in ty actor l1 → recorded_in ty actor (l1 ++ l2).
Proof. intros (m & Hm & Hr). exists m. split; [|done]. apply elem_of_app. by left. Qed.
Lemma recorded_in_app_r ty actor l1 l2 : recorded_in ty actor l2 → recorded_in ty actor (l1 ++ l2).
Proof. intros (m & Hm & Hr). exists m. split; [|done]. apply elem_of_app. by right. Qed.
Lemma dbs_app l1 l2 : dbs (l1 ++ l2) = dbs l1 ++ dbs l2.
Proof. apply fmap_app. Qed.

(** A success has left it. *)
Definition leaves {E A} (ty actor : string) (p : P World E A) : Prop :=
  wp (λ w, server_ok (db w)) p
    (λ moves o, ∀ x, o = Some (Ok x) → recorded_in ty actor (dbs moves)).

Lemma leaves_skip {E A B} ty actor (p : P World E A) (f : A → P World E B) :
  (∀ a, leaves ty actor (f a)) → leaves ty actor (p ≫= f).
Proof.
  intros Hf. apply wp_skip; [done|done|]. intros moves a. eapply wp_mono; [apply Hf|].
  intros moves' o Hr x Ho. rewrite dbs_app. by eapply recorded_in_app_r, Hr.
Qed.
Lemma leaves_then {E A B} ty actor (p : P World E A) (f : A → P World E B) :
  leaves ty actor p → leaves ty actor (p ≫= f).
Proof.
  intros Hp. apply wp_then. eapply wp_mono; [exact Hp|]. intros moves [[a|e]|] Hr; [|done..].
  eapply wp_mono; [apply (wp_actions _ (λ _ _, True))|].
  { clear. induction (f a); simpl; auto. }
  intros moves' o _ x _. rewrite dbs_app. by eapply recorded_in_app_l, Hr.
Qed.
Lemma leaves_append {E} (conv : AuditError → E) now event :
  event_ok now event = true →
  leaves (ne_event_type event) (ne_actor event)
    (atom (with_err conv (append_audit_event now event))).
Proof.
  intros Hev. apply wp_atom; [done|]. intros w r w' (Hok & _) Happ x [= ->].
  apply append_outcome in Happ as (row & e & Hlog & Hd & Hty & Hac & _); [|done|done].
  exists (db w, db w'). split; [left|]. by exists row, e.
Qed.

(** A success is that of one of these callers, and his entry is there. *)
Definition accountable_post (who : Identity → Prop) (ty : string) (moves : list (Db * Db))
    (o : option (result unit ApiError)) : Prop :=
  ∀ x, o = Some (Ok x) → ∃ identity, who identity ∧ recorded_in ty (id_username identity) moves.

Lemma accountable_then {A} st c ty (denied : Identity → string → NewAuditEntry)
    (f : Identity → P World ApiError A) :
  (∀ identity, leaves ty (id_username identity) (f identity)) →
  wp (λ w, server_ok (db w)) (answered (
    identity ← (token ← pure (BearerToken_from_request (cl_headers c));
      identity ← pure (resolve_identity (st_providers st) (st_access st) None token);
      match authorize (st_access st) identity with
      | Deny reason =>
          _ ← atom (with_err ApiError_of_audit (append_audit_event (cl_audit_now c)
                      (denied identity reason)));
          pure (Err (ApiError_of_authz (Denied reason)))
      | Allow => pure (Ok identity)
      end);
    f identity)) (λ moves o, accountable_post
      (λ identity, caller st c identity ∧ permitted (st_access st) identity) ty (dbs moves) o).
Proof.
  intros Hf. unfold answered. do 3 apply wp_then.
  apply wp_pure. destruct (BearerToken_from_request _) as [token|] eqn:Htok; [|done].
  apply wp_then, wp_pure. destruct (resolve_identity _ _ _ _) as [identity|] eqn:Hres; [|done].
  destruct (authorize _ _) as [|reason] eqn:Hau.
  - apply wp_pure. eapply wp_mono; [apply Hf|]. intros moves [[a|e]|] Hr; [|done..].
    apply wp_pure. intros x _. exists identity. split; [split; [by exists token|]|].
    + apply authorize_sound. by rewrite Hau.
    + rewrite app_nil_r. by eapply Hr.
  - apply wp_then, wp_atom; [done|]. by intros w r w' _ _; destruct r.
Qed.

(** Who may be behind an issuance. *)
Definition issue_caller (providers : ProviderRegistry) (access : AccessConfig)
    (headers : list (string * string)) (request : IssueCertificateRequest) (identity : Identity)
  : Prop :=
  (∃ token, BearerToken_from_request headers = Ok token ∧
     resolve_identity providers access (ir_provider request) token = Ok identity) ∧
  permitted access identity.

Lemma issue_wp ca providers access headers rid now audit_now request :
  rfc3339_range audit_now = true →
  wp (λ w, server_ok (db w))
    (answered (issue_p ca providers access headers rid now audit_now request))
    (λ moves o, accountable_post (issue_caller providers access headers request)
       "certificate.issued" (dbs moves) o).
Proof.
  intros Hn. unfold answered, issue_p. do 2 apply wp_then.
  apply wp_pure. destruct (BearerToken_from_request _) as [token|] eqn:Htok; [|done].
  apply wp_then, wp_pure. destruct (require_ca ca) as [ca'|]; [|done].
  apply wp_then, wp_pure. destruct (resolve_identity _ _ _ _) as [identity|] eqn:Hres; [|done].
  destruct (authorize _ _) as [|reason] eqn:Hau.
  - eapply wp_mono.
    { apply (leaves_skip "certificate.issued" (id_username identity)). intros response.
      apply leaves_then. by apply (leaves_append _ _ (issued_event _ _ _ _)), issued_event_ok. }
    intros moves [[a|e]|] Hr; [|done..]. apply wp_pure. intros x _. exists identity.
    split; [split; [by exists token|apply authorize_sound; by rewrite Hau]|].
    rewrite app_nil_r. by eapply Hr.
  - apply wp_then, wp_atom; [done|]. by intros w r w' _ _; destruct r.
Qed.

Lemma perform_wp st c a :
  call_ok c →
  wp (λ w, server_ok (db w)) (perform_p st c a)
    (λ moves o, accountable_post (λ identity, caller st c identity ∧
       permitted (st_access st) identity) (action_event a) (dbs moves) o).
Proof.
  intros (_ & Hn & _)%call_ok_times.
  assert (∀ identity m action extra, forallb (λ kv, wf_value kv.2) extra = true →
    leaves action (id_username identity) (audit_machine_p identity c action m extra)) as Ham.
  { intros. apply leaves_then. by apply (leaves_append _ _ (machine_event identity c action m extra)),
      machine_event_ok. }
  destruct a; apply accountable_then; intros identity;
    repeat first [by apply leaves_then, Ham
      |by apply leaves_then, (leaves_append _ _ (minted_event _ _ _ _)), minted_event_ok
      |apply leaves_skip; intros ?].
Qed.
End accountable.

Section theorems.
Context `{!ChronoLaws, !SerdeJsonLaws}.

Lemma presents_moves tasks schedule s events pool s' token i :
  Forall task_ok tasks → server_ok (sv_db s) → serve_tasks schedule tasks s = (events, pool, s') →
  presents tasks token i →
  (∀ m, m ∈ moves_of i events → machines (sv_db m.2) ≠ machines (sv_db m.1) →
    admits (hash_token token) (sv_db m.1) (sv_db m.2)) ∧
  (succeeded pool i → enrolled events i).
Proof.
  intros Ht Hok Hrun (sv & uuid & now & audit_now & request & Hi & <-).
  assert (rfc3339_range audit_now = true) as Han.
  { pose proof (Forall_lookup_1 _ _ _ _ Ht Hi) as Htask. simpl in Htask.
    by apply Forall_cons in Htask as [_ [? _]%Forall_cons]. }
  destruct (run_wp tasks schedule s events pool s' Ht Hok Hrun i _ _ Hi
    (wp_on_world _ TaskEnrollment _ _ (enroll_wp sv uuid now audit_now request Han)))
    as (p & Hp & o & Ho & Hm & Hs). split.
  - intros m Hin Hne. rewrite Forall_forall in Hm.
    destruct (Hm (sv_db m.1, sv_db m.2)) as [|]; [|done|done].
    apply list_elem_of_fmap. by exists m.
  - unfold succeeded. intros Hp'. simplify_eq. simpl in Ho. destruct o as [[[]|e]|]; simplify_eq/=.
    destruct (Hs tt eq_refl) as (m & (m0 & -> & Hm0)%list_elem_of_fmap & Had).
    exists m0. split; [done|]. by eapply admits_adds.
Qed.


(** C13: the invariant holds at every moment.  While handlers run at once, cut at every point
    where they wait and possibly dropped there, after every single action the audit log
    verifies, machines and tokens have unique keys and decode; entries stay in the log and
    spent tokens stay spent. *)
Theorem interleaved_server_ok tasks schedule s events pool s' :
  Forall task_ok tasks → server_ok (sv_db s) → serve_tasks schedule tasks s = (events, pool, s') →
  Forall (λ e, server_ok (sv_db (ev_after e)) ∧
    only_grows (sv_db (ev_before e)) (sv_db (ev_after e))) events ∧
  server_ok (sv_db s') ∧ only_grows (sv_db s) (sv_db s').
Proof.
  intros Ht Hok Hrun. destruct (run_ok _ _ _ _ _ _ Ht Hok Hrun) as [He Hs].
  pose proof (run_grows _ _ _ _ _ _ Ht Hok Hrun) as Hg.
  destruct (run_moves _ _ _ _ _ _ Ht Hrun) as [_ Hc]. split_and!; [|done|].
  - rewrite Forall_forall in He, Hg |- *. intros e Hin. split; [by apply He|by apply Hg].
  - apply (chained_reachable grows s events s' Hg Hc).
Qed.

(** C6: a single-use token enrolls one machine, however requests interleave.  While any
    number of handlers run at once, cut at every point where they wait for the database and
    possibly dropped there, an enrollment that reports success has added its machine, and
    of the enrollments that present one single-use token at most one changes the table. *)
Theorem interleaved_token_enrolls_once tasks schedule s events pool s' token :
  Forall task_ok tasks → server_ok (sv_db s) → serve_tasks schedule tasks s = (events, pool, s') →
  single_use_token (hash_token token) (sv_db s) →
  (∀ i, presents tasks token i → succeeded pool i → enrolled events i) ∧
  (∀ i j, presents tasks token i → presents tasks token j →
     enrolled events i → enrolled events j → i = j).
Proof.
  intros Ht Hok Hrun Hsu. split.
  { intros i Hi. by apply (presents_moves _ _ _ _ _ _ _ _ Ht Hok Hrun Hi). }
  assert (∀ i j m m', presents tasks token i → presents tasks token j →
    m ∈ moves_of i events → m' ∈ moves_of j events →
    machines (sv_db m.2) ≠ machines (sv_db m.1) → machines (sv_db m'.2) ≠ machines (sv_db m'.1) →
    grows m.2 m'.1 → False) as Hbad.
  { intros i j m m' Hpi Hpj Hm Hm' Hne Hne' (Hsp & _).
    apply (presents_moves _ _ _ _ _ _ _ _ Ht Hok Hrun Hpi) in Hne as Ha; [|done].
    apply (presents_moves _ _ _ _ _ _ _ _ Ht Hok Hrun Hpj) in Hne' as Ha'; [|done].
    destruct (move_ok _ _ _ _ _ _ Ht Hok Hrun _ _ Hm) as (Hok1 & (_ & Hu & _) & _).
    destruct (move_ok _ _ _ _ _ _ Ht Hok Hrun _ _ Hm') as (Hok2 & _).
    apply admits_spends in Ha; [|by apply Hok1|by apply Hu].
    apply Hsp in Ha. by apply spent_admits in Ha'; [..|apply Hok2|]. }
  intros i j Hpi Hpj (m1 & Hm1 & Hne1) (m2 & Hm2 & Hne2).
  destruct (decide (i = j)) as [|Hij]; [done|exfalso].
  destruct (moves_serial _ _ _ _ _ _ Ht Hok Hrun i j m1 m2 Hij Hm1 Hm2); eauto.
Qed.

(** The task's own entry is the one at position [n] of the log. *)
Definition appended_by (events : list (Event (Server C))) (i n : nat) (row : AuditRow) : Prop :=
  ∃ m, m ∈ moves_of i events ∧ n = length (audit_log (sv_db m.1)) ∧
    audit_log (sv_db m.2) = audit_log (sv_db m.1) ++ [row].

(** The tasks of operators and engineers: who may be behind one, and how it is recorded. *)
Definition accountable_task (t : Task) : option ((Identity → Prop) * string) :=
  match t with
  | Operate st c a =>
      Some (λ identity, caller st c identity ∧ permitted (st_access st) identity, action_event a)
  | Issue _ providers access headers _ _ _ request =>
      Some (issue_caller providers access headers request, "certificate.issued")
  | _ => None
  end.

Lemma accountable_wp t who ty :
  task_ok t → accountable_task t = Some (who, ty) →
  wp (λ s, server_ok (sv_db s)) (program t) (λ moves o, ∃ o', o = map_err TaskApi <$> o' ∧
    accountable_post who ty (server_dbs moves) o').
Proof.
  intros Ht Ha. destruct t; simplify_eq/=.
  - by apply (wp_on_world _ TaskApi), perform_wp.
  - destruct Ht as [_ [Hn _]%Forall_cons]. by apply (wp_on_world _ TaskApi), issue_wp.
Qed.

(** C7: a reported change is in the log, under its caller's name, with an entry of its own.
    However requests interleave, a change of an operator or a certificate that is reported
    is a permitted caller's, and one action of that very task appended the entry for it; it
    is in the final log at the place it was given, and no two tasks' entries share a
    place. *)
Theorem interleaved_changes_accountable tasks schedule s events pool s' :
  Forall task_ok tasks → server_ok (sv_db s) → serve_tasks schedule tasks s = (events, pool, s') →
  (∀ i t who ty, tasks !! i = Some t → accountable_task t = Some (who, ty) → succeeded pool i →
     ∃ identity n row e, who identity ∧ appended_by events i n row ∧
       audit_log (sv_db s') !! n = Some row ∧
       decodes row e ∧ ae_event_type e = ty ∧ ae_actor e = id_username identity) ∧
  (∀ i j n row row', appended_by events i n row → appended_by events j n row' → i = j).
Proof.
  intros Ht Hok Hrun. split.
  - intros i t who ty Hi Ha Hs.
    destruct (run_wp _ _ _ _ _ _ Ht Hok Hrun i _ _ Hi
      (accountable_wp t who ty (Forall_lookup_1 _ _ _ _ Ht Hi) Ha)) as (p & Hp & o & Ho & Hpost).
    unfold succeeded in Hs. simplify_eq. destruct o as [[[]|e]|]; simplify_eq/=.
    destruct (Hpost tt eq_refl) as (identity & Hwho & m & Hm & row & e & Hlog & Hrow).
    apply list_elem_of_fmap in Hm as (m0 & -> & Hm0). simpl in *.
    destruct (move_ok _ _ _ _ _ _ Ht Hok Hrun _ _ Hm0) as (_ & _ & _ & _ & _ & Hafter).
    exists identity, (length (audit_log (sv_db m0.1))), row, e. destruct Hrow as (? & ? & ?).
    split_and!; try done; [by exists m0|]. eapply prefix_lookup_Some; [|done].
    rewrite Hlog. by apply list_lookup_middle.
  - assert (∀ i j m m' n row row', m ∈ moves_of i events → m' ∈ moves_of j events →
      n = length (audit_log (sv_db m.1)) → n = length (audit_log (sv_db m'.1)) →
      audit_log (sv_db m.2) = audit_log (sv_db m.1) ++ [row] →
      audit_log (sv_db m'.2) = audit_log (sv_db m'.1) ++ [row'] → grows m.2 m'.1 → False) as Hbad.
    { intros i j m m' n row row' _ _ Hn Hn' Hl _ (_ & _ & Hp%prefix_length).
      rewrite Hl, length_app, <-Hn, <-Hn' in Hp. simpl in Hp. lia. }
    intros i j n row row' (m1 & Hm1 & Hn1 & Hl1) (m2 & Hm2 & Hn2 & Hl2).
    destruct (decide (i = j)) as [|Hij]; [done|exfalso].
    destruct (moves_serial _ _ _ _ _ _ Ht Hok Hrun i j m1 m2 Hij Hm1 Hm2); eauto.
Qed.
End theorems.
End handlers.

(** ** Nonces *)
Section nonces.
Context `{Sha256, HexEncode, Chrono, SerdeJson, SshCert, Base64, Ed25519, DebugStrings}.
Context `{ToLowercase, !ChronoLaws, !SerdeJsonLaws}.
Abbreviation Srv := (Server InMemoryNonceCache).

(** The request's nonce was found fresh, and recorded. *)
Definition accepted_in (checked_at : Z) (request : Request) (moves : list (Srv * Srv)) : Prop :=
  ∃ i nonce m, header_value (rq_headers request) HEADER_MACHINE_ID = Ok i ∧
    header_value (rq_headers request) HEADER_NONCE = Ok nonce ∧ m ∈ moves ∧
    check_and_record (sv_nonces m.1) i nonce checked_at = (true, sv_nonces m.2).

(** The machine was found active. *)
Definition active_in (request : Request) (moves : list (Srv * Srv)) : Prop :=
  ∃ i m r, header_value (rq_headers request) HEADER_MACHINE_ID = Ok i ∧ m ∈ moves ∧
    r ∈ machines (sv_db m.1) ∧ mr_machine_id r = i ∧ mr_status r = MachineStatus_as_str Active.

(** Nothing was written, and there is no success to account for. *)
Ltac rejected := split; [by repeat constructor|done].

Lemma verify_wp I now request :
  wp I (verify_machine_signature_p now request) (λ moves o,
    Forall (λ m : Srv * Srv, sv_db m.2 = sv_db m.1) moves ∧
    ∀ x, o = Some (Ok x) → accepted_in now request moves ∧ active_in request moves).
Proof.
  unfold verify_machine_signature_p, check_request_p. cbv zeta. do 2 apply wp_then.
  apply wp_pure. destruct (header_value _ HEADER_MACHINE_ID) as [i|] eqn:Hi; [|done].
  apply wp_then, wp_pure. destruct (header_value _ HEADER_TIMESTAMP) as [raw|]; [|done].
  apply wp_then, wp_pure. destruct (header_value _ HEADER_NONCE) as [nonce|] eqn:Hn; [|done].
  apply wp_then, wp_pure. destruct (header_value _ HEADER_SIGNATURE) as [sig|]; [|done].
  apply wp_then, wp_pure. destruct (ok_or _ _) as [ts|]; [|done].
  apply wp_then, wp_ensure; intros _; [|done].
  apply wp_then, wp_pure. destruct (ok_or _ _) as [body|]; [|done].
  apply wp_then, wp_ensure; intros _; [|done].
  apply wp_then, wp_atom; [done|]. intros s1 r s2 _ Hc%on_world_same; [|intros w x w'; apply db_call_db].
  destruct r as [[]|e]; [|rejected].
  apply wp_then, wp_atom; [rejected|].
  intros s3 r s4 _ Hfind. pose proof Hfind as Hf.
  apply on_world_same in Hf; [|intros w x w'; apply fetch_machine_db].
  destruct r as [found|e]; [|rejected].
  apply wp_then, wp_pure. destruct found as [machine|]; cbn [ok_or]; [|rejected].
  assert (∃ r, r ∈ machines (sv_db s3) ∧ mr_machine_id r = i ∧
    mr_status r = MachineStatus_as_str (status machine)) as (row & Hrow & Hid & Hstat).
  { apply with_err_ok_inv, on_world_ok_inv in Hfind as [Hfind _].
    apply fetch_machine_found in Hfind as (row & Hrow & Hp & Hdec). apply bool_decide_eq_true in Hp.
    apply machine_try_from_keys in Hdec as (_ & _ & _ & Hstat). by exists row. }
  apply wp_then, wp_pure. destruct (map_err _ _) as [[]|]; [|rejected].
  apply wp_then, wp_ensure; intros Hact; [|rejected]. apply bool_decide_eq_true in Hact.
  rewrite Hact in Hstat. apply wp_pure. apply wp_then, wp_atom; [rejected|].
  intros s5 r s6 _. unfold consume_nonce.
  destruct (check_and_record _ _ _ _) as [fresh c] eqn:Hch. intros [= <- <-].
  apply wp_then, wp_ensure; intros ->; [|rejected].
  apply wp_pure. split; [by repeat constructor|]. intros _ _. rewrite app_nil_r. split.
  - exists i, nonce, (s5, MkServer (sv_world s5) c). split_and!; try done.
    apply elem_of_app. right. simpl. left.
  - exists i, (s3, s4), row. split_and!; try done. simpl. right. left.
Qed.

(** A request that succeeded, or changed a table, had its nonce accepted. *)
Definition took_effect (moves : list (Srv * Srv)) (o : option (result unit TaskError)) : Prop :=
  o = Some (Ok tt) ∨ ∃ m, m ∈ moves ∧ sv_db m.2 ≠ sv_db m.1.

Lemma agent_wp I checked_at request op :
  wp I (program (Agent checked_at request op)) (λ moves o,
    took_effect moves o → accepted_in checked_at request moves ∧ active_in request moves).
Proof.
  apply wp_map_err, wp_then. eapply wp_mono; [apply verify_wp|]. intros moves o [Hread Hacc].
  assert (∀ o', took_effect moves o' → o' = Some (Ok tt)) as Hno.
  { intros o' [->|(m & Hm & Hne)]; [done|]. rewrite Forall_forall in Hread. by apply Hread in Hm. }
  destruct o as [[[machine body]|e]|]; [|by intros ?%Hno..].
  eapply wp_mono; [apply (wp_actions _ (λ _ _, True))|].
  { clear. induction (on_world_p _); simpl; auto. }
  intros moves' o _ _.
  destruct (Hacc _ eq_refl) as [(i & nonce & m & Hi & Hn & Hm & Hc) (i' & m' & row & Hi' & Hm' & Hrow)].
  split; [exists i, nonce, m|exists i', m', row]; split_and!; try apply elem_of_app; try apply Hrow; auto.
Qed.

(** What the cache refuses up to [u] is refused after checks at readings up to [u]. *)
Definition remembers (readings : Z → Prop) (s s' : Srv) : Prop := ∀ i nonce u,
  (∀ t, readings t → (t <= u)%Z) →
  refuses (sv_nonces s) i nonce u = true → refuses (sv_nonces s') i nonce u = true.
Global Instance remembers_preorder readings : PreOrder (remembers readings).
Proof.
  split; [by intros s i nonce u|]. intros a b c Hab Hbc i nonce u Hu Hr. auto.
Qed.

Lemma same_nonces_remembers (readings : Z → Prop) (s s' : Srv) :
  sv_nonces s' = sv_nonces s → remembers readings s s'.
Proof. intros Heq i nonce u _. by rewrite Heq. Qed.

Lemma on_world_remembers {E A} (readings : Z → Prop) (p : P World E A) :
  actions (remembers readings) (on_world_p p).
Proof.
  induction p as [r|X action next IH]; [done|]. split; [|done]. intros s. simpl.
  destruct (action (sv_world s)). by apply same_nonces_remembers.
Qed.

Lemma verify_remembers (readings : Z → Prop) now request :
  readings now → actions (remembers readings) (verify_machine_signature_p now request).
Proof.
  intros Hnow.
  assert (∀ E F A (f : E → F) (m : M World E A),
    actions (remembers readings) (atom (with_err f (on_world m)))) as Hw.
  { intros. apply actions_atom. intros s r s'. unfold with_err, on_world.
    destruct (m (sv_world s)) as [[x|x] w]; intros [= _ <-]; by apply same_nonces_remembers. }
  unfold verify_machine_signature_p, check_request_p. cbv zeta.
  repeat first [apply actions_then; [|intros ?]|exact I|apply Hw|case_match].
  apply actions_atom. intros sv1 r1 sv2 Hc id1 nonce1 u Hu Hr. unfold consume_nonce in Hc.
  destruct (check_and_record _ _ _ _) as [fresh c1] eqn:Hch. simplify_eq/=.
  change c1 with (fresh, c1).2. rewrite <-Hch. exact (check_keeps _ _ _ _ _ _ _ (Hu _ Hnow) Hr).
Qed.

Lemma program_remembers (readings : Z → Prop) t :
  (∀ checked_at request op, t = Agent checked_at request op → readings checked_at) →
  actions (remembers readings) (program t).
Proof.
  intros Hr. destruct t; apply actions_map_err; try apply on_world_remembers.
  apply actions_then; [by eapply verify_remembers, Hr|]. intros. apply on_world_remembers.
Qed.

Lemma memory_refuses_earlier c i nonce t u :
  (t <= u)%Z → memory_refuses c i nonce u = true → memory_refuses c i nonce t = true.
Proof. unfold memory_refuses. case_match; [|done]. rewrite !Z.ltb_lt. lia. Qed.

Lemma accepted_once (readings : Z → Prop) (a1 a2 b1 b2 : Srv) i nonce t1 t2 :
  check_and_record (sv_nonces a1) i nonce t1 = (true, sv_nonces a2) →
  check_and_record (sv_nonces b1) i nonce t2 = (true, sv_nonces b2) →
  remembers readings a2 b1 → (∀ t, readings t → (t < t1 + seconds NONCE_TTL_SECS)%Z) →
  (t2 < t1 + seconds NONCE_TTL_SECS)%Z → False.
Proof.
  intros Hc1 Hc2 Hr Hu Ht2. set (u := (t1 + seconds NONCE_TTL_SECS - 1)%Z).
  assert (refuses (sv_nonces b1) i nonce u = true) as Hb.
  { apply Hr; [intros t Ht%Hu; unfold u; lia|]. pose proof (check_records (sv_nonces a1) i nonce t1 u)
      as Hrec. rewrite Hc1 in Hrec. etrans; [exact (Hrec eq_refl)|]. apply Z.ltb_lt. unfold u. lia. }
  pose proof (check_decides (sv_nonces b1) i nonce t2) as Hd. rewrite Hc2 in Hd.
  rewrite (memory_refuses_earlier _ _ _ t2 u) in Hd; [done|unfold u; lia|exact Hb].
Qed.

(** C8: a nonce is accepted once, however requests interleave.  When the clock readings that
    the running signed requests took at their start lie less than the 120 s lifetime of a
    nonce apart, in whatever order they were taken, then of the requests that carry one
    machine's nonce at most one succeeds or changes a table. *)
Theorem interleaved_nonce_accepted_once (tasks : list Task) (schedule : list nat) (s : Srv)
    events pool s' i j t1 t2 req1 req2 op1 op2 :
  Forall task_ok tasks → server_ok (sv_db s) → serve_tasks schedule tasks s = (events, pool, s') →
  (∀ k k' t t' req req' op op', tasks !! k = Some (Agent t req op) →
     tasks !! k' = Some (Agent t' req' op') → (t < t' + seconds NONCE_TTL_SECS)%Z) →
  tasks !! i = Some (Agent t1 req1 op1) → tasks !! j = Some (Agent t2 req2 op2) →
  header_value (rq_headers req1) HEADER_MACHINE_ID = header_value (rq_headers req2) HEADER_MACHINE_ID →
  header_value (rq_headers req1) HEADER_NONCE = header_value (rq_headers req2) HEADER_NONCE →
  took_effect (moves_of i events) (pool !! i ≫= outcome) →
  took_effect (moves_of j events) (pool !! j ≫= outcome) → i = j.
Proof.
  intros Ht Hok Hrun Hspan Hi Hj Hid Hnonce Hei Hej.
  destruct (decide (i = j)) as [|Hij]; [done|exfalso].
  assert (∀ k t req op, tasks !! k = Some (Agent t req op) →
    took_effect (moves_of k events) (pool !! k ≫= outcome) →
    accepted_in t req (moves_of k events)) as Hacc.
  { intros k t req op Hk He.
    destruct (run_wp _ _ _ _ _ _ Ht Hok Hrun k _ _ Hk (agent_wp _ t req op)) as (p & Hp & Hpost).
    rewrite Hp in He. by apply Hpost in He as [? _]. }
  apply (Hacc _ _ _ _ Hi) in Hei as (id1 & n1 & m1 & Hid1 & Hn1 & Hm1 & Hc1).
  apply (Hacc _ _ _ _ Hj) in Hej as (id2 & n2 & m2 & Hid2 & Hn2 & Hm2 & Hc2).
  rewrite Hid1, Hid2 in Hid. rewrite Hn1, Hn2 in Hnonce. simplify_eq.
  set (readings := λ t, ∃ k req op, tasks !! k = Some (Agent t req op)).
  assert (Forall (actions (remembers readings)) (program <$> tasks)) as Hp.
  { apply Forall_fmap, Forall_lookup. intros k t Hk. apply program_remembers.
    intros t0 req op ->. by exists k, req, op. }
  pose proof (interleave_events _ schedule _ s Hp) as He. fold (serve_tasks schedule tasks s) in He.
  rewrite Hrun in He. destruct He as [He _], (run_moves _ _ _ _ _ _ Ht Hrun) as [_ Hc].
  destruct (moves_ordered _ s events s' i j m1 m2 He Hc Hij Hm1 Hm2) as [Hb|Hb].
  - apply (accepted_once readings _ _ _ _ _ _ t1 t2 Hc1 Hc2 Hb); [intros t (k & req & op & Hk)..|];
      by eapply Hspan.
  - apply (accepted_once readings _ _ _ _ _ _ t2 t1 Hc2 Hc1 Hb); [intros t (k & req & op & Hk)..|];
      by eapply Hspan.
Qed.
End nonces.

(** ** Witnesses *)
#[local] Existing Instances toy_sha256 toy_hex toy_chrono toy_serde_json toy_ssh_key toy_base64
  toy_ed25519 toy_ssh_cert toy_debug toy_lowercase.
#[local] Existing Instances toy_chrono_laws toy_serde_json_laws.

Definition memory_server (w : World) : Server InMemoryNonceCache :=
  MkServer w InMemoryNonceCache_new.

(** Two enrollments with one token, a step of each in turn. *)
Definition rival_enrollments : list Task :=
  [Enroll demo_service "u1" (seconds 9) (seconds 9) demo_request;
   Enroll demo_service "u2" (seconds 9) (seconds 9) demo_request].
Definition rivals_run := serve_tasks [1; 0; 1; 0] rival_enrollments (memory_server token_world).

Lemma token_server_ok : server_ok (sv_db (memory_server token_world)).
Proof. exact (conj token_world_audit_ok (conj token_world_machines_ok token_world_tokens_ok)). Qed.
Lemma rivals_ok : Forall task_ok rival_enrollments.
Proof. by repeat constructor. Qed.
Lemma run_eq {A B D} (x : A * B * D) : x = (x.1.1, x.1.2, x.2).
Proof. by destruct x as [[a b] d]. Qed.

Lemma interleaved_token_enrolls_once_witness :
  succeeded rivals_run.1.2 1 ∧ enrolled rivals_run.1.1 1 ∧ ¬ enrolled rivals_run.1.1 0.
Proof.
  destruct (interleaved_token_enrolls_once rival_enrollments [1; 0; 1; 0] (memory_server token_world)
    rivals_run.1.1 rivals_run.1.2 rivals_run.2 (eq_enrollment_token demo_request) rivals_ok
    token_server_ok (run_eq _)) as [Hs Ho].
  { eexists. split_and!; [left|reflexivity|discriminate]. }
  assert (∀ i, i < 2 → presents rival_enrollments (eq_enrollment_token demo_request) i) as Hp.
  { intros [|[|]] Hi; [by repeat eexists..|lia]. }
  assert (succeeded rivals_run.1.2 1) as H1 by (vm_compute; reflexivity).
  assert (enrolled rivals_run.1.1 1) as He by (apply Hs; [apply Hp; lia|exact H1]).
  split_and!; [exact H1|exact He|]. intros He0.
  discriminate (Ho 1 0 (Hp 1 ltac:(lia)) (Hp 0 ltac:(lia)) He He0).
Defined.

Lemma interleaved_server_ok_witness : server_ok (sv_db rivals_run.2).
Proof.
  apply (interleaved_server_ok rival_enrollments [1; 0; 1; 0] (memory_server token_world)
    rivals_run.1.1 rivals_run.1.2 rivals_run.2 rivals_ok token_server_ok (run_eq _)).
Defined.


(** A revocation and an approval of one machine, a step of each in turn. *)
Definition rival_operators : list Task :=
  [Operate demo_state demo_call (Approve "srv_1"); Operate demo_state demo_call (Revoke "srv_1")].
Definition operators_run :=
  serve_tasks [0; 1; 0; 1; 0; 1; 0; 1] rival_operators (memory_server machine_world).

Lemma machine_server_ok : server_ok (sv_db (memory_server machine_world)).
Proof.
  split_and!; [exact (empty_audit_ok [])|..].
  - split_and!; [apply NoDup_singleton..|]. apply Forall_singleton. eexists. vm_compute. reflexivity.
  - by repeat constructor.
Qed.
Lemma demo_call_ok : call_ok demo_call.
Proof.
  split; [by repeat constructor|]. intros ttl Ht. simpl.
  unfold rfc3339_range, in_range, seconds, nanos_per_sec. apply andb_true_iff.
  rewrite !Z.leb_le. lia.
Qed.
Lemma operators_ok : Forall task_ok rival_operators.
Proof. by repeat (constructor; [exact demo_call_ok|]). Qed.

Lemma interleaved_changes_accountable_witness :
  succeeded operators_run.1.2 0 ∧
  ∃ n row e, appended_by operators_run.1.1 0 n row ∧
    audit_log (sv_db operators_run.2) !! n = Some row ∧ decodes row e ∧
    ae_event_type e = "machine.approved".
Proof.
  assert (succeeded operators_run.1.2 0) as Hs by (vm_compute; reflexivity).
  split; [exact Hs|].
  destruct (interleaved_changes_accountable rival_operators [0; 1; 0; 1; 0; 1; 0; 1]
    (memory_server machine_world) operators_run.1.1 operators_run.1.2 operators_run.2 operators_ok
    machine_server_ok (run_eq _)) as [Hop _].
  destruct (Hop 0 _ _ _ eq_refl eq_refl Hs) as (identity & n & row & e & _ & Ha & Hl & Hd & Hty & _).
  exists n, row, e. split_and!; done.
Defined.

(** The same signed request twice, a step of each in turn. *)
Definition beat : HeartbeatRequest := 
  MkHeartbeatRequest "0.2.0" "web-01" "linux" "6.1" "" 3 60.
Definition rival_replays : list Task :=
  [Agent (seconds 1000) demo_signed (Heartbeat (seconds 1000) beat);
   Agent (seconds 1001) demo_signed (Heartbeat (seconds 1001) beat)].
Definition replays_run :=
  serve_tasks [0; 1; 0; 1; 1; 0; 1; 0; 1; 0] rival_replays agent_server.

Lemma agent_server_ok : server_ok (sv_db agent_server).
Proof. split_and!; [exact (empty_audit_ok [])|exact agent_server_machines_ok|by repeat constructor]. Qed.

Lemma replays_ok : Forall task_ok rival_replays.
Proof. by repeat constructor. Qed.
Lemma replays_close k k' t t' req req' op op' :
  rival_replays !! k = Some (Agent t req op) → rival_replays !! k' = Some (Agent t' req' op') →
  (t < t' + seconds NONCE_TTL_SECS)%Z.
Proof.
  destruct k as [|[|k]], k' as [|[|k']]; intros Hk Hk'; try discriminate;
    injection Hk as <- _ _; injection Hk' as <- _ _; vm_compute; reflexivity.
Qed.

Lemma interleaved_nonce_accepted_once_witness :
  succeeded replays_run.1.2 1 ∧ ¬ took_effect (moves_of 0 replays_run.1.1) (replays_run.1.2 !! 0 ≫= outcome).
Proof.
  assert (succeeded replays_run.1.2 1) as Hs by (vm_compute; reflexivity).
  split; [exact Hs|]. intros He0.
  assert (took_effect (moves_of 1 replays_run.1.1) (replays_run.1.2 !! 1 ≫= outcome)) as He1.
  { left. unfold succeeded in Hs. by rewrite Hs. }
  pose proof (interleaved_nonce_accepted_once rival_replays [0; 1; 0; 1; 1; 0; 1; 0; 1; 0]
    agent_server replays_run.1.1 replays_run.1.2 replays_run.2 0 1 (seconds 1000) (seconds 1001)
    demo_signed demo_signed (Heartbeat (seconds 1000) beat) (Heartbeat (seconds 1001) beat)
    replays_ok agent_server_ok (run_eq _) replays_close eq_refl eq_refl eq_refl eq_refl He0 He1)
    as Heq.
  discriminate Heq.
Defined.

(** ** Schedules to know about *)

(** A signed request reads the clock before it waits for its body, and shows that reading to
    the nonce cache after.  The first request is accepted at 1000 s.  Its copy begins at
    1001 s and is held back by its body; at 1130 s another request purges what has expired;
    when the copy's body ends its nonce is no longer known, and the copy is accepted,
    though by then its timestamp is out of the window. *)
Definition late_signed : Request :=
  agent_request demo_seed "srv_1" 1130 "n2" "POST" "/api/v1/agent/heartbeat" "{}".
Definition stalled_tasks : list Task :=
  [Agent (seconds 1000) demo_signed (Heartbeat (seconds 1000) beat);
   Agent (seconds 1001) demo_signed (Heartbeat (seconds 1130) beat);
   Agent (seconds 1130) late_signed (Heartbeat (seconds 1130) beat)].
Example stalled_replay_accepted :
  let run := serve_tasks (replicate 5 0 ++ replicate 5 2 ++ replicate 5 1) stalled_tasks agent_server in
  succeeded run.1.2 0 ∧ succeeded run.1.2 1 ∧ outside_window (seconds 1130) 1000 = true.
Proof. split_and!; vm_compute; reflexivity. Qed.

(** A change of status is written in one statement and read back in another.  An approval
    between whose two statements a revocation comes is recorded as an approval that left
    the machine revoked. *)
Definition entry_status (row : AuditRow) : option Value :=
  match audit_try_from row with
  | Ok e => match ae_metadata e with
            | VObject fields => snd <$> find (λ kv, bool_decide (kv.1 = "status")) fields
            | _ => None
            end
  | Err _ => None
  end.
Example approval_records_revoked :
  (λ row, (ar_event_type row, entry_status row)) <$> audit_log (sv_db operators_run.2) =
    [("machine.approved", Some (VString "revoked")); ("machine.revoked", Some (VString "revoked"))].
Proof. vm_compute. reflexivity. Qed.

(** A request dropped between its statement and its audit entry leaves the change without
    the entry. *)
Example dropped_revocation_unrecorded :
  let run := serve_tasks [1; 1] rival_operators (memory_server machine_world) in
  mr_status <$> machines (sv_db run.2) = ["revoked"] ∧ audit_log (sv_db run.2) = [].
Proof. split; vm_compute; reflexivity. Qed.

(** *** Retirement *)
Section retirement.
Context `{Sha256, HexEncode, Chrono, SerdeJson, SshKey, DebugStrings}.
Context {S View : Type} (CaView_from_record : CaRecord → Z → Z → View).

(** [routes/admin.rs: retire]; the manager's own operation is one action. *)
Definition retire_p (st : CaAppState S) (q : CaCall) (i : string) (request : option bool)
  : P (Host S) ApiError View :=
  identity ← atom (authorize_ca st q "ca.retire");
  ca ← pure (require_ca_manager st);
  service ← atom (require_bundle_service st);
  let force := default false request in
  a ← atom (assess service i);
  _ ← atom (refuse_or_force q identity a force "ca.retirement.denied" "ca.retirement.forced"
              "retirement unsafe: ");
  record ← atom (with_err ApiError_of_ca (op_retire ca i));
  _ ← atom (audit_ca identity (cq_second q) "ca.retired" record
              [("forced", VBool (negb (ra_safe a)));
               ("affected_machines", VNumber (ra_affected_machines a))]);
  atom (view CaView_from_record st q record).

Lemma retire_runs st q i request :
  realises (retire_p st q i request) (retire CaView_from_record st q i request).
Proof. unfold retire_p, retire. cbv zeta. eauto 20 with realises nocore. Qed.

(** A program over the database, beside the manager. *)
Definition on_host_p {E A} (p : P World E A) : P (Host S) E A :=
  zoom ho_world (λ w h, MkHost (ho_ca h) w) p.
End retirement.

(** The assessment and the removal of the key are separate actions.  An enrollment that
    commits between them leaves a machine that the assessment would have counted, and the
    key is gone without force. *)
Definition racing_retirement : list (prog (Host (list CaRecord)) (result unit TaskError)) :=
  [map_err_p TaskApi (answered (retire_p toy_view ca_demo_state ca_demo_call "id-1" None));
   map_err_p TaskEnrollment (on_host_p (answered
     (enroll_p demo_service "u1" (seconds 9) (seconds 9) demo_request)))].
Example enrollment_races_retirement :
  let run := interleave [0; 0; 0; 1; 1; 0; 0; 0; 0] racing_retirement (ca_demo_host token_world) in
  (outcome <$> run.1.2) = [Some (Ok tt); Some (Ok tt)] ∧ ho_ca run.2 = [] ∧
  ∃ a, (assess_retirement ca_demo_service "id-1" (ho_world run.2)).1 = Ok a ∧
    ra_safe a = false ∧ ra_affected_machines a = 1%Z.
Proof. split_and!; [vm_compute; reflexivity..|]. by eexists. Qed.
