(* ===== verification/Suspension.v ===== *)
(** * A machine out of service, while requests run

    What an operator does to a machine is read by the agent middleware in another request.
    A machine that is not active stays so through any schedule of requests none of which
    activates it, and none of its signed requests takes effect. *)
From S2P Require Import Prelude External Errors Database AuditChain AuditRepo Machines Enrollment.
From S2P Require Import Registry AgentAuth MachineAdmin CaBundle Bundle BundleService.
From S2P Require Import ClientContext Authz Providers Certificates AdminRoutes.
From S2P Require Import Toy System Interleave Concurrent.

Section suspension.
Context `{Sha256, HexEncode, Chrono, SerdeJson, SshCert, Base64, Ed25519, DebugStrings}.
Context `{ToLowercase, !ChronoLaws, !SerdeJsonLaws}.
Abbreviation Srv := (Server InMemoryNonceCache).

(** No row of the machine is active. *)
Definition down (i : string) (d : Db) : Prop := ∀ r,
  r ∈ machines d → mr_machine_id r = i → mr_status r ≠ MachineStatus_as_str Active.
Definition stays_down (i : string) (d d' : Db) : Prop := down i d → down i d'.
#[local] Instance stays_down_preorder i : PreOrder (stays_down i).
Proof. split; unfold stays_down; [by intros d|]. intros d1 d2 d3. auto. Qed.

Lemma same_machines_down i d d' : machines d' = machines d → stays_down i d d'.
Proof. unfold stays_down, down. by intros ->. Qed.

(** Tasks that can put it into service. *)
Definition activates (i : string) (t : Task) : bool :=
  match t with
  | Enroll _ uuid _ _ _ => bool_decide (generate_machine_id uuid = i)
  | Operate _ _ (Approve i') | Operate _ _ (Enable i') => bool_decide (i' = i)
  | _ => false
  end.

(** ** Single statements *)
Lemma down_append {E} i (conv : AuditError → E) now event :
  frame (stays_down i) (with_err conv (append_audit_event now event)).
Proof.
  apply (frame_impl same_but_audit); [|apply append_tables].
  intros d d' (Hm & _). by apply same_machines_down.
Qed.

Lemma down_update_machine i i' g :
  (∀ r, mr_machine_id (g r) = mr_machine_id r) →
  (i' = i → ∀ r, mr_machine_id r = i → mr_status r ≠ MachineStatus_as_str Active →
     mr_status (g r) ≠ MachineStatus_as_str Active) →
  frame (stays_down i) (update_machine i' g).
Proof.
  intros Hid Hg w r w' [(e & _ & ->)|(b & _ & _ & ->)]%update_machine_inv; [done|].
  intros Hd r0 Hr0 Hi. simpl in Hr0. apply list_elem_of_fmap in Hr0 as (r1 & -> & Hr1).
  case_bool_decide as Hi'; [|by apply Hd]. rewrite Hid in Hi. simplify_eq. apply Hg; auto.
Qed.

Lemma down_status i i' st now :
  (i' = i → st ≠ Active) → frame (stays_down i) (update_status i' st now).
Proof.
  intros Hst. apply down_update_machine; [done|]. intros Hi r _ _ Heq. by apply (Hst Hi), as_str_inj.
Qed.
Lemma down_last_seen i u : frame (stays_down i) (update_last_seen u).
Proof. by apply down_update_machine. Qed.
Lemma down_applied i i' g fp now : frame (stays_down i) (record_applied i' g fp now).
Proof. by apply down_update_machine. Qed.

Lemma down_delete i i' : frame (stays_down i) (machine_delete i').
Proof.
  unfold machine_delete. apply (frame_bind (stays_down i)); [|intros ?; apply (frame_ret (stays_down i))].
  apply (frame_execute (stays_down i)). intros d a d' [= _ <-] Hd r Hr Hi.
  apply Hd; [|done]. simpl in Hr. apply list_elem_of_In, filter_In in Hr as [Hr _].
  by apply list_elem_of_In.
Qed.
Lemma down_token_create i new : frame (stays_down i) (token_create new).
Proof.
  unfold token_create. apply (frame_bind (stays_down i)); [|intros ?; apply (frame_ret (stays_down i))].
  apply (frame_execute (stays_down i)). intros d a d' Hi%insert_token_row_inv.
  destruct Hi as (-> & _). by apply same_machines_down.
Qed.
Lemma down_admit i request pk h uuid now :
  generate_machine_id uuid ≠ i →
  frame (stays_down i) (transaction EnrollmentError_of_sqlx (enroll_body request pk h uuid now)).
Proof.
  intros Hne w r w' Htx%admit_inv. destruct r as [m|e]; [|by rewrite Htx].
  destruct Htx as (t & _ & _ & _ & ->). intros Hd r Hr Hi. simpl in Hr.
  apply elem_of_app in Hr as [Hr|Hr%list_elem_of_singleton]; [by apply Hd|]. by subst.
Qed.
Lemma down_sign i ca request :
  CertificateAuthorityLaws ca → frame (stays_down i) (ca_sign_certificate ca request).
Proof. intros Hl w r w' Hs. by rewrite (ca_own_tables _ _ _ _ Hs). Qed.

#[local] Hint Extern 2 (frame (stays_down _) _) => solve [eauto 6 using down_last_seen, down_applied,
  down_delete, down_token_create, down_admit, down_sign, down_append, frame_fetch with frame] : steps.

(** ** Programs *)
Lemma enroll_down i sv uuid now audit_now request :
  generate_machine_id uuid ≠ i → each (stays_down i) (enroll_p sv uuid now audit_now request).
Proof. intros. unfold enroll_p. steps. Qed.
Lemma set_status_down i i' st now :
  (i' = i → st ≠ Active) → each (stays_down i) (set_status_p i' st now).
Proof.
  intros Hst. pose proof (down_status i i' st now Hst). unfold set_status_p, find_by_id, fetch_machine.
  steps.
Qed.
Lemma admin_delete_down i i' : each (stays_down i) (admin_delete_p i').
Proof. unfold admin_delete_p, find_by_id, fetch_machine. steps. Qed.
Lemma create_down i random uuid now by_ ttl su :
  each (stays_down i) (create_enrollment_token_p random uuid now by_ ttl su).
Proof. unfold create_enrollment_token_p. steps. Qed.
Lemma authorize_down i st c action : each (stays_down i) (authorize_admin_p st c action).
Proof. unfold authorize_admin_p. steps. Qed.
Lemma ca_authorize_down i st c action : each (stays_down i) (ca_authorize_admin_p st c action).
Proof. unfold ca_authorize_admin_p. steps. Qed.
Lemma audit_machine_down i identity c action m extra :
  each (stays_down i) (audit_machine_p identity c action m extra).
Proof. unfold audit_machine_p. steps. Qed.
#[local] Hint Resolve admin_delete_down create_down authorize_down ca_authorize_down
  audit_machine_down : steps.

Lemma perform_down i st c a :
  activates i (Operate st c a) = false → each (stays_down i) (perform_p st c a).
Proof.
  intros Ha. assert (∀ i' target action, (i' = i → target ≠ Active) →
    each (stays_down i) (set_lifecycle_p st c i' target action)) as Hl.
  { intros i' target action Ht. pose proof (set_status_down i i' target (cl_now c) Ht).
    unfold set_lifecycle_p. steps. }
  destruct a; simpl in Ha; try case_bool_decide; try done;
    unfold perform_p, delete_machine_p, reissue_identity_p, mint_enrollment_token_p; steps;
    by apply Hl.
Qed.
Lemma agent_op_down i request m op : each (stays_down i) (agent_op_p request m op).
Proof.
  destruct op; unfold agent_op_p, heartbeat_p, get_ca_bundle_p, ack_ca_bundle_p, machine_exists; steps.
Qed.
Lemma device_poll_down i providers headers rid now audit_now request :
  each (stays_down i) (device_poll_p providers headers rid now audit_now request).
Proof. unfold device_poll_p. steps. Qed.
Lemma whoami_down i providers headers rid now audit_now selector :
  each (stays_down i) (whoami_p providers headers rid now audit_now selector).
Proof. unfold whoami_p. steps. Qed.
Lemma issue_down i ca providers access headers rid now audit_now request :
  (∀ a, ca = Some a → CertificateAuthorityLaws a) →
  each (stays_down i) (issue_p ca providers access headers rid now audit_now request).
Proof.
  intros Hca. unfold issue_p. apply each_then; [done|]. intros token.
  destruct ca as [ca|]; [|done]. specialize (Hca ca eq_refl).
  match goal with |- each _ (_ ≫= ?f) => change (each (stays_down i) (f ca)) end. cbv beta. steps.
Qed.

Definition down_move (i : string) (s s' : Srv) : Prop := stays_down i (sv_db s) (sv_db s').

Lemma on_world_down {E A} i (p : P World E A) :
  each (stays_down i) p → actions (down_move i) (on_world_p p).
Proof.
  exact (actions_zoom sv_world (λ w s, MkServer w (sv_nonces s)) (λ _ _, eq_refl) _ p).
Qed.

Lemma program_down i t :
  task_ok t → activates i t = false → actions (down_move i) (program t).
Proof.
  intros Ht Ha. destruct t; apply actions_map_err; try apply on_world_down.
  - simpl in Ha. case_bool_decide; [done|]. apply each_then; [by apply enroll_down|done].
  - apply actions_then; [|intros; apply on_world_down, agent_op_down].
    eapply actions_mono; [|apply verify_reads]. intros s s' Hs. unfold down_move. by rewrite Hs.
  - by apply perform_down.
  - destruct Ht as [Hca _]. apply each_then; [by apply issue_down|done].
  - apply each_then; [apply device_poll_down|done].
  - apply each_then; [apply whoami_down|done].
Qed.

(** C9: taking a machine out of service holds while requests run.  If no row of the machine
    is active and none of the running tasks approves, enables or newly enrolls it, then in
    any schedule, with tasks dropped anywhere, it stays out of service, and no signed request
    that names it succeeds or changes a table. *)
Theorem interleaved_suspension (tasks : list Task) (schedule : list nat) (s : Srv) events pool s' i :
  Forall task_ok tasks → server_ok (sv_db s) → serve_tasks schedule tasks s = (events, pool, s') →
  down i (sv_db s) → Forall (λ t, activates i t = false) tasks →
  down i (sv_db s') ∧
  ∀ k checked_at request op, tasks !! k = Some (Agent checked_at request op) →
    header_value (rq_headers request) HEADER_MACHINE_ID = Ok i →
    ¬ took_effect (moves_of k events) (pool !! k ≫= outcome).
Proof.
  intros Ht Hok Hrun Hdown Hact.
  assert (Forall (actions (down_move i)) (program <$> tasks)) as Hp.
  { apply Forall_fmap, Forall_lookup. intros k t Hk. apply program_down.
    - by eapply Forall_lookup_1 in Ht.
    - by eapply Forall_lookup_1 in Hact. }
  pose proof (interleave_events _ schedule _ s Hp) as He. fold (serve_tasks schedule tasks s) in He.
  rewrite Hrun in He. destruct He as [He _], (run_moves _ _ _ _ _ _ Ht Hrun) as [_ Hc].
  destruct (chained_invariant (down_move i) (λ s, down i (sv_db s)) s events s')
    as [Hbefore Hafter]; [|done..|].
  { intros a b Ha Hab. by apply Hab. }
  split; [done|]. intros k t request op Hk Hid Heff.
  destruct (run_wp _ _ _ _ _ _ Ht Hok Hrun k _ _ Hk (agent_wp _ t request op)) as (p & Hpool & Hpost).
  rewrite Hpool in Heff. apply Hpost in Heff as [_ (i' & m & r & Hid' & Hm & Hr & Hri & Hst)].
  rewrite Hid in Hid'. simplify_eq.
  apply (moves_of_Forall (λ a _, down (mr_machine_id r) (sv_db a)) k) in Hbefore.
  rewrite Forall_forall in Hbefore. by apply (Hbefore m Hm r Hr eq_refl).
Qed.
End suspension.

(** ** Witnesses *)
#[local] Existing Instances toy_sha256 toy_hex toy_chrono toy_serde_json toy_ssh_key toy_base64
  toy_ed25519 toy_ssh_cert toy_debug toy_lowercase.
#[local] Existing Instances toy_chrono_laws toy_serde_json_laws.

(** A revoked machine signs a heartbeat while an operator disables it. *)
Definition revoked_server : Server InMemoryNonceCache :=
  MkServer (set_status "srv_1" Revoked (seconds 900) (sv_world agent_server)).2 InMemoryNonceCache_new.
Definition suspended_tasks : list Task :=
  [Agent (seconds 1000) demo_signed (Heartbeat (seconds 1000) beat);
   Operate demo_state demo_call (Disable "srv_1")].
Definition suspended_run := serve_tasks [1; 0; 1; 0; 1; 0; 1; 0] suspended_tasks revoked_server.

Lemma revoked_server_ok : server_ok (sv_db revoked_server).
Proof.
  split_and!; [exact (empty_audit_ok [])|..|by repeat constructor].
  split_and!; [apply NoDup_singleton..|]. apply Forall_singleton. eexists. vm_compute. reflexivity.
Qed.
Lemma revoked_server_down : down "srv_1" (sv_db revoked_server).
Proof.
  intros r Hr _ Hs.
  assert (∀ r, r ∈ machines (sv_db revoked_server) → mr_status r = "revoked") as Hall.
  { apply Forall_forall. vm_compute. by repeat constructor. }
  apply Hall in Hr. by rewrite Hs in Hr.
Qed.

Lemma interleaved_suspension_witness :
  succeeded suspended_run.1.2 1 ∧ down "srv_1" (sv_db suspended_run.2) ∧
  ¬ took_effect (moves_of 0 suspended_run.1.1) (suspended_run.1.2 !! 0 ≫= outcome).
Proof.
  split; [vm_compute; reflexivity|].
  destruct (interleaved_suspension suspended_tasks [1; 0; 1; 0; 1; 0; 1; 0] revoked_server
    suspended_run.1.1 suspended_run.1.2 suspended_run.2 "srv_1") as [Hd Hno].
  - constructor; [by repeat constructor|]. constructor; [exact demo_call_ok|constructor].
  - exact revoked_server_ok.
  - apply run_eq.
  - exact revoked_server_down.
  - by repeat constructor.
  - split; [exact Hd|].
    exact (Hno 0 (seconds 1000) demo_signed (Heartbeat (seconds 1000) beat) eq_refl eq_refl).
Defined.
