(* ===== verification/Boot.v ===== *)
(** * From the command line to the first request
      ([src/src/clock.rs], [src/src/state.rs], [src/src/main.rs], [src/src/server.rs])

    The clock, the application state and its builder, the start-up sequence of [main] over
    the disk and the database, and the accept loop.  The CA manager, the network and TLS
    are parameters. *)
From S2P Require Import Prelude External Errors Database Machines AgentAuth Authz Providers Keycloak.
From S2P Require Import Certificates Bundle BundleService Metrics AdminRoutes Console Config CaRoutes.
From S2P Require Import Migrations Startup GithubClient Paths Router Toy.

(** ** The clock ([clock.rs]) *)

(** The trait. *)
Class Clock (K : Type) : Type := clock_now : K → Z.

Section clock.
Context `{Chrono}.

Definition now_rfc3339 {K} `{Clock K} (clock : K) : string := to_rfc3339_millis (clock_now clock).

(** A clock that stands still until it is told. *)
Record TestClock : Type := TestClock_new { tc_current : Z }.
#[export] Instance TestClock_clock : Clock TestClock := tc_current.

Definition at_rfc3339 (timestamp : string) : option TestClock :=
  TestClock_new <$> parse_from_rfc3339 timestamp.
Definition clock_set (instant : Z) (_ : TestClock) : TestClock := TestClock_new instant.
Definition clock_advance (delta : Z) (clock : TestClock) : TestClock :=
  TestClock_new (tc_current clock + delta).

(** The text of a reading is a reading again, to the millisecond. *)
Lemma clock_text_roundtrip `{!ChronoLaws} (clock : TestClock) :
  rfc3339_range (clock_now clock) = true →
  at_rfc3339 (now_rfc3339 clock) = Some (clock_set (trunc_millis (clock_now clock)) clock).
Proof. intros Hr. unfold at_rfc3339, now_rfc3339. by rewrite parse_millis. Qed.
End clock.

(** ** The application state ([state.rs]) *)
Section state.
Context {S C : Type}.

(** [AppState]; the pool and the clock are the world the handlers run in. *)
Record ServerState : Type := MkServerState {
  ss_config : Config;
  ss_github : GitHubClient;
  ss_extra_providers : list AuthenticationProvider;
  ss_ca : option (Manager (S := S));
  ss_bundle_signer : option BundleSigner;
  ss_jitter : Z → Z;
  ss_nonce_cache : C;
  ss_metrics : ApiMetrics;
  ss_started_at : Z;
}.

(** [AppState::new]; [os_random] is [OsRandom], [fresh] is [InMemoryNonceCache::new()]. *)
Definition AppState_new (os_random : Z → Z) (fresh : C) (config : Config) (now : Z) : ServerState :=
  {| ss_config := config;
     ss_github := UnconfiguredGitHubClient;
     ss_extra_providers := [];
     ss_ca := None;
     ss_bundle_signer := None;
     ss_jitter := os_random;
     ss_nonce_cache := fresh;
     ss_metrics := ApiMetrics_new;
     ss_started_at := now |}.

Definition state_with_nonce_cache (cache : C) (st : ServerState) : ServerState :=
  MkServerState (ss_config st) (ss_github st) (ss_extra_providers st) (ss_ca st)
    (ss_bundle_signer st) (ss_jitter st) cache (ss_metrics st) (ss_started_at st).
Definition state_with_github (github : GitHubClient) (st : ServerState) : ServerState :=
  MkServerState (ss_config st) github (ss_extra_providers st) (ss_ca st)
    (ss_bundle_signer st) (ss_jitter st) (ss_nonce_cache st) (ss_metrics st) (ss_started_at st).
Definition state_with_ca (ca : Manager (S := S)) (st : ServerState) : ServerState :=
  MkServerState (ss_config st) (ss_github st) (ss_extra_providers st) (Some ca)
    (ss_bundle_signer st) (ss_jitter st) (ss_nonce_cache st) (ss_metrics st) (ss_started_at st).
Definition state_with_provider (provider : AuthenticationProvider) (st : ServerState) : ServerState :=
  MkServerState (ss_config st) (ss_github st) (ss_extra_providers st ++ [provider]) (ss_ca st)
    (ss_bundle_signer st) (ss_jitter st) (ss_nonce_cache st) (ss_metrics st) (ss_started_at st).
Definition state_with_bundle_signer (signer : BundleSigner) (st : ServerState) : ServerState :=
  MkServerState (ss_config st) (ss_github st) (ss_extra_providers st) (ss_ca st)
    (Some signer) (ss_jitter st) (ss_nonce_cache st) (ss_metrics st) (ss_started_at st).

Definition state_with_jitter (jitter : Z → Z) (st : ServerState) : ServerState :=
  MkServerState (ss_config st) (ss_github st) (ss_extra_providers st) (ss_ca st)
    (ss_bundle_signer st) jitter (ss_nonce_cache st) (ss_metrics st) (ss_started_at st).

Definition providers (st : ServerState) : ProviderRegistry :=
  state_providers (cfg_default_provider (ss_config st)) (ss_github st) (ss_extra_providers st).

(** What the routes take from it. *)
Definition shared (st : ServerState) : Shared (S := S) :=
  {| sh_providers := providers st;
     sh_access := cfg_access (ss_config st);
     sh_ca := ss_ca st;
     sh_signer := ss_bundle_signer st;
     sh_bundle_ttl := bc_ttl_seconds (cfg_bundle (ss_config st));
     sh_poll := MkPollConfig (bc_sync_interval_seconds (cfg_bundle (ss_config st)))
                  (bc_jitter_percent (cfg_bundle (ss_config st)));
     sh_started_at := ss_started_at st |}.

(** The process before its first request. *)
Definition first_process (st : ServerState) (ca : S) (w : World) : Process (S := S) (C := C) :=
  MkProcess (MkHost ca w) (ss_nonce_cache st) (ss_metrics st).
End state.
Arguments ServerState : clear implicits.

(** ** Start-up ([main.rs], [server.rs: run]) *)
Record Env : Type := MkEnv { en_disk : Disk; en_store : Store }.

Inductive MainError : Type :=
| MainConfig (e : ConfigError)
| MainLogging (e : LoggingError)
| MainDatabase (url : string) (e : MigrationError + string)
| MainCa (message : string)
| MainSigner (e : BundleError)
| MainServer (e : ServerError).

Definition on_store {E A} (f : E → MainError) (m : M Store E A) : M Env MainError A := λ env,
  let '(r, so) := m (en_store env) in (map_err f r, MkEnv (en_disk env) so).
Definition on_disk {E A} (f : E → MainError) (m : M Disk E A) : M Env MainError A := λ env,
  let '(r, d) := m (en_disk env) in (map_err f r, MkEnv d (en_store env)).

Section main.
Context `{Base64, Ed25519} {S C : Type}.

(** What the process is started into. *)
Context (out : Outside).
(** [try_init] of the subscriber, [SqliteConnectOptions::from_str] and [connect_with], each
    with its error. *)
Context (subscriber : option LoggingError) (open_pool : string → option string).
(** [CaManager::from_config], [RealGitHubClient] on the network, [KeycloakProvider]. *)
Context (ca_from_config : CaConfig → M Store string (Manager (S := S))).
Context (net : GithubNetwork) (keycloak : KeycloakProviderConfig → AuthenticationProvider).
Context (random : string) (rl : Rustls) (rcgen : result (string * string) string).
(** [TcpListener::bind] and [local_addr]. *)
Context (bind : string * Z → result (string * Z) string).
Context (now : Z) (os_random : Z → Z) (fresh : C).

(** [logging::init]. *)
Definition logging_init (c : LoggingConfig) : result unit LoggingError :=
  let? _ := build_filter out (lg_level c) in
  match subscriber with Some e => Err e | None => Ok tt end.

(** [db::connect]; the pool has five connections, whatever the configuration says. *)
Definition connect (url : string) : M Store (MigrationError + string) unit :=
  _ ← lift (match open_pool url with Some e => Err (inr e) | None => Ok tt end);
  with_err inl migrate.

(** [server::run], up to the accept loop. *)
Definition server_run (st : ServerState S C) : M Env MainError (TlsServerConfig * (string * Z)) :=
  tls ← on_disk (λ e, MainServer (ServerTls (TlsError_display e)))
          (resolve_tls_config rl rcgen (ss_config st));
  addr ← lift (map_err MainServer (socket_addr out (ss_config st)));
  local_addr ← lift (map_err (λ e, MainServer (ServerIo e)) (bind addr));
  ret (tls, local_addr).

Definition main : M Env MainError (ServerState S C * TlsServerConfig * (string * Z)) :=
  config ← lift (map_err MainConfig (startup_config out));
  _ ← lift (map_err MainLogging (logging_init (cfg_logging config)));
  let url := dc_url (cfg_database config) in
  _ ← on_store (MainDatabase url) (connect url);
  let github := real_client (RealGitHubClient_from_config (cfg_github config)) net in
  ca ← on_store MainCa (ca_from_config (cfg_ca config));
  bundle_signer ← on_disk MainSigner
    (load_or_create (env_var out (bc_signing_key_env (cfg_bundle config)))
       (cc_storage_directory (cfg_ca config)) random);
  let keycloak_provider :=
    (λ kc, keycloak (KeycloakProvider_new (keycloak_provider_config kc))) <$> cfg_keycloak config in
  let state := state_with_bundle_signer bundle_signer
                 (state_with_ca ca (state_with_github github (AppState_new os_random fresh config now))) in
  let state := match keycloak_provider with
               | Some provider => state_with_provider provider state
               | None => state
               end in
  served ← server_run state;
  ret (state, served.1, served.2).

(** ** Lemmas *)
Lemma on_store_ok {E A} (f : E → MainError) (m : M Store E A) env a env' :
  on_store f m env = (Ok a, env') →
  m (en_store env) = (Ok a, en_store env') ∧ en_disk env' = en_disk env.
Proof. unfold on_store. destruct (m _) as [[x|e] so]; by intros [= <- <-]. Qed.
Lemma on_store_err {E A} (f : E → MainError) (m : M Store E A) env e env' :
  on_store f m env = (Err e, env') →
  ∃ e0, e = f e0 ∧ m (en_store env) = (Err e0, en_store env') ∧ en_disk env' = en_disk env.
Proof. unfold on_store. destruct (m _) as [[x|e0] so]; intros [= <- <-]. by exists e0. Qed.
Lemma on_disk_ok {E A} (f : E → MainError) (m : M Disk E A) env a env' :
  on_disk f m env = (Ok a, env') →
  m (en_disk env) = (Ok a, en_disk env') ∧ en_store env' = en_store env.
Proof. unfold on_disk. destruct (m _) as [[x|e] so]; by intros [= <- <-]. Qed.
Lemma on_disk_err {E A} (f : E → MainError) (m : M Disk E A) env e env' :
  on_disk f m env = (Err e, env') →
  ∃ e0, e = f e0 ∧ m (en_disk env) = (Err e0, en_disk env') ∧ en_store env' = en_store env.
Proof. unfold on_disk. destruct (m _) as [[x|e0] so]; intros [= <- <-]. by exists e0. Qed.

(** Opening the pool and migrating loses no rows, whatever comes of it. *)
Lemma connect_kept url : kept (connect url).
Proof.
  apply kept_bind; [|intros _; apply kept_with_err, migrate_kept]. by intros so r so' [= _ <-].
Qed.
Lemma connect_ok url so u so' : connect url so = (Ok u, so') → migrate so = (Ok tt, so').
Proof. unfold connect. intros Hc. ok_steps. by destruct u. Qed.

(** The stages of a start that got past the certificate authority. *)
Lemma server_run_err st e env env' :
  server_run st env = (Err e, env') → (∃ e0, e = MainServer e0) ∧ en_store env' = en_store env.
Proof.
  unfold server_run. intros [(e0 & -> & _ & ?)%on_disk_err|(tls & env1 & Htls & Hr)]%bind_err_inv;
    [eauto|].
  apply on_disk_ok in Htls as [_ Hs].
  apply bind_err_inv in Hr as [[Ha ->]%lift_inv|(addr & env2 & [Ha ->]%lift_inv & Hr)].
  { destruct (socket_addr _ _); [done|]. injection Ha as ->. eauto. }
  apply bind_err_inv in Hr as [[Hb ->]%lift_inv|(local & env3 & _ & [=])].
  destruct (bind addr); [done|]. injection Hb as ->. eauto.
Qed.

Lemma server_run_ok st served env env' :
  server_run st env = (Ok served, env') →
  ts_certs served.1 ≠ [] ∧ ts_alpn_protocols served.1 = [ALPN_H2; ALPN_HTTP11].
Proof.
  unfold server_run. intros (tls & env1 & [Htls _]%on_disk_ok & Hr)%bind_ok_inv.
  ok_steps. simplify_eq/=. unfold resolve_tls_config in Htls.
  apply bind_ok_inv in Htls as ([certs key] & d1 & Hpem & [Hcfg _]%lift_inv).
  assert (certs ≠ []) as Hne.
  { assert (∀ cp kp d d', load_pem rl cp kp d = (Ok (certs, key), d') → certs ≠ []) as Hload.
    { intros cp kp d d'. unfold load_pem. intros Hpem'. ok_steps. simplify_eq. by case_bool_decide. }
    destruct (tls_source _); [by eapply Hload|]. ok_steps. by eapply Hload. }
  unfold server_config in Hcfg. simpl in Hcfg. destruct (rl_single_cert _ _ _); by simplify_eq.
Qed.


End main.

(** ** The accept loop ([server.rs: serve])

    Each turn takes the shutdown or what the listener has, either one when both are ready:
    the inputs are what the turns took.  A spawned task runs on by itself; nothing waits for
    it when the loop ends. *)
Inductive Selected (A : Type) : Type :=
| Shutdown
| Accepted (connection : A)
| AcceptFailed (error : string).
Arguments Shutdown {A}.
Arguments Accepted {A} connection.
Arguments AcceptFailed {A} error.

(** A connection: whether the TLS handshake succeeds, and the requests it then sends. *)
Record Connection : Type := MkConnection { cn_handshake : bool; cn_requests : list Request }.

(** The tasks spawned, and whether the loop has ended. *)
Fixpoint serve_loop {A} (inputs : list (Selected A)) : list A * bool :=
  match inputs with
  | [] => ([], false)
  | Shutdown :: _ => ([], true)
  | AcceptFailed _ :: inputs => serve_loop inputs
  | Accepted c :: inputs => let '(spawned, ended) := serve_loop inputs in (c :: spawned, ended)
  end.

(** What a spawned task hands to the router. *)
Definition connection_requests (c : Connection) : list Request :=
  if cn_handshake c then cn_requests c else [].

(** A failed accept or handshake costs no other connection anything, and only the shutdown
    ends the loop. *)
Lemma serve_loop_exact {A} (before after : list (Selected A)) :
  Forall (λ i, i ≠ Shutdown) before →
  serve_loop (before ++ Shutdown :: after) =
    (omap (λ i, match i with Accepted c => Some c | _ => None end) before, true).
Proof.
  induction 1 as [|i before Hi _ IH]; [done|]. destruct i as [|c|e]; [done|..]; simpl; by rewrite IH.
Qed.

(** ** Witnesses *)
#[local] Existing Instances toy_chrono toy_base64 toy_ed25519 toy_sha256 toy_ssh_key toy_ssh_cert.

Definition boot_disk : Disk :=
  MkDisk {["/tls/cert.pem" := MkFile "CERT" None; "/tls/key.pem" := MkFile "KEY" None]} ∅ [].
Definition boot_env (faults : list bool) : Env :=
  MkEnv boot_disk (MkStore empty_schema faults).
Definition boot_manager : Manager (S := list CaRecord) :=
  MkManager toy_manager (λ _, Ok "ssh-ed25519 CA") (λ _ now _, demo_signing now).
Definition boot_network : GithubNetwork := limited_network.
Definition demo_rustls : Rustls := MkRustls (λ pem, Ok [pem]) (λ pem, Ok (Some pem)) (λ _ _, None).
Definition demo_main (faults : list bool) :=
  main (S := list CaRecord) (C := InMemoryNonceCache) (demo_outside demo_app_config) None (λ _, None)
    (λ _, ret boot_manager) boot_network demo_keycloak_provider demo_seed_text demo_rustls (Err "")
    Ok (seconds 1) (λ _, 0%Z) InMemoryNonceCache_new (boot_env faults).

Definition failed_url {A} (r : result A MainError) : option string :=
  match r with Err (MainDatabase url _) => Some url | _ => None end.


